(* ===== verification/_CoqProject ===== *)
-Q . S2P
Prelude.v
LibUtil.v
State.v
Ledger.v
Params.v
Fixtures.v
Crypto.v
Wire.v
Account.v
Validator.v
Committee.v
Byzantine.v
Swap.v
Quorum.v
Certificate.v
Dex.v
Tx.v
Mempool.v
TxnStore.v
SmtKey.v
Smt.v
SmtTree.v
SmtRefine.v
SmtCommit.v
SmtDemo.v
Bft.v
BftFrames.v
BftDemo.v
BftRun.v
BftLocks.v
BftVotes.v
NetUrl.v
Gov.v
Automatic.v
Hex.v
Message.v
Batch.v
Ethereum.v
ApplyTx.v
Conserve.v
Genesis.v
Merkle.v
Block.v
Caches.v
Replay.v
