(* ===== verification/Prelude.v ===== *)
(** * Canopy: a verification library for the Go node

    Canopy is a network of chains.  One of them, the root chain, holds the
    validators and secures the others; every node runs the same program, which
    is modelled here in its own parts.

    ** The program and its parts

    - The _state machine_ ([fsm/]) is a function from a state and a block to a
      state.  Its store is typed here: the record [Store] of [State.v] has a
      finite map per key prefix ([fsm/key.go]), and [FSM] adds the fields of
      [StateMachine] that operations touch: height, protocol version, the
      account and parameter caches, the slash tracker, the events.  Operations
      run in the state-and-error monad of this file ([M]); an operation that
      fails leaves the state it had reached, as in Go, and the callers roll back.
    - A _transaction_ is bytes; [Tx.v] and [Message.v] have the record and its
      sixteen payloads, [ApplyTx.v] its checks, execution and the two passes
      over the transactions of a block ([fsm/transaction.go], [fsm/state.go]),
      [Batch.v] the batch signature verifier the first pass uses, [Ethereum.v]
      the transactions that arrive as signed RLP.
    - A _block_ is a header and transactions.  [Automatic.v] has what runs before
      and after the transactions, [Block.v] the whole of [ApplyBlock], the header
      it returns and the checks a replica makes of a proposal
      ([controller/block.go]), [Wire.v] the hash read from undecoded bytes,
      [Merkle.v] the roots in the header.
    - _Consensus_ ([bft/]) is one node as a state machine over messages and
      timers: [Bft.v] and its satellites.  It asks its controller to produce and
      validate proposals, and ends with a certificate ([Certificate.v]) that
      carries an aggregate signature ([Quorum.v]) over a block and its results.
    - The _results_ of a certificate flow back into the root chain's state
      through [HandleCertificateResults] ([Automatic.v]): rewards
      ([Committee.v]), slashes ([Byzantine.v]), swaps ([Swap.v]) and the batches
      of the exchange ([Dex.v]).
    - The _mempool_ ([Mempool.v]) orders pending transactions by fee.
    - The _store_ below the typed state: [TxnStore.v] has the nestable
      transaction over any reader and writer, the [Smt*.v] files the sparse
      Merkle tree that commits to the state.

    ** Files and sources

    - [Prelude]: bytes, 64-bit wrap-around, the monad with its run lemmas,
      loops, sorting, sums over maps; [LibUtil], [Hex], [NetUrl]: [lib/util.go],
      [lib/crypto/address.go].
    - [State], [Ledger], [Fixtures]: the records of [lib/.proto/*.proto]; the
      books, seven differences per committee between a counter the code keeps
      and the sum it stands for; a small concrete state for the witnesses.
    - [Params], [Gov]: [fsm/gov.go], [fsm/gov_params.go].
    - [Account]: [fsm/account.go].  [Validator]: [fsm/validator.go], membership of
      [fsm/committee.go], the pause and unstake handlers.  [Committee]: the rest
      of [fsm/committee.go].  [Byzantine]: [fsm/byzantine.go].  [Swap]:
      [fsm/swap.go].  [Dex]: [fsm/dex.go], [lib/dex.go].
    - [Crypto], [Wire], [Quorum], [Certificate]: [lib/consensus.go],
      [lib/certificate.go], [lib/crypto/bls.go], [lib/codec/codec.go].
    - [Tx], [Message], [Batch], [Ethereum], [Automatic], [ApplyTx], [Merkle],
      [Block]: [lib/tx.go], [fsm/message.go], [fsm/message_helpers.go],
      [lib/crypto/key_batch.go], [fsm/ethereum.go], [fsm/automatic.go],
      [fsm/transaction.go], [fsm/state.go], [lib/crypto/hash.go], [lib/block.go],
      [controller/block.go].  [Conserve], [Caches], [Replay] prove properties of
      all of them together: what a transaction posts to the books, that the
      caches cannot be observed, that a replica replays a proposer's block.
    - [Genesis]: [fsm/genesis.go] and the imports of [fsm/validator.go] and
      [fsm/swap.go]: the first state, where the invariant starts.
    - [Mempool]: [lib/mempool.go].  [TxnStore]: [store/txn.go].
    - [SmtKey], [Smt], [SmtTree], [SmtRefine], [SmtCommit], [SmtDemo]:
      [store/smt.go]; keys, operations, the trie they implement, the
      representation relation, commits, properties and a concrete tree.
    - [Bft], [BftFrames], [BftDemo], [BftRun], [BftLocks], [BftVotes]: [bft/*.go];
      operations, frame rules, a four validator network, runs, locks, votes.

    A definition has the name of the Go function it models; a method whose name
    is taken carries its type.  The other definitions of the files are named
    pieces of a function, or specifications, and say so.

    ** Conventions

    - An unsigned 64-bit integer is a [Z]; every addition, subtraction and
      multiplication the code does on it is [u64_add], [u64_sub], [u64_mul], which
      wrap, and the guards of the code against overflow are kept.  A signed one
      wraps with [wrap_s64].  [math/big] is [Z].
    - A byte slice is [list byte]; nil and empty are one value where protobuf
      makes them one, and an option where the code tells them apart.
    - An error is a value of [ErrorI].  A Go panic is the error [ErrPanic]; the
      state machine recovers it in [ApplyBlock] only, which returns [ErrPanic].
    - A [map] is a [gmap].  Where the code iterates over one, either the order is
      shown not to matter, or the order is an argument.
    - A function or type of a library outside the repository, and everything that
      is generated (protobuf), is a field of a class ([Crypto], [Multisig],
      [Codec], [TxCodec], [AnyCodec], [MsgCodec], [EthLib], [ProtoWire],
      [BlockCodec], [MemHasher], ...); what the code relies on is a law of a
      class of laws, or a hypothesis with the documented behaviour, and has a
      concrete instance that satisfies it.

    ** What the theorems show

    - _Tokens_: the imported first state satisfies the invariant of the state
      ([Genesis]), and every ordinary transaction keeps it and
      posts nothing to the books ([Conserve]); so do minting, rewards, slashing
      and unstaking ([Committee], [Byzantine], [Validator]); escrows and holding
      pools always cover what they owe ([Swap], [Dex]); the exchange respects its
      limits and its constant product ([Dex]).
    - _Authorization_: what a block includes was checked and signed, although
      signatures are verified in a batch ([ApplyTx], [Batch], [Ethereum]).
    - _Governance and certificates_: updates keep the parameters valid and the
      validators conforming, upgrades are gated ([Gov]); results are accepted
      once ([Automatic]).
    - _Consensus_: a node votes once per view and in increasing views, a leader's
      certificate has its majority, an honest validator is never reported, two
      certificates expose a third ([BftRun], [BftVotes], [Quorum]); and the
      places where the code does less than it means to: an unsigned highQC that
      unlocks, an unsigned pacemaker round, evidence that strips the committed
      block ([BftLocks]).
    - _Blocks_: a replica that applies what a proposer included accepts the block
      and reaches its state ([Replay], by a simulation between states that differ
      in their caches, [Caches]); what a proposer builds passes the stateless
      checks, a Merkle root commits to its items, a hostile length panics
      ([Block], [Merkle]).
    - _Stores_: a transaction refines a map overlay, in both directions of
      iteration and when nested ([TxnStore]); the sparse Merkle tree refines the
      map of its leaves and its root is independent of the history ([SmtDemo]).
    - _Mempool_: its invariant, that adding terminates and keeps the best
      paying, and when it does not terminate ([Mempool]).

    ** Bounds and fuel

    Recursion that is not structural has fuel, and the theorem about it shows
    that the fuel given is enough: one step per byte for the protobuf scanners
    ([Wire]) and length prefixes ([LibUtil]); one eviction per pooled
    transaction ([Mempool], where the run that never ends is shown to end for no
    fuel); the number of halvings of a 64-bit number for [IntSqrt]; one step per
    entry for the merged iterators ([TxnStore]); one step per bit of a key for
    the walks of the tree, one per entry of the traversal and of the sorted
    operations for its rehash ([Smt]).  Merkle trees are proved for fewer than
    2^32 items, the range of [nextPowerOfTwo].

    ** Not modelled, and why

    - The versioned store, the indexer and [store.go] wrap the pebble database;
      what the state machine reads of past heights and of the index is the class
      [History], [TxIndexer] and [ChainData].
    - Peer to peer networking, the controller's inboxes, gossip and syncing, the
      root chain connection, the RPC server, the command line, the updater, the
      plugins, metrics and logging are sockets, goroutines and files; the
      decisions that belong to the protocol are in the parts above.  Locks and
      channels appear as the order of the steps.
    - Curves, hashes, the class group and the delay function are parameters:
      [lib/crypto] wraps external libraries.
    - JSON, paging, polls, the memo based order witness of [fsm/swap.go] and the
      events' payloads serve the interfaces, as do the export of a state and the
      JSON form of a genesis file.
    - Batches of two parallel phases of goroutines ([CommitParallel] of the tree)
      have no caller. *)
From stdpp Require Export base tactics decidable numbers list list_tactics gmap strings sorting fin_maps fin_sets.
From Stdlib Require Export ZArith Lia.
From Stdlib Require Export Init.Byte.
#[global] Open Scope Z_scope.

(** ** Bytes *)

#[export] Instance byte_eq_dec : EqDecision byte := Byte.byte_eq_dec.

#[export] Program Instance byte_countable : Countable byte :=
  inj_countable Byte.to_N Byte.of_N _.
Next Obligation. apply Byte.of_to_N. Qed.

(** Go's [[]byte]; protobuf does not tell an empty byte field from an absent
    one, so [nil] and the empty slice are the same list. *)
Abbreviation bytes := (list byte).

(** Go's [byte(z)] conversion. *)
Definition byte_of_Z (z : Z) : byte :=
  match Byte.of_N (Z.to_N (z mod 256)) with Some b => b | None => x00 end.
Definition byte_to_Z (b : byte) : Z := Z.of_N (Byte.to_N b).

(** Go's [bytes.Compare(a, b) <= 0]: lexicographic, a prefix first. *)
Fixpoint bytes_le (a b : bytes) : bool :=
  match a, b with
  | [], _ => true
  | _ :: _, [] => false
  | x :: a', y :: b' =>
      if (byte_to_Z x <? byte_to_Z y) then true
      else if (byte_to_Z y <? byte_to_Z x) then false
      else bytes_le a' b'
  end.

Lemma byte_to_Z_inj a b : byte_to_Z a = byte_to_Z b → a = b.
Proof.
  unfold byte_to_Z. intros H%N2Z.inj.
  enough (Some a = Some b) as [= ->]; [done|]. by rewrite <- (Byte.of_to_N a), H, Byte.of_to_N.
Qed.
Lemma bytes_le_refl a : bytes_le a a = true.
Proof. induction a as [|x a IH]; cbn; [done|]. by rewrite Z.ltb_irrefl. Qed.
Lemma bytes_le_total a b : bytes_le a b = true ∨ bytes_le b a = true.
Proof.
  revert b. induction a as [|x a IH]; intros [|y b]; cbn; auto.
  destruct (Z.ltb_spec (byte_to_Z x) (byte_to_Z y)); auto.
  destruct (Z.ltb_spec (byte_to_Z y) (byte_to_Z x)); auto.
Qed.
Lemma bytes_le_trans a b c : bytes_le a b = true → bytes_le b c = true → bytes_le a c = true.
Proof.
  revert b c. induction a as [|x a IH]; intros [|y b] [|z c]; cbn; try done.
  destruct (Z.ltb_spec (byte_to_Z x) (byte_to_Z y)), (Z.ltb_spec (byte_to_Z y) (byte_to_Z z)),
    (Z.ltb_spec (byte_to_Z x) (byte_to_Z z)), (Z.ltb_spec (byte_to_Z y) (byte_to_Z x)),
    (Z.ltb_spec (byte_to_Z z) (byte_to_Z y)), (Z.ltb_spec (byte_to_Z z) (byte_to_Z x));
    try done; try lia. apply IH.
Qed.
Lemma bytes_le_antisym a b : bytes_le a b = true → bytes_le b a = true → a = b.
Proof.
  revert b. induction a as [|x a IH]; intros [|y b]; cbn; try done.
  destruct (Z.ltb_spec (byte_to_Z x) (byte_to_Z y)), (Z.ltb_spec (byte_to_Z y) (byte_to_Z x));
    try done; try lia. intros. f_equal; [apply byte_to_Z_inj; lia | auto].
Qed.

(** ** 64 bit unsigned integers *)

Definition two64 : Z := 18446744073709551616.
Definition u64_max : Z := 18446744073709551615.
Definition wrap64 (z : Z) : Z := z mod two64.
(** Go's conversion of a [uint64] to an [int]. *)
Definition wrap_s64 (n : Z) : Z := let m := wrap64 n in if m <? two64 / 2 then m else m - two64.
Definition u64_add (a b : Z) : Z := wrap64 (a + b).
Definition u64_sub (a b : Z) : Z := wrap64 (a - b).
Definition u64_mul (a b : Z) : Z := wrap64 (a * b).
Definition u64 (z : Z) : Prop := 0 <= z < two64.

#[export] Instance u64_dec z : Decision (u64 z).
Proof. unfold u64. apply _. Defined.

Create HintDb go.

Lemma wrap64_u64 z : u64 (wrap64 z).
Proof. unfold u64, wrap64, two64. apply Z.mod_pos_bound. lia. Qed.
Lemma wrap64_small z : u64 z → wrap64 z = z.
Proof. unfold u64, wrap64. intros. by apply Z.mod_small. Qed.
Lemma wrap_s64_small z : - (9223372036854775808) <= z < 9223372036854775808 → wrap_s64 z = z.
Proof.
  intros Hz. unfold wrap_s64. change (two64 / 2) with 9223372036854775808. unfold wrap64.
  destruct (Z.lt_ge_cases z 0).
  - rewrite <- (Z.mod_unique z two64 (-1) (z + two64)) by (unfold two64; lia). unfold two64.
    destruct (Z.ltb_spec (z + 18446744073709551616) 9223372036854775808); lia.
  - rewrite Z.mod_small by (unfold two64; lia). by destruct (Z.ltb_spec z 9223372036854775808); [|lia].
Qed.
Lemma u64_add_small a b : u64 (a + b) → u64_add a b = a + b.
Proof. apply wrap64_small. Qed.
Lemma u64_sub_small a b : u64 (a - b) → u64_sub a b = a - b.
Proof. apply wrap64_small. Qed.
Lemma u64_mul_small a b : u64 (a * b) → u64_mul a b = a * b.
Proof. apply wrap64_small. Qed.
Lemma u64_add_range a b : u64 (u64_add a b).
Proof. apply wrap64_u64. Qed.
Lemma u64_sub_range a b : u64 (u64_sub a b).
Proof. apply wrap64_u64. Qed.
Lemma u64_mul_range a b : u64 (u64_mul a b).
Proof. apply wrap64_u64. Qed.
#[export] Hint Resolve wrap64_u64 u64_add_range u64_sub_range u64_mul_range : go.

(** [a > math.MaxUint64 - b]: the overflow guard the code writes. *)
Lemma max_guard a b :
  u64 a → u64 b → (u64_sub u64_max b <? a) = false → u64 (a + b).
Proof.
  unfold u64, u64_sub, u64_max, wrap64. intros Ha Hb Hg.
  apply Z.ltb_ge in Hg. rewrite Z.mod_small in Hg by (unfold two64 in *; lia).
  unfold two64 in *. lia.
Qed.

(** Expose the u64 bounds to [lia]. *)
Ltac u64 := unfold u64, u64_max, two64 in *; first [lia | nia].

(** ** Results and the state-and-error monad

    A Go method that mutates its receiver and returns [(A, ErrorI)] is a
    function from the state to a result and the state it leaves behind: an
    error does not undo the writes made before it. *)

Inductive result (E A : Type) : Type :=
| Ok (a : A)
| Err (e : E).
Arguments Ok {E A} a.
Arguments Err {E A} e.

Definition is_ok {E A} (r : result E A) : bool :=
  match r with Ok _ => true | Err _ => false end.

(** Go's [if err != nil { return err }] for functions without state. *)
#[export] Instance result_ret {E} : MRet (result E) := λ A a, Ok a.
#[export] Instance result_bind {E} : MBind (result E) := λ A B f m,
  match m with Ok a => f a | Err e => Err e end.
(** [if b { return e }] *)
Definition check_not {E} (b : bool) (e : E) : result E unit := if b then Err e else Ok ().
(** The first error of a list of checks. *)
Fixpoint check_all {E A} (f : A → result E unit) (l : list A) : result E unit :=
  match l with
  | [] => Ok ()
  | x :: l' => match f x with Ok _ => check_all f l' | Err e => Err e end
  end.

Lemma result_bind_Ok {E A B} (m : result E A) (f : A → result E B) b :
  (m ≫= f) = Ok b → ∃ a, m = Ok a ∧ f a = Ok b.
Proof. unfold mbind, result_bind. destruct m; [eauto | done]. Qed.
Lemma check_not_Ok {E} b (e : E) u : check_not b e = Ok u → b = false.
Proof. by destruct b. Qed.
Lemma check_all_Ok {E A} (f : A → result E unit) l u :
  check_all f l = Ok u ↔ Forall (λ x, f x = Ok ()) l.
Proof.
  destruct u. induction l as [|x l IH]; cbn; [split; [constructor | done]|].
  rewrite Forall_cons. destruct (f x) as [[]|e]; [rewrite IH|]; naive_solver.
Qed.

Definition M (S E A : Type) : Type := S → result E A * S.

#[export] Instance M_ret {S E} : MRet (M S E) := λ A a s, (Ok a, s).
#[export] Instance M_bind {S E} : MBind (M S E) := λ A B f m s,
  match m s with
  | (Ok a, s') => f a s'
  | (Err e, s') => (Err e, s')
  end.

Section monad.
  Context {S E : Type}.
  Implicit Types s : S.

Definition throw {A} (e : E) : M S E A := λ s, (Err e, s).
Definition gets {A} (f : S → A) : M S E A := λ s, (Ok (f s), s).
Definition modify (f : S → S) : M S E unit := λ s, (Ok (), f s).
(** [if b { return e }] *)
Definition fail_if (b : bool) (e : E) : M S E unit := if b then throw e else mret ().
(** [if b { m }] *)
Definition when (b : bool) (m : M S E unit) : M S E unit := if b then m else mret ().
(** [if err := m; err != nil { log }]: the error is dropped, not the writes. *)
Definition swallow (m : M S E unit) : M S E unit := λ s, (Ok (), snd (m s)).
(** [v, err := m] with the error inspected by the caller. *)
Definition try {A} (m : M S E A) : M S E (result E A) := λ s,
    let '(r, s') := m s in (Ok r, s').
(** [for _, x := range l { if err = f(x); err != nil { return } }] *)
Fixpoint for_each {A} (l : list A) (f : A → M S E unit) : M S E unit :=
    match l with
    | [] => mret ()
    | x :: l' => f x ≫= λ _, for_each l' f
    end.
(** the same loop with an accumulator. *)
Fixpoint fold_m {A B} (f : B → A → M S E B) (b : B) (l : list A) : M S E B :=
    match l with
    | [] => mret b
    | x :: l' => f b x ≫= λ b', fold_m f b' l'
    end.

Lemma bind_Ok {A B} (m : M S E A) (f : A → M S E B) s b s2 :
    (m ≫= f) s = (Ok b, s2) → ∃ a s1, m s = (Ok a, s1) ∧ f a s1 = (Ok b, s2).
Proof. unfold mbind, M_bind. destruct (m s) as [[a|e] s1]; [eauto | done]. Qed.
Lemma bind_Err {A B} (m : M S E A) (f : A → M S E B) s e s2 :
    (m ≫= f) s = (Err e, s2) →
    m s = (Err e, s2) ∨ ∃ a s1, m s = (Ok a, s1) ∧ f a s1 = (Err e, s2).
Proof.
    unfold mbind, M_bind. destruct (m s) as [[a|e'] s1]; [eauto | intros [= <- <-]; auto].
Qed.
Lemma bind_run_Ok {A B} (m : M S E A) (f : A → M S E B) s a s1 :
    m s = (Ok a, s1) → (m ≫= f) s = f a s1.
Proof. unfold mbind, M_bind. by intros ->. Qed.
Lemma bind_run_Err {A B} (m : M S E A) (f : A → M S E B) s e s1 :
    m s = (Err e, s1) → (m ≫= f) s = (Err e, s1).
Proof. unfold mbind, M_bind. by intros ->. Qed.
Lemma fail_if_Ok b e s u s2 : fail_if b e s = (Ok u, s2) → b = false ∧ s2 = s.
Proof. destruct b; cbv; [done | intros [= _ <-]; done]. Qed.
Lemma swallow_Ok m s u s2 : swallow m s = (Ok u, s2) → s2 = snd (m s).
Proof. by intros [= _ <-]. Qed.
Lemma try_Ok {A} (m : M S E A) s r s2 : try m s = (Ok r, s2) → m s = (r, s2).
Proof. unfold try. destruct (m s) as [r1 s1]. cbn. intros H. by inversion H. Qed.

Lemma for_each_cons {A} (f : A → M S E unit) x l :
    for_each (x :: l) f = (f x ≫= λ _, for_each l f).
Proof. done. Qed.
Lemma fold_m_cons {A B} (f : B → A → M S E B) b x l :
    fold_m f b (x :: l) = (f b x ≫= λ b', fold_m f b' l).
Proof. done. Qed.
(** Loop rule: an invariant carried over the elements already visited. *)
Lemma for_each_Ok {A} (P : list A → S → Prop) (f : A → M S E unit) (l : list A) s s2 u :
    (∀ done x rest s1 s1' u', l = done ++ x :: rest → P done s1 →
       f x s1 = (Ok u', s1') → P (done ++ [x]) s1') →
    P [] s → for_each l f s = (Ok u, s2) → P l s2.
Proof.
    intros Hstep.
    cut (∀ done rest s1, l = done ++ rest → P done s1 →
      for_each rest f s1 = (Ok u, s2) → P l s2); [intros Hc; by apply (Hc [])|].
    intros dn rest; revert dn; induction rest as [|x rest IH]; intros dn s1 -> HP Hrun.
    - rewrite app_nil_r in *. injection Hrun as ? ?. by subst.
    - apply bind_Ok in Hrun as (u' & s1' & Hf & Hrun).
      eapply (IH (dn ++ [x])); [by rewrite <- app_assoc | | done].
      eauto.
Qed.
(** The same rule when the invariant does not mention the elements. *)
Lemma for_each_inv {A} (P : S → Prop) (f : A → M S E unit) (l : list A) s s2 u :
    (∀ x s1 s1' u', x ∈ l → P s1 → f x s1 = (Ok u', s1') → P s1') →
    P s → for_each l f s = (Ok u, s2) → P s2.
Proof.
    intros Hstep. apply (for_each_Ok (λ _, P)).
    intros dn x rest s1 s1' u' -> HP Hf. eapply Hstep; [|done|done]. set_solver.
Qed.
Lemma fold_m_inv {A B} (P : list A → B → S → Prop) (f : B → A → M S E B)
      (l : list A) b s b2 s2 :
    (∀ done x rest b1 s1 b1' s1', l = done ++ x :: rest → P done b1 s1 →
       f b1 x s1 = (Ok b1', s1') → P (done ++ [x]) b1' s1') →
    P [] b s → fold_m f b l s = (Ok b2, s2) → P l b2 s2.
Proof.
    intros Hstep.
    cut (∀ done rest b1 s1, l = done ++ rest → P done b1 s1 →
      fold_m f b1 rest s1 = (Ok b2, s2) → P l b2 s2); [intros Hc; by apply (Hc [])|].
    intros dn rest; revert dn; induction rest as [|x rest IH]; intros dn b1 s1 -> HP Hrun.
    - rewrite app_nil_r in *. injection Hrun as ? ?. by subst.
    - apply bind_Ok in Hrun as (b1' & s1' & Hf & Hrun).
      eapply (IH (dn ++ [x])); [by rewrite <- app_assoc | | done].
      eauto.
Qed.
End monad.
Arguments for_each : simpl never.
Arguments fold_m : simpl never.

(** Invert a successful run: split every bind of a hypothesis and the
    elementary operations it is made of. *)
Ltac minv_one H :=
  lazymatch type of H with
  | mbind _ _ _ = (Ok _, _) =>
      let a := fresh "a" in let s := fresh "s" in let H1 := fresh "Hm" in
      apply bind_Ok in H as (a & s & H1 & H); cbv beta in H
  | mret _ _ = (Ok _, _) => injection H as H; subst
  | throw _ _ = (Ok _, _) => discriminate H
  | gets _ _ = (Ok _, _) => injection H as H; subst
  | modify _ _ = (Ok _, _) => injection H as H; subst
  | fail_if _ _ _ = (Ok _, _) => apply fail_if_Ok in H as [H ?]; subst
  | swallow _ _ = (Ok _, _) => apply swallow_Ok in H; subst
  | try _ _ = (Ok _, _) => apply try_Ok in H
  end.
Ltac minv :=
  repeat match goal with
  | H : mbind _ _ _ = (Ok _, _) |- _ => minv_one H
  | H : mret _ _ = (Ok _, _) |- _ => minv_one H
  | H : throw _ _ = (Ok _, _) |- _ => minv_one H
  | H : gets _ _ = (Ok _, _) |- _ => minv_one H
  | H : modify _ _ = (Ok _, _) |- _ => minv_one H
  | H : fail_if _ _ _ = (Ok _, _) |- _ => minv_one H
  | H : swallow _ _ = (Ok _, _) |- _ => minv_one H
  | H : try _ _ = (Ok _, _) |- _ => minv_one H
  end.

(** Case analysis on the condition of an [if] or [match] on a run. *)
Ltac case_run :=
  match goal with
  | H : (if ?b then _ else _) _ = (_, _) |- _ => destruct b eqn:?
  | H : when ?b _ _ = (_, _) |- _ => unfold when in H; destruct b eqn:?
  | H : match ?x with _ => _ end _ = (_, _) |- _ => destruct x eqn:?
  end.
(** Turn boolean tests into arithmetic facts. *)
Ltac zify_bools :=
  repeat match goal with
  | H : _ && _ = true |- _ => apply andb_true_iff in H as [? ?]
  | H : _ || _ = false |- _ => apply orb_false_iff in H as [? ?]
  | H : negb _ = true |- _ => apply negb_true_iff in H
  | H : negb _ = false |- _ => apply negb_false_iff in H
  | H : (_ <? _) = true |- _ => apply Z.ltb_lt in H
  | H : (_ <? _) = false |- _ => apply Z.ltb_ge in H
  | H : (_ <=? _) = true |- _ => apply Z.leb_le in H
  | H : (_ <=? _) = false |- _ => apply Z.leb_gt in H
  | H : (_ =? _) = true |- _ => apply Z.eqb_eq in H
  | H : (_ =? _) = false |- _ => apply Z.eqb_neq in H
  | H : bool_decide _ = true |- _ => apply bool_decide_eq_true in H
  | H : bool_decide _ = false |- _ => apply bool_decide_eq_false in H
  end.

(** ** Sums over lists and finite maps *)

Definition list_sum {A} (f : A → Z) (l : list A) : Z := foldr (λ x acc, f x + acc) 0 l.

Arguments list_sum : simpl never.

Section list_sum.
  Context {A : Type} (f : A → Z).
  Implicit Types l : list A.

Lemma list_sum_cons x l : list_sum f (x :: l) = f x + list_sum f l.
Proof. done. Qed.
Lemma list_sum_app l1 l2 : list_sum f (l1 ++ l2) = list_sum f l1 + list_sum f l2.
Proof.
    induction l1; rewrite <- ?app_comm_cons, ?list_sum_cons; [done | lia].
Qed.
Lemma list_sum_nonneg l : (∀ x, x ∈ l → 0 <= f x) → 0 <= list_sum f l.
Proof.
    induction l as [|x l IH]; rewrite ?list_sum_cons; intros H; [done|].
    pose proof (H x ltac:(set_solver)). specialize (IH ltac:(set_solver)). lia.
Qed.
Lemma list_sum_perm l1 l2 : l1 ≡ₚ l2 → list_sum f l1 = list_sum f l2.
Proof. induction 1; rewrite ?list_sum_cons; lia. Qed.
End list_sum.

Definition map_sum `{Countable K} {V} (f : K → V → Z) (m : gmap K V) : Z :=
  map_fold (λ k v acc, f k v + acc) 0 m.

Arguments map_sum : simpl never.

Section map_sum.
  Context `{Countable K} {V : Type}.
  Implicit Types (f : K → V → Z) (m : gmap K V).

(** What one key contributes to the sum. *)
Definition at_key f m k : Z := match m !! k with Some v => f k v | None => 0 end.

Lemma map_sum_empty f : map_sum f ∅ = 0.
Proof. apply map_fold_empty. Qed.
Lemma map_sum_insert_fresh f m k v :
    m !! k = None → map_sum f (<[k:=v]> m) = f k v + map_sum f m.
Proof. intros. unfold map_sum. rewrite map_fold_insert_L; [done | intros; lia | done]. Qed.
Lemma map_sum_delete f m k : map_sum f (delete k m) = map_sum f m - at_key f m k.
Proof.
    unfold at_key. destruct (m !! k) as [v|] eqn:Hk.
    - unfold map_sum. rewrite (map_fold_delete_L _ 0 k v m); [lia | intros; lia | done].
    - rewrite delete_id by done. lia.
Qed.
Lemma map_sum_insert f m k v :
    map_sum f (<[k:=v]> m) = map_sum f m - at_key f m k + f k v.
Proof.
    rewrite <- insert_delete_eq, map_sum_insert_fresh by apply lookup_delete_eq.
    rewrite map_sum_delete. lia.
Qed.
Lemma map_sum_nonneg f m : (∀ k v, m !! k = Some v → 0 <= f k v) → 0 <= map_sum f m.
Proof.
    revert m. apply (map_ind (λ m, (∀ k v, m !! k = Some v → 0 <= f k v) → 0 <= map_sum f m)).
    - rewrite map_sum_empty. lia.
    - intros k v m Hk IH Hf. rewrite map_sum_insert_fresh by done.
      pose proof (Hf k v (lookup_insert_eq _ _ _)).
      enough (0 <= map_sum f m) by lia. apply IH. intros k' v' Hk'. apply Hf.
      rewrite lookup_insert_ne; [done | congruence].
Qed.
Lemma at_key_le_sum f m k :
    (∀ k v, m !! k = Some v → 0 <= f k v) → at_key f m k <= map_sum f m.
Proof.
    intros Hf. pose proof (map_sum_delete f m k) as Hd.
    enough (0 <= map_sum f (delete k m)) by lia.
    apply map_sum_nonneg. intros k' v' [_ ?]%lookup_delete_Some. eauto.
Qed.
Lemma map_sum_ext f g m :
    (∀ k v, m !! k = Some v → f k v = g k v) → map_sum f m = map_sum g m.
Proof.
    revert m. apply (map_ind (λ m, (∀ k v, m !! k = Some v → f k v = g k v) → map_sum f m = map_sum g m)).
    - by rewrite !map_sum_empty.
    - intros k v m Hk IH Hf. rewrite !map_sum_insert_fresh by done.
      rewrite (Hf k v (lookup_insert_eq _ _ _)), IH; [done|].
      intros k' v' Hk'. apply Hf. rewrite lookup_insert_ne; [done | congruence].
Qed.
End map_sum.
Arguments at_key : simpl never.

(** ** Ordered iteration

    The store iterates its keys in lexicographic order.  A typed index of the
    model is a finite map or set; its iterators visit the keys sorted by the
    order of their encodings. *)
Definition sorted_by {A} (le : A → A → bool) (l : list A) : list A :=
  merge_sort (λ a b, Is_true (le a b)) l.

Lemma sorted_by_perm {A} (le : A → A → bool) (l : list A) : sorted_by le l ≡ₚ l.
Proof. apply merge_sort_Permutation. Qed.
Lemma elem_of_sorted_by {A} (le : A → A → bool) (l : list A) x : x ∈ sorted_by le l ↔ x ∈ l.
Proof. by rewrite sorted_by_perm. Qed.

(** The first elements of a list sorted by a total preorder dominate the rest. *)
Lemma sorted_by_Sorted {A} (le : A → A → bool) (l : list A) :
  (∀ a b, le a b = true ∨ le b a = true) →
  (∀ a b c, le a b = true → le b c = true → le a c = true) →
  StronglySorted (λ a b, le a b = true) (sorted_by le l).
Proof.
  intros Htot Htr.
  assert (HT : Transitive (λ a b, Is_true (le a b))).
  { intros a b c. rewrite !Is_true_true. apply Htr. }
  assert (HO : Total (λ a b, Is_true (le a b))).
  { intros a b. rewrite !Is_true_true. apply Htot. }
  pose proof (StronglySorted_merge_sort (λ a b, Is_true (le a b)) l) as Hs.
  fold (sorted_by le l) in Hs. induction Hs as [|x l' Hs IH HF]; constructor; [done|].
  eapply Forall_impl; [exact HF|]. intros y. cbn. by rewrite Is_true_true.
Qed.
Lemma sorted_by_top {A} (le : A → A → bool) (l : list A) (n : nat) x y :
  (∀ a b, le a b = true ∨ le b a = true) →
  (∀ a b c, le a b = true → le b c = true → le a c = true) →
  x ∈ take n (sorted_by le l) → y ∈ l → y ∉ take n (sorted_by le l) → le x y = true.
Proof.
  intros Htot Htr Hx Hy Hny. pose proof (sorted_by_Sorted le l Htot Htr) as Hs.
  apply elem_of_sorted_by with (le := le) in Hy.
  rewrite <- (take_drop n (sorted_by le l)) in Hs, Hy.
  apply elem_of_app in Hy as [Hy|Hy]; [done|].
  by eapply (StronglySorted_app_1_elem_of _ _ _ _ _ Hs).
Qed.

(** *** Filtered and reversed sorted lists *)

Lemma filter_all {A} (P : A → Prop) `{!∀ x, Decision (P x)} (l : list A) : (∀ x, P x) → filter P l = l.
Proof. intros HP. induction l as [|x l IH]; [done|]. by rewrite filter_cons_True, IH by apply HP. Qed.
Lemma StronglySorted_weaken {A} (R1 R2 : A → A → Prop) l :
  (∀ x y, R1 x y → R2 x y) → StronglySorted R1 l → StronglySorted R2 l.
Proof.
  intros HR. induction 1 as [|x l _ IH Hf]; constructor; [done|]. eapply Forall_impl; [exact Hf|apply HR].
Qed.
Lemma filter_sorted {A} (R : A → A → Prop) (P : A → Prop) `{!∀ x, Decision (P x)} l :
  StronglySorted R l → StronglySorted R (filter P l).
Proof.
  induction 1 as [|a l Hs IH Hf]; [constructor|]. rewrite filter_cons. destruct (decide (P a)); [|done].
  constructor; [done|]. rewrite Forall_forall in *. intros x Hx. apply Hf. by apply list_elem_of_filter in Hx as [_ Hx].
Qed.
Lemma rev_reverse {A} (l : list A) : rev l = reverse l.
Proof. apply rev_alt. Qed.
Lemma elem_of_rev {A} (l : list A) x : x ∈ rev l ↔ x ∈ l.
Proof. rewrite rev_reverse. apply elem_of_reverse. Qed.
Lemma StronglySorted_rev {A} (R : A → A → Prop) l : StronglySorted R l → StronglySorted (λ a b, R b a) (rev l).
Proof.
  induction 1 as [|a l Hs IH Hf]; cbn; [constructor|]. rewrite Forall_forall in Hf.
  assert (Hall : ∀ l2, StronglySorted (λ a b, R b a) l2 → (∀ x, x ∈ l2 → R a x) → StronglySorted (λ a b, R b a) (l2 ++ [a])).
  { clear. induction 1 as [|x l2 Hs IH Hf]; cbn; intros Ha; [repeat constructor|]. constructor; [apply IH; set_solver|].
    apply Forall_app. split; [done|]. apply Forall_singleton, Ha. set_solver. }
  apply Hall; [done|]. intros x Hx. apply Hf. by apply elem_of_rev.
Qed.
Lemma find_filter {A} (p q : A → bool) (l : list A) : find p (filter (λ y, q y = true) l) = head (filter (λ y, q y && p y = true) l).
Proof.
  induction l as [|a l IH]; [done|]. rewrite !filter_cons. destruct (q a) eqn:Hq; cbn.
  - rewrite decide_True by done. cbn [find]. destruct (p a); [by rewrite decide_True|]. by rewrite decide_False.
  - rewrite decide_False by done. by rewrite decide_False.
Qed.
Lemma filter_and_ext {A} (p q : A → bool) (l : list A) : (∀ y, p y = q y) → filter (λ y, p y = true) l = filter (λ y, q y = true) l.
Proof. intros Hpq. apply list_filter_iff. intros y. by rewrite Hpq. Qed.

(** ** Loops with a binary fuel

    [iter_until step p s] runs the body [step] at most [p] times and stops as
    soon as it returns [inr]; the fuel is a binary number, so a bound such as
    [2^64] costs nothing to evaluate. *)
Fixpoint iter_until {S R : Type} (step : S → S + R) (p : positive) (s : S) : S + R :=
  match p with
  | xH => step s
  | xO p' =>
      match iter_until step p' s with
      | inl s' => iter_until step p' s'
      | inr r => inr r
      end
  | xI p' =>
      match step s with
      | inl s0 =>
          match iter_until step p' s0 with
          | inl s' => iter_until step p' s'
          | inr r => inr r
          end
      | inr r => inr r
      end
  end.

Section iter_until.
  Context {S R : Type} (step : S → S + R) (I : S → Prop) (Q : R → Prop) (mu : S → Z).
  Hypothesis step_ok : ∀ s, I s →
    match step s with
    | inl s' => I s' ∧ 0 <= mu s' < mu s
    | inr r => Q r
    end.

Lemma iter_until_step p s :
    I s → match iter_until step p s with
          | inl s' => I s' ∧ 0 <= mu s' <= mu s - Z.pos p
          | inr r => Q r
          end.
Proof.
    revert s. induction p as [p IH|p IH|]; intros s Hs; cbn [iter_until].
    - pose proof (step_ok s Hs) as H0. destruct (step s) as [s0|r]; [|done].
      destruct H0 as [Hs0 ?]. pose proof (IH s0 Hs0) as H1.
      destruct (iter_until step p s0) as [s1|r]; [|done].
      destruct H1 as [Hs1 ?]. pose proof (IH s1 Hs1) as H2.
      destruct (iter_until step p s1) as [s2|r]; [|done].
      destruct H2. split; [done | lia].
    - pose proof (IH s Hs) as H1.
      destruct (iter_until step p s) as [s1|r]; [|done].
      destruct H1 as [Hs1 ?]. pose proof (IH s1 Hs1) as H2.
      destruct (iter_until step p s1) as [s2|r]; [|done].
      destruct H2. split; [done | lia].
    - pose proof (step_ok s Hs) as H0. destruct (step s) as [s0|r]; [|done].
      destruct H0. split; [done | lia].
Qed.
(** Enough fuel: the loop ends, and its result satisfies [Q]. *)
Lemma iter_until_done p s :
    I s → mu s < Z.pos p → ∃ r, iter_until step p s = inr r ∧ Q r.
Proof.
    intros Hs Hp. pose proof (iter_until_step p s Hs) as H.
    destruct (iter_until step p s) as [s'|r]; [lia | eauto].
Qed.
End iter_until.
