(* ===== verification/LibUtil.v ===== *)
(** * [lib/util.go]: overflow-aware arithmetic, length-prefixed keys, small helpers *)
From S2P Require Import Prelude.

(** ** Arithmetic helpers *)

(** [new(big.Int)...Uint64()]: the low 64 bits of a non-negative big integer. *)
Definition big_Uint64 (z : Z) : Z := wrap64 z.

Definition Uint64PercentageDiv (dividend divisor : Z) : Z :=
  if (dividend =? 0) || (divisor =? 0) then 0
  else
    let percent := u64_mul dividend 100 / divisor in
    if 100 <? percent then 100 else percent.

Definition Uint64Percentage (total percentage : Z) : Z :=
  if (percentage =? 0) || (total =? 0) then 0
  else if 100 <=? percentage then total
  else u64_mul total percentage / 100.

Definition Uint64ReducePercentage (fullAmount percentage : Z) : Z :=
  if (100 <=? percentage) || (fullAmount =? 0) then 0
  else if percentage =? 0 then fullAmount
  else u64_mul fullAmount (u64_sub 100 percentage) / 100.

Definition SqrtProductUint64 (x y : Z) : Z := big_Uint64 (Z.sqrt (x * y)).

Definition AddUint64 (a b : Z) : Z * bool := (u64_add a b, two64 <=? a + b).

Definition SafeMulDiv (a b c : Z) : Z :=
  if c =? 0 then 0 else big_Uint64 (a * b / c).

(** The body of the [for y < x] loop of [IntSqrt]; the state is [(x, y)], the
    result [None] is the runtime panic of a division by zero. *)
Definition IntSqrt_body (n : Z) (xy : Z * Z) : (Z * Z) + option Z :=
  let '(x, y) := xy in
  if y <? x then
    if y =? 0 then inr None
    else inl (y, u64_add y (n / y) / 2)
  else inr (Some x).

Definition IntSqrt (n : Z) : option Z :=
  if n =? 0 then Some 0
  else
    match iter_until (IntSqrt_body n) (Z.to_pos two64) (n, u64_add n 1 / 2) with
    | inr r => r
    | inl _ => None
    end.

(** ** Length-prefixed keys *)

(** A segment that is Go's [nil] is skipped, an empty one is not. *)
Definition seg_bytes (item : option bytes) : bytes :=
  match item with
  | None => []
  | Some bz => byte_of_Z (Z.of_nat (length bz)) :: bz
  end.

Definition JoinLenPrefix (toAppend : list (option bytes)) : bytes :=
  concat (map seg_bytes toAppend).

(** [None] is the panic on a corrupt key; the fuel is the length of the key,
    each round consumes at least the length byte. *)
Fixpoint decode_segs (fuel : nat) (key : bytes) : option (list bytes) :=
  match key with
  | [] => Some []
  | b :: rest =>
      match fuel with
      | O => None
      | S fuel' =>
          let len := Z.to_nat (byte_to_Z b) in
          if (length rest <? len)%nat then None
          else
            segs ← decode_segs fuel' (drop len rest);
            Some (take len rest :: segs)
      end
  end.

Definition DecodeLengthPrefixed (key : bytes) : option (list bytes) :=
  decode_segs (length key) key.

(** ** Slices and sets *)

Definition TruncateSlice {A} (slice : list A) (max : nat) : list A :=
  if (length slice <=? max)%nat then slice else take max slice.

(** [DeDuplicator.Found]: the answer, and the map after the call. *)
Definition Found `{Countable K} (d : gset K) (k : K) : bool * gset K :=
  if decide (k ∈ d) then (true, d) else (false, {[k]} ∪ d).

Fixpoint EqualByteSlices (a b : list bytes) : bool :=
  match a, b with
  | [], [] => true
  | x :: a', y :: b' => if decide (x = y) then EqualByteSlices a' b' else false
  | _, _ => false
  end.

(** The [return] inside the loop is a bare return of the named result [found],
    which nothing ever sets. *)
Fixpoint ContainsByteSlice (list : list bytes) (target : bytes) : bool :=
  let found := false in
  match list with
  | [] => found
  | item :: list' => if decide (item = target) then found else ContainsByteSlice list' target
  end.

(** ** The helpers' lemmas *)

Lemma SafeMulDiv_exact a b c :
  0 <= a → 0 <= b → 0 < c → a * b / c < two64 → SafeMulDiv a b c = a * b / c.
Proof.
  intros. unfold SafeMulDiv, big_Uint64. destruct (Z.eqb_spec c 0); [lia|].
  apply wrap64_small. split; [apply Z.div_pos; nia | done].
Qed.
(** A share [b / c <= 1] of [a] is computed exactly and never exceeds [a]. *)
Lemma SafeMulDiv_share a b c :
  u64 a → 0 <= b <= c → 0 <= SafeMulDiv a b c <= a.
Proof.
  intros Ha Hb. destruct (decide (c = 0)) as [->|Hc]; [cbn; u64|].
  assert (Hle : a * b / c <= a) by (apply Z.div_le_upper_bound; u64).
  rewrite SafeMulDiv_exact by u64. split; [apply Z.div_pos; u64 | done].
Qed.
Lemma SafeMulDiv_u64 a b c : u64 (SafeMulDiv a b c).
Proof.
  unfold SafeMulDiv. destruct (c =? 0); [u64 | apply wrap64_u64].
Qed.
#[export] Hint Resolve SafeMulDiv_u64 : go.

(** In any case it never exceeds the exact quotient. *)
Lemma SafeMulDiv_le a b c : 0 <= a → 0 <= b → 0 < c → 0 <= SafeMulDiv a b c ∧ SafeMulDiv a b c * c <= a * b.
Proof.
  intros Ha Hb Hc. unfold SafeMulDiv, big_Uint64, wrap64. destruct (Z.eqb_spec c 0); [lia|].
  assert (0 <= a * b / c) by (apply Z.div_pos; nia).
  pose proof (Z.mod_le (a * b / c) two64 ltac:(done) ltac:(done)).
  pose proof (Z.mod_pos_bound (a * b / c) two64 ltac:(done)).
  pose proof (Z.mul_div_le (a * b) c Hc). split; [lia | nia].
Qed.
Lemma SqrtProductUint64_exact x y : u64 x → u64 y → SqrtProductUint64 x y = Z.sqrt (x * y) ∧ u64 (Z.sqrt (x * y)).
Proof.
  intros Hx Hy. assert (u64 (Z.sqrt (x * y))).
  { split; [apply Z.sqrt_nonneg|]. apply Z.sqrt_lt_square; u64. }
  split; [|done]. by apply wrap64_small.
Qed.

Lemma AddUint64_no_overflow a b s :
  u64 a → u64 b → AddUint64 a b = (s, false) → s = a + b ∧ u64 s.
Proof.
  unfold AddUint64. intros Ha Hb [= <- Hc%Z.leb_gt].
  assert (u64 (a + b)) by u64. rewrite u64_add_small by done. done.
Qed.

Lemma Uint64ReducePercentage_le a p :
  u64 a → 0 <= p → a * 100 < two64 → 0 <= Uint64ReducePercentage a p <= a.
Proof.
  intros Ha Hp Hs. unfold Uint64ReducePercentage.
  destruct (100 <=? p) eqn:H1; cbn [orb]; [u64|].
  destruct (a =? 0) eqn:H2; cbn [orb]; [u64|].
  destruct (p =? 0) eqn:H3; [u64|]. zify_bools.
  rewrite (u64_sub_small 100 p) by u64.
  rewrite u64_mul_small by u64.
  split; [apply Z.div_pos; u64 | apply Z.div_le_upper_bound; u64].
Qed.

(** ** [IntSqrt] *)

(** Newton's step from any [x >= isqrt n] stays above [isqrt n]. *)
Lemma newton_lower n x : 0 < x → 0 <= n → Z.sqrt n <= (x + n / x) / 2.
Proof.
  intros Hx Hn. pose proof (Z.sqrt_spec n Hn) as [Hs1 Hs2].
  pose proof (Z.sqrt_nonneg n) as Hs0. set (s := Z.sqrt n) in *.
  apply Z.div_le_lower_bound; [lia|].
  destruct (Z.le_gt_cases (2 * s) x) as [Hxs|Hxs].
  { pose proof (Z.div_pos n x ltac:(lia) Hx). lia. }
  enough (2 * s - x <= n / x) by lia.
  apply Z.div_le_lower_bound; [lia|]. pose proof (Z.square_nonneg (s - x)). nia.
Qed.

Definition IntSqrt_inv (n : Z) (xy : Z * Z) : Prop :=
  let '(x, y) := xy in
  1 <= x <= n ∧ Z.sqrt n <= x ∧ y = (x + n / x) / 2.

Lemma IntSqrt_body_ok n xy :
  1 <= n < u64_max → IntSqrt_inv n xy →
  match IntSqrt_body n xy with
  | inl xy' => IntSqrt_inv n xy' ∧ 0 <= fst xy' < fst xy
  | inr r => r = Some (Z.sqrt n)
  end.
Proof.
  intros Hn. destruct xy as [x y]. intros ((Hx & Hxn) & Hsq & Hy). cbn.
  pose proof (Z.sqrt_spec n ltac:(lia)) as [Hs1 Hs2].
  assert (Hs0 : 1 <= Z.sqrt n) by (apply Z.sqrt_le_square; lia).
  pose proof (newton_lower n x ltac:(lia) ltac:(lia)) as Hlow.
  rewrite <- Hy in Hlow. destruct (Z.ltb_spec y x) as [Hlt|Hge].
  - destruct (Z.eqb_spec y 0); [lia|]. cbn.
    assert (Hd : n / y <= n) by (apply Z.div_le_upper_bound; nia).
    assert (Hyn : y + n / y <= n + 1).
    { assert (n / y <= n + 1 - y) by (apply Z.div_le_upper_bound; nia). lia. }
    pose proof (Z.div_pos n y ltac:(lia) ltac:(lia)).
    rewrite u64_add_small by (unfold u64, two64, u64_max in *; lia).
    repeat split; lia.
  - f_equal. enough (x <= Z.sqrt n) by lia.
    assert (x <= n / x).
    { assert (2 * x <= x + n / x); [|lia].
      transitivity (2 * y); [lia|]. rewrite Hy. apply Z.mul_div_le. lia. }
    apply Z.sqrt_le_square; [lia..|].
    pose proof (Z.mul_div_le n x ltac:(lia)). nia.
Qed.

Lemma IntSqrt_start n : 1 <= n < u64_max → IntSqrt_inv n (n, u64_add n 1 / 2).
Proof.
  intros Hn. split; [lia|]. split; [apply Z.sqrt_le_lin; lia|].
  rewrite Z.div_same by lia. rewrite u64_add_small by u64. done.
Qed.

(** ** Length-prefixed keys: the codec *)

Lemma byte_of_to_Z b : byte_of_Z (byte_to_Z b) = b.
Proof. destruct b; reflexivity. Qed.
Lemma byte_to_of_Z z : 0 <= z < 256 → byte_to_Z (byte_of_Z z) = z.
Proof.
  intros Hz. unfold byte_to_Z, byte_of_Z. rewrite Z.mod_small by done.
  destruct (Byte.of_N (Z.to_N z)) as [b|] eqn:Hb.
  - apply Byte.to_of_N in Hb. rewrite Hb. lia.
  - apply Byte.of_N_None_iff in Hb. lia.
Qed.
Lemma byte_to_Z_range b : 0 <= byte_to_Z b < 256.
Proof. unfold byte_to_Z. pose proof (Byte.to_N_bounded b). lia. Qed.

Definition short_seg (s : bytes) : Prop := (length s < 256)%nat.

Lemma seg_length s : short_seg s → Z.to_nat (byte_to_Z (byte_of_Z (Z.of_nat (length s)))) = length s.
Proof. unfold short_seg. intros. rewrite byte_to_of_Z by lia. lia. Qed.

Lemma decode_segs_join fuel segs :
  Forall short_seg segs →
  (length (JoinLenPrefix (map Some segs)) <= fuel)%nat →
  decode_segs fuel (JoinLenPrefix (map Some segs)) = Some segs.
Proof.
  revert fuel. induction segs as [|s segs IH]; intros fuel Hs Hf; [by destruct fuel|].
  apply Forall_cons in Hs as [Hs Hss].
  unfold JoinLenPrefix in *. cbn [map concat seg_bytes app] in *.
  destruct fuel as [|fuel]; [cbn in Hf; lia|]. cbn [decode_segs].
  rewrite seg_length by done. cbn [length] in Hf. rewrite length_app in *.
  destruct (Nat.ltb_spec (length s + length (concat (map seg_bytes (map Some segs)))) (length s)); [lia|].
  rewrite drop_app_length, take_app_length. rewrite IH by (done || lia). done.
Qed.

(** Decoding is exact: a decoded key is the join of its segments. *)
Lemma decode_segs_sound fuel key segs :
  decode_segs fuel key = Some segs →
  JoinLenPrefix (map Some segs) = key ∧ Forall short_seg segs.
Proof.
  revert key segs. induction fuel as [|fuel IH]; intros [|b rest] segs; cbn [decode_segs];
    [by intros [= <-] | done | by intros [= <-] |].
  destruct (Nat.ltb_spec (length rest) (Z.to_nat (byte_to_Z b))) as [|Hlen]; [done|].
  destruct (decode_segs fuel _) as [segs'|] eqn:Hd; cbn; [|done].
  intros [= <-]. apply IH in Hd as [Hj Hs]. pose proof (byte_to_Z_range b).
  unfold JoinLenPrefix in *. cbn [map concat seg_bytes app]. rewrite Hj.
  rewrite length_take_le by done. split.
  - rewrite Z2Nat.id by lia. rewrite byte_of_to_Z. f_equal. apply take_drop.
  - constructor; [|done]. unfold short_seg. rewrite length_take_le by done. lia.
Qed.

Lemma DecodeLengthPrefixed_Join segs :
  Forall short_seg segs → DecodeLengthPrefixed (JoinLenPrefix (map Some segs)) = Some segs.
Proof. intros. by apply decode_segs_join. Qed.

Lemma JoinLenPrefix_inj segs1 segs2 :
  Forall short_seg segs1 → Forall short_seg segs2 →
  JoinLenPrefix (map Some segs1) = JoinLenPrefix (map Some segs2) → segs1 = segs2.
Proof.
  intros H1%DecodeLengthPrefixed_Join H2%DecodeLengthPrefixed_Join Heq.
  rewrite Heq in H1. congruence.
Qed.

(** ** Properties *)

(** C13. [DecodeLengthPrefixed] and [JoinLenPrefix] are inverse to each other:
    every list of segments shorter than 256 bytes is read back unchanged, and
    every key that decodes without a panic is the join of what it decodes to. *)
Theorem len_prefix_roundtrip (segs : list bytes) (key : bytes) :
  Forall short_seg segs →
  DecodeLengthPrefixed (JoinLenPrefix (map Some segs)) = Some segs ∧
  (DecodeLengthPrefixed key = Some segs ↔ key = JoinLenPrefix (map Some segs)).
Proof.
  intros Hs. pose proof (DecodeLengthPrefixed_Join segs Hs) as Hd.
  split; [done|]. split; [|by intros ->].
  intros Hk. by apply decode_segs_sound in Hk as [-> _].
Qed.
Example len_prefix_roundtrip_witness :
  DecodeLengthPrefixed (JoinLenPrefix (map Some [[x01]; []; [x02; x03]]))
  = Some [[x01]; []; [x02; x03]].
Proof.
  refine (proj1 (len_prefix_roundtrip [[x01]; []; [x02; x03]] [] _)).
  repeat constructor; unfold short_seg; cbn; lia.
Defined.

(** [IntSqrt] terminates and returns the truncated square root of every
    64 bit integer but the largest one; on [math.MaxUint64] the [x + 1] of its
    first line wraps to 0 and the loop divides by zero. *)
Theorem IntSqrt_correct (n : Z) :
  u64 n → IntSqrt n = if decide (n = u64_max) then None else Some (Z.sqrt n).
Proof.
  intros Hn. unfold IntSqrt. destruct (Z.eqb_spec n 0) as [->|Hz]; [done|].
  case_decide as Hmax; [subst; by vm_compute|].
  assert (Hb : 1 <= n < u64_max) by u64.
  destruct (iter_until_done (IntSqrt_body n) (IntSqrt_inv n) (.= Some (Z.sqrt n)) fst
    (λ xy, IntSqrt_body_ok n xy Hb) (Z.to_pos two64) (n, u64_add n 1 / 2)) as (r & -> & ->).
  - by apply IntSqrt_start.
  - cbn. u64.
  - done.
Qed.
Example IntSqrt_correct_witness :
  IntSqrt 1000000000000000001 = Some 1000000000 ∧ IntSqrt u64_max = None.
Proof.
  split.
  - refine (eq_trans (IntSqrt_correct 1000000000000000001 _) _); [unfold u64, two64; lia | by vm_compute].
  - refine (eq_trans (IntSqrt_correct u64_max _) _); [unfold u64, u64_max, two64; lia | by vm_compute].
Defined.

(** The membership test that never answers yes. *)
Lemma ContainsByteSlice_false l t : ContainsByteSlice l t = false.
Proof. induction l as [|x l IH]; cbn; [done|]. by case_decide. Qed.
