(* ===== verification/State.v ===== *)
(** * The state of the finite state machine ([fsm/state.go] and the protobuf types it stores)

    The types of [lib/.proto], the typed view of the key-value store, and the
    fields of [StateMachine] that the modelled operations read or write. *)
From S2P Require Import Prelude.

(** ** Errors

    One constructor per [Err...()] constructor of [fsm/error.go] and
    [lib/error.go] that the modelled code returns; the payloads of the messages
    are dropped.  [ErrPanic] stands for a Go runtime panic, which [ApplyBlock]
    recovers into [lib.ErrPanic()]. *)
Inductive ErrorI : Type :=
| ErrPanic
| ErrInvalidAmount
| ErrInsufficientFunds
| ErrInsufficientSupply
| ErrIncompatibleVesting
| ErrInvalidVesting
| ErrValidatorNotExists
| ErrValidatorExists
| ErrValidatorPaused
| ErrValidatorNotPaused
| ErrValidatorUnstaking
| ErrValidatorIsADelegate
| ErrStakeBelowMininum
| ErrUnauthorizedTx
| ErrInvalidPublicKey
| ErrInvalidNetAddressLen
| ErrPubKeyFromBytes
| ErrRejectProposal
| ErrNonSubsidizedCommittee
| ErrMinimumOrderSize
| ErrOrderLocked
| ErrOrderNotFound
| ErrInvalidLockOrder
| ErrInvalidLiquidityPool
| ErrZeroLiquidityPool
| ErrPointHolderNotFound
| ErrMaxDexBatchSize
| ErrMismatchDexBatchReceipt
| ErrRemotePoolSizeDebit
| ErrNilBlock
| ErrNoSubsidizedCommittees
| ErrInvalidArgument
| ErrInvalidParam
| ErrUnknownParam
| ErrUnknownParamSpace
| ErrUnknownParamType
| ErrInvalidProtocolVersion
| ErrEmptyConsParams
| ErrEmptyValParams
| ErrEmptyFeeParams
| ErrEmptyGovParams
| ErrEmptyDoubleSigner
| ErrInvalidDoubleSignHeights
| ErrInvalidDoubleSigner
| ErrInvalidQCRootChainHeight
| ErrInvalidQCCommitteeHeight
| ErrInvalidPercentAllocation
| ErrInvalidCheckpoint
| ErrNilCertResults
| ErrNilRewardRecipients
| ErrEmptyView
| ErrInvalidKey
| ErrInvalidSignature
| ErrMaxBlockSize
| ErrDuplicateTx
| ErrMempoolStopSignal
| ErrTxFeeBelowStateLimit
| ErrUnknownMessage
| ErrUnknownMessageName
| ErrInvalidCertificateResults
| ErrNoMaj23
| ErrEmptyOrderBook
| ErrInvalidChainId
| ErrAddressEmpty
| ErrAddressSize
| ErrRecipientAddressEmpty
| ErrRecipientAddressSize
| ErrOutputAddressEmpty
| ErrOutputAddressSize
| ErrPublicKeyEmpty
| ErrPublicKeySize
| ErrInvalidSellOrder
| ErrNotEmpty
| ErrInvalidOpcode
| ErrInvalidNumCommittees
| ErrInvalidBlockRange
| ErrParamKeyEmpty
| ErrParamValueEmpty
| ErrInvalidProposalHash
| ErrDuplicateLockOrder
| ErrInvalidBuyerDeadline
| ErrInvalidCloseOrder
| ErrInvalidStateNetAddress
| ErrEmptyCertificateResults
| ErrInvalidNumOfSamples
| ErrInvalidBlockHash
| ErrInvalidAddress
| ErrNoValidators
| ErrNewMultiPubKey
| ErrEmptyAggregateSignature
| ErrInvalidAggrSignatureLength
| ErrEmptySignerBitmap
| ErrInvalidSignerBitmap
| ErrInvalidAggrSignature
| ErrWrongNetworkID
| ErrWrongChainId
| ErrWrongViewHeight
| ErrWrongRootHeight
| ErrValidatorNotInSet
| ErrInvalidValidatorIndex
| ErrEmptyQuorumCertificate
| ErrMismatchResultsHash
| ErrInvalidResultsHash
| ErrMismatchQCBlockHash
| ErrExpectedMaxBlockSize
| ErrInvalidSigner
| ErrNonNilBlock
| ErrWrongHighQCRootHeight
| ErrWrongHighQCHeight
| ErrWrongPhase
| ErrPaymentRecipientsCount
| ErrEmptyChainId
| ErrNonNilPoolPoints
| ErrTooManyDexOrders
| ErrNilLockOrder
| ErrInvalidBuyerSendAddress
| ErrInvalidBuyerReceiveAddress
| ErrDuplicateResetOrder
| ErrDuplicateCloseOrder
| ErrTooManyDexDeposits
| ErrTooManyDexWithdraws
| ErrTooManyDexReceipts
| ErrUnmarshal
| ErrJSONUnmarshal
| ErrJSONMarshal
| ErrFromAny
| ErrToAny
| ErrMarshal
| ErrStringToBytes
| ErrNilBlockHeader
| ErrInvalidBlockProposerAddress
| ErrWrongLengthBlockHash
| ErrNilBlockTime
| ErrWrongLengthLastBlockHash
| ErrNilNetworkID
| ErrWrongLengthTransactionRoot
| ErrWrongLengthStateRoot
| ErrWrongLengthValidatorRoot
| ErrWrongLengthNextValidatorRoot
| ErrMerkleTree
| ErrUnequalBlockHash
| ErrWrongCertHeight
| ErrMismatchCertBlockHeight
| ErrWrongBlockHeight
| ErrNewHeight
| ErrInvalidRCBuildHeight
| ErrInvalidVDF
| ErrNotSubscribed
| ErrInvalidTxHeight
| ErrInvalidTxTime
| ErrInvalidMemo
| ErrEmptyEvidence
| ErrInvalidEvidence
| ErrInvalidEvidenceHeights
| ErrNonEquivocatingVote
| ErrEvidenceTooOld
| ErrInvalidProposerPubKey
| ErrMismatchEvidenceAndHeader
| ErrInvalidLastQuorumCertificate
| ErrInvalidNetAddrString
| ErrInvalidNetAddressPubKey
| ErrInvalidNetAddress
| ErrWriteFile
| ErrReadFile
| ErrUnknownPageable
| ErrEmptyTransaction
| ErrEmptyMessage
| ErrNoSavedBlockOrResults
| ErrEmptySignature
| ErrMismatchConsBlockHash
| ErrMismatchHeaderBlockHash
| ErrMaxTxSize
| ErrInvalidMessageCast
| ErrNonNilCertResults
| ErrHashSize
| ErrMaxPort
| ErrBadPort
| ErrBadPortLowLimit
| ErrProtoParse
| ErrInvalidParams
| ErrNewStore
| ErrTimeMachine
| ErrPostRequest
| ErrGetRequest
| ErrHttpStatus
| ErrReadBody
| ErrStringToCommittee
| ErrEmptyLotteryWinner
| ErrFailedTransactions
| ErrEmptyEventsTracker
| ErrFailedPluginWrite
| ErrFailedPluginRead
| ErrInvalidPluginToFSMMessage
| ErrInvalidPluginConfig
| ErrInvalidPluginSchema
| ErrInvalidPluginRespId
| ErrUnexpectedPluginToFSM
| ErrPluginTimeout
| ErrInvalidFSMToPluginMessage
| ErrReadGenesisFile
| ErrUnmarshalGenesis
| ErrInvalidTxMessage
| ErrTxSignBytes
| ErrWrongStoreType
| ErrMismatchCertResults
| ErrInvalidSubisdy
| ErrInvalidStartPollHeight
| ErrSlashNonExistentValidator
| ErrInvalidRLPTx
| ErrInvalidERC20Tx
| ErrUnknownConsensusMsg
| ErrDuplicateVote
| ErrDuplicateProposerMessage
| ErrUnableToAddSigner
| ErrPartialSignatureEmpty
| ErrInvalidSignatureLength
| ErrInvalidPartialSignature
| ErrNoSafeNodeJustification
| ErrMismatchPublicKeys
| ErrMismatchedProposals
| ErrFailedSafeNodePredicate
| ErrAggregateSignature
| ErrOpenDB
| ErrCloseDB
| ErrCommitDB
| ErrGarbageCollectDB
| ErrSetEntry
| ErrStoreSet
| ErrStoreDelete
| ErrStoreGet
| ErrFlushBatch
| ErrReserveKeyWrite
| ErrInvalidMerkleTree
| ErrInvalidMerkleTreeProof
| ErrReadBytes
| ErrIndexBlock.

(** [Account] of [account.proto]. *)
Record Account : Type := MkAccount {
  acc_Address : bytes;
  acc_Amount : Z;
  VestingAmount : Z;
  VestingStartHeight : Z;
  VestingCliffHeight : Z;
  VestingEndHeight : Z;
}.
#[export] Instance Account_eq_dec : EqDecision Account.
Proof. solve_decision. Defined.
Definition set_acc_Address (v : bytes) (r : Account) : Account :=
  MkAccount v (acc_Amount r) (VestingAmount r) (VestingStartHeight r) (VestingCliffHeight r)
    (VestingEndHeight r).
Definition set_acc_Amount (v : Z) (r : Account) : Account :=
  MkAccount (acc_Address r) v (VestingAmount r) (VestingStartHeight r) (VestingCliffHeight r)
    (VestingEndHeight r).
Definition set_VestingAmount (v : Z) (r : Account) : Account :=
  MkAccount (acc_Address r) (acc_Amount r) v (VestingStartHeight r) (VestingCliffHeight r)
    (VestingEndHeight r).

(** [PoolPoints] of [dex.proto]: a liquidity provider's share. *)
Record PoolPoints : Type := MkPoolPoints {
  pp_Address : bytes;
  pp_Points : Z;
}.
#[export] Instance PoolPoints_eq_dec : EqDecision PoolPoints.
Proof. solve_decision. Defined.

(** [Pool] of [account.proto]. *)
Record Pool : Type := MkPool {
  pool_Id : Z;
  pool_Amount : Z;
  pool_Points : list PoolPoints;
  TotalPoolPoints : Z;
}.
#[export] Instance Pool_eq_dec : EqDecision Pool.
Proof. solve_decision. Defined.
Definition set_pool_Id (v : Z) (r : Pool) : Pool :=
  MkPool v (pool_Amount r) (pool_Points r) (TotalPoolPoints r).
Definition set_pool_Amount (v : Z) (r : Pool) : Pool :=
  MkPool (pool_Id r) v (pool_Points r) (TotalPoolPoints r).
Definition set_pool_Points (v : list PoolPoints) (r : Pool) : Pool :=
  MkPool (pool_Id r) (pool_Amount r) v (TotalPoolPoints r).
Definition set_TotalPoolPoints (v : Z) (r : Pool) : Pool :=
  MkPool (pool_Id r) (pool_Amount r) (pool_Points r) v.

(** [Supply] of [account.proto]: the supply tracker. *)
Record Supply : Type := MkSupply {
  Total : Z;
  Staked : Z;
  DelegatedOnly : Z;
  CommitteeStaked : list Pool;
  CommitteeDelegatedOnly : list Pool;
}.
#[export] Instance Supply_eq_dec : EqDecision Supply.
Proof. solve_decision. Defined.
Definition set_Total (v : Z) (r : Supply) : Supply :=
  MkSupply v (Staked r) (DelegatedOnly r) (CommitteeStaked r) (CommitteeDelegatedOnly r).
Definition set_Staked (v : Z) (r : Supply) : Supply :=
  MkSupply (Total r) v (DelegatedOnly r) (CommitteeStaked r) (CommitteeDelegatedOnly r).
Definition set_DelegatedOnly (v : Z) (r : Supply) : Supply :=
  MkSupply (Total r) (Staked r) v (CommitteeStaked r) (CommitteeDelegatedOnly r).
Definition set_CommitteeStaked (v : list Pool) (r : Supply) : Supply :=
  MkSupply (Total r) (Staked r) (DelegatedOnly r) v (CommitteeDelegatedOnly r).
Definition set_CommitteeDelegatedOnly (v : list Pool) (r : Supply) : Supply :=
  MkSupply (Total r) (Staked r) (DelegatedOnly r) (CommitteeStaked r) v.

(** [Validator] of [validator.proto]. *)
Record Validator : Type := MkValidator {
  val_Address : bytes;
  val_PublicKey : bytes;
  val_NetAddress : string;
  StakedAmount : Z;
  Committees : list Z;
  MaxPausedHeight : Z;
  UnstakingHeight : Z;
  val_Output : bytes;
  Delegate : bool;
  Compound : bool;
}.
#[export] Instance Validator_eq_dec : EqDecision Validator.
Proof. solve_decision. Defined.
Definition set_val_Address (v : bytes) (r : Validator) : Validator :=
  MkValidator v (val_PublicKey r) (val_NetAddress r) (StakedAmount r) (Committees r)
    (MaxPausedHeight r) (UnstakingHeight r) (val_Output r) (Delegate r) (Compound r).
Definition set_StakedAmount (v : Z) (r : Validator) : Validator :=
  MkValidator (val_Address r) (val_PublicKey r) (val_NetAddress r) v (Committees r) (MaxPausedHeight
    r) (UnstakingHeight r) (val_Output r) (Delegate r) (Compound r).
Definition set_Committees (v : list Z) (r : Validator) : Validator :=
  MkValidator (val_Address r) (val_PublicKey r) (val_NetAddress r) (StakedAmount r) v
    (MaxPausedHeight r) (UnstakingHeight r) (val_Output r) (Delegate r) (Compound r).
Definition set_MaxPausedHeight (v : Z) (r : Validator) : Validator :=
  MkValidator (val_Address r) (val_PublicKey r) (val_NetAddress r) (StakedAmount r) (Committees r) v
    (UnstakingHeight r) (val_Output r) (Delegate r) (Compound r).
Definition set_UnstakingHeight (v : Z) (r : Validator) : Validator :=
  MkValidator (val_Address r) (val_PublicKey r) (val_NetAddress r) (StakedAmount r) (Committees r)
    (MaxPausedHeight r) v (val_Output r) (Delegate r) (Compound r).

(** [NonSigner] of [validator.proto]; the address is in the key. *)
Record NonSigner : Type := MkNonSigner {
  ns_Counter : Z;
  ChainCounters : list (Z * Z); (* (chain id, counter) *)
}.
#[export] Instance NonSigner_eq_dec : EqDecision NonSigner.
Proof. solve_decision. Defined.

(** [ConsensusParams] of [gov.proto]. *)
Record ConsensusParams : Type := MkConsensusParams {
  BlockSize : Z;
  ProtocolVersion : string;
  RootChainId : Z;
  cons_Retired : Z;
  ResetCommittee : Z;
}.
#[export] Instance ConsensusParams_eq_dec : EqDecision ConsensusParams.
Proof. solve_decision. Defined.
Definition set_BlockSize (v : Z) (r : ConsensusParams) : ConsensusParams :=
  MkConsensusParams v (ProtocolVersion r) (RootChainId r) (cons_Retired r) (ResetCommittee r).
Definition set_ProtocolVersion (v : string) (r : ConsensusParams) : ConsensusParams :=
  MkConsensusParams (BlockSize r) v (RootChainId r) (cons_Retired r) (ResetCommittee r).
Definition set_RootChainId (v : Z) (r : ConsensusParams) : ConsensusParams :=
  MkConsensusParams (BlockSize r) (ProtocolVersion r) v (cons_Retired r) (ResetCommittee r).
Definition set_cons_Retired (v : Z) (r : ConsensusParams) : ConsensusParams :=
  MkConsensusParams (BlockSize r) (ProtocolVersion r) (RootChainId r) v (ResetCommittee r).
Definition set_ResetCommittee (v : Z) (r : ConsensusParams) : ConsensusParams :=
  MkConsensusParams (BlockSize r) (ProtocolVersion r) (RootChainId r) (cons_Retired r) v.

(** [ValidatorParams] of [gov.proto]. *)
Record ValidatorParams : Type := MkValidatorParams {
  UnstakingBlocks : Z;
  MaxPauseBlocks : Z;
  DoubleSignSlashPercentage : Z;
  NonSignSlashPercentage : Z;
  MaxNonSign : Z;
  NonSignWindow : Z;
  MaxCommittees : Z;
  MaxCommitteeSize : Z;
  EarlyWithdrawalPenalty : Z;
  DelegateUnstakingBlocks : Z;
  MinimumOrderSize : Z;
  StakePercentForSubsidizedCommittee : Z;
  MaxSlashPerCommittee : Z;
  DelegateRewardPercentage : Z;
  BuyDeadlineBlocks : Z;
  LockOrderFeeMultiplier : Z;
  MinimumStakeForValidators : Z;
  MinimumStakeForDelegates : Z;
  MaximumDelegatesPerCommittee : Z;
}.
#[export] Instance ValidatorParams_eq_dec : EqDecision ValidatorParams.
Proof. solve_decision. Defined.

(** [FeeParams] of [gov.proto]. *)
Record FeeParams : Type := MkFeeParams {
  SendFee : Z;
  StakeFee : Z;
  EditStakeFee : Z;
  UnstakeFee : Z;
  PauseFee : Z;
  UnpauseFee : Z;
  ChangeParameterFee : Z;
  DaoTransferFee : Z;
  CertificateResultsFee : Z;
  SubsidyFee : Z;
  CreateOrderFee : Z;
  EditOrderFee : Z;
  DeleteOrderFee : Z;
  DexLimitOrderFee : Z;
  DexLiquidityDepositFee : Z;
  DexLiquidityWithdrawFee : Z;
}.
#[export] Instance FeeParams_eq_dec : EqDecision FeeParams.
Proof. solve_decision. Defined.

(** [GovernanceParams] of [gov.proto]. *)
Record GovernanceParams : Type := MkGovernanceParams {
  DaoRewardPercentage : Z;
}.
#[export] Instance GovernanceParams_eq_dec : EqDecision GovernanceParams.
Proof. solve_decision. Defined.

(** [PaymentPercents] of [certificate.proto]. *)
Record PaymentPercents : Type := MkPaymentPercents {
  pay_Address : bytes;
  pay_Percent : Z;
  pay_ChainId : Z;
}.
#[export] Instance PaymentPercents_eq_dec : EqDecision PaymentPercents.
Proof. solve_decision. Defined.
Definition set_pay_Percent (v : Z) (r : PaymentPercents) : PaymentPercents :=
  MkPaymentPercents (pay_Address r) v (pay_ChainId r).

(** [CommitteeData] of [certificate.proto]. *)
Record CommitteeData : Type := MkCommitteeData {
  cd_ChainId : Z;
  LastRootHeightUpdated : Z;
  LastChainHeightUpdated : Z;
  cd_PaymentPercents : list PaymentPercents;
  NumberOfSamples : Z;
}.
#[export] Instance CommitteeData_eq_dec : EqDecision CommitteeData.
Proof. solve_decision. Defined.
Definition set_LastRootHeightUpdated (v : Z) (r : CommitteeData) : CommitteeData :=
  MkCommitteeData (cd_ChainId r) v (LastChainHeightUpdated r) (cd_PaymentPercents r)
    (NumberOfSamples r).
Definition set_cd_PaymentPercents (v : list PaymentPercents) (r : CommitteeData) : CommitteeData :=
  MkCommitteeData (cd_ChainId r) (LastRootHeightUpdated r) (LastChainHeightUpdated r) v
    (NumberOfSamples r).

(** [SellOrder] of [swap.proto]. *)
Record SellOrder : Type := MkSellOrder {
  order_Id : bytes;
  Committee : Z;
  order_Data : bytes;
  AmountForSale : Z;
  RequestedAmount : Z;
  SellerReceiveAddress : bytes;
  BuyerSendAddress : bytes;
  BuyerReceiveAddress : bytes;
  BuyerChainDeadline : Z;
  SellersSendAddress : bytes;
}.
#[export] Instance SellOrder_eq_dec : EqDecision SellOrder.
Proof. solve_decision. Defined.

(** [DexLimitOrder] of [dex.proto]. *)
Record DexLimitOrder : Type := MkDexLimitOrder {
  dlo_AmountForSale : Z;
  dlo_RequestedAmount : Z;
  dlo_Address : bytes;
  dlo_OrderId : bytes;
}.
#[export] Instance DexLimitOrder_eq_dec : EqDecision DexLimitOrder.
Proof. solve_decision. Defined.

(** [DexLiquidityDeposit] of [dex.proto]. *)
Record DexLiquidityDeposit : Type := MkDexLiquidityDeposit {
  dep_Address : bytes;
  dep_Amount : Z;
  dep_OrderId : bytes;
}.
#[export] Instance DexLiquidityDeposit_eq_dec : EqDecision DexLiquidityDeposit.
Proof. solve_decision. Defined.

(** [DexLiquidityWithdraw] of [dex.proto]. *)
Record DexLiquidityWithdraw : Type := MkDexLiquidityWithdraw {
  wd_Address : bytes;
  wd_Percent : Z;
  wd_OrderId : bytes;
}.
#[export] Instance DexLiquidityWithdraw_eq_dec : EqDecision DexLiquidityWithdraw.
Proof. solve_decision. Defined.

(** [DexBatch] of [dex.proto]. *)
Record DexBatch : Type := MkDexBatch {
  db_Committee : Z;
  ReceiptHash : bytes;
  db_Orders : list DexLimitOrder;
  Deposits : list DexLiquidityDeposit;
  Withdrawals : list DexLiquidityWithdraw;
  PoolSize : Z;
  CounterPoolSize : Z;
  db_PoolPoints : list PoolPoints;
  db_TotalPoolPoints : Z;
  Receipts : list Z;
  LockedHeight : Z;
  LivenessFallback : bool;
}.
#[export] Instance DexBatch_eq_dec : EqDecision DexBatch.
Proof. solve_decision. Defined.
Definition set_db_Committee (v : Z) (r : DexBatch) : DexBatch :=
  MkDexBatch v (ReceiptHash r) (db_Orders r) (Deposits r) (Withdrawals r) (PoolSize r)
    (CounterPoolSize r) (db_PoolPoints r) (db_TotalPoolPoints r) (Receipts r) (LockedHeight r)
    (LivenessFallback r).
Definition set_ReceiptHash (v : bytes) (r : DexBatch) : DexBatch :=
  MkDexBatch (db_Committee r) v (db_Orders r) (Deposits r) (Withdrawals r) (PoolSize r)
    (CounterPoolSize r) (db_PoolPoints r) (db_TotalPoolPoints r) (Receipts r) (LockedHeight r)
    (LivenessFallback r).
Definition set_db_Orders (v : list DexLimitOrder) (r : DexBatch) : DexBatch :=
  MkDexBatch (db_Committee r) (ReceiptHash r) v (Deposits r) (Withdrawals r) (PoolSize r)
    (CounterPoolSize r) (db_PoolPoints r) (db_TotalPoolPoints r) (Receipts r) (LockedHeight r)
    (LivenessFallback r).
Definition set_Deposits (v : list DexLiquidityDeposit) (r : DexBatch) : DexBatch :=
  MkDexBatch (db_Committee r) (ReceiptHash r) (db_Orders r) v (Withdrawals r) (PoolSize r)
    (CounterPoolSize r) (db_PoolPoints r) (db_TotalPoolPoints r) (Receipts r) (LockedHeight r)
    (LivenessFallback r).
Definition set_Withdrawals (v : list DexLiquidityWithdraw) (r : DexBatch) : DexBatch :=
  MkDexBatch (db_Committee r) (ReceiptHash r) (db_Orders r) (Deposits r) v (PoolSize r)
    (CounterPoolSize r) (db_PoolPoints r) (db_TotalPoolPoints r) (Receipts r) (LockedHeight r)
    (LivenessFallback r).
Definition set_PoolSize (v : Z) (r : DexBatch) : DexBatch :=
  MkDexBatch (db_Committee r) (ReceiptHash r) (db_Orders r) (Deposits r) (Withdrawals r) v
    (CounterPoolSize r) (db_PoolPoints r) (db_TotalPoolPoints r) (Receipts r) (LockedHeight r)
    (LivenessFallback r).
Definition set_CounterPoolSize (v : Z) (r : DexBatch) : DexBatch :=
  MkDexBatch (db_Committee r) (ReceiptHash r) (db_Orders r) (Deposits r) (Withdrawals r) (PoolSize
    r) v (db_PoolPoints r) (db_TotalPoolPoints r) (Receipts r) (LockedHeight r) (LivenessFallback
    r).
Definition set_db_PoolPoints (v : list PoolPoints) (r : DexBatch) : DexBatch :=
  MkDexBatch (db_Committee r) (ReceiptHash r) (db_Orders r) (Deposits r) (Withdrawals r) (PoolSize
    r) (CounterPoolSize r) v (db_TotalPoolPoints r) (Receipts r) (LockedHeight r) (LivenessFallback
    r).
Definition set_db_TotalPoolPoints (v : Z) (r : DexBatch) : DexBatch :=
  MkDexBatch (db_Committee r) (ReceiptHash r) (db_Orders r) (Deposits r) (Withdrawals r) (PoolSize
    r) (CounterPoolSize r) (db_PoolPoints r) v (Receipts r) (LockedHeight r) (LivenessFallback r).
Definition set_Receipts (v : list Z) (r : DexBatch) : DexBatch :=
  MkDexBatch (db_Committee r) (ReceiptHash r) (db_Orders r) (Deposits r) (Withdrawals r) (PoolSize
    r) (CounterPoolSize r) (db_PoolPoints r) (db_TotalPoolPoints r) v (LockedHeight r)
    (LivenessFallback r).
Definition set_LockedHeight (v : Z) (r : DexBatch) : DexBatch :=
  MkDexBatch (db_Committee r) (ReceiptHash r) (db_Orders r) (Deposits r) (Withdrawals r) (PoolSize
    r) (CounterPoolSize r) (db_PoolPoints r) (db_TotalPoolPoints r) (Receipts r) v (LivenessFallback
    r).
Definition set_LivenessFallback (v : bool) (r : DexBatch) : DexBatch :=
  MkDexBatch (db_Committee r) (ReceiptHash r) (db_Orders r) (Deposits r) (Withdrawals r) (PoolSize
    r) (CounterPoolSize r) (db_PoolPoints r) (db_TotalPoolPoints r) (Receipts r) (LockedHeight r) v.

(** The events of [fsm/event.go], with the address and chain id of the envelope. *)
Inductive Event : Type :=
| EventReward (address : bytes) (amount chainId : Z)
| EventSlash (address : bytes) (amount : Z)
| EventAutoPause (address : bytes)
| EventAutoBeginUnstaking (address : bytes)
| EventFinishUnstaking (address : bytes)
| EventOrderBookSwap (order : SellOrder)
| EventOrderBookLock (order : SellOrder)
| EventOrderBookReset (order : SellOrder)
| EventDexSwap (address orderId : bytes) (sold bought chainId : Z) (localOrigin success : bool)
| EventDexLiquidityDeposit (address orderId : bytes) (amount points chainId : Z) (localOrigin : bool)
| EventDexLiquidityWithdraw (address orderId : bytes) (localAmount remoteAmount points chainId : Z).

(** ** The store

    The typed view of the key-value store: one field per key prefix of
    [fsm/key.go], plus the indexer entries the state machine reads. The codec
    file [Keys] justifies the view: keys of different prefixes differ and a key
    determines its components. *)
(** The key-value store. *)
Record Store : Type := MkStore {
  accounts : gmap bytes Account; (* accountPrefix *)
  pools : gmap Z Pool; (* poolPrefix *)
  validators : gmap bytes Validator; (* validatorPrefix *)
  committee_index : gset (Z * Z * bytes); (* committeePrefix: chain, stake, address *)
  delegate_index : gset (Z * Z * bytes); (* delegatePrefix *)
  unstaking : gset (Z * bytes); (* unstakePrefix: height, address *)
  paused : gset (Z * bytes); (* pausedPrefix *)
  params_cons : option ConsensusParams; (* paramsPrefix, four spaces *)
  params_val : option ValidatorParams;
  params_fee : option FeeParams;
  params_gov : option GovernanceParams;
  non_signers : gmap bytes NonSigner; (* nonSignerPrefix *)
  last_proposers : list bytes; (* lastProposersPrefix *)
  supply : Supply; (* supplyPrefix *)
  committees_data : list CommitteeData; (* committeesDataPrefix *)
  orders : gmap (Z * bytes) SellOrder; (* orderBookPrefix: chain, order id *)
  retired : gset Z; (* retiredCommitteePrefix *)
  locked_batch : gmap Z DexBatch; (* dexPrefix, lockedBatchSegment *)
  next_batch : gmap Z DexBatch; (* dexPrefix, nextBatchSement *)
  double_signers : gset (bytes * Z); (* indexer: address, height *)
  checkpoints : gmap (Z * Z) bytes; (* indexer: chain, height *)
  block_hashes : gmap Z bytes; (* indexer: the header hash of the block at a height *)
}.
Definition set_accounts (v : gmap bytes Account) (r : Store) : Store :=
  MkStore v (pools r) (validators r) (committee_index r) (delegate_index r) (unstaking r) (paused r)
    (params_cons r) (params_val r) (params_fee r) (params_gov r) (non_signers r) (last_proposers r)
    (supply r) (committees_data r) (orders r) (retired r) (locked_batch r) (next_batch r)
    (double_signers r) (checkpoints r) (block_hashes r).
Definition set_pools (v : gmap Z Pool) (r : Store) : Store :=
  MkStore (accounts r) v (validators r) (committee_index r) (delegate_index r) (unstaking r) (paused
    r) (params_cons r) (params_val r) (params_fee r) (params_gov r) (non_signers r) (last_proposers
    r) (supply r) (committees_data r) (orders r) (retired r) (locked_batch r) (next_batch r)
    (double_signers r) (checkpoints r) (block_hashes r).
Definition set_validators (v : gmap bytes Validator) (r : Store) : Store :=
  MkStore (accounts r) (pools r) v (committee_index r) (delegate_index r) (unstaking r) (paused r)
    (params_cons r) (params_val r) (params_fee r) (params_gov r) (non_signers r) (last_proposers r)
    (supply r) (committees_data r) (orders r) (retired r) (locked_batch r) (next_batch r)
    (double_signers r) (checkpoints r) (block_hashes r).
Definition set_committee_index (v : gset (Z * Z * bytes)) (r : Store) : Store :=
  MkStore (accounts r) (pools r) (validators r) v (delegate_index r) (unstaking r) (paused r)
    (params_cons r) (params_val r) (params_fee r) (params_gov r) (non_signers r) (last_proposers r)
    (supply r) (committees_data r) (orders r) (retired r) (locked_batch r) (next_batch r)
    (double_signers r) (checkpoints r) (block_hashes r).
Definition set_delegate_index (v : gset (Z * Z * bytes)) (r : Store) : Store :=
  MkStore (accounts r) (pools r) (validators r) (committee_index r) v (unstaking r) (paused r)
    (params_cons r) (params_val r) (params_fee r) (params_gov r) (non_signers r) (last_proposers r)
    (supply r) (committees_data r) (orders r) (retired r) (locked_batch r) (next_batch r)
    (double_signers r) (checkpoints r) (block_hashes r).
Definition set_unstaking (v : gset (Z * bytes)) (r : Store) : Store :=
  MkStore (accounts r) (pools r) (validators r) (committee_index r) (delegate_index r) v (paused r)
    (params_cons r) (params_val r) (params_fee r) (params_gov r) (non_signers r) (last_proposers r)
    (supply r) (committees_data r) (orders r) (retired r) (locked_batch r) (next_batch r)
    (double_signers r) (checkpoints r) (block_hashes r).
Definition set_paused (v : gset (Z * bytes)) (r : Store) : Store :=
  MkStore (accounts r) (pools r) (validators r) (committee_index r) (delegate_index r) (unstaking r)
    v (params_cons r) (params_val r) (params_fee r) (params_gov r) (non_signers r) (last_proposers
    r) (supply r) (committees_data r) (orders r) (retired r) (locked_batch r) (next_batch r)
    (double_signers r) (checkpoints r) (block_hashes r).
Definition set_params_cons (v : option ConsensusParams) (r : Store) : Store :=
  MkStore (accounts r) (pools r) (validators r) (committee_index r) (delegate_index r) (unstaking r)
    (paused r) v (params_val r) (params_fee r) (params_gov r) (non_signers r) (last_proposers r)
    (supply r) (committees_data r) (orders r) (retired r) (locked_batch r) (next_batch r)
    (double_signers r) (checkpoints r) (block_hashes r).
Definition set_params_val (v : option ValidatorParams) (r : Store) : Store :=
  MkStore (accounts r) (pools r) (validators r) (committee_index r) (delegate_index r) (unstaking r)
    (paused r) (params_cons r) v (params_fee r) (params_gov r) (non_signers r) (last_proposers r)
    (supply r) (committees_data r) (orders r) (retired r) (locked_batch r) (next_batch r)
    (double_signers r) (checkpoints r) (block_hashes r).
Definition set_params_fee (v : option FeeParams) (r : Store) : Store :=
  MkStore (accounts r) (pools r) (validators r) (committee_index r) (delegate_index r) (unstaking r)
    (paused r) (params_cons r) (params_val r) v (params_gov r) (non_signers r) (last_proposers r)
    (supply r) (committees_data r) (orders r) (retired r) (locked_batch r) (next_batch r)
    (double_signers r) (checkpoints r) (block_hashes r).
Definition set_params_gov (v : option GovernanceParams) (r : Store) : Store :=
  MkStore (accounts r) (pools r) (validators r) (committee_index r) (delegate_index r) (unstaking r)
    (paused r) (params_cons r) (params_val r) (params_fee r) v (non_signers r) (last_proposers r)
    (supply r) (committees_data r) (orders r) (retired r) (locked_batch r) (next_batch r)
    (double_signers r) (checkpoints r) (block_hashes r).
Definition set_non_signers (v : gmap bytes NonSigner) (r : Store) : Store :=
  MkStore (accounts r) (pools r) (validators r) (committee_index r) (delegate_index r) (unstaking r)
    (paused r) (params_cons r) (params_val r) (params_fee r) (params_gov r) v (last_proposers r)
    (supply r) (committees_data r) (orders r) (retired r) (locked_batch r) (next_batch r)
    (double_signers r) (checkpoints r) (block_hashes r).
Definition set_last_proposers (v : list bytes) (r : Store) : Store :=
  MkStore (accounts r) (pools r) (validators r) (committee_index r) (delegate_index r) (unstaking r)
    (paused r) (params_cons r) (params_val r) (params_fee r) (params_gov r) (non_signers r) v
    (supply r) (committees_data r) (orders r) (retired r) (locked_batch r) (next_batch r)
    (double_signers r) (checkpoints r) (block_hashes r).
Definition set_supply (v : Supply) (r : Store) : Store :=
  MkStore (accounts r) (pools r) (validators r) (committee_index r) (delegate_index r) (unstaking r)
    (paused r) (params_cons r) (params_val r) (params_fee r) (params_gov r) (non_signers r)
    (last_proposers r) v (committees_data r) (orders r) (retired r) (locked_batch r) (next_batch r)
    (double_signers r) (checkpoints r) (block_hashes r).
Definition set_committees_data (v : list CommitteeData) (r : Store) : Store :=
  MkStore (accounts r) (pools r) (validators r) (committee_index r) (delegate_index r) (unstaking r)
    (paused r) (params_cons r) (params_val r) (params_fee r) (params_gov r) (non_signers r)
    (last_proposers r) (supply r) v (orders r) (retired r) (locked_batch r) (next_batch r)
    (double_signers r) (checkpoints r) (block_hashes r).
Definition set_orders (v : gmap (Z * bytes) SellOrder) (r : Store) : Store :=
  MkStore (accounts r) (pools r) (validators r) (committee_index r) (delegate_index r) (unstaking r)
    (paused r) (params_cons r) (params_val r) (params_fee r) (params_gov r) (non_signers r)
    (last_proposers r) (supply r) (committees_data r) v (retired r) (locked_batch r) (next_batch r)
    (double_signers r) (checkpoints r) (block_hashes r).
Definition set_retired (v : gset Z) (r : Store) : Store :=
  MkStore (accounts r) (pools r) (validators r) (committee_index r) (delegate_index r) (unstaking r)
    (paused r) (params_cons r) (params_val r) (params_fee r) (params_gov r) (non_signers r)
    (last_proposers r) (supply r) (committees_data r) (orders r) v (locked_batch r) (next_batch r)
    (double_signers r) (checkpoints r) (block_hashes r).
Definition set_locked_batch (v : gmap Z DexBatch) (r : Store) : Store :=
  MkStore (accounts r) (pools r) (validators r) (committee_index r) (delegate_index r) (unstaking r)
    (paused r) (params_cons r) (params_val r) (params_fee r) (params_gov r) (non_signers r)
    (last_proposers r) (supply r) (committees_data r) (orders r) (retired r) v (next_batch r)
    (double_signers r) (checkpoints r) (block_hashes r).
Definition set_next_batch (v : gmap Z DexBatch) (r : Store) : Store :=
  MkStore (accounts r) (pools r) (validators r) (committee_index r) (delegate_index r) (unstaking r)
    (paused r) (params_cons r) (params_val r) (params_fee r) (params_gov r) (non_signers r)
    (last_proposers r) (supply r) (committees_data r) (orders r) (retired r) (locked_batch r) v
    (double_signers r) (checkpoints r) (block_hashes r).
Definition set_double_signers (v : gset (bytes * Z)) (r : Store) : Store :=
  MkStore (accounts r) (pools r) (validators r) (committee_index r) (delegate_index r) (unstaking r)
    (paused r) (params_cons r) (params_val r) (params_fee r) (params_gov r) (non_signers r)
    (last_proposers r) (supply r) (committees_data r) (orders r) (retired r) (locked_batch r)
    (next_batch r) v (checkpoints r) (block_hashes r).
Definition set_checkpoints (v : gmap (Z * Z) bytes) (r : Store) : Store :=
  MkStore (accounts r) (pools r) (validators r) (committee_index r) (delegate_index r) (unstaking r)
    (paused r) (params_cons r) (params_val r) (params_fee r) (params_gov r) (non_signers r)
    (last_proposers r) (supply r) (committees_data r) (orders r) (retired r) (locked_batch r)
    (next_batch r) (double_signers r) v (block_hashes r).
Definition set_block_hashes (v : gmap Z bytes) (r : Store) : Store :=
  MkStore (accounts r) (pools r) (validators r) (committee_index r) (delegate_index r) (unstaking r)
    (paused r) (params_cons r) (params_val r) (params_fee r) (params_gov r) (non_signers r)
    (last_proposers r) (supply r) (committees_data r) (orders r) (retired r) (locked_batch r)
    (next_batch r) (double_signers r) (checkpoints r) v.

(** The part of [lib.Config] the state machine reads. *)
Record Config : Type := MkConfig {
  ChainId : Z;
  BlocksPerHalvening : Z;
  InitialTokensPerBlock : Z;
  FaucetAddress : string;
}.

(** [StateMachine]: the store and the fields that are not part of it.
    The account cache is keyed by the address itself, i.e. [lib.MemHash] is taken to be injective. *)
Record FSM : Type := MkFSM {
  store : Store;
  height : Z;
  fsm_ProtocolVersion : Z;
  slashTracker : gmap bytes (gmap Z Z);
  cache_accounts : gmap bytes Account;
  cache_valParams : option ValidatorParams;
  cache_feeParams : option FeeParams;
  cache_rootDexBatch : option DexBatch;
  events : list Event;
  config : Config;
}.
Definition set_store (v : Store) (r : FSM) : FSM :=
  MkFSM v (height r) (fsm_ProtocolVersion r) (slashTracker r) (cache_accounts r) (cache_valParams r)
    (cache_feeParams r) (cache_rootDexBatch r) (events r) (config r).
Definition set_height (v : Z) (r : FSM) : FSM :=
  MkFSM (store r) v (fsm_ProtocolVersion r) (slashTracker r) (cache_accounts r) (cache_valParams r)
    (cache_feeParams r) (cache_rootDexBatch r) (events r) (config r).
Definition set_slashTracker (v : gmap bytes (gmap Z Z)) (r : FSM) : FSM :=
  MkFSM (store r) (height r) (fsm_ProtocolVersion r) v (cache_accounts r) (cache_valParams r)
    (cache_feeParams r) (cache_rootDexBatch r) (events r) (config r).
Definition set_cache_accounts (v : gmap bytes Account) (r : FSM) : FSM :=
  MkFSM (store r) (height r) (fsm_ProtocolVersion r) (slashTracker r) v (cache_valParams r)
    (cache_feeParams r) (cache_rootDexBatch r) (events r) (config r).
Definition set_cache_valParams (v : option ValidatorParams) (r : FSM) : FSM :=
  MkFSM (store r) (height r) (fsm_ProtocolVersion r) (slashTracker r) (cache_accounts r) v
    (cache_feeParams r) (cache_rootDexBatch r) (events r) (config r).
Definition set_cache_feeParams (v : option FeeParams) (r : FSM) : FSM :=
  MkFSM (store r) (height r) (fsm_ProtocolVersion r) (slashTracker r) (cache_accounts r)
    (cache_valParams r) v (cache_rootDexBatch r) (events r) (config r).
Definition set_cache_rootDexBatch (v : option DexBatch) (r : FSM) : FSM :=
  MkFSM (store r) (height r) (fsm_ProtocolVersion r) (slashTracker r) (cache_accounts r)
    (cache_valParams r) (cache_feeParams r) v (events r) (config r).
Definition set_events (v : list Event) (r : FSM) : FSM :=
  MkFSM (store r) (height r) (fsm_ProtocolVersion r) (slashTracker r) (cache_accounts r)
    (cache_valParams r) (cache_feeParams r) (cache_rootDexBatch r) v (config r).

(** A Go method on [*StateMachine]. *)
Abbreviation F A := (M FSM ErrorI A).

(** Write through to the store. *)
Definition upd (f : Store → Store) : F unit := modify (λ s, set_store (f (store s)) s).
Definition getst {A} (f : Store → A) : F A := gets (λ s, f (store s)).

(** [addEvent]: append to the tracker; [EventsTracker.Add] fails only on a nil tracker. *)
Definition addEvent (e : Event) : F unit := modify (λ s, set_events (events s ++ [e]) s).
Definition Height : F Z := gets height.

(** Evaluate the monad's plumbing. *)
Ltac runs :=
  cbv beta iota zeta delta [mbind M_bind mret M_ret gets modify throw fail_if when try swallow
    upd getst addEvent Height].
Tactic Notation "runs" "in" hyp(H) :=
  cbv beta iota zeta delta [mbind M_bind mret M_ret gets modify throw fail_if when try swallow
    upd getst addEvent Height] in H.
