(* ===== verification/Ledger.v ===== *)
(** * The books: what the store owes and what it holds

    The double-entry view of the store used to state conservation.  For a fixed
    committee [c] the record [gaps] collects seven differences between a counter
    the code maintains and the sum it stands for; an operation is specified by
    the amounts it posts to them. *)
From S2P Require Import Prelude LibUtil State.

(** [fsm/key.go]: pool id ranges.  [MaxUint16 / 4] is an integer constant
    division in Go, so the addends are not exact multiples of each other. *)
Definition MaxUint16 : Z := 65535.
Definition MaxChainId : Z := MaxUint16 / 4.
Definition HoldingPoolAddend : Z := 1 * MaxUint16 / 4.
Definition LiquidityPoolAddend : Z := 2 * MaxUint16 / 4.
Definition EscrowPoolAddend : Z := 4 * MaxUint16 / 4.
(** [lib/config.go] *)
Definition UnknownChainId : Z := 0.
Definition DAOPoolID : Z := 2 * MaxUint16 + 1.

Definition holding_id (c : Z) : Z := u64_add c HoldingPoolAddend.
Definition liquidity_id (c : Z) : Z := u64_add c LiquidityPoolAddend.
Definition escrow_id (c : Z) : Z := u64_add c EscrowPoolAddend.

(** A chain id that can be staked for. *)
Definition valid_chain (c : Z) : Prop := 0 < c <= MaxChainId.

(** ** Balances *)

Definition acc_bal (st : Store) (a : bytes) : Z :=
  match accounts st !! a with Some acc => acc_Amount acc | None => 0 end.
Definition pool_bal (st : Store) (id : Z) : Z :=
  match pools st !! id with Some p => pool_Amount p | None => 0 end.
(** What a supply list ([CommitteeStaked], [CommitteeDelegatedOnly]) records for [c]. *)
Definition listed (c : Z) (l : list Pool) : Z :=
  list_sum (λ p, if pool_Id p =? c then pool_Amount p else 0) l.
Arguments listed : simpl never.
Definition times (c : Z) (ids : list Z) : Z :=
  list_sum (λ i, if i =? c then 1 else 0) ids.

Definition deleg_stake (v : Validator) : Z := if Delegate v then StakedAmount v else 0.
Definition comm_stake (c : Z) (v : Validator) : Z := times c (Committees v) * StakedAmount v.
Definition commdel_stake (c : Z) (v : Validator) : Z := times c (Committees v) * deleg_stake v.

Definition order_due (c : Z) (k : Z * bytes) (o : SellOrder) : Z :=
  if fst k =? c then AmountForSale o else 0.
Definition batch_due (b : DexBatch) : Z :=
  list_sum dlo_AmountForSale (db_Orders b) + list_sum dep_Amount (Deposits b).

Definition sum_accounts (st : Store) : Z := map_sum (λ _, acc_Amount) (accounts st).
Definition sum_pools (st : Store) : Z := map_sum (λ _, pool_Amount) (pools st).
Definition sum_stakes (st : Store) : Z := map_sum (λ _, StakedAmount) (validators st).
(** All the tokens the store holds. *)
Definition held (st : Store) : Z := sum_accounts st + sum_pools st + sum_stakes st.

(** ** Gaps *)

Record gaps : Type := Gaps {
  g_total : Z;    (* Supply.Total - tokens held *)
  g_staked : Z;   (* Supply.Staked - sum of the stakes *)
  g_deleg : Z;    (* Supply.DelegatedOnly - sum of the delegates' stakes *)
  g_comm : Z;     (* Supply.CommitteeStaked[c] - stake committed to c *)
  g_commdel : Z;  (* Supply.CommitteeDelegatedOnly[c] - stake delegated to c *)
  g_escrow : Z;   (* escrow pool of c - open sell orders of c *)
  g_holding : Z;  (* holding pool of c - orders and deposits in the dex batches of c *)
}.
Definition g_add (g d : gaps) : gaps :=
  Gaps (g_total g + g_total d) (g_staked g + g_staked d) (g_deleg g + g_deleg d)
    (g_comm g + g_comm d) (g_commdel g + g_commdel d) (g_escrow g + g_escrow d)
    (g_holding g + g_holding d).
Definition g_zero : gaps := Gaps 0 0 0 0 0 0 0.

Definition books (c : Z) (st : Store) : gaps :=
  Gaps
    (Total (supply st) - held st)
    (Staked (supply st) - sum_stakes st)
    (DelegatedOnly (supply st) - map_sum (λ _, deleg_stake) (validators st))
    (listed c (CommitteeStaked (supply st)) - map_sum (λ _, comm_stake c) (validators st))
    (listed c (CommitteeDelegatedOnly (supply st)) - map_sum (λ _, commdel_stake c) (validators st))
    (pool_bal st (escrow_id c) - map_sum (order_due c) (orders st))
    (pool_bal st (holding_id c)
      - at_key (λ _, batch_due) (locked_batch st) c - at_key (λ _, batch_due) (next_batch st) c).

(** The postings of the elementary operations. *)
Definition hit (a b n : Z) : Z := if a =? b then n else 0.
Definition d_account (n : Z) : gaps := Gaps (- n) 0 0 0 0 0 0.
Definition d_pool (c id n : Z) : gaps :=
  Gaps (- n) 0 0 0 0 (hit id (escrow_id c) n) (hit id (holding_id c) n).
Definition d_total (n : Z) : gaps := Gaps n 0 0 0 0 0 0.
Definition d_staked (n : Z) : gaps := Gaps 0 n 0 0 0 0 0.
Definition d_deleg (n : Z) : gaps := Gaps 0 0 n 0 0 0 0.
Definition d_comm (c ch n : Z) : gaps := Gaps 0 0 0 (hit ch c n) 0 0 0.
Definition d_commdel (c ch n : Z) : gaps := Gaps 0 0 0 0 (hit ch c n) 0 0.
(** A validator record comes ([n = 1]) or goes ([n = -1]). *)
Definition d_validator (c n : Z) (v : Validator) : gaps :=
  Gaps (- n * StakedAmount v) (- n * StakedAmount v) (- n * deleg_stake v)
    (- n * comm_stake c v) (- n * commdel_stake c v) 0 0.
Definition d_order (c ch n : Z) : gaps := Gaps 0 0 0 0 0 (- hit ch c n) 0.
Definition d_batch (c ch n : Z) : gaps := Gaps 0 0 0 0 0 0 (- hit ch c n).

(** [s'] is [s] after posting [d]. *)
Definition shift (c : Z) (d : gaps) (s s' : FSM) : Prop :=
  books c (store s') = g_add (books c (store s)) d.

(** ** Well-formed states: the ranges of the stored integers, and the account
    cache agreeing with the store on every balance. *)

Definition wf_account (acc : Account) : Prop := u64 (acc_Amount acc).
Definition wf_supply (x : Supply) : Prop :=
  u64 (Total x) ∧ u64 (Staked x) ∧ u64 (DelegatedOnly x) ∧
  Forall (λ p, u64 (pool_Amount p)) (CommitteeStaked x) ∧
  Forall (λ p, u64 (pool_Amount p)) (CommitteeDelegatedOnly x).

Record wf (s : FSM) : Prop := {
  wf_accounts : map_Forall (λ _, wf_account) (accounts (store s));
  wf_cache : map_Forall (λ a acc, acc_Address acc = a ∧ acc_Amount acc = acc_bal (store s) a)
    (cache_accounts s);
  wf_pools : map_Forall (λ _ p, u64 (pool_Amount p)) (pools (store s));
  wf_validators : map_Forall (λ a v, val_Address v = a ∧ u64 (StakedAmount v)) (validators (store s));
  wf_supplies : wf_supply (supply (store s));
}.

(** ** Lemmas *)

Lemma hit_eq a n : hit a a n = n.
Proof. unfold hit. by rewrite Z.eqb_refl. Qed.
Lemma hit_ne a b n : a ≠ b → hit a b n = 0.
Proof. unfold hit. by intros ->%Z.eqb_neq. Qed.
Lemma hit_0 a b : hit a b 0 = 0.
Proof. unfold hit. by destruct (a =? b). Qed.

Lemma g_add_0_r g : g_add g g_zero = g.
Proof. destruct g. unfold g_add. cbn. f_equal; lia. Qed.
Lemma shift_refl c s s' : store s' = store s → shift c g_zero s s'.
Proof. unfold shift. intros ->. by rewrite g_add_0_r. Qed.
Lemma shift_trans c d1 d2 s s1 s2 :
  shift c d1 s s1 → shift c d2 s1 s2 → shift c (g_add d1 d2) s s2.
Proof.
  unfold shift. intros -> ->. destruct (books c (store s)), d1, d2. unfold g_add. cbn. f_equal; lia.
Qed.
(** [shift] with a delta known up to arithmetic. *)
Lemma shift_eq c d d' s s' : shift c d' s s' → d' = d → shift c d s s'.
Proof. by intros H <-. Qed.

(** [s'] is well formed and is [s] after posting [d] to the books of [c]. *)
Record posted (c : Z) (d : gaps) (s s' : FSM) : Prop := Posted {
  po_ok : wf s';
  po_books : shift c d s s';
}.
Lemma posted_0 c s : wf s → posted c g_zero s s.
Proof. intros. split; [done | by apply shift_refl]. Qed.
Lemma posted_trans c d1 d2 s s1 s2 :
  posted c d1 s s1 → posted c d2 s1 s2 → posted c (g_add d1 d2) s s2.
Proof. intros [_ H1] [Hw H2]. split; [done | by eapply shift_trans]. Qed.
Lemma posted_eq c d d' s s' : posted c d' s s' → d' = d → posted c d s s'.
Proof. by intros H <-. Qed.

(** The fields of the state the books are made of. *)
Record same_ledger (s s' : FSM) : Prop := SameLedger {
  sl_accounts : accounts (store s') = accounts (store s);
  sl_pools : pools (store s') = pools (store s);
  sl_validators : validators (store s') = validators (store s);
  sl_supply : supply (store s') = supply (store s);
  sl_orders : orders (store s') = orders (store s);
  sl_locked : locked_batch (store s') = locked_batch (store s);
  sl_next : next_batch (store s') = next_batch (store s);
  sl_cache : cache_accounts s' = cache_accounts s;
}.
Lemma same_ledger_refl s : same_ledger s s.
Proof. by split. Qed.
Lemma same_ledger_trans s1 s2 s3 : same_ledger s1 s2 → same_ledger s2 s3 → same_ledger s1 s3.
Proof. intros [] []. split; congruence. Qed.
Lemma same_ledger_posted c s s' : wf s → same_ledger s s' → posted c g_zero s s'.
Proof.
  intros [W1 W2 W3 W4 W5] [E1 E2 E3 E4 E5 E6 E7 E8]. split.
  - constructor; rewrite ?E1, ?E3, ?E5, ?E8, ?E2, ?E4; try done.
    intros a acc Ha. unfold acc_bal. rewrite E1. exact (W2 a acc Ha).
  - unfold shift, books, held, sum_accounts, sum_pools, sum_stakes, pool_bal.
    rewrite E1, E2, E3, E4, E5, E6, E7. by rewrite g_add_0_r.
Qed.

Lemma acc_bal_range s a : wf s → u64 (acc_bal (store s) a).
Proof.
  intros Hs. unfold acc_bal. destruct (accounts (store s) !! a) eqn:Ha; [|u64].
  exact (wf_accounts s Hs a _ Ha).
Qed.
Lemma pool_bal_range s id : wf s → u64 (pool_bal (store s) id).
Proof.
  intros Hs. unfold pool_bal. destruct (pools (store s) !! id) eqn:Ha; [|u64].
  exact (wf_pools s Hs id _ Ha).
Qed.
Lemma sum_accounts_nonneg s : wf s → 0 <= sum_accounts (store s).
Proof.
  intros Hs. apply map_sum_nonneg. intros a acc Ha.
  pose proof (wf_accounts s Hs a acc Ha) as H. unfold wf_account in H. u64.
Qed.
Lemma sum_stakes_nonneg s : wf s → 0 <= sum_stakes (store s).
Proof.
  intros Hs. apply map_sum_nonneg. intros a v Ha.
  destruct (wf_validators s Hs a v Ha). u64.
Qed.
Lemma pool_bal_le_sum s id : wf s → pool_bal (store s) id <= sum_pools (store s).
Proof.
  intros Hs. transitivity (at_key (λ _, pool_Amount) (pools (store s)) id); [by unfold pool_bal, at_key|].
  apply at_key_le_sum. intros k p Hk. pose proof (wf_pools s Hs k p Hk) as H. cbn in H. u64.
Qed.
(** Tokens that the total supply already covers fit in any pool. *)
Lemma covered_pool c s id n :
  wf s → 0 <= n <= g_total (books c (store s)) → u64 (pool_bal (store s) id + n).
Proof.
  intros Hs Hn. cbn in Hn. unfold held in Hn.
  pose proof (sum_accounts_nonneg s Hs). pose proof (sum_stakes_nonneg s Hs).
  pose proof (pool_bal_le_sum s id Hs). pose proof (pool_bal_range s id Hs).
  destruct (wf_supplies s Hs) as [? _]. u64.
Qed.

Lemma pool_ids_disjoint c c' :
  valid_chain c → valid_chain c' →
  holding_id c ≠ escrow_id c' ∧ liquidity_id c ≠ escrow_id c' ∧ liquidity_id c ≠ holding_id c' ∧
  c ≠ escrow_id c' ∧ c ≠ holding_id c' ∧ c ≠ liquidity_id c' ∧
  DAOPoolID ≠ escrow_id c ∧ DAOPoolID ≠ holding_id c ∧ DAOPoolID ≠ liquidity_id c ∧ DAOPoolID ≠ c.
Proof.
  unfold valid_chain, holding_id, liquidity_id, escrow_id, DAOPoolID.
  change MaxChainId with 16383. change HoldingPoolAddend with 16383.
  change LiquidityPoolAddend with 32767. change EscrowPoolAddend with 65535.
  change MaxUint16 with 65535. intros Hc Hc'.
  rewrite !u64_add_small by u64. repeat split; lia.
Qed.
Lemma escrow_id_inj c c' : valid_chain c → valid_chain c' → escrow_id c = escrow_id c' → c = c'.
Proof.
  unfold valid_chain, escrow_id. change MaxChainId with 16383. change EscrowPoolAddend with 65535.
  intros. rewrite !u64_add_small in * by u64. lia.
Qed.
Lemma holding_id_inj c c' : valid_chain c → valid_chain c' → holding_id c = holding_id c' → c = c'.
Proof.
  unfold valid_chain, holding_id. change MaxChainId with 16383. change HoldingPoolAddend with 16383.
  intros. rewrite !u64_add_small in * by u64. lia.
Qed.
Lemma hit_escrow c c' n :
  valid_chain c → valid_chain c' → hit (escrow_id c) (escrow_id c') n = hit c c' n.
Proof.
  intros. unfold hit. destruct (Z.eqb_spec c c') as [->|]; [by rewrite Z.eqb_refl|].
  destruct (Z.eqb_spec (escrow_id c) (escrow_id c')) as [He|]; [|done].
  by apply escrow_id_inj in He.
Qed.
Lemma hit_holding c c' n :
  valid_chain c → valid_chain c' → hit (holding_id c) (holding_id c') n = hit c c' n.
Proof.
  intros. unfold hit. destruct (Z.eqb_spec c c') as [->|]; [by rewrite Z.eqb_refl|].
  destruct (Z.eqb_spec (holding_id c) (holding_id c')) as [He|]; [|done].
  by apply holding_id_inj in He.
Qed.
#[export] Hint Resolve acc_bal_range pool_bal_range : go.

(** Solve a [shift] goal from the [shift] facts of the steps in between. *)
Ltac g_unfold :=
  unfold d_account, d_pool, d_total, d_staked, d_deleg, d_comm, d_commdel, d_validator,
    d_order, d_batch, g_zero, g_add in *; cbn [g_total g_staked g_deleg g_comm g_commdel g_escrow
    g_holding] in *.
Ltac post :=
  unfold shift in *;
  repeat match goal with H : books _ (store ?s) = _ |- context [books _ (store ?s)] => rewrite H end;
  g_unfold; f_equal; rewrite ?hit_eq, ?hit_0; try lia.

(** Prove the posting of an operation that rewrites one field of the store. *)
Ltac books_step :=
  unfold shift, books, held, sum_accounts, sum_pools, sum_stakes, pool_bal, d_account, d_pool,
    d_total, d_staked, d_deleg, d_comm, d_commdel, d_validator, d_order, d_batch, g_zero, g_add;
  cbn; f_equal; try lia.

(** Equality of two gap records up to linear arithmetic. *)
Ltac g_eq := g_unfold; f_equal; rewrite ?hit_eq, ?hit_0; try lia.
(** Chain the [posted] facts from [s] to the state of the goal. *)
Ltac posts :=
  lazymatch goal with
  | H : posted ?c ?d ?s ?s' |- posted ?c _ ?s ?s' => refine (posted_eq _ _ _ _ _ H _); cbn; g_eq
  | |- posted ?c _ ?s ?s => apply (posted_eq _ _ g_zero); [by apply posted_0 | g_eq]
  end.
