(* ===== verification/Params.v ===== *)
(** * Governance parameters: storage, cache and protocol versions
    ([fsm/gov.go], [fsm/gov_params.go]) *)
From Stdlib Require Import String Ascii.
From stdpp Require Import strings.
From S2P Require Import Prelude LibUtil State Ledger.
#[local] Open Scope Z_scope.

(** ** Protocol version strings *)

(** [strings.Split(v, "/")]. *)
Fixpoint Split (sep : ascii) (v : string) : list string :=
  match v with
  | EmptyString => [EmptyString]
  | String ch rest =>
      if Ascii.eqb ch sep then EmptyString :: Split sep rest
      else match Split sep rest with
           | seg :: segs => String ch seg :: segs
           | [] => [String ch EmptyString]
           end
  end.

Definition digit_of (ch : ascii) : option Z :=
  let d := Z.of_nat (nat_of_ascii ch) - 48 in
  if (0 <=? d) && (d <=? 9) then Some d else None.

(** [strconv.ParseUint(s, 10, 64)]: decimal digits only, not empty, no overflow. *)
Fixpoint parse_digits (acc : Z) (s : string) : option Z :=
  match s with
  | EmptyString => Some acc
  | String ch rest =>
      d ← digit_of ch;
      let acc' := acc * 10 + d in
      if two64 <=? acc' then None else parse_digits acc' rest
  end.
Definition ParseUint (s : string) : option Z :=
  match s with EmptyString => None | _ => parse_digits 0 s end.

Record Version := MkVersion { ver_Height : Z; ver_Version : Z }.

Definition Delimiter : ascii := "/"%char.

Definition checkProtocolVersion (v : string) : result ErrorI Version :=
  match Split Delimiter v with
  | [v0; v1] =>
      match ParseUint v0 with
      | None => Err ErrInvalidProtocolVersion
      | Some version =>
          match ParseUint v1 with
          | None => Err ErrInvalidProtocolVersion
          | Some height => Ok (MkVersion height version)
          end
      end
  | _ => Err ErrInvalidProtocolVersion
  end.

Definition ParseProtocolVersion (x : ConsensusParams) : result ErrorI Version :=
  checkProtocolVersion (ProtocolVersion x).

(** ** Getters and setters; the validator and fee spaces go through a cache *)

Definition zero_cons : ConsensusParams := MkConsensusParams 0 EmptyString 0 0 0.
Definition zero_val : ValidatorParams :=
  MkValidatorParams 0 0 0 0 0 0 0 0 0 0 0 0 0 0 0 0 0 0 0.
Definition zero_fee : FeeParams := MkFeeParams 0 0 0 0 0 0 0 0 0 0 0 0 0 0 0 0.
Definition zero_gov : GovernanceParams := MkGovernanceParams 0.

(** [getParams]: the stored space, or the space's 'empty' error. *)
Definition getParams {A} (space : Store → option A) (emptyErr : ErrorI) : F A :=
  p ← getst space;
  match p with Some ptr => mret ptr | None => throw emptyErr end.

Definition GetParamsCons : F ConsensusParams := getParams params_cons ErrEmptyConsParams.
Definition GetParamsGov : F GovernanceParams := getParams params_gov ErrEmptyGovParams.

(** On a miss the cache entry is allocated before the space is read: when the
    space is absent the error is returned and the zero value stays cached. *)
Definition GetParamsVal : F ValidatorParams :=
  c ← gets cache_valParams;
  match c with
  | Some p => mret p
  | None =>
      modify (set_cache_valParams (Some zero_val));;
      p ← getParams params_val ErrEmptyValParams;
      modify (set_cache_valParams (Some p));;
      mret p
  end.
Definition GetParamsFee : F FeeParams :=
  c ← gets cache_feeParams;
  match c with
  | Some p => mret p
  | None =>
      modify (set_cache_feeParams (Some zero_fee));;
      p ← getParams params_fee ErrEmptyFeeParams;
      modify (set_cache_feeParams (Some p));;
      mret p
  end.

Definition SetParamsCons (c : ConsensusParams) : F unit := upd (set_params_cons (Some c)).
Definition SetParamsVal (v : ValidatorParams) : F unit :=
  modify (set_cache_valParams (Some v));; upd (set_params_val (Some v)).
Definition SetParamsFee (f : FeeParams) : F unit :=
  modify (set_cache_feeParams (Some f));; upd (set_params_fee (Some f)).
Definition SetParamsGov (g : GovernanceParams) : F unit := upd (set_params_gov (Some g)).

Record Params := MkParams {
  Consensus : ConsensusParams;
  Validator_ : ValidatorParams;
  Fee : FeeParams;
  Governance : GovernanceParams;
}.

Definition SetParams (p : Params) : F unit :=
  SetParamsCons (Consensus p);; SetParamsVal (Validator_ p);;
  SetParamsFee (Fee p);; SetParamsGov (Governance p).

Definition GetParams : F Params :=
  cons ← GetParamsCons;
  val ← GetParamsVal;
  fee ← GetParamsFee;
  gov ← GetParamsGov;
  mret (MkParams cons val fee gov).

(** ** Feature activation *)

(** [IsFeatureEnabled]: errors are logged and read as 'not enabled'. *)
Definition feature_enabled (requiredVersion : Z) (s : FSM) : bool :=
  match params_cons (store s) with
  | None => false
  | Some consensusParams =>
      match ParseProtocolVersion consensusParams with
      | Err _ => false
      | Ok currentProtocol =>
          let activeVersion := ver_Version currentProtocol in
          if height s <? ver_Height currentProtocol then
            if activeVersion =? 0 then false
            else requiredVersion <=? u64_sub activeVersion 1
          else requiredVersion <=? activeVersion
      end
  end.
Definition IsFeatureEnabled (requiredVersion : Z) : F bool := gets (feature_enabled requiredVersion).

(** [CheckProtocolVersion] of [fsm/automatic.go]. *)
Definition CheckProtocolVersion : F unit :=
  params ← GetParamsCons;
  match ParseProtocolVersion params with
  | Err e => throw e
  | Ok version =>
      s ← gets id;
      fail_if ((ver_Height version <=? height s) && (fsm_ProtocolVersion s <? ver_Version version))
        ErrInvalidProtocolVersion
  end.

(** [GetRootChainId]. *)
Definition GetRootChainId : F Z := cons ← GetParamsCons; mret (RootChainId cons).

(** ** Lemmas *)

(** Operations that touch nothing but the parameter caches. *)
Definition same_books (s s' : FSM) : Prop :=
  store s' = store s ∧ cache_accounts s' = cache_accounts s ∧ height s' = height s.

Lemma same_books_wf s s' : same_books s s' → wf s → wf s'.
Proof.
  intros (Hst & Hc & _) [H1 H2 H3 H4 H5]. constructor; rewrite ?Hst, ?Hc; done.
Qed.
Lemma same_books_shift c s s' : same_books s s' → shift c g_zero s s'.
Proof. intros [? _]. by apply shift_refl. Qed.

Lemma same_books_posted c s s' : wf s → same_books s s' → posted c g_zero s s'.
Proof. intros. split; [by eapply same_books_wf | by apply same_books_shift]. Qed.
Lemma same_books_trans s1 s2 s3 : same_books s1 s2 → same_books s2 s3 → same_books s1 s3.
Proof. intros (? & ? & ?) (? & ? & ?). split_and!; congruence. Qed.
Lemma addEvent_same e s r s' : addEvent e s = (r, s') → r = Ok () ∧ same_books s s'.
Proof. intros H. by inv H. Qed.

Lemma GetParamsVal_same s r s' : GetParamsVal s = (r, s') → same_books s s'.
Proof.
  unfold GetParamsVal, getParams. runs.
  destruct (cache_valParams s); [intros H; inv H; by repeat split|].
  cbn [store set_cache_valParams]. destruct (params_val (store s)); intros H; inv H; by repeat split.
Qed.
Lemma GetParamsFee_same s r s' : GetParamsFee s = (r, s') → same_books s s'.
Proof.
  unfold GetParamsFee, getParams. runs.
  destruct (cache_feeParams s); [intros H; inv H; by repeat split|].
  cbn [store set_cache_feeParams]. destruct (params_fee (store s)); intros H; inv H; by repeat split.
Qed.
Lemma GetParamsCons_same s r s' : GetParamsCons s = (r, s') → s' = s.
Proof.
  unfold GetParamsCons, getParams. runs.
  destruct (params_cons (store s)); intros H; inv H; by repeat split.
Qed.
Lemma GetParamsGov_same s r s' : GetParamsGov s = (r, s') → s' = s.
Proof.
  unfold GetParamsGov, getParams. runs.
  destruct (params_gov (store s)); intros H; inv H; by repeat split.
Qed.
