(* ===== verification/Fixtures.v ===== *)
(** * A small concrete state, used to evaluate the definitions and to show that
    the hypotheses of the theorems can hold together *)
From S2P Require Import Prelude LibUtil State Ledger Params.
From Stdlib Require Import String.
#[local] Open Scope Z_scope.

Definition alice : bytes := [x01].
Definition bob : bytes := [x02].
Definition val1 : bytes := [x03].
Definition del1 : bytes := [x04].

Definition demo_cons : ConsensusParams := MkConsensusParams 1000 "1/0" 1 0 0.
Definition demo_val : ValidatorParams :=
  MkValidatorParams 2 4 10 1 5 10 15 10 20 3 10 33 15 10 15 2 0 0 10.
Definition demo_fee : FeeParams := MkFeeParams 1 1 1 1 1 1 1 1 1 1 1 1 1 1 1 1.

Definition account (a : bytes) (n : Z) : Account := MkAccount a n 0 0 0 0.
Definition order1 : SellOrder := MkSellOrder [xaa] 1 [] 25 30 alice [] [] 0 bob.
Definition batch1 : DexBatch :=
  MkDexBatch 1 [] [MkDexLimitOrder 40 10 alice [xbb]] [] [] 0 0 [] 0 [] 0 false.

(** Chain 1 with a validator that is paused until height 7, a delegate that
    finishes unstaking at height 5, an open sell order and a dex order. *)
Definition demo_store : Store :=
  MkStore
    {[ alice := account alice 1000; bob := account bob 500 ]}
    {[ 1 := MkPool 1 70 [] 0; DAOPoolID := MkPool DAOPoolID 30 [] 0;
       escrow_id 1 := MkPool (escrow_id 1) 25 [] 0; holding_id 1 := MkPool (holding_id 1) 40 [] 0 ]}
    {[ val1 := MkValidator val1 [] EmptyString 100 [1] 7 0 alice false true;
       del1 := MkValidator del1 [] EmptyString 50 [1; 2] 0 5 bob true false ]}
    ∅ ∅ {[ (5, del1) ]} {[ (7, val1) ]}
    (Some demo_cons) (Some demo_val) (Some demo_fee) (Some (MkGovernanceParams 10))
    ∅ []
    (MkSupply 1815 150 50 [MkPool 1 150 [] 0; MkPool 2 50 [] 0] [MkPool 1 50 [] 0; MkPool 2 50 [] 0])
    [MkCommitteeData 1 3 4 [MkPaymentPercents bob 60 1; MkPaymentPercents val1 40 1] 1]
    {[ (1, [xaa]) := order1 ]} ∅ ∅ {[ 1 := batch1 ]} ∅ ∅ {[ 4 := [xee] ]}.

Definition demo : FSM := MkFSM demo_store 5 1 ∅ ∅ None None None [] (MkConfig 1 210000 80 EmptyString).

(** The books of chain 1 balance. *)
Example demo_books : books 1 demo_store = g_zero.
Proof. vm_compute. reflexivity. Qed.

Ltac decide_now := apply (bool_decide_unpack _); vm_compute; exact I.

Lemma demo_wf_at h : wf (set_height h demo).
Proof. constructor; unfold wf_supply; decide_now. Qed.
Lemma demo_wf : wf demo.
Proof. apply (demo_wf_at 5). Qed.

(** Read a run on a concrete state. *)
Definition out {A} (d : A) (r : result ErrorI A * FSM) : A := match fst r with Ok a => a | Err _ => d end.
Lemma run_out {A} (d : A) r : is_ok (fst r) = true → r = (Ok (out d r), snd r).
Proof. unfold out. by destruct r as [[a|e] s]. Qed.
Lemma run_unit (r : result ErrorI unit * FSM) : is_ok (fst r) = true → r = (Ok (), snd r).
Proof. by destruct r as [[[]|e] s]. Qed.
Ltac run_now := first [apply run_unit | apply run_out]; vm_compute; reflexivity.
