(* ===== verification/Crypto.v ===== *)
(** * The cryptographic operations the program calls

    Signature schemes, public key parsing and hashing rest on third-party
    libraries: they are parameters of the model, one class for single keys and
    hashes, one for the BLS multi-signatures of the consensus certificates. *)
From S2P Require Import Prelude.

(** What the state machine uses of a [crypto.PublicKeyI]. *)
Record PublicKey : Type := MkPublicKey {
  pk_Address : bytes;
  pk_Bytes : bytes;
  is_BLS12381 : bool; (* the type assertion to [crypto.BLS12381PublicKey] *)
}.

Class Crypto : Type := {
  (** [crypto.NewPublicKeyFromBytes]; [None] is its error. *)
  NewPublicKeyFromBytes : bytes → option PublicKey;
  (** [crypto.Hash] *)
  Hash : bytes → bytes;
}.

(** [crypto.NewPublicKeyFromBytes(bz)] followed by [.Address().Bytes()]. *)
Definition pubKeyAddress `{Crypto} (bz : bytes) : option bytes := pk_Address <$> NewPublicKeyFromBytes bz.

(** [hex.EncodeToString] *)
Definition hex_digit (n : Z) : byte := byte_of_Z (if n <? 10 then 48 + n else 87 + n).
Definition EncodeToString (b : bytes) : bytes :=
  concat (map (λ c, [hex_digit (byte_to_Z c / 16); hex_digit (byte_to_Z c mod 16)]) b).
(** [crypto.HashString] *)
Definition HashString `{Crypto} (msg : bytes) : bytes := EncodeToString (Hash msg).

Class Multisig : Type := {
  (** [crypto.BytesToBLS12381Point] succeeds. *)
  BytesToBLS12381Point : bytes → bool;
  (** kyber's [Mask.SetMask] on a mask over that many public keys succeeds. *)
  SetMask : nat → bytes → bool;
  (** [MultiPublicKeyI.VerifyBytes]: public keys, bitmap, message, aggregate signature. *)
  VerifyBytes : list bytes → bytes → bytes → bytes → bool;
}.

(** Concrete instances, for evaluation: a key is its own address, a mask has a
    bit per key, a signature is the message. *)
Definition toy_crypto : Crypto :=
  {| NewPublicKeyFromBytes := λ pk,
       match pk with [] => None | _ => Some (MkPublicKey pk pk (bool_decide (length pk = 1%nat))) end;
     Hash := λ bz, bz |}.
Definition toy_multisig : Multisig :=
  {| BytesToBLS12381Point := λ pk, bool_decide (pk ≠ []);
     SetMask := λ n bm, bool_decide (length bm = (n + 7) / 8)%nat;
     VerifyBytes := λ _ _ msg sig, bool_decide (sig = msg) |}.
