(* ===== verification/Wire.v ===== *)
(** * Fields of serialized messages ([lib/codec/codec.go], [Block.BytesToBlockHash] of [lib/block.go])

    The two functions that look into protobuf bytes without decoding them, and
    the block hash they compute.  The primitives of [protowire] are a parameter;
    its laws state the wire format. *)
From S2P Require Import Prelude LibUtil State Crypto.
#[local] Open Scope Z_scope.

(** [protowire]; [None] is a negative length. *)
Class ProtoWire : Type := {
  (** field number, wire type, length *)
  ConsumeTag : bytes → option (Z * Z * nat);
  (** value, length *)
  ConsumeVarint : bytes → option (Z * nat);
  (** the length of the value of a field of that number and wire type *)
  ConsumeFieldValue : Z → Z → bytes → option nat;
}.
(** [protowire.BytesType] *)
Definition BytesType : Z := 2.

Section wire.
Context `{ProtoWire}.

(** The value of a field: [rest] is [protoBytes[offset:]], of [total] bytes.  The
    length of a bytes field is a [uint64] the sender chose: its conversion to
    [int] may be negative, the sum may wrap, and [make] then panics. *)
Definition field_value (total offset : Z) (fieldNum wireType : Z) (rest : bytes) : result ErrorI bytes :=
  if wireType =? BytesType then
    match ConsumeVarint rest with
    | None => Err ErrProtoParse
    | Some (valueLen, lenBytes) =>
        let offset := offset + Z.of_nat lenBytes in
        let rest := drop lenBytes rest in
        check_not (total <? wrap_s64 (offset + wrap_s64 valueLen)) ErrProtoParse;;
        check_not (Z.of_nat (length rest) <? valueLen) ErrPanic;;
        Ok (take (Z.to_nat valueLen) rest)
    end
  else
    match ConsumeFieldValue fieldNum wireType rest with
    | None => Err ErrProtoParse
    | Some valueLen =>
        check_not (length rest <? valueLen)%nat ErrProtoParse;;
        Ok (take valueLen rest)
    end.
Fixpoint find_field (fuel : nat) (total offset : Z) (fieldNumber : Z) (rest : bytes) : result ErrorI bytes :=
  match fuel, rest with
  | O, _ | _, [] => Err ErrProtoParse
  | S fuel, _ =>
      match ConsumeTag rest with
      | None => Err ErrProtoParse
      | Some (fieldNum, wireType, tagLen) =>
          let offset := offset + Z.of_nat tagLen in
          let rest := drop tagLen rest in
          if fieldNum =? fieldNumber then field_value total offset fieldNum wireType rest
          else
            match ConsumeFieldValue fieldNum wireType rest with
            | None => Err ErrProtoParse
            | Some skipLen => find_field fuel total (offset + Z.of_nat skipLen) fieldNumber (drop skipLen rest)
            end
      end
  end.
(** Every iteration consumes a tag, so a step per byte is enough. *)
Definition GetRawProtoField (protoBytes : bytes) (fieldNumber : Z) : result ErrorI bytes :=
  find_field (length protoBytes) (Z.of_nat (length protoBytes)) 0 fieldNumber protoBytes.

Fixpoint drop_fields (fuel : nat) (fieldNumber : Z) (rest acc : bytes) : result ErrorI bytes :=
  match fuel, rest with
  | _, [] => Ok acc
  | O, _ => Err ErrProtoParse
  | S fuel, _ =>
      match ConsumeTag rest with
      | None => Err ErrProtoParse
      | Some (fieldNum, wireType, tagLen) =>
          match ConsumeFieldValue fieldNum wireType (drop tagLen rest) with
          | None => Err ErrProtoParse
          | Some valueLen =>
              drop_fields fuel fieldNumber (drop (tagLen + valueLen) rest)
                (if fieldNum =? fieldNumber then acc else acc ++ take (tagLen + valueLen) rest)
          end
      end
  end.
Definition NullifyProtoField (protoBytes : bytes) (fieldNumber : Z) : result ErrorI bytes :=
  drop_fields (length protoBytes) fieldNumber protoBytes [].

Context `{Crypto}.
(** The hash of the header field, 1, without its own hash field, 2. *)
Definition BytesToBlockHash (blockBytes : bytes) : result ErrorI bytes :=
  check_not (bool_decide (blockBytes = [])) ErrNilBlock;;
  blockHeaderWithHash ← GetRawProtoField blockBytes 1;
  blockHeaderWithoutHash ← NullifyProtoField blockHeaderWithHash 2;
  Ok (Hash blockHeaderWithoutHash).
End wire.

(** ** The wire format *)

(** The encoders [AppendTag] and [AppendVarint], which the parsers invert whatever follows. *)
Class ProtoWireLaws `{ProtoWire} : Type := {
  AppendTag : Z → Z → bytes;
  AppendVarint : Z → bytes;
  tag_nonempty n t : AppendTag n t ≠ [];
  consume_tag n t r : 0 < n < 536870912 → 0 <= t < 8 → ConsumeTag (AppendTag n t ++ r) = Some (n, t, length (AppendTag n t));
  consume_varint v r : u64 v → ConsumeVarint (AppendVarint v ++ r) = Some (v, length (AppendVarint v));
  consume_varint_length b v n : ConsumeVarint b = Some (v, n) → (n <= length b)%nat;
  consume_bytes n v r : Z.of_nat (length v) < two64 →
    ConsumeFieldValue n BytesType (AppendVarint (Z.of_nat (length v)) ++ v ++ r) =
      Some (length (AppendVarint (Z.of_nat (length v))) + length v)%nat;
}.

Section laws.
Context `{ProtoWireLaws}.

(** A field and its raw value; for a bytes field the value starts with its length. *)
Record field : Type := MkField { f_num : Z; f_type : Z; f_value : bytes }.
Definition encode_field (f : field) : bytes := AppendTag (f_num f) (f_type f) ++ f_value f.
Definition encode_fields (fs : list field) : bytes := concat (map encode_field fs).
Record wf_field (f : field) : Prop := {
  wf_num : 0 < f_num f < 536870912;
  wf_type : 0 <= f_type f < 8;
  wf_value r : ConsumeFieldValue (f_num f) (f_type f) (f_value f ++ r) = Some (length (f_value f));
}.
Definition bytes_field (n : Z) (v : bytes) : field := MkField n BytesType (AppendVarint (Z.of_nat (length v)) ++ v).

Lemma wf_bytes_field n v : 0 < n < 536870912 → Z.of_nat (length v) < two64 → wf_field (bytes_field n v).
Proof. intros Hn Hv. split; cbn; [done|unfold BytesType; lia|]. intros r. rewrite <- app_assoc, consume_bytes by (unfold two64 in *; lia || done). by rewrite length_app. Qed.
Lemma encode_field_length f : (0 < length (encode_field f))%nat.
Proof.
  unfold encode_field. rewrite length_app. pose proof (tag_nonempty (f_num f) (f_type f)).
  destruct (AppendTag _ _); [done|]. cbn. lia.
Qed.
Lemma encode_fields_cons f fs : encode_fields (f :: fs) = encode_field f ++ encode_fields fs.
Proof. done. Qed.
Lemma encode_fields_app fs gs : encode_fields (fs ++ gs) = encode_fields fs ++ encode_fields gs.
Proof. unfold encode_fields. by rewrite map_app, concat_app. Qed.

(** What the parsers see at the start of a field. *)
Lemma parse_field f r :
  wf_field f →
  ConsumeTag (encode_field f ++ r) = Some (f_num f, f_type f, length (AppendTag (f_num f) (f_type f))) ∧
  drop (length (AppendTag (f_num f) (f_type f))) (encode_field f ++ r) = f_value f ++ r.
Proof. intros [Hn Ht _]. unfold encode_field. rewrite <- app_assoc. split; [by apply consume_tag|by rewrite drop_app_length]. Qed.

Lemma drop_fields_spec n fs : ∀ fuel acc,
  Forall wf_field fs → (length (encode_fields fs) <= fuel)%nat →
  drop_fields fuel n (encode_fields fs) acc = Ok (acc ++ encode_fields (filter (λ f, f_num f ≠ n) fs)).
Proof.
  induction fs as [|f fs IH]; intros fuel acc Hwf Hfuel.
  { cbn. rewrite app_nil_r. by destruct fuel. }
  inv Hwf. rename select (wf_field f) into Hf. rename select (Forall _ _) into Hfs.
  rewrite encode_fields_cons in *. pose proof (encode_field_length f) as Hpos. rewrite length_app in Hfuel.
  destruct fuel as [|fuel]; [lia|]. cbn [drop_fields].
  destruct (encode_field f ++ encode_fields fs) as [|b0 bs] eqn:Hb.
  { apply app_eq_nil in Hb as [Hb _]. rewrite Hb in Hpos. cbn in Hpos. lia. }
  rewrite <- Hb. destruct (parse_field f (encode_fields fs) Hf) as [-> ->]. rewrite wf_value by done.
  set (k := (length (AppendTag (f_num f) (f_type f)) + length (f_value f))%nat).
  assert (Hk : k = length (encode_field f)) by (unfold k, encode_field; by rewrite length_app).
  rewrite Hk, drop_app_length, take_app_length, IH by (done || lia). rewrite filter_cons.
  case_decide as Hne; destruct (Z.eqb_spec (f_num f) n); try done.
  by rewrite encode_fields_cons, app_assoc.
Qed.
Lemma NullifyProtoField_spec n fs :
  Forall wf_field fs → NullifyProtoField (encode_fields fs) n = Ok (encode_fields (filter (λ f, f_num f ≠ n) fs)).
Proof. intros Hwf. unfold NullifyProtoField. by rewrite drop_fields_spec. Qed.

(** The search passes the fields of other numbers. *)
Lemma find_field_skips n pre : ∀ fuel total offset r,
  Forall wf_field pre → Forall (λ f, f_num f ≠ n) pre → (length (encode_fields pre) < fuel)%nat →
  ∃ fuel', (0 < fuel')%nat ∧
    find_field fuel total offset n (encode_fields pre ++ r) =
      find_field fuel' total (offset + Z.of_nat (length (encode_fields pre))) n r.
Proof.
  induction pre as [|f pre IH]; intros fuel total offset r Hwf Hne Hfuel.
  { exists fuel. cbn in *. split; [lia|]. f_equal. lia. }
  inv Hwf. rename select (wf_field f) into Hf. rename select (Forall wf_field pre) into Hpre. inv Hne.
  rename select (f_num f ≠ n) into Hnf.
  rewrite encode_fields_cons in *. pose proof (encode_field_length f) as Hpos. rewrite length_app in Hfuel |- *.
  rewrite <- app_assoc. destruct fuel as [|fuel]; [lia|].
  destruct (IH fuel total (offset + Z.of_nat (length (encode_field f))) r) as (fuel' & Hf' & E); [done|done|lia|].
  exists fuel'. split; [done|]. rewrite Nat2Z.inj_add, Z.add_assoc, <- E. cbn [find_field].
  destruct (encode_field f ++ encode_fields pre ++ r) as [|b0 bs] eqn:Hb.
  { apply app_eq_nil in Hb as [Hb _]. rewrite Hb in Hpos. cbn in Hpos. lia. }
  rewrite <- Hb. destruct (parse_field f (encode_fields pre ++ r) Hf) as [-> ->].
  destruct (Z.eqb_spec (f_num f) n); [done|]. rewrite wf_value, drop_app_length by done. f_equal.
  unfold encode_field. rewrite length_app. lia.
Qed.

(** A bytes field of that number, wherever it is. *)
Lemma find_bytes fuel total offset n len r :
  0 < n < 536870912 → u64 len → (0 < fuel)%nat →
  find_field fuel total offset n (AppendTag n BytesType ++ AppendVarint len ++ r) =
    (check_not (total <? wrap_s64 (offset + Z.of_nat (length (AppendTag n BytesType)) + Z.of_nat (length (AppendVarint len)) +
                                   wrap_s64 len)) ErrProtoParse;;
     check_not (Z.of_nat (length r) <? len) ErrPanic;; Ok (take (Z.to_nat len) r)).
Proof.
  intros Hn Hl Hfuel. destruct fuel as [|fuel]; [lia|]. cbn [find_field].
  destruct (AppendTag n BytesType ++ AppendVarint len ++ r) as [|b0 bs] eqn:Hb.
  { apply app_eq_nil in Hb as [Hb _]. by apply tag_nonempty in Hb. }
  rewrite <- Hb, consume_tag by (done || by unfold BytesType). rewrite Z.eqb_refl, drop_app_length. unfold field_value.
  rewrite Z.eqb_refl, consume_varint by done. by rewrite drop_app_length.
Qed.
End laws.

(** ** A concrete wire format, for evaluation *)

Fixpoint put_varint (fuel : nat) (v : Z) : bytes :=
  match fuel with
  | O => [byte_of_Z v]
  | S fuel => if v <? 128 then [byte_of_Z v] else byte_of_Z (v mod 128 + 128) :: put_varint fuel (v / 128)
  end.
Fixpoint get_varint (b : bytes) : option (Z * nat) :=
  match b with
  | [] => None
  | x :: b =>
      let x := byte_to_Z x in
      if x <? 128 then Some (x, 1%nat)
      else match get_varint b with Some (v, n) => Some (x - 128 + 128 * v, S n) | None => None end
  end.
Definition toy_varint (b : bytes) : option (Z * nat) :=
  match get_varint b with Some (v, n) => if v <? two64 then Some (v, n) else None | None => None end.
Definition toy_wire : ProtoWire :=
  {| ConsumeTag := λ b, match toy_varint b with
       | Some (v, n) => if (8 <=? v) && (v <? 4294967296) then Some (v / 8, v mod 8, n) else None
       | None => None
       end;
     ConsumeVarint := toy_varint;
     ConsumeFieldValue := λ _ t b,
       let fits n := if (n <=? length b)%nat then Some n else None in
       if t =? 0 then snd <$> toy_varint b
       else if t =? 1 then fits 8%nat
       else if t =? 5 then fits 4%nat
       else if t =? 2 then
         match toy_varint b with
         | Some (v, n) => if v <=? Z.of_nat (length b) then fits (n + Z.to_nat v)%nat else None
         | None => None
         end
       else None |}.

Lemma get_put_varint fuel : ∀ v r,
  0 <= v < 128 ^ Z.of_nat (S fuel) → get_varint (put_varint fuel v ++ r) = Some (v, length (put_varint fuel v)).
Proof.
  induction fuel as [|fuel IH]; intros v r Hv; cbn [put_varint].
  { cbn in Hv |- *. rewrite byte_to_of_Z by lia. by destruct (Z.ltb_spec v 128); [|lia]. }
  destruct (Z.ltb_spec v 128).
  { cbn. rewrite byte_to_of_Z by lia. by destruct (Z.ltb_spec v 128); [|lia]. }
  assert (Hm : 0 <= v mod 128 < 128) by (apply Z.mod_pos_bound; lia). cbn.
  rewrite byte_to_of_Z by lia. destruct (Z.ltb_spec (v mod 128 + 128) 128); [lia|].
  rewrite IH.
  - f_equal. f_equal. pose proof (Z.div_mod v 128). lia.
  - rewrite (Nat2Z.inj_succ (S fuel)), Z.pow_succ_r in Hv by lia. split; [apply Z.div_pos; lia|apply Z.div_lt_upper_bound; lia].
Qed.
Lemma toy_varint_put v r : u64 v → toy_varint (put_varint 9 v ++ r) = Some (v, length (put_varint 9 v)).
Proof.
  intros Hv. unfold toy_varint. rewrite get_put_varint by (unfold u64, two64 in Hv; cbn; lia).
  destruct (Z.ltb_spec v two64); [done|]. unfold u64 in Hv. lia.
Qed.
Lemma get_varint_length b : ∀ v n, get_varint b = Some (v, n) → 0 <= v ∧ (n <= length b)%nat.
Proof.
  induction b as [|x b IH]; intros v n; cbn; [done|]. pose proof (byte_to_Z_range x). destruct (Z.ltb_spec (byte_to_Z x) 128).
  - intros [= <- <-]. lia.
  - destruct (get_varint b) as [[v' n']|]; [|done]. intros [= <- <-]. destruct (IH v' n' eq_refl). lia.
Qed.
#[local] Existing Instance toy_wire.
Definition toy_wire_laws : ProtoWireLaws.
Proof.
  refine {| AppendTag := λ n t, put_varint 9 (8 * n + t); AppendVarint := put_varint 9 |}.
  - intros n t. cbn [put_varint]. by case_match.
  - intros n t r Hn Ht. cbn [ConsumeTag toy_wire]. rewrite toy_varint_put by (unfold u64, two64; lia).
    destruct (Z.leb_spec 8 (8 * n + t)), (Z.ltb_spec (8 * n + t) 4294967296); cbn [andb]; [|lia..].
    do 3 f_equal; [symmetry; apply (Z.div_unique _ _ _ t); lia|symmetry; apply (Z.mod_unique _ _ n); lia].
  - intros v r Hv. by apply toy_varint_put.
  - intros b v n Hb. cbn [ConsumeVarint toy_wire] in Hb. unfold toy_varint in Hb.
    destruct (get_varint b) as [[v' n']|] eqn:Hg; [|done]. destruct (v' <? two64); [|done]. injection Hb as <- <-.
    by apply get_varint_length in Hg as [_ ?].
  - intros n v r Hv. cbn [ConsumeFieldValue toy_wire]. unfold BytesType. cbn [Z.eqb Pos.eqb].
    rewrite toy_varint_put by (unfold u64; lia). rewrite !length_app, Nat2Z.id.
    destruct (Z.leb_spec (Z.of_nat (length v)) (Z.of_nat (length (put_varint 9 (Z.of_nat (length v))) + (length v + length r)))); [|lia].
    by destruct (Nat.leb_spec (length (put_varint 9 (Z.of_nat (length v))) + length v)
      (length (put_varint 9 (Z.of_nat (length v))) + (length v + length r))); [|lia].
Defined.
