(* ===== verification/Account.v ===== *)
(** * Accounts, pools and the supply tracker ([fsm/account.go]) *)
From S2P Require Import Prelude LibUtil State Ledger.

(** ** Accounts *)

Definition zero_account : Account := MkAccount [] 0 0 0 0 0.

(** [GetAccount]: the cache first, then the store; the address comes from the
    key and an absent account is the zero value. *)
Definition lookup_account (address : bytes) (s : FSM) : Account :=
  match cache_accounts s !! address with
  | Some acc => acc
  | None =>
      set_acc_Address address (default zero_account (accounts (store s) !! address))
  end.
Definition GetAccount (address : bytes) : F Account := gets (lookup_account address).
Definition GetAccountBalance (address : bytes) : F Z :=
  account ← GetAccount address; mret (acc_Amount account).

(** [AccountVestedAmount] at height [h]; the multiplication is on [uint64]. *)
Definition AccountVestedAmount (h : Z) (account : Account) : Z :=
  if (h <? VestingStartHeight account) || (h <? VestingCliffHeight account) then 0
  else if VestingEndHeight account <=? h then VestingAmount account
  else
    let elapsed := u64_sub h (VestingStartHeight account) in
    let duration := u64_sub (VestingEndHeight account) (VestingStartHeight account) in
    u64_mul (VestingAmount account) elapsed / duration.

Definition AccountLockedAmount (h : Z) (account : Account) : Z :=
  if VestingAmount account =? 0 then 0
  else
    let vested := AccountVestedAmount h account in
    if VestingAmount account <=? vested then 0
    else u64_sub (VestingAmount account) vested.

Definition AccountSpendableAmount (h : Z) (account : Account) : Z :=
  let locked := AccountLockedAmount h account in
  if acc_Amount account <=? locked then 0
  else u64_sub (acc_Amount account) locked.

Definition GetAccountSpendableBalance (address : bytes) : F Z :=
  account ← GetAccount address;
  h ← Height;
  mret (AccountSpendableAmount h account).

Definition clearAccountVestingIfFullyVested (h : Z) (account : Account) : Account :=
  if VestingAmount account =? 0 then account
  else if negb (AccountLockedAmount h account =? 0) then account
  else MkAccount (acc_Address account) (acc_Amount account) 0 0 0 0.

Definition SetAccount (account0 : Account) : F unit :=
  h ← Height;
  let account := clearAccountVestingIfFullyVested h account0 in
  s ← gets id;
  modify (set_cache_accounts (<[acc_Address account := account]> (cache_accounts s)));;
  if acc_Amount account =? 0 then
    upd (λ st, set_accounts (delete (acc_Address account) (accounts st)) st)
  else
    upd (λ st, set_accounts (<[acc_Address account := account]> (accounts st)) st).

Definition AccountAdd (address : bytes) (amountToAdd : Z) : F unit :=
  if amountToAdd =? 0 then mret () else
  account ← GetAccount address;
  fail_if (u64_sub u64_max amountToAdd <? acc_Amount account) ErrInvalidAmount;;
  SetAccount (set_acc_Amount (u64_add (acc_Amount account) amountToAdd) account).

Definition AccountSub (address : bytes) (amountToSub : Z) : F unit :=
  if amountToSub =? 0 then mret () else
  account ← GetAccount address;
  h ← Height;
  fail_if (AccountSpendableAmount h account <? amountToSub) ErrInsufficientFunds;;
  SetAccount (set_acc_Amount (u64_sub (acc_Amount account) amountToSub) account).

(** ** Pools *)

(** [GetPool]: the id comes from the key. *)
Definition lookup_pool (id : Z) (st : Store) : Pool :=
  match pools st !! id with
  | Some p => set_pool_Id id p
  | None => MkPool id 0 [] 0
  end.
Definition GetPool (id : Z) : F Pool := getst (lookup_pool id).
Definition GetPoolBalance (id : Z) : F Z := pool ← GetPool id; mret (pool_Amount pool).

Definition SetPool (pool : Pool) : F unit :=
  if pool_Amount pool =? 0 then upd (λ st, set_pools (delete (pool_Id pool) (pools st)) st)
  else upd (λ st, set_pools (<[pool_Id pool := pool]> (pools st)) st).

(** The addition is not guarded. *)
Definition PoolAdd (id amountToAdd : Z) : F unit :=
  pool ← GetPool id;
  SetPool (set_pool_Amount (u64_add (pool_Amount pool) amountToAdd) pool).

Definition PoolSub (id amountToSub : Z) : F unit :=
  pool ← GetPool id;
  fail_if (pool_Amount pool <? amountToSub) ErrInsufficientFunds;;
  SetPool (set_pool_Amount (u64_sub (pool_Amount pool) amountToSub) pool).

Definition SetPoolPoints (chainId : Z) (points : list PoolPoints) (totalPoolPoints : Z) : F unit :=
  lPool ← GetPool chainId;
  SetPool (set_TotalPoolPoints totalPoolPoints (set_pool_Points points lPool)).

(** ** The supply tracker *)

Definition GetSupply : F Supply := getst supply.
Definition SetSupply (x : Supply) : F unit := upd (set_supply x).

(** The addition is not guarded. *)
Definition AddToTotalSupply (amount : Z) : F unit :=
  x ← GetSupply;
  SetSupply (set_Total (u64_add (Total x) amount) x).
Definition AddToStakedSupply (amount : Z) : F unit :=
  x ← GetSupply;
  fail_if (u64_sub u64_max amount <? Staked x) ErrInvalidAmount;;
  SetSupply (set_Staked (u64_add (Staked x) amount) x).
Definition AddToDelegateSupply (amount : Z) : F unit :=
  x ← GetSupply;
  fail_if (u64_sub u64_max amount <? DelegatedOnly x) ErrInvalidAmount;;
  SetSupply (set_DelegatedOnly (u64_add (DelegatedOnly x) amount) x).
Definition SubFromTotalSupply (amount : Z) : F unit :=
  x ← GetSupply;
  fail_if (Total x <? amount) ErrInsufficientSupply;;
  SetSupply (set_Total (u64_sub (Total x) amount) x).
Definition SubFromStakedSupply (amount : Z) : F unit :=
  x ← GetSupply;
  fail_if (Staked x <? amount) ErrInsufficientSupply;;
  SetSupply (set_Staked (u64_sub (Staked x) amount) x).
Definition SubFromDelegateSupply (amount : Z) : F unit :=
  x ← GetSupply;
  fail_if (DelegatedOnly x <? amount) ErrInsufficientSupply;;
  SetSupply (set_DelegatedOnly (u64_sub (DelegatedOnly x) amount) x).

(** Genesis: the upserts add to the supply tracker they are given, which the
    caller stores at the end. *)
Definition SetAccounts (accs : list Account) (x : Supply) : F Supply :=
  fold_m (λ x acc,
    fail_if (u64_sub u64_max (acc_Amount acc) <? Total x) ErrInvalidAmount;;
    SetAccount acc;;
    mret (set_Total (u64_add (Total x) (acc_Amount acc)) x)) x accs.
Definition SetPools (ps : list Pool) (x : Supply) : F Supply :=
  fold_m (λ x pool,
    fail_if (u64_sub u64_max (pool_Amount pool) <? Total x) ErrInvalidAmount;;
    SetPool pool;;
    mret (set_Total (u64_add (Total x) (pool_Amount pool)) x)) x ps.

Definition MintToPool (id amount : Z) : F unit := AddToTotalSupply amount;; PoolAdd id amount.
Definition MintToAccount (address : bytes) (amount : Z) : F unit :=
  if amount =? 0 then mret () else AddToTotalSupply amount;; AccountAdd address amount.

(** *** Per-chain supply pools *)

Inductive SupplyPoolType := CommitteesWithDelegations | DelegationsOnly.

Definition getSupplyPools (targetType : SupplyPoolType) (x : Supply) : list Pool :=
  match targetType with
  | CommitteesWithDelegations => CommitteeStaked x
  | DelegationsOnly => CommitteeDelegatedOnly x
  end.
Definition setSupplyPools (targetType : SupplyPoolType) (l : list Pool) (x : Supply) : Supply :=
  match targetType with
  | CommitteesWithDelegations => set_CommitteeStaked l x
  | DelegationsOnly => set_CommitteeDelegatedOnly l x
  end.

(** [findOrCreateSupplyPool] followed by the callback on the pool it returns:
    the first pool of the chain is updated in place, a new one is appended. *)
Fixpoint onSupplyPool (chainId : Z) (callback : Pool → result ErrorI Pool) (l : list Pool)
    : result ErrorI (list Pool) :=
  match l with
  | [] => match callback (MkPool chainId 0 [] 0) with Ok p => Ok [p] | Err e => Err e end
  | p :: l' =>
      if pool_Id p =? chainId then
        match callback p with Ok p' => Ok (p' :: l') | Err e => Err e end
      else
        match onSupplyPool chainId callback l' with Ok l'' => Ok (p :: l'') | Err e => Err e end
  end.

(** The comparator of [FilterAndSortPool]: amount descending, then id ascending. *)
Definition pool_le (a b : Pool) : bool :=
  if pool_Amount a =? pool_Amount b then pool_Id a <=? pool_Id b
  else pool_Amount b <? pool_Amount a.
Definition FilterAndSortPool (x : list Pool) : list Pool :=
  sorted_by pool_le (filter (λ p, pool_Amount p ≠ 0) x).

Definition executeOnSupplyPool (chainId : Z) (targetType : SupplyPoolType)
    (callback : Pool → result ErrorI Pool) : F unit :=
  x ← GetSupply;
  match onSupplyPool chainId callback (getSupplyPools targetType x) with
  | Err e => throw e
  | Ok arr => SetSupply (setSupplyPools targetType (FilterAndSortPool arr) x)
  end.

Definition addToSupplyPool (chainId amount : Z) (targetType : SupplyPoolType) : F unit :=
  executeOnSupplyPool chainId targetType (λ p,
    if u64_sub u64_max amount <? pool_Amount p then Err ErrInvalidAmount
    else Ok (set_pool_Amount (u64_add (pool_Amount p) amount) p)).
Definition subFromSupplyPool (chainId amount : Z) (targetType : SupplyPoolType) : F unit :=
  executeOnSupplyPool chainId targetType (λ p,
    if pool_Amount p <? amount then Err ErrInsufficientSupply
    else Ok (set_pool_Amount (u64_sub (pool_Amount p) amount) p)).

Definition AddToCommitteeSupplyForChain (chainId amount : Z) : F unit :=
  addToSupplyPool chainId amount CommitteesWithDelegations.
Definition AddToDelegateSupplyForChain (chainId amount : Z) : F unit :=
  addToSupplyPool chainId amount DelegationsOnly.
Definition SubFromCommitteeStakedSupplyForChain (chainId amount : Z) : F unit :=
  subFromSupplyPool chainId amount CommitteesWithDelegations.
Definition SubFromDelegateStakedSupplyForChain (chainId amount : Z) : F unit :=
  subFromSupplyPool chainId amount DelegationsOnly.

(** [AccountDeductFees]: the fee goes to the reward pool of the own chain. *)
Definition AccountDeductFees (address : bytes) (fee : Z) : F unit :=
  AccountSub address fee;;
  cfg ← gets config;
  PoolAdd (ChainId cfg) fee.

(** ** Liquidity points of a pool *)

Definition MaxLiquidityProviders : Z := 50000.

Fixpoint points_of (address : bytes) (l : list PoolPoints) : option Z :=
  match l with
  | [] => None
  | lp :: l' => if decide (pp_Address lp = address) then Some (pp_Points lp) else points_of address l'
  end.
Definition GetPointsFor (x : Pool) (address : bytes) : result ErrorI Z :=
  match points_of address (pool_Points x) with
  | Some points => Ok points
  | None => Err ErrPointHolderNotFound
  end.

(** Update the first entry of an address; [f] returns the new points. *)
Fixpoint upd_points (address : bytes) (n : Z) (l : list PoolPoints) : list PoolPoints :=
  match l with
  | [] => []
  | lp :: l' =>
      if decide (pp_Address lp = address) then MkPoolPoints (pp_Address lp) n :: l'
      else lp :: upd_points address n l'
  end.
(** Evict the first entry of an address. *)
Fixpoint del_points (address : bytes) (l : list PoolPoints) : list PoolPoints :=
  match l with
  | [] => []
  | lp :: l' => if decide (pp_Address lp = address) then l' else lp :: del_points address l'
  end.

Definition AddPoints (x : Pool) (address : bytes) (points : Z) : result ErrorI Pool :=
  if points =? 0 then Ok x else
  match points_of address (pool_Points x) with
  | Some old =>
      if u64_sub u64_max points <? TotalPoolPoints x then Err ErrInvalidAmount
      else if u64_sub u64_max points <? old then Err ErrInvalidAmount
      else Ok (set_TotalPoolPoints (u64_add (TotalPoolPoints x) points)
                 (set_pool_Points (upd_points address (u64_add old points) (pool_Points x)) x))
  | None =>
      if u64_sub u64_max points <? TotalPoolPoints x then Err ErrInvalidAmount
      else if MaxLiquidityProviders <=? Z.of_nat (length (pool_Points x)) then Err ErrInvalidLiquidityPool
      else Ok (set_TotalPoolPoints (u64_add (TotalPoolPoints x) points)
                 (set_pool_Points (pool_Points x ++ [MkPoolPoints address points]) x))
  end.

(** [RemovePoints]: the pool after the call and the error; the subtractions are
    not guarded and the pool is changed before the zero-pool check. *)
Definition RemovePoints (x : Pool) (address : bytes) (points : Z) : Pool * option ErrorI :=
  match points_of address (pool_Points x) with
  | None => (x, Some ErrPointHolderNotFound)
  | Some old =>
      let left_ := u64_sub old points in
      let l := if left_ =? 0 then del_points address (pool_Points x)
               else upd_points address left_ (pool_Points x) in
      let total := u64_sub (TotalPoolPoints x) points in
      (set_TotalPoolPoints total (set_pool_Points l x),
       if total =? 0 then Some ErrZeroLiquidityPool else None)
  end.

(** ** Lemmas: accounts *)

(** Nothing but the accounts and their cache changed. *)
Definition only_accounts (s s' : FSM) : Prop :=
  ∃ accs c, s' = set_cache_accounts c (set_store (set_accounts accs (store s)) s).

(** The balance of [a] changed by [n], and nothing else that matters. *)
Record credited (a : bytes) (n : Z) (s s' : FSM) : Prop := {
  cr_wf : wf s';
  cr_shift : ∀ c, shift c (d_account n) s s';
  cr_bal : ∀ b, acc_bal (store s') b = acc_bal (store s) b + (if decide (b = a) then n else 0);
  cr_only : only_accounts s s';
}.

Lemma only_accounts_refl s : only_accounts s s.
Proof. exists (accounts (store s)), (cache_accounts s). by destruct s as [[]]. Qed.
Lemma only_accounts_trans s1 s2 s3 : only_accounts s1 s2 → only_accounts s2 s3 → only_accounts s1 s3.
Proof. intros (a1 & c1 & ->) (a2 & c2 & ->). by exists a2, c2. Qed.

Lemma credited_0 a s : wf s → credited a 0 s s.
Proof.
  intros Hs. split; [done | | | apply only_accounts_refl].
  - intros c. apply (shift_eq _ _ g_zero); [by apply shift_refl | done].
  - intros b. case_decide; lia.
Qed.

Lemma lookup_account_spec a s :
  wf s → acc_Address (lookup_account a s) = a ∧ acc_Amount (lookup_account a s) = acc_bal (store s) a.
Proof.
  intros Hs. unfold lookup_account. destruct (cache_accounts s !! a) as [acc|] eqn:Hc.
  - exact (wf_cache s Hs a acc Hc).
  - unfold acc_bal. by destruct (accounts (store s) !! a).
Qed.

Lemma clear_keeps h acc :
  acc_Address (clearAccountVestingIfFullyVested h acc) = acc_Address acc ∧
  acc_Amount (clearAccountVestingIfFullyVested h acc) = acc_Amount acc.
Proof.
  unfold clearAccountVestingIfFullyVested.
  repeat case_match; done.
Qed.

(** Replacing the record of [a] in the store by one with balance [n] ([None] when [n = 0]). *)
Lemma acc_bal_update st a (o : option Account) n b :
  n = match o with Some acc => acc_Amount acc | None => 0 end →
  acc_bal (set_accounts (partial_alter (λ _, o) a (accounts st)) st) b =
  if decide (b = a) then n else acc_bal st b.
Proof.
  intros ->. unfold acc_bal. cbn. case_decide as Hb.
  - subst. by rewrite lookup_partial_alter_eq.
  - by rewrite lookup_partial_alter_ne.
Qed.
Lemma sum_update st a (o : option Account) n :
  n = match o with Some acc => acc_Amount acc | None => 0 end →
  sum_accounts (set_accounts (partial_alter (λ _, o) a (accounts st)) st) =
  sum_accounts st + (n - acc_bal st a).
Proof.
  intros ->. unfold sum_accounts, acc_bal. cbn.
  destruct o as [acc|].
  - change (partial_alter _ _ _) with (<[a:=acc]> (accounts st)).
    rewrite map_sum_insert. unfold at_key. destruct (accounts st !! a); lia.
  - change (partial_alter _ _ _) with (delete a (accounts st)).
    rewrite map_sum_delete. unfold at_key. destruct (accounts st !! a); lia.
Qed.

(** [SetAccount] never fails; it sets the balance of its account. *)
Lemma SetAccount_spec acc s r s' :
  wf s → u64 (acc_Amount acc) → SetAccount acc s = (r, s') →
  r = Ok () ∧ credited (acc_Address acc) (acc_Amount acc - acc_bal (store s) (acc_Address acc)) s s'.
Proof.
  intros Hs Hu. unfold SetAccount. runs.
  destruct (clear_keeps (height s) acc) as [Ha Hn].
  set (acc' := clearAccountVestingIfFullyVested (height s) acc) in *.
  rewrite <- Ha, <- Hn in *. set (a := acc_Address acc') in *.
  intros Hrun.
  set (o := if acc_Amount acc' =? 0 then None else Some acc').
  assert (Hr : r = Ok () ∧ s' = set_cache_accounts (<[a:=acc']> (cache_accounts s))
      (set_store (set_accounts (partial_alter (λ _, o) a (accounts (store s))) (store s)) s)).
  { subst o. destruct (acc_Amount acc' =? 0); by inv Hrun. }
  destruct Hr as [-> ->]. clear Hrun. split; [done|].
  assert (Ho : acc_Amount acc' = match o with Some acc => acc_Amount acc | None => 0 end).
  { subst o. by destruct (Z.eqb_spec (acc_Amount acc') 0). }
  pose proof (acc_bal_update (store s) a o (acc_Amount acc')) as Hb.
  split.
  - destruct Hs as [H1 H2 H3 H4 H5]. constructor;
      cbn [store set_cache_accounts set_store]; [| | exact H3 | exact H4 | exact H5].
    + intros b x. cbn. destruct (decide (b = a)) as [->|Hne].
      * rewrite lookup_partial_alter_eq. subst o. destruct (_ =? 0); [done|].
        by intros [= <-].
      * rewrite lookup_partial_alter_ne by done. apply H1.
    + intros b x. cbn [cache_accounts set_cache_accounts].
      rewrite Hb by done. destruct (decide (b = a)) as [->|Hne].
      * rewrite lookup_insert_eq. by intros [= <-].
      * rewrite lookup_insert_ne by done. apply H2.
  - intros c. unfold shift, books, held. cbn [store set_cache_accounts set_store].
    rewrite sum_update with (n := acc_Amount acc') by done.
    unfold d_account, g_add, sum_stakes, sum_pools, pool_bal. cbn. f_equal; lia.
  - intros b. cbn [store set_cache_accounts set_store]. rewrite Hb by done.
    case_decide; subst; lia.
  - by eexists _, _.
Qed.

Lemma AccountAdd_spec a n s r s' :
  wf s → u64 n → AccountAdd a n s = (r, s') →
  match r with
  | Ok _ => credited a n s s'
  | Err e => e = ErrInvalidAmount ∧ s' = s ∧ two64 <= acc_bal (store s) a + n
  end.
Proof.
  intros Hs Hn. unfold AccountAdd. destruct (Z.eqb_spec n 0) as [->|Hn0].
  { intros Hrun. inv Hrun. by apply credited_0. }
  destruct (lookup_account_spec a s Hs) as [Ha Hb]. pose proof (acc_bal_range s a Hs).
  unfold GetAccount. runs. rewrite Hb.
  destruct (u64_sub u64_max n <? acc_bal (store s) a) eqn:Hg.
  - intros Hrun. inv Hrun. zify_bools. rewrite u64_sub_small in Hg by u64.
    split_and!; [done..|u64].
  - apply max_guard in Hg as Hg'; [|done..]. rewrite u64_add_small by u64.
    intros Hrun. apply SetAccount_spec in Hrun as [-> Hc]; [|done | by cbn; u64].
    cbn in Hc. rewrite Ha in Hc.
    replace (acc_bal (store s) a + n - acc_bal (store s) a) with n in Hc by lia. done.
Qed.

Lemma spendable_le h acc : 0 <= acc_Amount acc → AccountSpendableAmount h acc <= Z.max 0 (acc_Amount acc).
Proof.
  intros H0. unfold AccountSpendableAmount. destruct (Z.leb_spec (acc_Amount acc) (AccountLockedAmount h acc)); [lia|].
  assert (0 <= AccountLockedAmount h acc).
  { unfold AccountLockedAmount. repeat case_match; [lia..|]. apply u64_sub_range. }
  unfold u64_sub, wrap64. etransitivity; [apply Z.mod_le|]; unfold two64; lia.
Qed.

Lemma AccountSub_spec a n s r s' :
  wf s → u64 n → AccountSub a n s = (r, s') →
  match r with
  | Ok _ => credited a (- n) s s' ∧ n <= acc_bal (store s) a ∧
            (n ≠ 0 → n <= AccountSpendableAmount (height s) (lookup_account a s))
  | Err e => e = ErrInsufficientFunds ∧ s' = s ∧
             AccountSpendableAmount (height s) (lookup_account a s) < n
  end.
Proof.
  intros Hs Hn. unfold AccountSub. pose proof (acc_bal_range s a Hs).
  destruct (Z.eqb_spec n 0) as [->|Hn0].
  { intros Hrun. inv Hrun. split; [by apply credited_0 | u64]. }
  destruct (lookup_account_spec a s Hs) as [Ha Hb].
  unfold GetAccount. runs. rewrite Hb.
  destruct (_ <? n) eqn:Hg; zify_bools.
  - intros Hrun. by inv Hrun.
  - pose proof (spendable_le (height s) (lookup_account a s) ltac:(u64)) as Hle. rewrite Hb in Hle.
    rewrite u64_sub_small by u64.
    intros Hrun. apply SetAccount_spec in Hrun as [-> Hc]; [|done | by cbn; u64].
    cbn in Hc. rewrite Ha in Hc.
    replace (acc_bal (store s) a - n - acc_bal (store s) a) with (- n) in Hc by lia.
    split_and!; [done | u64 | done].
Qed.

(** ** Lemmas: pools *)

(** Nothing but the pools changed. *)
Definition only_pools (s s' : FSM) : Prop := ∃ ps, s' = set_store (set_pools ps (store s)) s.

Record pooled (id n : Z) (s s' : FSM) : Prop := {
  po_wf : wf s';
  po_shift : ∀ c, shift c (d_pool c id n) s s';
  po_bal : ∀ i, pool_bal (store s') i = pool_bal (store s) i + hit i id n;
  po_only : only_pools s s';
}.

Lemma lookup_pool_spec id st :
  pool_Id (lookup_pool id st) = id ∧ pool_Amount (lookup_pool id st) = pool_bal st id.
Proof. unfold lookup_pool, pool_bal. by destruct (pools st !! id). Qed.

(** [SetPool] never fails; it sets the balance of its pool. *)
Lemma SetPool_spec p s r s' :
  wf s → u64 (pool_Amount p) → SetPool p s = (r, s') →
  r = Ok () ∧ pooled (pool_Id p) (pool_Amount p - pool_bal (store s) (pool_Id p)) s s'.
Proof.
  intros Hs Hu. unfold SetPool. runs. set (id := pool_Id p).
  set (o := if pool_Amount p =? 0 then None else Some p). intros Hrun.
  assert (Hr : r = Ok () ∧ s' = set_store (set_pools (partial_alter (λ _, o) id (pools (store s))) (store s)) s).
  { subst o. destruct (pool_Amount p =? 0); by inv Hrun. }
  destruct Hr as [-> ->]. clear Hrun. split; [done|].
  assert (Ho : pool_Amount p = match o with Some p => pool_Amount p | None => 0 end).
  { subst o. by destruct (Z.eqb_spec (pool_Amount p) 0). }
  assert (Hb : ∀ i, pool_bal (set_pools (partial_alter (λ _, o) id (pools (store s))) (store s)) i
      = pool_bal (store s) i + hit i id (pool_Amount p - pool_bal (store s) id)).
  { intros i. unfold hit. destruct (Z.eqb_spec i id) as [->|Hne]; unfold pool_bal; cbn.
    - rewrite lookup_partial_alter_eq. rewrite Ho. destruct o; lia.
    - rewrite lookup_partial_alter_ne by done. lia. }
  assert (Hsum : sum_pools (set_pools (partial_alter (λ _, o) id (pools (store s))) (store s))
      = sum_pools (store s) + (pool_Amount p - pool_bal (store s) id)).
  { rewrite Ho. unfold sum_pools, pool_bal. cbn. destruct o as [q|].
    - change (partial_alter _ _ _) with (<[id:=q]> (pools (store s))).
      rewrite map_sum_insert. unfold at_key. destruct (pools (store s) !! id); lia.
    - change (partial_alter _ _ _) with (delete id (pools (store s))).
      rewrite map_sum_delete. unfold at_key. destruct (pools (store s) !! id); lia. }
  split.
  - destruct Hs as [H1 H2 H3 H4 H5]. constructor;
      cbn [store set_cache_accounts set_store]; [exact H1 | exact H2 | | exact H4 | exact H5].
    intros i q. cbn. destruct (decide (i = id)) as [->|Hne].
    + rewrite lookup_partial_alter_eq. subst o. destruct (_ =? 0); [done|]. by intros [= <-].
    + rewrite lookup_partial_alter_ne by done. apply H3.
  - intros c. unfold shift, books, held. cbn [store set_store]. rewrite Hsum, !Hb.
    unfold hit. rewrite !(Z.eqb_sym (_ c) id). fold id.
    unfold d_pool, hit, g_add, sum_stakes, sum_accounts. cbn. f_equal; lia.
  - exact Hb.
  - by eexists.
Qed.

Lemma PoolAdd_spec c id n s r s' :
  wf s → 0 <= n <= g_total (books c (store s)) → PoolAdd id n s = (r, s') →
  r = Ok () ∧ pooled id n s s'.
Proof.
  intros Hs Hn. unfold PoolAdd, GetPool. runs.
  destruct (lookup_pool_spec id (store s)) as [Hid Hb]. rewrite Hb.
  pose proof (covered_pool c s id n Hs Hn). rewrite u64_add_small by done.
  intros Hrun. apply SetPool_spec in Hrun as [-> Hp]; [|done|done].
  cbn in Hp. rewrite Hid in Hp.
  replace (pool_bal (store s) id + n - pool_bal (store s) id) with n in Hp by lia. done.
Qed.

Lemma PoolSub_spec id n s r s' :
  wf s → u64 n → PoolSub id n s = (r, s') →
  match r with
  | Ok _ => pooled id (- n) s s' ∧ n <= pool_bal (store s) id
  | Err e => e = ErrInsufficientFunds ∧ s' = s ∧ pool_bal (store s) id < n
  end.
Proof.
  intros Hs Hn. unfold PoolSub, GetPool. runs.
  destruct (lookup_pool_spec id (store s)) as [Hid Hb]. rewrite Hb.
  pose proof (pool_bal_range s id Hs). destruct (_ <? n) eqn:Hg; zify_bools.
  - intros Hrun. by inv Hrun.
  - rewrite u64_sub_small by u64. intros Hrun.
    apply SetPool_spec in Hrun as [-> Hp]; [|done | by cbn; u64]. cbn in Hp. rewrite Hid in Hp.
    replace (pool_bal (store s) id - n - pool_bal (store s) id) with (- n) in Hp by lia. done.
Qed.

(** ** Lemmas: the supply tracker *)

Definition only_supply (s s' : FSM) : Prop := ∃ x, s' = set_store (set_supply x (store s)) s.

(** The supply tracker was changed by the posting [d]. *)
Record tracked (d : Z → gaps) (s s' : FSM) : Prop := {
  tr_wf : wf s';
  tr_shift : ∀ c, shift c (d c) s s';
  tr_only : only_supply s s';
}.

Lemma SetSupply_wf x s : wf s → wf_supply x → wf (set_store (set_supply x (store s)) s).
Proof. intros [H1 H2 H3 H4 H5] Hx. by constructor. Qed.

Lemma AddToTotalSupply_spec n s r s' :
  wf s → u64 n → u64 (Total (supply (store s)) + n) → AddToTotalSupply n s = (r, s') →
  r = Ok () ∧ tracked (λ _, d_total n) s s' ∧
  s' = set_store (set_supply (set_Total (Total (supply (store s)) + n) (supply (store s))) (store s)) s.
Proof.
  intros Hs Hn Ho. unfold AddToTotalSupply, GetSupply, SetSupply. runs. intros Hrun. inv Hrun.
  rewrite u64_add_small by done. split; [done|]. split; [|done]. split.
  - apply SetSupply_wf; [done|]. destruct (wf_supplies s Hs) as (?&?&?&?&?). by split_and!.
  - intros c. books_step.
  - by eexists.
Qed.

Lemma AddToStakedSupply_spec n s r s' :
  wf s → u64 n → AddToStakedSupply n s = (r, s') →
  match r with
  | Ok _ => tracked (λ _, d_staked n) s s'
  | Err e => e = ErrInvalidAmount ∧ s' = s
  end.
Proof.
  intros Hs Hn. destruct (wf_supplies s Hs) as (?&?&?&?&?).
  unfold AddToStakedSupply, GetSupply, SetSupply. runs.
  destruct (_ <? _) eqn:Hg; intros Hrun; inv Hrun; [done|].
  apply max_guard in Hg; [|done..]. rewrite u64_add_small by done. split.
  - apply SetSupply_wf; [done|]. by split_and!.
  - intros c. books_step.
  - by eexists.
Qed.
Lemma AddToDelegateSupply_spec n s r s' :
  wf s → u64 n → AddToDelegateSupply n s = (r, s') →
  match r with
  | Ok _ => tracked (λ _, d_deleg n) s s'
  | Err e => e = ErrInvalidAmount ∧ s' = s
  end.
Proof.
  intros Hs Hn. destruct (wf_supplies s Hs) as (?&?&?&?&?).
  unfold AddToDelegateSupply, GetSupply, SetSupply. runs.
  destruct (_ <? _) eqn:Hg; intros Hrun; inv Hrun; [done|].
  apply max_guard in Hg; [|done..]. rewrite u64_add_small by done. split.
  - apply SetSupply_wf; [done|]. by split_and!.
  - intros c. books_step.
  - by eexists.
Qed.
Lemma SubFromTotalSupply_spec n s r s' :
  wf s → u64 n → SubFromTotalSupply n s = (r, s') →
  match r with
  | Ok _ => tracked (λ _, d_total (- n)) s s' ∧ n <= Total (supply (store s))
  | Err e => e = ErrInsufficientSupply ∧ s' = s ∧ Total (supply (store s)) < n
  end.
Proof.
  intros Hs Hn. destruct (wf_supplies s Hs) as (?&?&?&?&?).
  unfold SubFromTotalSupply, GetSupply, SetSupply. runs.
  destruct (_ <? _) eqn:Hg; intros Hrun; inv Hrun; zify_bools; [done|].
  rewrite u64_sub_small by u64. split; [split|done].
  - apply SetSupply_wf; [done|]. split_and!; cbn; [u64|done..].
  - intros c. books_step.
  - by eexists.
Qed.
Lemma SubFromStakedSupply_spec n s r s' :
  wf s → u64 n → SubFromStakedSupply n s = (r, s') →
  match r with
  | Ok _ => tracked (λ _, d_staked (- n)) s s'
  | Err e => e = ErrInsufficientSupply ∧ s' = s
  end.
Proof.
  intros Hs Hn. destruct (wf_supplies s Hs) as (?&?&?&?&?).
  unfold SubFromStakedSupply, GetSupply, SetSupply. runs.
  destruct (_ <? _) eqn:Hg; intros Hrun; inv Hrun; zify_bools; [done|].
  rewrite u64_sub_small by u64. split.
  - apply SetSupply_wf; [done|]. split_and!; cbn; [done|u64|done..].
  - intros c. books_step.
  - by eexists.
Qed.
Lemma SubFromDelegateSupply_spec n s r s' :
  wf s → u64 n → SubFromDelegateSupply n s = (r, s') →
  match r with
  | Ok _ => tracked (λ _, d_deleg (- n)) s s'
  | Err e => e = ErrInsufficientSupply ∧ s' = s
  end.
Proof.
  intros Hs Hn. destruct (wf_supplies s Hs) as (?&?&?&?&?).
  unfold SubFromDelegateSupply, GetSupply, SetSupply. runs.
  destruct (_ <? _) eqn:Hg; intros Hrun; inv Hrun; zify_bools; [done|].
  rewrite u64_sub_small by u64. split.
  - apply SetSupply_wf; [done|]. split_and!; cbn; [done|done|u64|done..].
  - intros c. books_step.
  - by eexists.
Qed.

(** *** Per-chain supply pools *)

Lemma listed_cons c p l : listed c (p :: l) = hit (pool_Id p) c (pool_Amount p) + listed c l.
Proof. done. Qed.

Lemma listed_perm c l1 l2 : l1 ≡ₚ l2 → listed c l1 = listed c l2.
Proof. apply list_sum_perm. Qed.

(** Filtering and sorting loses nothing. *)
Lemma listed_FilterAndSortPool c l : listed c (FilterAndSortPool l) = listed c l.
Proof.
  unfold FilterAndSortPool. rewrite (listed_perm _ _ _ (sorted_by_perm _ _)).
  induction l as [|p l IH]; [done|]. rewrite filter_cons. case_decide as Hp.
  - by rewrite !listed_cons, IH.
  - rewrite listed_cons, IH, Hp, hit_0. lia.
Qed.
Lemma FilterAndSortPool_Forall (P : Pool → Prop) l : Forall P l → Forall P (FilterAndSortPool l).
Proof.
  unfold FilterAndSortPool. rewrite sorted_by_perm, !Forall_forall. intros Hl p Hp.
  apply list_elem_of_filter in Hp as [_ Hp]. by apply Hl.
Qed.

Lemma onSupplyPool_spec ch f n l l' :
  (∀ p p', u64 (pool_Amount p) → f p = Ok p' →
     pool_Id p' = pool_Id p ∧ pool_Amount p' = pool_Amount p + n ∧ u64 (pool_Amount p')) →
  Forall (λ p, u64 (pool_Amount p)) l → onSupplyPool ch f l = Ok l' →
  Forall (λ p, u64 (pool_Amount p)) l' ∧ ∀ c, listed c l' = listed c l + hit ch c n.
Proof.
  intros Hf. revert l'. induction l as [|p l IH]; intros l' Hl; cbn [onSupplyPool].
  - destruct (f _) as [p'|] eqn:Hp; [|done]. intros [= <-].
    apply Hf in Hp as (Hid & Hn & Hu); [|cbn; u64]. split; [by constructor|].
    intros c. rewrite listed_cons, Hid, Hn. cbn. change (listed c []) with 0. unfold hit.
    destruct (ch =? c); lia.
  - apply Forall_cons in Hl as [Hp0 Hl]. destruct (Z.eqb_spec (pool_Id p) ch) as [Hid0|Hid0].
    + destruct (f p) as [p'|] eqn:Hp; [|done]. intros [= <-].
      apply Hf in Hp as (Hid & Hn & Hu); [|done]. split; [by constructor|].
      intros c. rewrite !listed_cons, Hid, Hn, Hid0. unfold hit. destruct (ch =? c); lia.
    + destruct (onSupplyPool ch f l) as [l1|] eqn:Hrec; [|done]. intros [= <-].
      destruct (IH l1 Hl eq_refl) as [HF Hc]. split; [by constructor|].
      intros c. rewrite !listed_cons, Hc. lia.
Qed.

Definition d_pooltype (t : SupplyPoolType) (c ch n : Z) : gaps :=
  match t with
  | CommitteesWithDelegations => d_comm c ch n
  | DelegationsOnly => d_commdel c ch n
  end.

Lemma executeOnSupplyPool_spec ch t f n s r s' :
  (∀ p p', u64 (pool_Amount p) → f p = Ok p' →
     pool_Id p' = pool_Id p ∧ pool_Amount p' = pool_Amount p + n ∧ u64 (pool_Amount p')) →
  wf s → executeOnSupplyPool ch t f s = (r, s') →
  match r with
  | Ok _ => tracked (λ c, d_pooltype t c ch n) s s'
  | Err _ => s' = s
  end.
Proof.
  intros Hf Hs. unfold executeOnSupplyPool, GetSupply, SetSupply. runs.
  destruct (wf_supplies s Hs) as (?&?&?&HC&HD).
  assert (Hl : Forall (λ p, u64 (pool_Amount p)) (getSupplyPools t (supply (store s)))) by by destruct t.
  destruct (onSupplyPool ch f _) as [arr|] eqn:Hon; intros Hrun; inv Hrun; [|done].
  destruct (onSupplyPool_spec ch f n _ _ Hf Hl Hon) as [HF Hlisted].
  apply (FilterAndSortPool_Forall (λ p, u64 (pool_Amount p))) in HF.
  split.
  - apply SetSupply_wf; [done|]. destruct t; by split_and!.
  - intros c. specialize (Hlisted c). destruct t; cbn in Hlisted; books_step;
      rewrite listed_FilterAndSortPool; lia.
  - by eexists.
Qed.

Lemma addToSupplyPool_spec ch n t s r s' :
  wf s → u64 n → addToSupplyPool ch n t s = (r, s') →
  match r with
  | Ok _ => tracked (λ c, d_pooltype t c ch n) s s'
  | Err _ => s' = s
  end.
Proof.
  intros Hs Hn. apply executeOnSupplyPool_spec; [|done].
  intros p p' Hp. destruct (_ <? _) eqn:Hg; [done|]. intros [= <-].
  apply max_guard in Hg; [|done..]. cbn. by rewrite u64_add_small.
Qed.
Lemma subFromSupplyPool_spec ch n t s r s' :
  wf s → u64 n → subFromSupplyPool ch n t s = (r, s') →
  match r with
  | Ok _ => tracked (λ c, d_pooltype t c ch (- n)) s s'
  | Err _ => s' = s
  end.
Proof.
  intros Hs Hn. apply executeOnSupplyPool_spec; [|done].
  intros p p' Hp. destruct (_ <? _) eqn:Hg; [done|]. intros [= <-]. zify_bools.
  cbn. rewrite u64_sub_small by u64. split_and!; [done | lia | u64].
Qed.

Lemma credited_posted c a n s s' : credited a n s s' → posted c (d_account n) s s'.
Proof. by intros []. Qed.
Lemma pooled_posted c id n s s' : pooled id n s s' → posted c (d_pool c id n) s s'.
Proof. by intros []. Qed.
Lemma tracked_posted c d s s' : tracked d s s' → posted c (d c) s s'.
Proof. by intros []. Qed.
#[export] Hint Resolve credited_posted pooled_posted tracked_posted : go.

(** [MintToPool] creates the tokens it credits: the supply tracker and the pool
    move together as long as the total supply does not overflow. *)
Lemma MintToPool_spec c id n s r s' :
  wf s → u64 n → 0 <= g_total (books c (store s)) → u64 (Total (supply (store s)) + n) →
  MintToPool id n s = (r, s') →
  r = Ok () ∧ wf s' ∧ (∀ c, shift c (g_add (d_total n) (d_pool c id n)) s s') ∧
  (∀ i, pool_bal (store s') i = pool_bal (store s) i + hit i id n) ∧
  supply (store s') = set_Total (Total (supply (store s)) + n) (supply (store s)).
Proof.
  intros Hs Hn Hg Hu. unfold MintToPool. intros Hrun.
  destruct (AddToTotalSupply n s) as [r1 s1] eqn:H1.
  pose proof (AddToTotalSupply_spec n s r1 s1 Hs Hn Hu H1) as (-> & [Hw1 Hsh1 _] & Hx).
  rewrite (bind_run_Ok _ _ _ _ _ H1) in Hrun.
  apply (PoolAdd_spec c) in Hrun as [-> [Hw2 Hsh2 Hb2 Honly]]; [|done|].
  - split_and!; [done..| | |].
    + intros c'. eapply shift_trans; [apply Hsh1 | apply Hsh2].
    + intros i. rewrite Hb2, Hx. done.
    + destruct Honly as (ps & ->). by rewrite Hx.
  - rewrite (Hsh1 c). cbn. cbn in Hg. u64.
Qed.

(** ** Lemmas: vesting *)

Record wf_vesting (acc : Account) : Prop := {
  wv_amount : u64 (VestingAmount acc);
  wv_start : u64 (VestingStartHeight acc);
  wv_cliff : u64 (VestingCliffHeight acc);
  wv_end : u64 (VestingEndHeight acc);
}.

(** The vesting product does not overflow on any block of the schedule. *)
Definition vesting_fits (acc : Account) : Prop :=
  VestingAmount acc * (VestingEndHeight acc - VestingStartHeight acc) < two64.

(** The schedule without machine arithmetic. *)
Definition vested_spec (h : Z) (acc : Account) : Z :=
  if (h <? VestingStartHeight acc) || (h <? VestingCliffHeight acc) then 0
  else if VestingEndHeight acc <=? h then VestingAmount acc
  else VestingAmount acc * (h - VestingStartHeight acc)
       / (VestingEndHeight acc - VestingStartHeight acc).

Lemma AccountVestedAmount_spec h acc :
  u64 h → wf_vesting acc → vesting_fits acc → AccountVestedAmount h acc = vested_spec h acc.
Proof.
  intros Hh [? ? ? ?] Hf. unfold AccountVestedAmount, vested_spec, vesting_fits in *.
  destruct (_ || _) eqn:H1; [done|]. destruct (_ <=? h) eqn:H2; [done|]. zify_bools.
  rewrite !u64_sub_small by u64. rewrite u64_mul_small; [done|]. u64.
Qed.

Lemma vested_spec_range h acc :
  u64 h → wf_vesting acc → 0 <= vested_spec h acc <= VestingAmount acc.
Proof.
  intros Hh [? ? ? ?]. unfold vested_spec.
  destruct (_ || _) eqn:H1; [u64|]. destruct (_ <=? h) eqn:H2; [u64|]. zify_bools.
  split; [apply Z.div_pos; u64|]. apply Z.div_le_upper_bound; u64.
Qed.

Lemma vested_spec_mono h1 h2 acc :
  u64 h1 → u64 h2 → wf_vesting acc → h1 <= h2 → vested_spec h1 acc <= vested_spec h2 acc.
Proof.
  intros H1 H2 Hw Hle. pose proof (vested_spec_range h1 acc H1 Hw).
  pose proof (vested_spec_range h2 acc H2 Hw). destruct Hw.
  unfold vested_spec in *.
  destruct (_ || _) eqn:E1; [lia|]. zify_bools.
  destruct (h2 <? VestingStartHeight acc) eqn:E3; [zify_bools; lia|].
  destruct (h2 <? VestingCliffHeight acc) eqn:E4; [zify_bools; lia|]. cbn [orb] in *.
  destruct (VestingEndHeight acc <=? h1) eqn:E5; [zify_bools;
    destruct (Z.leb_spec (VestingEndHeight acc) h2); lia|].
  destruct (VestingEndHeight acc <=? h2) eqn:E6; [lia|]. zify_bools.
  apply Z.div_le_mono; u64.
Qed.

Lemma AccountLockedAmount_spec h acc :
  u64 h → wf_vesting acc → vesting_fits acc →
  AccountLockedAmount h acc = VestingAmount acc - vested_spec h acc.
Proof.
  intros Hh Hw Hf. pose proof (vested_spec_range h acc Hh Hw).
  unfold AccountLockedAmount. rewrite AccountVestedAmount_spec by done.
  pose proof (wv_amount acc Hw). destruct (Z.eqb_spec (VestingAmount acc) 0); [lia|].
  destruct (Z.leb_spec (VestingAmount acc) (vested_spec h acc)); [lia|].
  apply u64_sub_small. u64.
Qed.

(** ** Lemmas: liquidity points *)

Definition sum_points (l : list PoolPoints) : Z := list_sum pp_Points l.

(** The pool's total is the sum of its holders' points, all in range, one entry
    per holder. *)
Record wf_points (x : Pool) : Prop := {
  wp_total : TotalPoolPoints x = sum_points (pool_Points x);
  wp_u64 : u64 (TotalPoolPoints x);
  wp_range : Forall (λ lp, u64 (pp_Points lp)) (pool_Points x);
  wp_nodup : NoDup (map pp_Address (pool_Points x));
}.

Lemma points_of_Some a l n :
  points_of a l = Some n → ∃ lp, lp ∈ l ∧ pp_Address lp = a ∧ pp_Points lp = n.
Proof.
  induction l as [|lp l IH]; cbn; [done|]. case_decide as Ha.
  - intros [= <-]. exists lp. set_solver.
  - intros (lp' & ? & ? & ?)%IH. exists lp'. set_solver.
Qed.
Lemma points_of_None a l : points_of a l = None → a ∉ map pp_Address l.
Proof. induction l as [|lp l IH]; cbn; [set_solver|]. case_decide; [done|]. set_solver. Qed.
Lemma upd_points_sum a n l old :
  points_of a l = Some old → sum_points (upd_points a n l) = sum_points l - old + n.
Proof.
  unfold sum_points. induction l as [|lp l IH]; cbn; [done|]. case_decide.
  - intros [= <-]. rewrite !list_sum_cons. cbn. lia.
  - intros Hp. rewrite !list_sum_cons, (IH Hp). lia.
Qed.
Lemma del_points_sum a l old :
  points_of a l = Some old → sum_points (del_points a l) = sum_points l - old.
Proof.
  unfold sum_points. induction l as [|lp l IH]; cbn; [done|]. case_decide.
  - intros [= <-]. rewrite !list_sum_cons. lia.
  - intros Hp. rewrite !list_sum_cons, (IH Hp). lia.
Qed.
Lemma upd_points_addrs a n l : map pp_Address (upd_points a n l) = map pp_Address l.
Proof. induction l as [|lp l IH]; cbn; [done|]. case_decide; cbn; [done|]. by rewrite IH. Qed.
Lemma del_points_addrs a l : map pp_Address (del_points a l) `sublist_of` map pp_Address l.
Proof.
  induction l as [|lp l IH]; cbn; [done|]. case_decide; cbn; by constructor.
Qed.
Lemma upd_points_range a n l :
  u64 n → Forall (λ lp, u64 (pp_Points lp)) l → Forall (λ lp, u64 (pp_Points lp)) (upd_points a n l).
Proof.
  intros Hn. induction 1 as [|lp l Hp Hl IH]; cbn; [constructor|]. case_decide; by constructor.
Qed.
Lemma del_points_range a l :
  Forall (λ lp, u64 (pp_Points lp)) l → Forall (λ lp, u64 (pp_Points lp)) (del_points a l).
Proof. induction 1; cbn; [constructor|]. case_decide; [done | by constructor]. Qed.
Lemma sum_points_nonneg l : Forall (λ lp, u64 (pp_Points lp)) l → 0 <= sum_points l.
Proof.
  intros Hl. apply list_sum_nonneg. intros lp Hin. rewrite Forall_forall in Hl.
  pose proof (Hl lp Hin) as H. cbn in H. u64.
Qed.

Lemma AddPoints_wf x a n x' :
  wf_points x → u64 n → AddPoints x a n = Ok x' →
  wf_points x' ∧ TotalPoolPoints x' = TotalPoolPoints x + n ∧ pool_Amount x' = pool_Amount x ∧
  pool_Id x' = pool_Id x.
Proof.
  intros [Ht Hu Hr Hd] Hn. unfold AddPoints. destruct (Z.eqb_spec n 0) as [->|].
  { intros [= <-]. split_and!; [done | lia | done..]. }
  destruct (points_of a (pool_Points x)) as [old|] eqn:Hp.
  - destruct (_ <? _) eqn:G1; [done|]. destruct (_ <? old) eqn:G2; [done|]. intros [= <-].
    apply points_of_Some in Hp as Hin. destruct Hin as (lp & Hin & Hla & Hlp).
    rewrite Forall_forall in Hr. pose proof (Hr lp Hin) as Hold. rewrite <- Forall_forall in Hr.
    rewrite Hlp in Hold. apply max_guard in G1, G2; try done.
    rewrite !u64_add_small by done. split_and!; [|done..]. split; cbn; [| done | |].
    + rewrite (upd_points_sum _ _ _ _ Hp). lia.
    + by apply upd_points_range.
    + by rewrite upd_points_addrs.
  - destruct (_ <? _) eqn:G1; [done|]. destruct (_ <=? _); [done|]. intros [= <-].
    apply max_guard in G1; try done. rewrite u64_add_small by done.
    split_and!; [|done..]. split; cbn; [| done | |].
    + unfold sum_points. rewrite list_sum_app. unfold sum_points in Ht. rewrite Ht.
      rewrite list_sum_cons. change (list_sum pp_Points []) with 0. cbn. lia.
    + apply Forall_app. split; [done|]. apply Forall_singleton. done.
    + rewrite map_app. apply NoDup_app. split_and!; [done| |apply NoDup_singleton].
      apply points_of_None in Hp. cbn. set_solver.
Qed.

Lemma RemovePoints_wf x a n x' e old :
  wf_points x → 0 <= n <= old → points_of a (pool_Points x) = Some old →
  RemovePoints x a n = (x', e) →
  wf_points x' ∧ TotalPoolPoints x' = TotalPoolPoints x - n ∧ pool_Amount x' = pool_Amount x ∧
  pool_Id x' = pool_Id x ∧ (e = None ↔ n ≠ TotalPoolPoints x).
Proof.
  intros [Ht Hu Hr Hd] Hn Hp. unfold RemovePoints. rewrite Hp.
  apply points_of_Some in Hp as Hin. destruct Hin as (lp & Hin & Hla & Hlp).
  rewrite Forall_forall in Hr. pose proof (Hr lp Hin) as Hold. cbn in Hold. rewrite Hlp in Hold.
  rewrite <- Forall_forall in Hr.
  assert (Hle : old <= TotalPoolPoints x).
  { rewrite Ht. pose proof (del_points_sum _ _ _ Hp).
    pose proof (sum_points_nonneg _ (del_points_range a _ Hr)). lia. }
  rewrite !u64_sub_small by u64. intros [= <- <-].
  split_and!; [|done..|].
  - split; cbn; [| u64 | |]; destruct (Z.eqb_spec (old - n) 0).
    + rewrite (del_points_sum _ _ _ Hp). lia.
    + rewrite (upd_points_sum _ _ _ _ Hp). lia.
    + by apply del_points_range.
    + apply upd_points_range; [u64|done].
    + eapply sublist_NoDup; [done | apply del_points_addrs].
    + by rewrite upd_points_addrs.
  - destruct (Z.eqb_spec (TotalPoolPoints x - n) 0); split; [done | lia | lia | done].
Qed.
