(* ===== verification/Validator.v ===== *)
(** * Validators, delegators and committee membership
    ([fsm/validator.go]; membership of [fsm/committee.go]; the pause, unpause and
    unstake handlers of [fsm/message.go]) *)
From S2P Require Import Prelude LibUtil State Ledger Params Fixtures Account.

(** ** Committee membership and the supply it commits *)

Definition SetCommitteeMember (address : bytes) (chainId stakeForCommittee : Z) : F unit :=
  v2 ← IsFeatureEnabled 2;
  if v2 : bool then mret ()
  else upd (λ st, set_committee_index ({[(chainId, stakeForCommittee, address)]} ∪ committee_index st) st).
Definition DeleteCommitteeMember (address : bytes) (chainId stakeForCommittee : Z) : F unit :=
  v2 ← IsFeatureEnabled 2;
  if v2 : bool then mret ()
  else upd (λ st, set_committee_index (committee_index st ∖ {[(chainId, stakeForCommittee, address)]}) st).
Definition SetDelegate (address : bytes) (chainId stakeForCommittee : Z) : F unit :=
  v2 ← IsFeatureEnabled 2;
  if v2 : bool then mret ()
  else upd (λ st, set_delegate_index ({[(chainId, stakeForCommittee, address)]} ∪ delegate_index st) st).
Definition DeleteDelegate (address : bytes) (chainId stakeForCommittee : Z) : F unit :=
  v2 ← IsFeatureEnabled 2;
  if v2 : bool then mret ()
  else upd (λ st, set_delegate_index (delegate_index st ∖ {[(chainId, stakeForCommittee, address)]}) st).

Definition SetCommittees (address : bytes) (totalStake : Z) (committees : list Z) : F unit :=
  for_each committees (λ committee,
    SetCommitteeMember address committee totalStake;;
    AddToCommitteeSupplyForChain committee totalStake).
Definition DeleteCommittees (address : bytes) (totalStake : Z) (committees : list Z) : F unit :=
  for_each committees (λ committee,
    DeleteCommitteeMember address committee totalStake;;
    SubFromCommitteeStakedSupplyForChain committee totalStake).
Definition UpdateCommittees (address : bytes) (oldValidator : Validator) (newStakedAmount : Z)
    (newCommittees : list Z) : F unit :=
  DeleteCommittees address (StakedAmount oldValidator) (Committees oldValidator);;
  SetCommittees address newStakedAmount newCommittees.

Definition SetDelegations (address : bytes) (totalStake : Z) (committees : list Z) : F unit :=
  for_each committees (λ committee,
    SetDelegate address committee totalStake;;
    AddToDelegateSupplyForChain committee totalStake;;
    AddToCommitteeSupplyForChain committee totalStake).
Definition DeleteDelegations (address : bytes) (totalStake : Z) (committees : list Z) : F unit :=
  for_each committees (λ committee,
    DeleteDelegate address committee totalStake;;
    SubFromDelegateStakedSupplyForChain committee totalStake;;
    SubFromCommitteeStakedSupplyForChain committee totalStake).
Definition UpdateDelegations (address : bytes) (oldValidator : Validator) (newStakedAmount : Z)
    (newCommittees : list Z) : F unit :=
  DeleteDelegations address (StakedAmount oldValidator) (Committees oldValidator);;
  SetDelegations address newStakedAmount newCommittees.

(** ** The validator records *)

Definition GetValidator (address : bytes) : F Validator :=
  bz ← getst (λ st, validators st !! address);
  match bz with
  | None => throw ErrValidatorNotExists
  | Some val => mret (set_val_Address address val)
  end.
Definition GetValidatorExists (address : bytes) : F bool :=
  getst (λ st, bool_decide (is_Some (validators st !! address))).
(** [GetValidators]: in the order of the iterator over the validator prefix. *)
Definition iter_validators (st : Store) : list Validator :=
  map snd (sorted_by (λ a b, bytes_le (fst a) (fst b)) (map_to_list (validators st))).
Definition GetValidators : F (list Validator) := getst iter_validators.

Definition SetValidator (validator : Validator) : F unit :=
  upd (λ st, set_validators (<[val_Address validator := validator]> (validators st)) st).

Definition UpdateValidatorStake (val : Validator) (newCommittees : list Z) (amountToAdd : Z) : F unit :=
  let address := val_Address val in
  AddToStakedSupply amountToAdd;;
  let newStakedAmount := u64_add (StakedAmount val) amountToAdd in
  (if Delegate val then
     AddToDelegateSupply amountToAdd;;
     UpdateDelegations address val newStakedAmount newCommittees
   else UpdateCommittees address val newStakedAmount newCommittees);;
  SetValidator (set_StakedAmount newStakedAmount (set_Committees newCommittees val)).

Definition DeleteValidator (validator : Validator) : F unit :=
  let addr := val_Address validator in
  SubFromStakedSupply (StakedAmount validator);;
  (if Delegate validator then
     SubFromDelegateSupply (StakedAmount validator);;
     DeleteDelegations addr (StakedAmount validator) (Committees validator)
   else DeleteCommittees addr (StakedAmount validator) (Committees validator));;
  upd (λ st, set_validators (delete addr (validators st)) st).

(** ** Pausing and unstaking *)

(** The Go functions mutate the validator they are given; the model returns the
    validator as the callee leaves it. *)
Definition SetValidatorPaused (address : bytes) (validator : Validator) (maxPausedHeight : Z) : F Validator :=
  upd (λ st, set_paused ({[(maxPausedHeight, address)]} ∪ paused st) st);;
  let validator := set_MaxPausedHeight maxPausedHeight validator in
  SetValidator validator;;
  mret validator.
Definition SetValidatorUnpaused (address : bytes) (validator : Validator) : F Validator :=
  upd (λ st, set_paused (paused st ∖ {[(MaxPausedHeight validator, address)]}) st);;
  let validator := set_MaxPausedHeight 0 validator in
  SetValidator validator;;
  mret validator.
Definition SetValidatorUnstaking (address : bytes) (validator : Validator) (finishUnstakingHeight : Z)
    : F Validator :=
  upd (λ st, set_unstaking ({[(finishUnstakingHeight, address)]} ∪ unstaking st) st);;
  validator ← (if negb (MaxPausedHeight validator =? 0) then SetValidatorUnpaused address validator
               else mret validator);
  let validator := set_UnstakingHeight finishUnstakingHeight validator in
  SetValidator validator;;
  mret validator.

Definition SetValidatorUnstakingIfBelowMinimum (validator : Validator) (params : ValidatorParams) : F bool :=
  if negb (UnstakingHeight validator =? 0) then mret false else
  let '(unstakingBlocks, belowMinimum) :=
    if Delegate validator then
      if StakedAmount validator <? MinimumStakeForDelegates params
      then (DelegateUnstakingBlocks params, true) else (0, false)
    else
      if StakedAmount validator <? MinimumStakeForValidators params
      then (UnstakingBlocks params, true) else (0, false) in
  if belowMinimum : bool then
    h ← Height;
    _ ← SetValidatorUnstaking (val_Address validator) validator (u64_add h unstakingBlocks);
    mret true
  else mret false.

(** [IterateAndExecute] over the keys of one height: the addresses in order. *)
Definition addrs_at (h : Z) (idx : gset (Z * bytes)) : list bytes :=
  sorted_by bytes_le (map snd (elements (filter (λ k, fst k = h) idx))).
(** [DeleteAll] of the keys of one height. *)
Definition drop_height (h : Z) (idx : gset (Z * bytes)) : gset (Z * bytes) :=
  filter (λ k, fst k ≠ h) idx.

Definition DeleteFinishedUnstaking : F unit :=
  h ← Height;
  keys ← getst (λ st, addrs_at h (unstaking st));
  for_each keys (λ addr,
    validator ← GetValidator addr;
    AccountAdd (val_Output validator) (StakedAmount validator);;
    DeleteValidator validator;;
    addEvent (EventFinishUnstaking addr));;
  upd (λ st, set_unstaking (unstaking st ∖ list_to_set (map (pair h) keys)) st).

(** ** Handlers of [fsm/message.go] on existing validators *)

Definition HandleMessagePause (address : bytes) : F unit :=
  validator ← GetValidator address;
  fail_if (negb (MaxPausedHeight validator =? 0)) ErrValidatorPaused;;
  fail_if (negb (UnstakingHeight validator =? 0)) ErrValidatorUnstaking;;
  fail_if (Delegate validator) ErrValidatorIsADelegate;;
  params ← GetParamsVal;
  h ← Height;
  _ ← SetValidatorPaused address validator (u64_add h (MaxPauseBlocks params));
  mret ().

Definition HandleMessageUnpause (address : bytes) : F unit :=
  validator ← GetValidator address;
  fail_if (MaxPausedHeight validator =? 0) ErrValidatorNotPaused;;
  fail_if (negb (UnstakingHeight validator =? 0)) ErrValidatorUnstaking;;
  fail_if (Delegate validator) ErrValidatorIsADelegate;;
  _ ← SetValidatorUnpaused address validator;
  mret ().

Definition HandleMessageUnstake (address : bytes) : F unit :=
  validator ← GetValidator address;
  fail_if (negb (UnstakingHeight validator =? 0)) ErrValidatorUnstaking;;
  p ← GetParamsVal;
  let unstakingBlocks := if negb (Delegate validator) then UnstakingBlocks p
                         else DelegateUnstakingBlocks p in
  h ← Height;
  _ ← SetValidatorUnstaking address validator (u64_add h unstakingBlocks);
  mret ().

(** [SetValidatorsPaused]: every failure is logged and skipped. *)
Definition SetValidatorsPaused (chainId : Z) (addresses : list bytes) : F unit :=
  for_each addresses (λ addr,
    r ← try (GetValidator addr);
    match r with
    | Err _ => mret ()
    | Ok val =>
        v2 ← IsFeatureEnabled 2;
        if v2 && negb (bool_decide (chainId ∈ Committees val)) then mret ()
        else
          r ← try (HandleMessagePause addr);
          match r with
          | Err _ => mret ()
          | Ok _ => swallow (addEvent (EventAutoPause addr))
          end
    end).

(** [ForceUnstakeValidator] of [fsm/byzantine.go]. *)
Definition ForceUnstakeValidator (address : bytes) : F unit :=
  r ← try (GetValidator address);
  match r with
  | Err _ => mret ()
  | Ok validator =>
      if negb (UnstakingHeight validator =? 0) then mret ()
      else
        p ← GetParamsVal;
        h ← Height;
        _ ← SetValidatorUnstaking address validator (u64_add h (UnstakingBlocks p));
        addEvent (EventAutoBeginUnstaking address)
  end.

(** [ForceUnstakeMaxPaused] of [fsm/automatic.go]. *)
Definition ForceUnstakeMaxPaused : F unit :=
  h ← Height;
  keys ← getst (λ st, addrs_at h (paused st));
  for_each keys ForceUnstakeValidator;;
  upd (λ st, set_paused (paused st ∖ list_to_set (map (pair h) keys)) st).

(** [GetAuthorizedSignersForValidator]. *)
Definition GetAuthorizedSignersForValidator (address : bytes) : F (list bytes) :=
  validator ← GetValidator address;
  mret (if decide (val_Address validator = val_Output validator) then [val_Address validator]
        else [val_Address validator; val_Output validator]).

(** ** Committee selection *)

Inductive FilterOption := FilterOption_Off | FilterOption_MustBe | FilterOption_Exclude.
Record ValidatorFilters := MkFilters {
  f_Unstaking : FilterOption;
  f_Paused : FilterOption;
  f_Delegate : FilterOption;
  f_Committee : Z;
}.

Definition passes (f : FilterOption) (flag : bool) : bool :=
  match f with
  | FilterOption_Off => true
  | FilterOption_MustBe => flag
  | FilterOption_Exclude => negb flag
  end.
Definition PassesFilter (f : ValidatorFilters) (x : Validator) : bool :=
  passes (f_Unstaking f) (negb (UnstakingHeight x =? 0)) &&
  passes (f_Paused f) (negb (MaxPausedHeight x =? 0)) &&
  passes (f_Delegate f) (Delegate x) &&
  ((f_Committee f =? 0) || bool_decide (f_Committee f ∈ Committees x)).

(** Highest stake first, then highest address. *)
Definition stake_le (a b : Validator) : bool :=
  if StakedAmount b =? StakedAmount a then bytes_le (val_Address b) (val_Address a)
  else StakedAmount b <? StakedAmount a.

(** The members [getValidatorSet] hands to [lib.NewValidatorSet]. *)
Definition getValidatorSet (chainId : Z) (delegate : bool) : F (list Validator) :=
  p ← GetParamsVal;
  let '(maxPerCommittee, delegateFilter) :=
    if delegate then (MaximumDelegatesPerCommittee p, FilterOption_MustBe)
    else (MaxCommitteeSize p, FilterOption_Exclude) in
  vals ← GetValidators;
  let filtered := sorted_by stake_le
    (filter (λ v, PassesFilter (MkFilters FilterOption_Exclude FilterOption_Exclude delegateFilter chainId) v = true)
       (reverse vals)) in
  let limit := if 0 <? maxPerCommittee then Z.min (Z.of_nat (length filtered)) maxPerCommittee
               else Z.of_nat (length filtered) in
  mret (take (Z.to_nat limit) filtered).
Definition GetCommitteeMembers (chainId : Z) : F (list Validator) := getValidatorSet chainId false.
Definition GetDelegates (chainId : Z) : F (list Validator) := getValidatorSet chainId true.

(** ** Lemmas: membership and committed supply *)

(** Only the supply tracker and the membership indices changed. *)
Definition only_supply_idx (s s' : FSM) : Prop :=
  ∃ x ci di, s' = set_store (set_supply x (set_committee_index ci (set_delegate_index di (store s)))) s.
Lemma only_supply_idx_refl s : only_supply_idx s s.
Proof. exists (supply (store s)), (committee_index (store s)), (delegate_index (store s)). by destruct s as [[]]. Qed.
Lemma only_supply_idx_trans s1 s2 s3 :
  only_supply_idx s1 s2 → only_supply_idx s2 s3 → only_supply_idx s1 s3.
Proof. intros (x1 & c1 & d1 & ->) (x2 & c2 & d2 & ->). by exists x2, c2, d2. Qed.
Lemma only_supply_weaken s s' : only_supply s s' → only_supply_idx s s'.
Proof.
  intros (x & ->). exists x, (committee_index (store s)), (delegate_index (store s)).
  by destruct s as [[]].
Qed.

(** An index write posts nothing. *)
Definition index_only (s s' : FSM) : Prop :=
  ∃ ci di, s' = set_store (set_committee_index ci (set_delegate_index di (store s))) s.
Lemma index_only_posted c s s' :
  wf s → index_only s s' → posted c g_zero s s' ∧ only_supply_idx s s'.
Proof.
  intros [H1 H2 H3 H4 H5] (ci & di & ->). split.
  - split; [by constructor|]. books_step.
  - exists (supply (store s)), ci, di. by destruct s as [[]].
Qed.
Lemma index_only_refl s : index_only s s.
Proof. exists (committee_index (store s)), (delegate_index (store s)). by destruct s as [[]]. Qed.
Ltac index_op :=
  runs; let H := fresh in destruct (feature_enabled 2 _); intros H; inv H;
  (split; [done|]); [apply index_only_refl|];
  match goal with
  | |- index_only ?s (set_store (set_committee_index ?i _) _) => exists i, (delegate_index (store s))
  | |- index_only ?s (set_store (set_delegate_index ?i _) _) => exists (committee_index (store s)), i
  end; match goal with s : FSM |- _ => destruct s as [[]] end; reflexivity.
Lemma SetCommitteeMember_only a ch n s r s' :
  SetCommitteeMember a ch n s = (r, s') → r = Ok () ∧ index_only s s'.
Proof. unfold SetCommitteeMember, IsFeatureEnabled. index_op. Qed.
Lemma DeleteCommitteeMember_only a ch n s r s' :
  DeleteCommitteeMember a ch n s = (r, s') → r = Ok () ∧ index_only s s'.
Proof. unfold DeleteCommitteeMember, IsFeatureEnabled. index_op. Qed.
Lemma SetDelegate_only a ch n s r s' :
  SetDelegate a ch n s = (r, s') → r = Ok () ∧ index_only s s'.
Proof. unfold SetDelegate, IsFeatureEnabled. index_op. Qed.
Lemma DeleteDelegate_only a ch n s r s' :
  DeleteDelegate a ch n s = (r, s') → r = Ok () ∧ index_only s s'.
Proof. unfold DeleteDelegate, IsFeatureEnabled. index_op. Qed.

(** What a loop over committees posts: [n] for each occurrence of [c]. *)
Definition d_committees (c n m : Z) (ids : list Z) : gaps :=
  Gaps 0 0 0 (times c ids * n) (times c ids * m) 0 0.

Lemma times_app c l1 l2 : times c (l1 ++ l2) = times c l1 + times c l2.
Proof. apply list_sum_app. Qed.
Lemma times_one c i : times c [i] = if i =? c then 1 else 0.
Proof. unfold times. rewrite list_sum_cons. change (list_sum _ []) with 0. lia. Qed.

(** The loops of [SetCommittees] and its three siblings: when each iteration
    posts [n] (and [m] delegated) to its committee, so does the loop. *)
Lemma committees_loop c n m (f : Z → F unit) ids s u s' :
  (∀ i s u s', wf s → f i s = (Ok u, s') →
     posted c (g_add (d_comm c i n) (d_commdel c i m)) s s' ∧ only_supply_idx s s') →
  wf s → for_each ids f s = (Ok u, s') →
  posted c (d_committees c n m ids) s s' ∧ only_supply_idx s s'.
Proof.
  intros Hf Hs. apply (for_each_Ok
    (λ dn s1, posted c (d_committees c n m dn) s s1 ∧ only_supply_idx s s1)).
  - intros dn x rest s1 s1' u' _ [Hp Ho] Hrun. apply Hf in Hrun as [Hp' Ho']; [|apply Hp].
    split; [|by eapply only_supply_idx_trans].
    eapply posted_eq; [by eapply posted_trans|].
    unfold d_committees. rewrite times_app, times_one. g_unfold. unfold hit.
    f_equal; destruct (x =? c); lia.
  - split; [|apply only_supply_idx_refl]. eapply posted_eq; [by apply posted_0|]. done.
Qed.

Lemma index_step c d s s1 s2 :
  wf s → index_only s s1 → (wf s1 → posted c d s1 s2 ∧ only_supply_idx s1 s2) →
  posted c d s s2 ∧ only_supply_idx s s2.
Proof.
  intros Hs Hi H2. apply (index_only_posted c) in Hi as [Hp Ho]; [|done].
  destruct (H2 (po_ok _ _ _ _ Hp)) as [Hp2 Ho2].
  split; [|by eapply only_supply_idx_trans].
  eapply posted_eq; [eapply posted_trans; done|]. destruct d. g_eq.
Qed.
Lemma tracked_step c d s s' : tracked d s s' → posted c (d c) s s' ∧ only_supply_idx s s'.
Proof. intros []. split; [done | by apply only_supply_weaken]. Qed.

Lemma SetCommittees_spec c a n ids s u s' :
  wf s → u64 n → SetCommittees a n ids s = (Ok u, s') →
  posted c (d_committees c n 0 ids) s s' ∧ only_supply_idx s s'.
Proof.
  intros Hs Hn. apply committees_loop; [|done]. clear - Hn. intros i s u s' Hs Hrun. minv.
  apply SetCommitteeMember_only in Hm as [_ Hi]. eapply index_step; [done..|]. intros Hw.
  apply (addToSupplyPool_spec) in Hrun as Ht; [|done..].
  apply (tracked_step c) in Ht as [Hp Ho]. split; [posts|done].
Qed.
Lemma DeleteCommittees_spec c a n ids s u s' :
  wf s → u64 n → DeleteCommittees a n ids s = (Ok u, s') →
  posted c (d_committees c (- n) 0 ids) s s' ∧ only_supply_idx s s'.
Proof.
  intros Hs Hn. apply committees_loop; [|done]. clear - Hn. intros i s u s' Hs Hrun. minv.
  apply DeleteCommitteeMember_only in Hm as [_ Hi]. eapply index_step; [done..|]. intros Hw.
  apply (subFromSupplyPool_spec) in Hrun as Ht; [|done..].
  apply (tracked_step c) in Ht as [Hp Ho]. split; [posts|done].
Qed.
Lemma SetDelegations_spec c a n ids s u s' :
  wf s → u64 n → SetDelegations a n ids s = (Ok u, s') →
  posted c (d_committees c n n ids) s s' ∧ only_supply_idx s s'.
Proof.
  intros Hs Hn. apply committees_loop; [|done]. clear - Hn. intros i s u s' Hs Hrun. minv.
  apply SetDelegate_only in Hm as [_ Hi]. eapply index_step; [done..|]. intros Hw.
  apply addToSupplyPool_spec, (tracked_step c) in Hm0 as [Hp Ho]; [|done..].
  apply addToSupplyPool_spec, (tracked_step c) in Hrun as [Hp' Ho']; [|apply Hp|done].
  split; [|by eapply only_supply_idx_trans].
  eapply posted_eq; [by eapply posted_trans|]. cbn. g_eq.
Qed.
Lemma DeleteDelegations_spec c a n ids s u s' :
  wf s → u64 n → DeleteDelegations a n ids s = (Ok u, s') →
  posted c (d_committees c (- n) (- n) ids) s s' ∧ only_supply_idx s s'.
Proof.
  intros Hs Hn. apply committees_loop; [|done]. clear - Hn. intros i s u s' Hs Hrun. minv.
  apply DeleteDelegate_only in Hm as [_ Hi]. eapply index_step; [done..|]. intros Hw.
  apply subFromSupplyPool_spec, (tracked_step c) in Hm0 as [Hp Ho]; [|done..].
  apply subFromSupplyPool_spec, (tracked_step c) in Hrun as [Hp' Ho']; [|apply Hp|done].
  split; [|by eapply only_supply_idx_trans].
  eapply posted_eq; [by eapply posted_trans|]. cbn. g_eq.
Qed.

(** ** Lemmas: validator records *)

Lemma set_val_Address_id v : set_val_Address (val_Address v) v = v.
Proof. by destruct v. Qed.

Lemma GetValidator_run a s :
  wf s → GetValidator a s =
    (match validators (store s) !! a with Some v => Ok v | None => Err ErrValidatorNotExists end, s).
Proof.
  intros Hs. unfold GetValidator. runs. destruct (validators (store s) !! a) as [v|] eqn:Hv; [|done].
  destruct (wf_validators s Hs a v Hv) as [Ha _]. by rewrite <- Ha, set_val_Address_id.
Qed.
Lemma GetValidator_Ok a s v s' :
  wf s → GetValidator a s = (Ok v, s') →
  s' = s ∧ validators (store s) !! a = Some v ∧ val_Address v = a ∧ u64 (StakedAmount v).
Proof.
  intros Hs. rewrite GetValidator_run by done.
  destruct (validators (store s) !! a) as [w|] eqn:Hv; intros [= -> <-].
  by destruct (wf_validators s Hs a v Hv).
Qed.

(** What replacing the record [o] by [v] posts. *)
Definition d_replace (c : Z) (o : option Validator) (v : Validator) : gaps :=
  g_add (match o with Some w => d_validator c (-1) w | None => g_zero end) (d_validator c 1 v).

Lemma SetValidator_spec c v s r s' :
  wf s → u64 (StakedAmount v) → SetValidator v s = (r, s') →
  r = Ok () ∧ posted c (d_replace c (validators (store s) !! val_Address v) v) s s' ∧
  s' = set_store (set_validators (<[val_Address v := v]> (validators (store s))) (store s)) s.
Proof.
  intros Hs Hu. unfold SetValidator. runs. intros H. inv H. split_and!; [done| |done]. split.
  - destruct Hs as [H1 H2 H3 H4 H5]. constructor; cbn; [exact H1|exact H2|exact H3| |exact H5].
    intros a w. destruct (decide (a = val_Address v)) as [->|Hne].
    + rewrite lookup_insert_eq. by intros [= <-].
    + rewrite lookup_insert_ne by done. apply H4.
  - unfold d_replace. books_step; rewrite ?map_sum_insert; unfold at_key;
      destruct (validators (store s) !! val_Address v); cbn; lia.
Qed.

(** The fields the books depend on. *)
Definition same_stake (v w : Validator) : Prop :=
  val_Address w = val_Address v ∧ StakedAmount w = StakedAmount v ∧
  Committees w = Committees v ∧ Delegate w = Delegate v.

Lemma d_validator_same c n v w : same_stake v w → d_validator c n w = d_validator c n v.
Proof.
  intros (_ & Hs & Hc & Hd). unfold d_validator, comm_stake, commdel_stake, deleg_stake.
  by rewrite Hs, Hc, Hd.
Qed.
Lemma d_replace_same c v w : same_stake v w → d_replace c (Some v) w = g_zero.
Proof. intros H. unfold d_replace. rewrite (d_validator_same c 1 v w) by done. g_eq. Qed.

(** Writing back a record whose stake did not change posts nothing. *)
Lemma SetValidator_same c v w s r s' :
  wf s → validators (store s) !! val_Address v = Some v → same_stake v w →
  SetValidator w s = (r, s') →
  r = Ok () ∧ posted c g_zero s s' ∧
  s' = set_store (set_validators (<[val_Address v := w]> (validators (store s))) (store s)) s.
Proof.
  intros Hs Hv Hsame Hrun. destruct (wf_validators s Hs _ _ Hv) as [_ Hu].
  pose proof Hsame as (Ha & Hst & _).
  apply (SetValidator_spec c) in Hrun as (-> & Hp & ->); [|done|by rewrite Hst].
  rewrite Ha in *. split_and!; [done| |done].
  rewrite Hv, d_replace_same in Hp by done. done.
Qed.

(** Moving a validator's stake from its old committees to new ones. *)
Lemma restake_spec c val n newC s u s' :
  wf s → u64 (StakedAmount val) → u64 n →
  (if Delegate val then UpdateDelegations (val_Address val) val n newC
   else UpdateCommittees (val_Address val) val n newC) s = (Ok u, s') →
  let w := set_StakedAmount n (set_Committees newC val) in
  posted c (Gaps 0 0 0 (comm_stake c w - comm_stake c val) (commdel_stake c w - commdel_stake c val) 0 0) s s' ∧
  only_supply_idx s s'.
Proof.
  intros Hs Hu Hn Hrun w.
  destruct (Delegate val) eqn:HD; unfold UpdateDelegations, UpdateCommittees in Hrun; minv.
  - apply (DeleteDelegations_spec c) in Hm as [P3 O3]; [|done..].
    apply (SetDelegations_spec c) in Hrun as [P4 O4]; [|apply P3|done].
    split; [|exact (only_supply_idx_trans _ _ _ O3 O4)]. eapply posted_eq; [exact (posted_trans _ _ _ _ _ _ P3 P4)|].
    unfold d_committees, comm_stake, commdel_stake, deleg_stake, w. cbn. rewrite HD. g_eq.
  - apply (DeleteCommittees_spec c) in Hm as [P3 O3]; [|done..].
    apply (SetCommittees_spec c) in Hrun as [P4 O4]; [|apply P3|done].
    split; [|exact (only_supply_idx_trans _ _ _ O3 O4)]. eapply posted_eq; [exact (posted_trans _ _ _ _ _ _ P3 P4)|].
    unfold d_committees, comm_stake, commdel_stake, deleg_stake, w. cbn. rewrite HD. g_eq.
Qed.

(** [val] may differ from the stored record in the fields the books ignore. *)
Lemma UpdateValidatorStake_posts c old val newC n s u s' :
  wf s → u64 n → 0 <= g_staked (books c (store s)) →
  validators (store s) !! val_Address val = Some old → same_stake old val →
  UpdateValidatorStake val newC n s = (Ok u, s') →
  posted c (d_total (- n)) s s' ∧ u64 (StakedAmount val + n) ∧
  ∃ x ci di, s' = set_store (set_validators (<[val_Address val :=
      set_StakedAmount (StakedAmount val + n) (set_Committees newC val)]> (validators (store s)))
    (set_supply x (set_committee_index ci (set_delegate_index di (store s))))) s.
Proof.
  intros Hs Hn Hg Hv Hsame Hrun. unfold UpdateValidatorStake in Hrun. minv.
  destruct (wf_validators s Hs _ _ Hv) as [_ Hu]. pose proof Hsame as (_ & HS & _). rewrite <- HS in Hu.
  assert (Hle : StakedAmount val <= Staked (supply (store s))).
  { cbn in Hg. pose proof (at_key_le_sum (λ _, StakedAmount) (validators (store s)) (val_Address val)) as Hl.
    unfold at_key in Hl. rewrite Hv in Hl. unfold sum_stakes in Hg. enough (StakedAmount old <= map_sum (λ _, StakedAmount) (validators (store s))) by lia.
    apply Hl. intros k w Hw. destruct (wf_validators s Hs k w Hw). u64. }
  apply AddToStakedSupply_spec in Hm as Ht; [|done..]. destruct Ht as [Hw1 Hp1 [x Hx]].
  assert (Hfit : u64 (StakedAmount val + n)).
  { pose proof (wf_supplies s0 Hw1) as (_ & Hst & _). specialize (Hp1 c).
    apply (f_equal g_staked) in Hp1. subst s0. cbn in Hp1, Hst. unfold sum_stakes in Hp1. cbn in Hp1.
    u64. }
  rewrite u64_add_small in * by done.
  specialize (Hp1 c). cbn beta in Hp1. pose proof (Posted _ _ _ _ Hw1 Hp1) as P1. clear Hp1.
  set (w := set_StakedAmount (StakedAmount val + n) (set_Committees newC val)) in *.
  assert (Hmid : posted c (Gaps 0 0 (if Delegate val then n else 0) (comm_stake c w - comm_stake c val)
       (commdel_stake c w - commdel_stake c val) 0 0) s0 s1 ∧ only_supply_idx s0 s1).
  { pose proof (restake_spec c val (StakedAmount val + n) newC) as HR. destruct (Delegate val); minv.
    - apply AddToDelegateSupply_spec in Hm1 as Ht; [|done..].
      apply (tracked_step c) in Ht as [P2 O2].
      apply HR in Hm0 as [P3 O3]; [|apply P2|done..].
      split; [|exact (only_supply_idx_trans _ _ _ O2 O3)].
      eapply posted_eq; [exact (posted_trans _ _ _ _ _ _ P2 P3)|]. g_eq.
    - apply HR in Hm0 as [P3 O3]; [|done..]. by split. }
  destruct Hmid as (P2 & y & ci & di & Hs1).
  apply (SetValidator_spec c) in Hrun as (_ & P3 & ->); [|apply P2|done].
  split_and!; [|done|subst s1 s0; by exists y, ci, di].
  eapply posted_eq; [eapply posted_trans; [exact P1|eapply posted_trans; [exact P2|exact P3]]|].
  subst s1 s0. cbn. rewrite Hv. unfold d_replace. rewrite <- (d_validator_same c (-1) old val) by done.
  unfold d_validator, deleg_stake, w. cbn. destruct (Delegate val); g_eq.
Qed.
Lemma UpdateValidatorStake_spec c val newC n s u s' :
  wf s → u64 n → 0 <= g_staked (books c (store s)) →
  validators (store s) !! val_Address val = Some val →
  UpdateValidatorStake val newC n s = (Ok u, s') →
  posted c (d_total (- n)) s s' ∧ u64 (StakedAmount val + n) ∧
  ∃ x ci di, s' = set_store (set_validators (<[val_Address val :=
      set_StakedAmount (StakedAmount val + n) (set_Committees newC val)]> (validators (store s)))
    (set_supply x (set_committee_index ci (set_delegate_index di (store s))))) s.
Proof. intros. by eapply UpdateValidatorStake_posts. Qed.

(** Removing a validator releases its stake from the tracker and the store. *)
Lemma DeleteValidator_spec c v s u s' :
  wf s → validators (store s) !! val_Address v = Some v →
  DeleteValidator v s = (Ok u, s') →
  posted c (d_total (StakedAmount v)) s s' ∧
  ∃ x ci di, s' = set_store (set_validators (delete (val_Address v) (validators (store s)))
    (set_supply x (set_committee_index ci (set_delegate_index di (store s))))) s.
Proof.
  intros Hs Hv Hrun. unfold DeleteValidator in Hrun. minv.
  destruct (wf_validators s Hs _ _ Hv) as [_ Hu].
  apply SubFromStakedSupply_spec in Hm as Ht; [|done..].
  apply (tracked_step c) in Ht as [P1 O1].
  assert (Hmid : ∃ d, posted c d s0 s1 ∧ only_supply_idx s0 s1 ∧
      d = g_add (d_validator c 1 v) (Gaps (StakedAmount v) (StakedAmount v) 0 0 0 0 0)).
  { destruct (Delegate v) eqn:HD; minv.
    - apply SubFromDelegateSupply_spec in Hm1 as Ht; [|apply P1|done].
      apply (tracked_step c) in Ht as [P2 O2].
      apply (DeleteDelegations_spec c) in Hm0 as [P3 O3]; [|apply P2|done].
      eexists; split_and!; [by eapply posted_trans|by eapply only_supply_idx_trans|].
      unfold d_committees, d_validator, comm_stake, commdel_stake, deleg_stake. rewrite HD. g_eq.
    - apply (DeleteCommittees_spec c) in Hm0 as [P3 O3]; [|apply P1|done].
      eexists; split_and!; [done..|].
      unfold d_committees, d_validator, comm_stake, commdel_stake, deleg_stake. rewrite HD. g_eq. }
  destruct Hmid as (d & P2 & O2 & Hd).
  unfold upd in Hrun. minv.
  destruct (only_supply_idx_trans _ _ _ O1 O2) as (x & ci & di & Hs1).
  split; [|rewrite Hs1; by exists x, ci, di].
  assert (P3 : posted c (d_validator c (-1) v) s1
     (set_store (set_validators (delete (val_Address v) (validators (store s1))) (store s1)) s1)).
  { split.
    - destruct (po_ok _ _ _ _ P2) as [H1 H2 H3 H4 H5]. constructor; cbn; [exact H1|exact H2|exact H3| |exact H5].
      intros b w [_ ?]%lookup_delete_Some. by apply H4.
    - rewrite Hs1. books_step; rewrite ?map_sum_delete; unfold at_key; cbn; rewrite Hv; cbn; lia. }
  eapply posted_eq; [eapply posted_trans; [exact P1|eapply posted_trans; [exact P2|exact P3]]|].
  g_eq.
Qed.

(** ** The life cycle: active, paused, unstaking *)

(** Every unstaking or paused validator is queued at the height it carries, so
    the end-block sweeps will find it; an unstaking validator is not paused. *)
Definition queued (st : Store) (a : bytes) (v : Validator) : Prop :=
  (UnstakingHeight v ≠ 0 → (UnstakingHeight v, a) ∈ unstaking st ∧ MaxPausedHeight v = 0) ∧
  (MaxPausedHeight v ≠ 0 → (MaxPausedHeight v, a) ∈ paused st).
Definition lifecycle (s : FSM) : Prop := map_Forall (queued (store s)) (validators (store s)).

(** Write [v] for [a] and the two queues, everything else kept. *)
Definition write_validator (a : bytes) (v : Validator) (un pa : gset (Z * bytes)) (s : FSM) : FSM :=
  set_store (set_paused pa (set_unstaking un
    (set_validators (<[a := v]> (validators (store s))) (store s)))) s.

Lemma write_posted c a v w un pa s :
  wf s → validators (store s) !! a = Some v → same_stake v w →
  posted c g_zero s (write_validator a w un pa s).
Proof.
  intros Hs Hv Hsame. destruct (wf_validators s Hs a v Hv) as [Ha _]. subst a.
  destruct (SetValidator w s) as [r s'] eqn:Hrun.
  apply (SetValidator_same c v) in Hrun as (_ & [[H1 H2 H3 H4 H5] Hp] & ->); [|done..].
  split; [by constructor|]. exact Hp.
Qed.
Lemma write_lifecycle a v un pa s :
  lifecycle s → unstaking (store s) ⊆ un → 
  (∀ k, k ∈ paused (store s) → k.2 ≠ a → k ∈ pa) →
  queued (set_paused pa (set_unstaking un (store s))) a v →
  lifecycle (write_validator a v un pa s).
Proof.
  intros HL Hun Hpa Hq b w. unfold write_validator. cbn. destruct (decide (b = a)) as [->|Hne].
  - rewrite lookup_insert_eq. by intros [= <-].
  - rewrite lookup_insert_ne by done. intros Hw. destruct (HL b w Hw) as [H1 H2]. split; cbn.
    + intros Hu. destruct (H1 Hu). split; [by apply Hun | done].
    + intros Hp. apply Hpa; [by apply H2 | done].
Qed.

Lemma SetValidatorPaused_run a v h s :
  val_Address v = a →
  SetValidatorPaused a v h s = (Ok (set_MaxPausedHeight h v),
    write_validator a (set_MaxPausedHeight h v) (unstaking (store s)) ({[(h, a)]} ∪ paused (store s)) s).
Proof. intros <-. unfold SetValidatorPaused, SetValidator, write_validator. runs. by destruct s as [[]]. Qed.
Lemma SetValidatorUnpaused_run a v s :
  val_Address v = a →
  SetValidatorUnpaused a v s = (Ok (set_MaxPausedHeight 0 v),
    write_validator a (set_MaxPausedHeight 0 v) (unstaking (store s))
      (paused (store s) ∖ {[(MaxPausedHeight v, a)]}) s).
Proof. intros <-. unfold SetValidatorUnpaused, SetValidator, write_validator. runs. by destruct s as [[]]. Qed.
Lemma SetValidatorUnstaking_run a v h s :
  val_Address v = a →
  let w := set_UnstakingHeight h (set_MaxPausedHeight 0 v) in
  SetValidatorUnstaking a v h s = (Ok w,
    write_validator a w ({[(h, a)]} ∪ unstaking (store s))
      (if MaxPausedHeight v =? 0 then paused (store s)
       else paused (store s) ∖ {[(MaxPausedHeight v, a)]}) s).
Proof.
  intros Ha w. unfold SetValidatorUnstaking, upd. unfold modify at 1. unfold mbind at 1, M_bind at 1.
  destruct (Z.eqb_spec (MaxPausedHeight v) 0) as [H0|H0]; cbn [negb].
  - runs. subst a. unfold SetValidator, write_validator, w. runs.
    destruct v; cbn in *; subst. by destruct s as [[]].
  - rewrite (bind_run_Ok _ _ _ _ _ (SetValidatorUnpaused_run a v _ Ha)).
    subst a. unfold SetValidator, write_validator, w. runs. cbn. rewrite insert_insert_eq.
    by destruct s as [[]].
Qed.

(** What the life cycle operations keep. *)
Record lc_step (s s' : FSM) : Prop := LcStep {
  lc_posted : ∀ c, posted c g_zero s s';
  lc_cycle : lifecycle s';
  lc_height : height s' = height s;
}.
Lemma lc_refl s : wf s → lifecycle s → lc_step s s.
Proof. intros. split; [by intros; apply posted_0|done..]. Qed.
Lemma lc_trans s1 s2 s3 : lc_step s1 s2 → lc_step s2 s3 → lc_step s1 s3.
Proof.
  intros [P1 _ H1] [P2 C2 H2]. split; [|done|congruence].
  intros c. exact (posted_trans _ _ _ _ _ _ (P1 c) (P2 c)).
Qed.
Lemma lc_wf s s' : lc_step s s' → wf s'.
Proof. intros [P _ _]. by destruct (P 0). Qed.
Lemma lc_same s s' : wf s → lifecycle s → same_books s s' → lc_step s s'.
Proof.
  intros Hw HL Hsame. split.
  - intros c. by apply same_books_posted.
  - destruct Hsame as [Hst _]. unfold lifecycle. by rewrite Hst.
  - apply Hsame.
Qed.
Lemma lc_write a v w un pa s :
  wf s → lifecycle s → validators (store s) !! a = Some v → same_stake v w →
  unstaking (store s) ⊆ un → (∀ k, k ∈ paused (store s) → k.2 ≠ a → k ∈ pa) →
  queued (set_paused pa (set_unstaking un (store s))) a w →
  lc_step s (write_validator a w un pa s).
Proof. intros. split; [intros; by eapply write_posted | by apply write_lifecycle | done]. Qed.
#[export] Hint Resolve lc_refl lc_trans lc_wf lc_cycle lc_same : go.

(** *** One validator *)

Lemma lc_pause a v h s :
  wf s → lifecycle s → validators (store s) !! a = Some v → UnstakingHeight v = 0 →
  lc_step s (write_validator a (set_MaxPausedHeight h v) (unstaking (store s))
    ({[(h, a)]} ∪ paused (store s)) s).
Proof. intros Hs HL Hv Hu. eapply lc_write; [done..| |]; [set_solver|]. split; cbn; [done|set_solver]. Qed.
Lemma lc_unpause a v s :
  wf s → lifecycle s → validators (store s) !! a = Some v →
  lc_step s (write_validator a (set_MaxPausedHeight 0 v) (unstaking (store s))
      (paused (store s) ∖ {[(MaxPausedHeight v, a)]}) s).
Proof.
  intros Hs HL Hv. destruct (HL a v Hv) as [H1 _]. eapply lc_write; [done..| |]; [set_solver|].
  split; cbn; [|done]. intros Hu. split; [by apply H1|done].
Qed.
Lemma lc_unstake a v h s :
  wf s → lifecycle s → validators (store s) !! a = Some v →
  lc_step s (write_validator a (set_UnstakingHeight h (set_MaxPausedHeight 0 v))
      ({[(h, a)]} ∪ unstaking (store s))
      (if MaxPausedHeight v =? 0 then paused (store s)
       else paused (store s) ∖ {[(MaxPausedHeight v, a)]}) s).
Proof.
  intros Hs HL Hv. eapply lc_write; [done..|set_solver| |].
  - intros k Hk Hne. destruct (_ =? 0); set_solver.
  - split; cbn; [set_solver|done].
Qed.

(** *** Handlers *)

Lemma HandleMessagePause_spec a s r s' :
  wf s → lifecycle s → HandleMessagePause a s = (r, s') →
  match r with
  | Ok _ => lc_step s s' ∧ ∃ v p, validators (store s) !! a = Some v ∧ Delegate v = false ∧
      UnstakingHeight v = 0 ∧ MaxPausedHeight v = 0 ∧
      validators (store s') =
        <[a := set_MaxPausedHeight (u64_add (height s) (MaxPauseBlocks p)) v]> (validators (store s))
  | Err _ => same_books s s'
  end.
Proof.
  intros Hs HL. unfold HandleMessagePause.
  destruct (validators (store s) !! a) as [v|] eqn:Hv.
  2:{ rewrite (bind_run_Err _ _ _ ErrValidatorNotExists s) by (by rewrite GetValidator_run, Hv).
      intros H. by inv H. }
  rewrite (bind_run_Ok _ _ _ v s) by (by rewrite GetValidator_run, Hv).
  destruct (wf_validators s Hs a v Hv) as [Ha _].
  runs. destruct (Z.eqb_spec (MaxPausedHeight v) 0); cbn [negb]; [|intros H; by inv H].
  destruct (Z.eqb_spec (UnstakingHeight v) 0); cbn [negb]; [|intros H; by inv H].
  destruct (Delegate v) eqn:HD; [intros H; by inv H|].
  destruct (GetParamsVal s) as [[p|err] s1] eqn:Hp; apply GetParamsVal_same in Hp as Hsame;
    [|intros H; by inv H].
  rewrite SetValidatorPaused_run by done. intros H; inv H.
  pose proof Hsame as (Hst & _ & Hh).
  split.
  - eapply lc_trans; [by apply lc_same|]. apply lc_pause; rewrite ?Hst; eauto with go.
  - exists v, p. rewrite Hh. unfold write_validator. cbn. by rewrite Hst.
Qed.

Lemma HandleMessageUnpause_spec a s r s' :
  wf s → lifecycle s → HandleMessageUnpause a s = (r, s') →
  match r with
  | Ok _ => lc_step s s' ∧ ∃ v, validators (store s) !! a = Some v ∧ Delegate v = false ∧
      UnstakingHeight v = 0 ∧ MaxPausedHeight v ≠ 0 ∧
      validators (store s') = <[a := set_MaxPausedHeight 0 v]> (validators (store s))
  | Err _ => same_books s s'
  end.
Proof.
  intros Hs HL. unfold HandleMessageUnpause.
  destruct (validators (store s) !! a) as [v|] eqn:Hv.
  2:{ rewrite (bind_run_Err _ _ _ ErrValidatorNotExists s) by (by rewrite GetValidator_run, Hv).
      intros H. by inv H. }
  rewrite (bind_run_Ok _ _ _ v s) by (by rewrite GetValidator_run, Hv).
  destruct (wf_validators s Hs a v Hv) as [Ha _].
  runs. destruct (Z.eqb_spec (MaxPausedHeight v) 0); [intros H; by inv H|].
  destruct (Z.eqb_spec (UnstakingHeight v) 0); cbn [negb]; [|intros H; by inv H].
  destruct (Delegate v) eqn:HD; [intros H; by inv H|].
  rewrite SetValidatorUnpaused_run by done. intros H; inv H.
  split; [by apply lc_unpause|]. by exists v.
Qed.

Lemma HandleMessageUnstake_spec a s r s' :
  wf s → lifecycle s → HandleMessageUnstake a s = (r, s') →
  match r with
  | Ok _ => lc_step s s' ∧ ∃ v p, validators (store s) !! a = Some v ∧ UnstakingHeight v = 0 ∧
      validators (store s') =
        <[a := set_UnstakingHeight (u64_add (height s)
             (if Delegate v then DelegateUnstakingBlocks p else UnstakingBlocks p))
             (set_MaxPausedHeight 0 v)]> (validators (store s))
  | Err _ => same_books s s'
  end.
Proof.
  intros Hs HL. unfold HandleMessageUnstake.
  destruct (validators (store s) !! a) as [v|] eqn:Hv.
  2:{ rewrite (bind_run_Err _ _ _ ErrValidatorNotExists s) by (by rewrite GetValidator_run, Hv).
      intros H. by inv H. }
  rewrite (bind_run_Ok _ _ _ v s) by (by rewrite GetValidator_run, Hv).
  destruct (wf_validators s Hs a v Hv) as [Ha _].
  runs. destruct (Z.eqb_spec (UnstakingHeight v) 0); cbn [negb]; [|intros H; by inv H].
  destruct (GetParamsVal s) as [[p|err] s1] eqn:Hp; apply GetParamsVal_same in Hp as Hsame;
    [|intros H; by inv H].
  rewrite SetValidatorUnstaking_run by done. intros H; inv H.
  pose proof Hsame as (Hst & _ & Hh).
  split.
  - eapply lc_trans; [by apply lc_same|]. apply lc_unstake; rewrite ?Hst; eauto with go.
  - exists v, p. rewrite Hh. unfold write_validator. cbn. rewrite Hst. by destruct (Delegate v).
Qed.

(** *** The sweeps *)

Lemma try_run {A} (m : F A) s : try m s = (Ok (fst (m s)), snd (m s)).
Proof. unfold try. by destruct (m s). Qed.

Lemma ForceUnstakeValidator_spec a s u s' :
  wf s → lifecycle s → ForceUnstakeValidator a s = (Ok u, s') →
  lc_step s s' ∧ (∀ b, b ≠ a → validators (store s') !! b = validators (store s) !! b) ∧
  (∀ v, validators (store s') !! a = Some v → MaxPausedHeight v = 0).
Proof.
  intros Hs HL. unfold ForceUnstakeValidator.
  rewrite (bind_run_Ok _ _ _ _ _ (try_run _ _)), GetValidator_run by done. cbn [fst snd].
  destruct (validators (store s) !! a) as [v|] eqn:Hv.
  2:{ runs. intros H; inv H. rewrite Hv. split_and!; [by apply lc_refl|done..]. }
  destruct (wf_validators s Hs a v Hv) as [Ha _].
  destruct (Z.eqb_spec (UnstakingHeight v) 0) as [Hu|Hu]; cbn [negb].
  2:{ runs. intros H; inv H. split_and!; [by apply lc_refl|done|].
      intros w Hw. rewrite Hv in Hw. injection Hw as <-. by apply (HL _ _ Hv). }
  runs. destruct (GetParamsVal s) as [[p|err] s1] eqn:Hp; apply GetParamsVal_same in Hp as Hsame;
    [|intros H; by inv H].
  rewrite SetValidatorUnstaking_run by done. intros H; inv H.
  pose proof Hsame as (Hst & _ & Hh).
  pose proof (lc_same _ _ Hs HL Hsame) as L1.
  assert (L2 := lc_unstake (val_Address v) v (u64_add (height s1) (UnstakingBlocks p)) s1
    (lc_wf _ _ L1) (lc_cycle _ _ L1) ltac:(by rewrite Hst)).
  split_and!.
  - eapply lc_trans; [exact L1|]. eapply lc_trans; [exact L2|]. apply lc_same; [by eapply lc_wf| |].
    + apply L2.
    + by split_and!.
  - intros b Hb. cbn. by rewrite lookup_insert_ne, Hst.
  - intros w. cbn. rewrite lookup_insert_eq. by intros [= <-].
Qed.

Lemma elem_of_addrs_at h idx a : a ∈ addrs_at h idx ↔ (h, a) ∈ idx.
Proof.
  unfold addrs_at. rewrite elem_of_sorted_by, list_elem_of_fmap. split.
  - intros ((h' & b) & -> & Hin). rewrite elem_of_elements, elem_of_filter in Hin.
    destruct Hin as [Hh Hin]. cbn in *. by subst.
  - intros Hin. exists (h, a). split; [done|]. by rewrite elem_of_elements, elem_of_filter.
Qed.

Lemma ForceUnstakeMaxPaused_spec s u s' :
  wf s → lifecycle s → ForceUnstakeMaxPaused s = (Ok u, s') →
  lc_step s s' ∧ ∀ a v, validators (store s') !! a = Some v →
    height s ≠ 0 → MaxPausedHeight v ≠ height s.
Proof.
  intros Hs HL. unfold ForceUnstakeMaxPaused, Height, getst, upd.
  rewrite (bind_run_Ok _ _ _ (height s) s), (bind_run_Ok _ _ _ (addrs_at (height s) (paused (store s))) s) by done.
  intros Hrun. minv.
  set (keys := addrs_at (height s) (paused (store s))) in *.
  apply (for_each_Ok (λ dn s1, lc_step s s1 ∧
    (∀ b, b ∉ dn → validators (store s1) !! b = validators (store s) !! b) ∧
    (∀ a v, a ∈ dn → validators (store s1) !! a = Some v → MaxPausedHeight v = 0)))
    in Hm as (L & Hsame & Hz).
  - assert (Hno : ∀ b v, validators (store s0) !! b = Some v → height s ≠ 0 →
      MaxPausedHeight v ≠ height s).
    { intros b v Hv Hh He. destruct (decide (b ∈ keys)) as [Hin|Hin].
      { pose proof (Hz b v Hin Hv). congruence. }
      rewrite Hsame in Hv by done. apply Hin, elem_of_addrs_at. rewrite <- He.
      apply (HL b v Hv). congruence. }
    split; [|exact Hno]. eapply lc_trans; [exact L|]. split; [|intros b v Hv|done].
    + intros c. split; [|books_step]. by destruct (lc_wf _ _ L).
    + destruct (lc_cycle _ _ L b v Hv) as [H1 H2]. split; cbn; [exact H1|].
      intros Hp. apply elem_of_difference. split; [by apply H2|].
      rewrite elem_of_list_to_set, list_elem_of_fmap. intros (b' & [= Hh <-] & Hin).
      by apply Hp, (Hz b v Hin).
  - clear. intros dn x rest s1 s1' u' _ (L & Hsame & Hz) Hrun.
    apply ForceUnstakeValidator_spec in Hrun as (L' & Hne & H0); [|by eauto with go..].
    split_and!; [by eapply lc_trans| |].
    + intros b Hb. rewrite Hne by set_solver. apply Hsame. set_solver.
    + intros b v Hb. destruct (decide (b = x)) as [->|Hbx]; [apply H0|].
      rewrite Hne by done. apply Hz. set_solver.
  - split_and!; [by apply lc_refl|done|]. intros b v Hb. by apply not_elem_of_nil in Hb.
Qed.

Lemma SetValidatorUnstakingIfBelowMinimum_spec v p s r s' :
  wf s → lifecycle s → validators (store s) !! val_Address v = Some v →
  SetValidatorUnstakingIfBelowMinimum v p s = (r, s') →
  lc_step s s' ∧ ∃ b, r = Ok b ∧
    (b = true ↔ UnstakingHeight v = 0 ∧
       StakedAmount v < (if Delegate v then MinimumStakeForDelegates p else MinimumStakeForValidators p)).
Proof.
  intros Hs HL Hv. unfold SetValidatorUnstakingIfBelowMinimum.
  destruct (Z.eqb_spec (UnstakingHeight v) 0) as [Hu|Hu]; cbn [negb].
  2:{ runs. intros H; inv H. split; [by apply lc_refl|]. exists false. naive_solver. }
  assert (Hunst : ∀ n, (h ← Height; _ ← SetValidatorUnstaking (val_Address v) v (u64_add h n); mret true) s
      = (r, s') → lc_step s s' ∧ r = Ok true).
  { intros n. runs. rewrite SetValidatorUnstaking_run by done. intros H; inv H.
    split; [by apply lc_unstake|done]. }
  destruct (Delegate v).
  - destruct (Z.ltb_spec (StakedAmount v) (MinimumStakeForDelegates p)); cbn iota beta zeta.
    + intros [L ->]%Hunst. split; [done|]. exists true. naive_solver.
    + runs. intros H'; inv H'. split; [by apply lc_refl|]. exists false. naive_solver lia.
  - destruct (Z.ltb_spec (StakedAmount v) (MinimumStakeForValidators p)); cbn iota beta zeta.
    + intros [L ->]%Hunst. split; [done|]. exists true. naive_solver.
    + runs. intros H'; inv H'. split; [by apply lc_refl|]. exists false. naive_solver lia.
Qed.

Lemma SetValidatorsPaused_spec ch l s r s' :
  wf s → lifecycle s → SetValidatorsPaused ch l s = (r, s') → r = Ok () ∧ lc_step s s'.
Proof.
  revert s. induction l as [|a l IH]; intros s Hs HL; unfold SetValidatorsPaused.
  { intros H; inv H. split; [done|by apply lc_refl]. }
  rewrite for_each_cons. cbv beta. match goal with |- (?m ≫= _) s = _ → _ => set (body := m) end.
  assert (Hb : ∃ s1, body s = (Ok (), s1) ∧ lc_step s s1).
  { unfold body. rewrite (bind_run_Ok _ _ _ _ _ (try_run _ _)), GetValidator_run by done. cbn [fst snd].
    destruct (validators (store s) !! a) as [v|]; [|exists s; split; [done|by apply lc_refl]].
    unfold IsFeatureEnabled. unfold gets at 1. unfold mbind at 1, M_bind at 1.
    destruct (_ && _); [exists s; split; [done|by apply lc_refl]|].
    rewrite (bind_run_Ok _ _ _ _ _ (try_run _ _)).
    destruct (HandleMessagePause a s) as [r1 s1] eqn:Hp. cbn [fst snd].
    apply HandleMessagePause_spec in Hp; [|done..]. destruct r1 as [[]|err].
    - destruct Hp as [L _]. eexists. split; [done|]. eapply lc_trans; [exact L|].
      apply lc_same; [by eapply lc_wf|apply L|]. by split_and!.
    - exists s1. split; [done|]. by apply lc_same. }
  destruct Hb as (s1 & Hb & L). rewrite (bind_run_Ok _ _ _ _ _ Hb). intros Hrun.
  apply IH in Hrun as [-> L2]; [|by eapply lc_wf|apply L].
  split; [done|]. by eapply lc_trans.
Qed.

(** The keys of one height are distinct. *)
Lemma addrs_at_NoDup h idx : NoDup (addrs_at h idx).
Proof.
  unfold addrs_at. rewrite sorted_by_perm. apply NoDup_fmap_2_strong; [|apply NoDup_elements].
  intros [h1 a1] [h2 a2]. rewrite !elem_of_elements, !elem_of_filter. cbn.
  by intros [-> _] [-> _] ->.
Qed.

(** What finishing the unstaking of [keys] pays to [b]. *)
Definition payout (st : Store) (b : bytes) (keys : list bytes) : Z :=
  list_sum (λ a, match validators st !! a with
                 | Some v => if decide (b = val_Output v) then StakedAmount v else 0
                 | None => 0
                 end) keys.

Lemma only_accounts_store s s' :
  only_accounts s s' → ∃ accs, store s' = set_accounts accs (store s) ∧ height s' = height s.
Proof. intros (accs & c & ->). by exists accs. Qed.

(** One finished validator: paid, forgotten, announced. *)
Lemma finish_one x s u s' :
  wf s →
  (validator ← GetValidator x;
   AccountAdd (val_Output validator) (StakedAmount validator);;
   DeleteValidator validator;;
   addEvent (EventFinishUnstaking x)) s = (Ok u, s') →
  ∃ v, validators (store s) !! x = Some v ∧ (∀ c, posted c g_zero s s') ∧
    validators (store s') = delete x (validators (store s)) ∧
    unstaking (store s') = unstaking (store s) ∧ paused (store s') = paused (store s) ∧
    height s' = height s ∧
    (∀ b, acc_bal (store s') b = acc_bal (store s) b + (if decide (b = val_Output v) then StakedAmount v else 0)) ∧
    events s' = events s ++ [EventFinishUnstaking x].
Proof.
  intros Hs Hrun. minv. apply GetValidator_Ok in Hm as (-> & Hv & <- & Hu); [|done].
  apply AccountAdd_spec in Hm0 as Hc; [|done..]. destruct Hc as [Hw Hsh Hbal Honly].
  destruct Honly as (accs & ca & Hs1).
  assert (Hv1 : validators (store s1) !! val_Address a = Some a) by by rewrite Hs1.
  pose proof (λ c, DeleteValidator_spec c a s1 _ _ Hw Hv1 Hm1) as Hd.
  destruct (Hd 0) as (_ & y & ci & di & Hs2).
  unfold addEvent, modify in Hrun. injection Hrun as _ <-. exists a.
  split_and!; [done| |by rewrite Hs2, Hs1..| |by rewrite Hs2, Hs1].
  - intros c. destruct (Hd c) as (P2 & _).
    eapply posted_eq; [eapply posted_trans; [exact (Posted _ _ _ _ Hw (Hsh c))
      |eapply posted_trans; [exact P2|apply same_books_posted; [apply P2|by split_and!]]]|]. g_eq.
  - intros b. rewrite <- Hbal. by rewrite Hs2.
Qed.

(** The state after the validators of [keys] were finished. *)
Record finished (s : FSM) (keys : list bytes) (s1 : FSM) : Prop := {
  fi_posted : ∀ c, posted c g_zero s s1;
  fi_validators : ∀ b, validators (store s1) !! b =
    if decide (b ∈ keys) then None else validators (store s) !! b;
  fi_unstaking : unstaking (store s1) = unstaking (store s);
  fi_paused : paused (store s1) = paused (store s);
  fi_height : height s1 = height s;
  fi_paid : ∀ b, acc_bal (store s1) b = acc_bal (store s) b + payout (store s) b keys;
}.
Lemma finish_loop keys s u s1 :
  wf s → NoDup keys →
  for_each keys (λ addr,
    validator ← GetValidator addr;
    AccountAdd (val_Output validator) (StakedAmount validator);;
    DeleteValidator validator;;
    addEvent (EventFinishUnstaking addr)) s = (Ok u, s1) →
  finished s keys s1.
Proof.
  intros Hs Hnd. apply (for_each_Ok (finished s)).
  - intros dn x rest t t' u' Hk [HP HV HU HPa HH HB] Hrun.
    apply finish_one in Hrun as (v & Hv & P & V & U & Pa & Hh & B & _); [|apply (HP 0)].
    subst keys. apply NoDup_app in Hnd as (_ & Hx & _).
    assert (Hxd : x ∉ dn) by (intros Hin; apply (Hx _ Hin); set_solver).
    rewrite HV, decide_False in Hv by done.
    split; [| |congruence..|].
    + intros c. exact (posted_trans _ _ _ _ _ _ (HP c) (P c)).
    + intros b. rewrite V. destruct (decide (b = x)) as [->|Hb].
      * rewrite lookup_delete_eq, decide_True by set_solver. done.
      * rewrite lookup_delete_ne, HV by done. repeat case_decide; set_solver.
    + intros b. rewrite B, HB. unfold payout. rewrite list_sum_app, list_sum_cons, Hv.
      change (list_sum _ []) with 0. lia.
  - split; try done; [intros; by apply posted_0|].
    intros b. unfold payout. change (list_sum _ []) with 0. lia.
Qed.

Lemma DeleteFinishedUnstaking_spec s u s' :
  wf s → lifecycle s → DeleteFinishedUnstaking s = (Ok u, s') →
  let keys := addrs_at (height s) (unstaking (store s)) in
  lc_step s s' ∧
  (∀ b, validators (store s') !! b = if decide (b ∈ keys) then None else validators (store s) !! b) ∧
  (∀ b, acc_bal (store s') b = acc_bal (store s) b + payout (store s) b keys) ∧
  (∀ k, k ∈ unstaking (store s') ↔ k ∈ unstaking (store s) ∧ fst k ≠ height s).
Proof.
  intros Hs HL. unfold DeleteFinishedUnstaking, Height, getst, upd.
  rewrite (bind_run_Ok _ _ _ (height s) s), (bind_run_Ok _ _ _ (addrs_at (height s) (unstaking (store s))) s) by done.
  set (keys := addrs_at (height s) (unstaking (store s))).
  intros Hrun. apply bind_Ok in Hrun as (u1 & s1 & Hloop & Hrun).
  apply finish_loop in Hloop as [HP HV HU HPa HH HB]; [|done|apply addrs_at_NoDup].
  injection Hrun as _ <-. fold keys in HV, HB |- *.
  assert (HU' : ∀ k, k ∈ unstaking (store s1) ∖ list_to_set (map (pair (height s)) keys)
      ↔ k ∈ unstaking (store s) ∧ fst k ≠ height s).
  { intros [h a]. rewrite elem_of_difference, elem_of_list_to_set, list_elem_of_fmap, HU. cbn. split.
    - intros [Hk Hn]. split; [done|]. intros ->. apply Hn. exists a. split; [done|]. by apply elem_of_addrs_at.
    - intros [Hk Hn]. split; [done|]. by intros (? & [= ? ?] & ?). }
  split_and!; [|exact HV|exact HB|exact HU']. split; [| |exact HH].
  - intros c. destruct (HP c) as [[H1 H2 H3 H4 H5] Hsh]. split; [by constructor|]. exact Hsh.
  - intros b v Hv. cbn in Hv. rewrite HV in Hv. case_decide as Hb; [done|].
    destruct (HL b v Hv) as [H1 H2]. split; cbn; [|by rewrite HPa].
    intros Hu. destruct (H1 Hu). split; [|done]. apply HU'. split; [done|]. cbn. intros He.
    apply Hb, elem_of_addrs_at. by rewrite <- He.
Qed.

(** ** The committee is the top of the eligible validators *)

Lemma stake_le_total a b : stake_le a b = true ∨ stake_le b a = true.
Proof.
  unfold stake_le. destruct (Z.eqb_spec (StakedAmount b) (StakedAmount a)) as [->|].
  - rewrite Z.eqb_refl. apply bytes_le_total.
  - destruct (Z.eqb_spec (StakedAmount a) (StakedAmount b)); [congruence|].
    destruct (Z.ltb_spec (StakedAmount b) (StakedAmount a)); [auto|].
    right. apply Z.ltb_lt. lia.
Qed.
Lemma stake_le_trans a b c : stake_le a b = true → stake_le b c = true → stake_le a c = true.
Proof.
  unfold stake_le.
  destruct (Z.eqb_spec (StakedAmount b) (StakedAmount a)), (Z.eqb_spec (StakedAmount c) (StakedAmount b)),
    (Z.eqb_spec (StakedAmount c) (StakedAmount a)); try lia; rewrite ?Z.ltb_lt; try lia.
  intros. by eapply bytes_le_trans.
Qed.

(** Active members of the committee [ch], delegates or validators. *)
Definition eligible (ch : Z) (delegate : bool) (v : Validator) : Prop :=
  UnstakingHeight v = 0 ∧ MaxPausedHeight v = 0 ∧ Delegate v = delegate ∧ (ch = 0 ∨ ch ∈ Committees v).

Definition kind_filter (delegate : bool) : FilterOption :=
  if delegate then FilterOption_MustBe else FilterOption_Exclude.
Lemma PassesFilter_eligible ch (delegate : bool) v :
  PassesFilter (MkFilters FilterOption_Exclude FilterOption_Exclude (kind_filter delegate) ch) v = true
  ↔ eligible ch delegate v.
Proof.
  unfold PassesFilter, eligible, kind_filter. cbn. rewrite !andb_true_iff, !negb_involutive, orb_true_iff, !Z.eqb_eq,
    bool_decide_eq_true. destruct delegate, (Delegate v); cbn; naive_solver.
Qed.

Lemma elem_of_iter_validators st v :
  v ∈ iter_validators st ↔ ∃ a, validators st !! a = Some v.
Proof.
  unfold iter_validators. rewrite list_elem_of_fmap. split.
  - intros ([a w] & -> & Hin). rewrite elem_of_sorted_by, elem_of_map_to_list in Hin. by exists a.
  - intros (a & Hv). exists (a, v). rewrite elem_of_sorted_by, elem_of_map_to_list. done.
Qed.

Definition committee_limit (delegate : bool) (p : ValidatorParams) : Z :=
  if delegate then MaximumDelegatesPerCommittee p else MaxCommitteeSize p.

(** [getValidatorSet] selects exactly the best of the eligible validators:
    every member is stored, active and of the requested kind and committee; a
    non-zero limit bounds the number of members; and an eligible validator is
    left out only if every member has more stake, or the same stake and a
    greater or equal address. *)
Theorem getValidatorSet_top ch delegate s members s' :
  getValidatorSet ch delegate s = (Ok members, s') →
  ∃ p, GetParamsVal s = (Ok p, s') ∧
  (∀ v, v ∈ members → (∃ a, validators (store s) !! a = Some v) ∧ eligible ch delegate v) ∧
  (0 < committee_limit delegate p → Z.of_nat (length members) <= committee_limit delegate p) ∧
  (∀ m v a, m ∈ members → validators (store s) !! a = Some v → eligible ch delegate v →
     v ∉ members → stake_le m v = true) ∧
  (∀ v a, validators (store s) !! a = Some v → eligible ch delegate v → v ∉ members →
     Z.of_nat (length members) = committee_limit delegate p).
Proof.
  unfold getValidatorSet. intros Hrun. apply bind_Ok in Hrun as (p & s1 & Hp & Hrun).
  exists p. apply GetParamsVal_same in Hp as Hsame. destruct Hsame as [Hst _].
  set (kind := kind_filter delegate).
  set (all := filter (λ v : Validator,
         PassesFilter (MkFilters FilterOption_Exclude FilterOption_Exclude kind ch) v = true)
       (reverse (iter_validators (store s))) : list Validator).
  set (limit := committee_limit delegate p).
  set (n := if 0 <? limit then Z.min (Z.of_nat (length (sorted_by stake_le all))) limit
            else Z.of_nat (length (sorted_by stake_le all))).
  assert (Hm : members = take (Z.to_nat n) (sorted_by stake_le all) ∧ s' = s1).
  { unfold n, limit, all, kind. rewrite <- Hst. destruct delegate; injection Hrun as <- <-; done. }
  destruct Hm as [-> ->]. clear Hrun.
  assert (Hall : ∀ v, v ∈ all ↔ (∃ a, validators (store s) !! a = Some v) ∧ eligible ch delegate v).
  { intros v. unfold all, kind.
    rewrite list_elem_of_filter, elem_of_reverse, elem_of_iter_validators, PassesFilter_eligible. tauto. }
  split_and!; [done| | | |].
  - intros v Hv. apply Hall, (elem_of_sorted_by stake_le).
    rewrite <- (take_drop (Z.to_nat n) (sorted_by stake_le all)). set_solver.
  - intros Hl. rewrite length_take. unfold n. destruct (Z.ltb_spec 0 limit); lia.
  - intros m v a Hm Hv He. apply (sorted_by_top stake_le all (Z.to_nat n)); [apply stake_le_total|apply stake_le_trans|done|].
    apply Hall. eauto.
  - intros v a Hv He Hnin. assert (Hin : v ∈ all) by (apply Hall; eauto).
    apply (elem_of_sorted_by stake_le) in Hin. rewrite length_take.
    unfold n in *. destruct (Z.ltb_spec 0 limit) as [Hl|Hl].
    + destruct (Z.le_gt_cases (Z.of_nat (length (sorted_by stake_le all))) limit); [|lia].
      contradict Hnin. rewrite take_ge by lia. done.
    + contradict Hnin. rewrite take_ge by lia. done.
Qed.

(** ** The validator state machine *)

(** The transitions a stored validator can make: the three handlers, the sweeps
    of the block boundary, and the next height. *)
Inductive val_step : FSM → FSM → Prop :=
| step_pause a s s' : HandleMessagePause a s = (Ok (), s') → val_step s s'
| step_unpause a s s' : HandleMessageUnpause a s = (Ok (), s') → val_step s s'
| step_unstake a s s' : HandleMessageUnstake a s = (Ok (), s') → val_step s s'
| step_auto_pause ch l s s' : SetValidatorsPaused ch l s = (Ok (), s') → val_step s s'
| step_force_unstake a s s' : ForceUnstakeValidator a s = (Ok (), s') → val_step s s'
| step_max_paused s s' : ForceUnstakeMaxPaused s = (Ok (), s') → val_step s s'
| step_finish s s' : DeleteFinishedUnstaking s = (Ok (), s') → val_step s s'
| step_height h s : val_step s (set_height h s).

Lemma val_step_ok s s' :
  val_step s s' → wf s → lifecycle s → (∀ c, posted c g_zero s s') ∧ lifecycle s'.
Proof.
  intros Hstep Hw HL. enough (Hl : lc_step s s' ∨ ∃ h, s' = set_height h s).
  { destruct Hl as [[P C _]|[h ->]]; [done|]. split; [|exact HL].
    intros c. split; [by destruct Hw|]. by apply shift_refl. }
  destruct Hstep as [a s s' H|a s s' H|a s s' H|ch l s s' H|a s s' H|s s' H|s s' H|h s]; [left..|right; eauto].
  - by apply HandleMessagePause_spec in H as [].
  - by apply HandleMessageUnpause_spec in H as [].
  - by apply HandleMessageUnstake_spec in H as [].
  - by apply SetValidatorsPaused_spec in H as [].
  - by apply ForceUnstakeValidator_spec in H as [].
  - by apply ForceUnstakeMaxPaused_spec in H as [].
  - by apply DeleteFinishedUnstaking_spec in H as [].
Qed.

(** C14. In every state reachable by pausing, unpausing, unstaking, automatic
    pausing, the two end-block sweeps and new heights, every unstaking or paused
    validator is still queued at the height it carries, unstaking validators are
    not paused, the state is well formed and all the books are unchanged: no
    token is created or lost by a validator's life cycle. *)
Theorem validator_lifecycle_invariant s s' :
  wf s → lifecycle s → rtc val_step s s' →
  wf s' ∧ lifecycle s' ∧ ∀ c, books c (store s') = books c (store s).
Proof.
  intros Hw HL Hr. induction Hr as [s|s s1 s2 Hstep Hr IH]; [done|].
  destruct (val_step_ok _ _ Hstep Hw HL) as [P L].
  destruct (IH (po_ok _ _ _ _ (P 0)) L) as (Hw2 & HL2 & HB).
  split_and!; [done..|]. intros c. rewrite HB.
  destruct (P c) as [_ Hsh]. unfold shift in Hsh. by rewrite Hsh, g_add_0_r.
Qed.

(** C15. [DeleteFinishedUnstaking] ends the unstaking of exactly the validators
    queued for the current height: they are removed, every other validator is
    kept, each output account receives the sum of the stakes it is owed, the
    queue of this height is emptied and no other entry is lost, and the books
    do not move. *)
Theorem DeleteFinishedUnstaking_pays s u s' :
  wf s → lifecycle s → DeleteFinishedUnstaking s = (Ok u, s') →
  let keys := addrs_at (height s) (unstaking (store s)) in
  (∀ a, validators (store s') !! a = if decide (a ∈ keys) then None else validators (store s) !! a) ∧
  (∀ a v, validators (store s') !! a = Some v → height s ≠ 0 → UnstakingHeight v ≠ height s) ∧
  (∀ b, acc_bal (store s') b = acc_bal (store s) b + payout (store s) b keys) ∧
  (∀ k, k ∈ unstaking (store s') ↔ k ∈ unstaking (store s) ∧ fst k ≠ height s) ∧
  (∀ c, books c (store s') = books c (store s)).
Proof.
  intros Hw HL Hrun. apply DeleteFinishedUnstaking_spec in Hrun as (L & HV & HB & HU); [|done..].
  split_and!; [done| |done|done|].
  - intros a v Hv Hh He. pose proof (lc_cycle _ _ L a v Hv) as [H1 _].
    rewrite He in H1. destruct (H1 Hh) as [Hin _]. by apply HU in Hin as [_ Hne].
  - intros c. destruct (lc_posted _ _ L c) as [_ Hsh]. unfold shift in Hsh. by rewrite Hsh, g_add_0_r.
Qed.

(** [ForceUnstakeMaxPaused] leaves no validator paused at the current
    height: whoever reached the maximum pause is unstaking afterwards, and the
    books do not move. *)
Theorem ForceUnstakeMaxPaused_sweeps s u s' :
  wf s → lifecycle s → ForceUnstakeMaxPaused s = (Ok u, s') →
  (∀ a v, validators (store s') !! a = Some v → height s ≠ 0 → MaxPausedHeight v ≠ height s) ∧
  lifecycle s' ∧ (∀ c, books c (store s') = books c (store s)).
Proof.
  intros Hw HL Hrun. apply ForceUnstakeMaxPaused_spec in Hrun as (L & Hno); [|done..].
  split_and!; [done|apply L|].
  intros c. destruct (lc_posted _ _ L c) as [_ Hsh]. unfold shift in Hsh. by rewrite Hsh, g_add_0_r.
Qed.

(** ** Instances *)

Lemma demo_lifecycle : lifecycle demo.
Proof. unfold lifecycle, queued. decide_now. Qed.

Lemma getValidatorSet_top_witness :
  let s := snd (HandleMessageUnpause val1 demo) in
  let run := getValidatorSet 1 false s in
  map val_Address (out [] run) = [val1] ∧
  ∃ p, GetParamsVal s = (Ok p, snd run) ∧
    (0 < committee_limit false p → Z.of_nat (length (out [] run)) <= committee_limit false p).
Proof.
  intros s run. split; [vm_compute; reflexivity|].
  destruct (getValidatorSet_top 1 false s (out [] run) (snd run) ltac:(run_now)) as (p & H1 & _ & H2 & _).
  exists p. split; [exact H1 | exact H2].
Defined.

Lemma validator_lifecycle_invariant_witness :
  let s := snd (HandleMessageUnpause val1 demo) in
  let s' := snd (HandleMessageUnstake val1 s) in
  unstaking (store s') ≠ unstaking (store demo) ∧
  wf s' ∧ lifecycle s' ∧ ∀ c, books c (store s') = books c (store demo).
Proof.
  intros s s'. split; [decide_now|].
  apply (validator_lifecycle_invariant demo s' demo_wf demo_lifecycle).
  eapply rtc_l; [apply (step_unpause val1 demo s); run_now|].
  eapply rtc_l; [apply (step_unstake val1 s s'); run_now|]. apply rtc_refl.
Defined.

Lemma DeleteFinishedUnstaking_pays_witness :
  let s' := snd (DeleteFinishedUnstaking demo) in
  validators (store s') !! del1 = None ∧ acc_bal (store s') bob = 550 ∧
  ∀ c, books c (store s') = books c (store demo).
Proof.
  intros s'.
  destruct (DeleteFinishedUnstaking_pays demo () s' demo_wf demo_lifecycle ltac:(run_now))
    as (HV & _ & HB & _ & Hbooks).
  split_and!; [rewrite HV; vm_compute; reflexivity | rewrite HB; vm_compute; reflexivity | exact Hbooks].
Defined.

Lemma ForceUnstakeMaxPaused_sweeps_witness :
  let s := set_height 7 demo in
  let s' := snd (ForceUnstakeMaxPaused s) in
  (∀ a v, validators (store s') !! a = Some v → height s ≠ 0 → MaxPausedHeight v ≠ height s) ∧
  lifecycle s' ∧ (∀ c, books c (store s') = books c (store s)).
Proof.
  intros s s'. apply (ForceUnstakeMaxPaused_sweeps s ()); [apply demo_wf_at|exact demo_lifecycle|run_now].
Defined.
