(* ===== verification/Committee.v ===== *)
(** * Committee subsidies, committee data and reward distribution
    ([fsm/committee.go]; [CommitteeData.Combine] of [lib/certificate.go]) *)
From S2P Require Import Prelude LibUtil State Ledger Params Fixtures Account Validator.

(** ** Retired and subsidized committees *)

Definition RetireCommittee (chainId : Z) : F unit :=
  upd (λ st, set_retired ({[chainId]} ∪ retired st) st).
Definition CommitteeIsRetired (chainId : Z) : F bool := getst (λ st, bool_decide (chainId ∈ retired st)).
Definition GetRetiredCommittees : F (list Z) := getst (λ st, sorted_by Z.leb (elements (retired st))).
Definition SetRetiredCommittees (chainIds : list Z) : F unit := for_each chainIds RetireCommittee.

Definition GetSubsidizedCommittees : F (list Z) :=
  valParams ← GetParamsVal;
  x ← GetSupply;
  paidIDs ← fold_m (λ paidIDs committee,
    let committedStakePercent := Uint64PercentageDiv (pool_Amount committee) (Staked x) in
    if StakePercentForSubsidizedCommittee valParams <=? committedStakePercent then
      retired ← CommitteeIsRetired (pool_Id committee);
      if retired : bool then mret paidIDs else mret (paidIDs ++ [pool_Id committee])
    else mret paidIDs) [] (CommitteeStaked x);
  cfg ← gets config;
  if bool_decide (ChainId cfg ∈ paidIDs) then mret paidIDs else mret (paidIDs ++ [ChainId cfg]).

(** ** Block mint *)

Record MintStats := MkMintStats {
  subsidizedChainIds : list Z;
  daoCut : Z;
  totalMint : Z;
  mintAmountPerCommittee : Z;
}.

Definition halved (cfg : Config) (h : Z) : Z :=
  Z.shiftr (InitialTokensPerBlock cfg) (h / BlocksPerHalvening cfg).

Definition GetBlockMintStats (chainId : Z) : F MintStats :=
  cfg ← gets config;
  fail_if (BlocksPerHalvening cfg =? 0) ErrInvalidArgument;;
  govParams ← GetParamsGov;
  ids ← GetSubsidizedCommittees;
  h ← Height;
  let totalMintAmount := halved cfg h in
  let subsidizedCount := Z.of_nat (length ids) in
  fail_if ((subsidizedCount =? 0) || (totalMintAmount =? 0)) ErrNoSubsidizedCommittees;;
  let mintAmountAfterDAOCut :=
    if (100 <=? DaoRewardPercentage govParams) || (totalMintAmount =? 0) then 0
    else if DaoRewardPercentage govParams =? 0 then totalMintAmount
    else SafeMulDiv totalMintAmount (u64_sub 100 (DaoRewardPercentage govParams)) 100 in
  let cut := u64_sub totalMintAmount mintAmountAfterDAOCut in
  mret (MkMintStats ids cut totalMintAmount (mintAmountAfterDAOCut / subsidizedCount)).

Definition FundCommitteeRewardPools : F unit :=
  cfg ← gets config;
  r ← try (GetBlockMintStats (ChainId cfg));
  match r with
  | Err ErrNoSubsidizedCommittees => mret ()
  | Err e => throw e
  | Ok stats =>
      MintToPool DAOPoolID (daoCut stats);;
      for_each (subsidizedChainIds stats) (λ chainId, MintToPool chainId (mintAmountPerCommittee stats))
  end.

(** ** Committee data *)

Definition GetCommitteesData : F (list CommitteeData) := getst committees_data.
Definition SetCommitteesData (l : list CommitteeData) : F unit := upd (set_committees_data l).

Definition new_committee_data (chainId : Z) : CommitteeData := MkCommitteeData chainId 0 0 [] 0.

(** [getCommitteeDataAndList]: the list (extended when the target is new), the
    target and its index. *)
Fixpoint find_committee_data (targetChainId : Z) (l : list CommitteeData)
    : list CommitteeData * CommitteeData * nat :=
  match l with
  | [] => ([new_committee_data targetChainId], new_committee_data targetChainId, O)
  | data :: l' =>
      if cd_ChainId data =? targetChainId then (l, data, O)
      else let '(l'', d, idx) := find_committee_data targetChainId l' in (data :: l'', d, S idx)
  end.
Definition getCommitteeDataAndList (targetChainId : Z) : F (list CommitteeData * CommitteeData * nat) :=
  list ← GetCommitteesData;
  mret (find_committee_data targetChainId list).
Definition GetCommitteeData (targetChainId : Z) : F CommitteeData :=
  r ← getCommitteeDataAndList targetChainId;
  let '(_, targetData, _) := r in mret targetData.

(** [addPercents] on the payment percents of a committee. *)
Fixpoint addPercents (address : bytes) (percent chainId : Z) (l : list PaymentPercents)
    : result ErrorI (list PaymentPercents) :=
  if percent =? 0 then Ok l else
  match l with
  | [] => Ok [MkPaymentPercents address percent chainId]
  | p :: l' =>
      if decide (address = pay_Address p) then
        if u64_sub u64_max percent <? pay_Percent p then Err ErrInvalidPercentAllocation
        else Ok (set_pay_Percent (u64_add (pay_Percent p) percent) p :: l')
      else
        match addPercents address percent chainId l' with
        | Ok l'' => Ok (p :: l'')
        | Err e => Err e
        end
  end.

Fixpoint combine_percents (chainId : Z) (new l : list PaymentPercents) : result ErrorI (list PaymentPercents) :=
  match new with
  | [] => Ok l
  | p :: new' =>
      if pay_ChainId p =? chainId then
        match addPercents (pay_Address p) (pay_Percent p) chainId l with
        | Ok l' => combine_percents chainId new' l'
        | Err e => Err e
        end
      else combine_percents chainId new' l
  end.

(** [x.Combine(data, chainId)] *)
Definition Combine (x data : CommitteeData) (chainId : Z) : result ErrorI CommitteeData :=
  match combine_percents chainId (cd_PaymentPercents data) (cd_PaymentPercents x) with
  | Err e => Err e
  | Ok l =>
      if NumberOfSamples x =? u64_max then Err ErrInvalidPercentAllocation
      else Ok (MkCommitteeData (cd_ChainId data) (LastRootHeightUpdated data)
                 (LastChainHeightUpdated data) l (u64_add (NumberOfSamples x) 1))
  end.

Definition lift {A} (r : result ErrorI A) : F A := λ s, (r, s).

Definition UpsertCommitteeData (new : CommitteeData) : F unit :=
  r ← getCommitteeDataAndList (cd_ChainId new);
  let '(list, targetData, idx) := r in
  fail_if (LastChainHeightUpdated new <=? LastChainHeightUpdated targetData) ErrInvalidQCCommitteeHeight;;
  fail_if (LastRootHeightUpdated new <? LastRootHeightUpdated targetData) ErrInvalidQCRootChainHeight;;
  cfg ← gets config;
  targetData ← lift (Combine targetData new (ChainId cfg));
  SetCommitteesData (<[idx := targetData]> list).

Definition OverwriteCommitteeData (d : CommitteeData) : F unit :=
  r ← getCommitteeDataAndList (cd_ChainId d);
  let '(list, _, idx) := r in
  SetCommitteesData (<[idx := d]> list).

(** ** Reward distribution *)

(** [fullReward] and [earlyWithdrawalReward] of [DistributeCommitteeReward]. *)
Definition full_reward (percent rewardPoolAmount numberOfSamples : Z) : Z :=
  if numberOfSamples =? 0 then 0
  else big_Uint64 (percent * rewardPoolAmount / (numberOfSamples * 100)).
Definition early_reward (fullReward penalty : Z) : Z :=
  if (100 <=? penalty) || (fullReward =? 0) then 0
  else if penalty =? 0 then fullReward
  else SafeMulDiv fullReward (u64_sub 100 penalty) 100.

Definition DistributeCommitteeReward (stub : PaymentPercents)
    (rewardPoolAmount numberOfSamples : Z) (valParams : ValidatorParams) : F Z :=
  let address := pay_Address stub in
  let fullReward := full_reward (pay_Percent stub) rewardPoolAmount numberOfSamples in
  let earlyWithdrawalReward := early_reward fullReward (EarlyWithdrawalPenalty valParams) in
  r ← try (GetValidator address);
  match r with
  | Err _ => AccountAdd address earlyWithdrawalReward;; mret earlyWithdrawalReward
  | Ok validator =>
      if Compound validator && (UnstakingHeight validator =? 0) then
        UpdateValidatorStake validator (Committees validator) fullReward;; mret fullReward
      else AccountAdd (val_Output validator) earlyWithdrawalReward;; mret earlyWithdrawalReward
  end.

(** The loop over the payment percents of one committee; the accumulator is
    [totalDistributed]. *)
Definition distribute_stubs (data : CommitteeData) (rewardPoolAmount : Z) (paramsVal : ValidatorParams) : F Z :=
  fold_m (λ totalDistributed stub,
    distributed ← DistributeCommitteeReward stub rewardPoolAmount (NumberOfSamples data) paramsVal;
    if 0 <? distributed then
      addEvent (EventReward (pay_Address stub) distributed (cd_ChainId data));;
      fail_if (u64_sub u64_max distributed <? totalDistributed) ErrInvalidAmount;;
      mret (u64_add totalDistributed distributed)
    else mret totalDistributed) 0 (cd_PaymentPercents data).

Definition cleared (data : CommitteeData) : CommitteeData :=
  MkCommitteeData (cd_ChainId data) (LastRootHeightUpdated data) (LastChainHeightUpdated data) [] 0.

Definition distribute_one (paramsVal : ValidatorParams) (data : CommitteeData) : F CommitteeData :=
  match cd_PaymentPercents data with
  | [] => mret data
  | _ =>
      rewardPool ← GetPool (cd_ChainId data);
      totalDistributed ← distribute_stubs data (pool_Amount rewardPool) paramsVal;
      SubFromTotalSupply (u64_sub (pool_Amount rewardPool) totalDistributed);;
      SetPool (set_pool_Amount 0 rewardPool);;
      mret (cleared data)
  end.

Definition DistributeCommitteeRewards : F unit :=
  paramsVal ← GetParamsVal;
  committeesData ← GetCommitteesData;
  list ← fold_m (λ acc data, d ← distribute_one paramsVal data; mret (acc ++ [d])) [] committeesData;
  SetCommitteesData list.

(** ** Lemmas: subsidies *)

Definition qualifies (p : ValidatorParams) (st : Store) (committee : Pool) : Prop :=
  StakePercentForSubsidizedCommittee p <= Uint64PercentageDiv (pool_Amount committee) (Staked (supply st)) ∧
  pool_Id committee ∉ retired st.

Lemma GetSubsidizedCommittees_spec s r s' :
  GetSubsidizedCommittees s = (r, s') →
  same_books s s' ∧ config s' = config s ∧
  ∀ ids, r = Ok ids → ∃ p, GetParamsVal s = (Ok p, s') ∧ ids ≠ [] ∧
    ∀ id, id ∈ ids ↔ id = ChainId (config s) ∨
      ∃ q, q ∈ CommitteeStaked (supply (store s)) ∧ pool_Id q = id ∧ qualifies p (store s) q.
Proof.
  unfold GetSubsidizedCommittees.
  destruct (GetParamsVal s) as [[p|e] s1] eqn:Hp; apply GetParamsVal_same in Hp as Hs.
  2:{ rewrite (bind_run_Err _ _ _ _ _ Hp). intros [= <- <-]. split_and!; [done| |done].
      unfold GetParamsVal, getParams in Hp. revert Hp. runs.
      destruct (cache_valParams s); [done|]. cbn [store set_cache_valParams].
      destruct (params_val (store s)); [done|]. by intros [= _ <-]. }
  assert (Hcfg : config s1 = config s).
  { unfold GetParamsVal, getParams in Hp. revert Hp. runs.
    destruct (cache_valParams s); [by intros [= _ <-]|]. cbn [store set_cache_valParams].
    destruct (params_val (store s)); [|done]. by intros [= _ <-]. }
  rewrite (bind_run_Ok _ _ _ _ _ Hp). unfold GetSupply, getst.
  rewrite (bind_run_Ok _ _ _ (supply (store s1)) s1) by done.
  destruct Hs as (Hst & Hc & Hh). rewrite Hst.
  match goal with |- (fold_m ?f [] ?l ≫= ?k) s1 = _ → _ => set (body := f); set (cont := k) end.
  assert (Hfold : ∀ l acc, ∃ ids, fold_m body acc l s1 = (Ok ids, s1) ∧
    ∀ id, id ∈ ids ↔ id ∈ acc ∨ ∃ q, q ∈ l ∧ pool_Id q = id ∧ qualifies p (store s) q).
  { induction l as [|q l IH]; intros acc; [exists acc; split; [done|set_solver]|].
    rewrite fold_m_cons.
    assert (∃ acc', body acc q s1 = (Ok acc', s1) ∧
      ∀ id, id ∈ acc' ↔ id ∈ acc ∨ (pool_Id q = id ∧ qualifies p (store s) q)) as (acc' & Hb & Hacc).
    { unfold body, CommitteeIsRetired, qualifies. destruct (Z.leb_spec
        (StakePercentForSubsidizedCommittee p) (Uint64PercentageDiv (pool_Amount q) (Staked (supply (store s)))));
        cbn iota beta zeta; [|exists acc; split; [done|]; naive_solver lia].
      runs. rewrite Hst. case_bool_decide; cbn iota; eexists; (split; [done|]); set_solver. }
    rewrite (bind_run_Ok _ _ _ _ _ Hb). destruct (IH acc') as (ids & Hi & Hids).
    exists ids. split; [done|]. intros id. rewrite Hids, Hacc. set_solver. }
  destruct (Hfold (CommitteeStaked (supply (store s))) []) as (ids & Hi & Hids).
  rewrite (bind_run_Ok _ _ _ _ _ Hi). unfold cont. runs. rewrite Hcfg. intros Hrun.
  assert (Hr : ∃ out, r = Ok out ∧ s' = s1 ∧ out ≠ [] ∧ ∀ id, id ∈ out ↔ id = ChainId (config s) ∨ id ∈ ids).
  { case_bool_decide as Hin; injection Hrun as <- <-; eexists; (split_and!; [done|done| |]).
    - intros ->. by apply not_elem_of_nil in Hin.
    - set_solver.
    - by destruct ids.
    - set_solver. }
  destruct Hr as (out & -> & -> & Hne & Hout). split_and!; [done..|].
  intros ? [= <-]. exists p. split_and!; [done..|]. intros id. rewrite Hout, Hids. set_solver.
Qed.


(** ** Lemmas: block mint *)

Lemma halved_range cfg h :
  0 <= InitialTokensPerBlock cfg → 0 <= h → 0 < BlocksPerHalvening cfg →
  0 <= halved cfg h <= InitialTokensPerBlock cfg.
Proof.
  intros Hi Hh Hb. unfold halved. assert (0 <= h / BlocksPerHalvening cfg) by (by apply Z.div_pos).
  rewrite Z.shiftr_div_pow2 by done. pose proof (Z.pow_pos_nonneg 2 (h / BlocksPerHalvening cfg)).
  split; [apply Z.div_pos; lia|]. apply Z.div_le_upper_bound; nia.
Qed.

(** What the statistics say: the DAO's cut and the committees' shares add up to
    the mint, less a remainder smaller than the number of committees. *)
Record mint_split (m : MintStats) : Prop := {
  ms_cut : 0 <= daoCut m;
  ms_each : 0 <= mintAmountPerCommittee m;
  ms_total : 0 <=
    totalMint m - (daoCut m + Z.of_nat (length (subsidizedChainIds m)) * mintAmountPerCommittee m)
    < Z.of_nat (length (subsidizedChainIds m));
}.

Lemma GetBlockMintStats_spec ch s r s' :
  (∀ g, params_gov (store s) = Some g → u64 (DaoRewardPercentage g)) →
  u64 (InitialTokensPerBlock (config s)) → 0 <= BlocksPerHalvening (config s) → 0 <= height s →
  GetBlockMintStats ch s = (r, s') →
  same_books s s' ∧ config s' = config s ∧
  ∀ m, r = Ok m → 0 < BlocksPerHalvening (config s) ∧ mint_split m ∧
    totalMint m = halved (config s) (height s) ∧
    ∀ id, id ∈ subsidizedChainIds m → id = ChainId (config s) ∨
      ∃ q, q ∈ CommitteeStaked (supply (store s)) ∧ pool_Id q = id.
Proof.
  intros Hgov HI HB Hh. unfold GetBlockMintStats, GetParamsGov, getParams, getst.
  rewrite (bind_run_Ok _ _ _ (config s) s) by done.
  destruct (Z.eqb_spec (BlocksPerHalvening (config s)) 0) as [Hz|Hz]; [by runs; intros [= <- <-]|].
  rewrite (bind_run_Ok _ _ _ () s) by done.
  destruct (params_gov (store s)) as [g|] eqn:Hg.
  2:{ rewrite (bind_run_Err _ _ _ ErrEmptyGovParams s) by (by runs; rewrite Hg).
      by intros [= <- <-]. }
  rewrite (bind_run_Ok _ _ _ g s) by (by runs; rewrite Hg).
  destruct (GetSubsidizedCommittees s) as [r1 s1] eqn:Hs1.
  apply GetSubsidizedCommittees_spec in Hs1 as Hspec. destruct Hspec as (Hsame & Hcfg & Hids).
  destruct r1 as [ids|e]; [|rewrite (bind_run_Err _ _ _ _ _ Hs1); by intros [= <- <-]].
  rewrite (bind_run_Ok _ _ _ _ _ Hs1). destruct (Hids _ eq_refl) as (p & _ & Hne & Hin).
  unfold Height. rewrite (bind_run_Ok _ _ _ (height s) s1) by (by runs; destruct Hsame as (_ & _ & ->)).
  pose proof (halved_range (config s) (height s) ltac:(u64) Hh ltac:(lia)) as HT.
  set (T := halved (config s) (height s)) in *. cbv zeta.
  destruct ((Z.of_nat (length ids) =? 0) || (T =? 0)) eqn:Hor; [by runs; intros [= <- <-]|]. zify_bools.
  rewrite (bind_run_Ok _ _ _ () s1) by done. intros [= <- <-]. split_and!; [done..|].
  intros m [= <-]. split_and!; [lia| |done|].
  2:{ cbn. intros id Hid. apply Hin in Hid as [|(q & ? & ? & _)]; eauto. }
  set (n := Z.of_nat (length ids)) in *. assert (Hn : 0 < n) by (destruct ids; [done|cbn in n; lia]).
  match goal with |- context [u64_sub T ?x] => set (after := x) end.
  assert (Hafter : 0 <= after <= T).
  { subst after. specialize (Hgov g eq_refl). destruct (_ || _) eqn:Ho; [lia|]. zify_bools.
    destruct (Z.eqb_spec (DaoRewardPercentage g) 0); [lia|].
    rewrite u64_sub_small by u64. unfold SafeMulDiv, big_Uint64. cbn [Z.eqb].
    assert (0 <= T * (100 - DaoRewardPercentage g) / 100 <= T) by
      (split; [apply Z.div_pos; u64|apply Z.div_le_upper_bound; u64]).
    rewrite wrap64_small by u64. done. }
  rewrite u64_sub_small by u64. clearbody after.
  pose proof (Z.div_mod after n ltac:(lia)). pose proof (Z.mod_pos_bound after n Hn).
  assert (0 <= after / n) by (apply Z.div_pos; lia).
  split; cbn; [lia|done|]. fold n. lia.
Qed.

Lemma hit_not a b n : a ≠ b → hit a b n = 0.
Proof. apply hit_ne. Qed.

(** A reward pool or the DAO pool is no escrow or holding pool. *)
Lemma d_pool_plain c id n :
  valid_chain c → id = DAOPoolID ∨ valid_chain id → d_pool c id n = Gaps (- n) 0 0 0 0 0 0.
Proof.
  intros Hc Hid. unfold d_pool.
  assert (id ≠ escrow_id c ∧ id ≠ holding_id c) as [? ?].
  { destruct Hid as [->|Hid]; [|by destruct (pool_ids_disjoint id c) as (?&?&?&?&?&?)].
    by destruct (pool_ids_disjoint c c) as (?&?&?&?&?&?&?&?&?&?). }
  by rewrite !hit_ne.
Qed.

(** The books of every valid chain, and how much was minted. *)
Record minted (n : Z) (s s' : FSM) : Prop := {
  mi_posted : ∀ c, valid_chain c → posted c g_zero s s';
  mi_total : Total (supply (store s')) = Total (supply (store s)) + n;
}.
Lemma valid_chain_1 : valid_chain 1.
Proof. by unfold valid_chain. Qed.
#[export] Hint Resolve valid_chain_1 : go.
Lemma minted_wf n s s' : minted n s s' → wf s'.
Proof. intros [P _]. apply (P 1), valid_chain_1. Qed.
Lemma g_total_any c c' st : g_total (books c st) = g_total (books c' st).
Proof. done. Qed.
Lemma minted_gap n s s' c : minted n s s' → g_total (books c (store s')) = g_total (books c (store s)).
Proof.
  intros [P _]. destruct (P 1 valid_chain_1) as [_ Hsh].
  apply (f_equal g_total) in Hsh. cbn [g_add g_total g_zero] in Hsh.
  rewrite (g_total_any c 1 (store s')), (g_total_any c 1 (store s)). lia.
Qed.
Lemma minted_trans n m s1 s2 s3 : minted n s1 s2 → minted m s2 s3 → minted (n + m) s1 s3.
Proof.
  intros [P1 T1] [P2 T2]. split; [|lia]. intros c Hc.
  exact (posted_trans _ _ _ _ _ _ (P1 c Hc) (P2 c Hc)).
Qed.

Lemma MintToPool_minted id n s u s' :
  wf s → u64 n → 0 <= g_total (books 1 (store s)) → u64 (Total (supply (store s)) + n) →
  id = DAOPoolID ∨ valid_chain id → MintToPool id n s = (Ok u, s') → minted n s s'.
Proof.
  intros Hw Hn Hg Hu Hid Hrun. apply (MintToPool_spec 1) in Hrun as (_ & Hw' & Hsh & _ & Hx); [|done..].
  split; [|by rewrite Hx]. intros c Hc. split; [done|]. eapply shift_eq; [apply Hsh|].
  rewrite d_pool_plain by done. g_eq.
Qed.

Lemma mint_loop n ids s u s' :
  wf s → 0 <= n → 0 <= g_total (books 1 (store s)) →
  u64 (Total (supply (store s)) + Z.of_nat (length ids) * n) →
  (∀ id, id ∈ ids → valid_chain id) →
  for_each ids (λ id, MintToPool id n) s = (Ok u, s') →
  minted (Z.of_nat (length ids) * n) s s'.
Proof.
  intros Hw Hn Hg Hu Hids. apply (for_each_Ok (λ dn s1, minted (Z.of_nat (length dn) * n) s s1)).
  - intros dn id rest s1 s1' u' Hk HM Hrun.
    pose proof (wf_supplies s Hw) as (HT & _). pose proof (mi_total _ _ _ HM) as HT1.
    assert (length dn < length ids)%nat by (rewrite Hk, length_app; cbn; lia).
    apply MintToPool_minted in Hrun; [|by eapply minted_wf| |by rewrite (minted_gap _ _ _ 1 HM)| |].
    + pose proof (minted_trans _ _ _ _ _ HM Hrun) as HM'.
      rewrite length_app. cbn [length]. by replace (Z.of_nat (length dn + 1) * n) with (Z.of_nat (length dn) * n + n) by lia.
    + u64.
    + rewrite HT1. u64.
    + right. apply Hids. rewrite Hk. set_solver.
  - split; [intros; by apply posted_0|]. cbn. lia.
Qed.

(** C16. [FundCommitteeRewardPools] creates exactly the tokens it credits: when
    the reward pools belong to valid chains, the books of every chain are
    unchanged while the total supply grows by at most the halved block mint
    (less only the truncation of the division among the committees). *)
Theorem FundCommitteeRewardPools_mints s u s' :
  wf s → valid_chain (ChainId (config s)) →
  (∀ q, q ∈ CommitteeStaked (supply (store s)) → valid_chain (pool_Id q)) →
  (∀ g, params_gov (store s) = Some g → u64 (DaoRewardPercentage g)) →
  0 <= BlocksPerHalvening (config s) → 0 <= height s → 0 <= InitialTokensPerBlock (config s) →
  0 <= g_total (books 1 (store s)) →
  u64 (Total (supply (store s)) + InitialTokensPerBlock (config s)) →
  FundCommitteeRewardPools s = (Ok u, s') →
  wf s' ∧ (∀ c, valid_chain c → books c (store s') = books c (store s)) ∧
  0 <= Total (supply (store s')) - Total (supply (store s)) <= halved (config s) (height s).
Proof.
  intros Hw Hch Hq Hgov HB Hh HI Hg Hu. pose proof (wf_supplies s Hw) as (HT & _).
  unfold FundCommitteeRewardPools. rewrite (bind_run_Ok _ _ _ (config s) s) by done.
  destruct (GetBlockMintStats (ChainId (config s)) s) as [r s1] eqn:Hm.
  rewrite (bind_run_Ok _ _ _ r s1) by (by unfold try; rewrite Hm).
  apply GetBlockMintStats_spec in Hm as (Hsame & Hcfg & Hm); [|done|u64|done..].
  pose proof (same_books_wf _ _ Hsame Hw) as Hw1. destruct Hsame as (Hst & _ & _).
  destruct r as [m|[]]; try done.
  2:{ intros [= <- <-]. rewrite Hst. split_and!; [done|done|lia|].
      unfold halved. pose proof (Z.shiftr_nonneg (InitialTokensPerBlock (config s))
        (height s / BlocksPerHalvening (config s))). lia. }
  destruct (Hm m eq_refl) as (HB' & [Hc He Ht] & HT' & Hids). clear Hm.
  pose proof (halved_range (config s) (height s) HI Hh HB') as HR. rewrite HT' in Ht.
  set (k := Z.of_nat (length (subsidizedChainIds m)) * mintAmountPerCommittee m) in *.
  assert (0 <= k) by lia.
  intros Hrun. apply bind_Ok in Hrun as ([] & s2 & H2 & H3).
  apply MintToPool_minted in H2; [|done|u64|by rewrite Hst|rewrite Hst; u64|auto].
  apply mint_loop in H3; [|by eapply minted_wf|done|by rewrite (minted_gap _ _ _ 1 H2), Hst| |].
  - pose proof (minted_trans _ _ _ _ _ H2 H3) as HM. fold k in HM.
    destruct HM as [HP HT2]. rewrite Hst in HT2. split_and!; [apply (HP 1), valid_chain_1| |lia..].
    intros c Hcv. destruct (HP c Hcv) as [_ Hsh]. unfold shift in Hsh. by rewrite Hsh, g_add_0_r, Hst.
  - rewrite (mi_total _ _ _ H2), Hst. fold k. u64.
  - intros id Hid. apply Hids in Hid as [->|(q & Hin & <-)]; [done|]. by apply Hq.
Qed.

(** ** Emission over time *)

(** The mint of the first [n] heights. *)
Fixpoint emitted (cfg : Config) (n : nat) : Z :=
  match n with O => 0 | S n' => emitted cfg n' + halved cfg (Z.of_nat n') end.

Lemma halved_era cfg era off :
  0 <= InitialTokensPerBlock cfg → 0 <= era → 0 <= off < BlocksPerHalvening cfg →
  halved cfg (era * BlocksPerHalvening cfg + off) = InitialTokensPerBlock cfg / 2 ^ era.
Proof.
  intros Hi He Ho. unfold halved. rewrite Z.div_add_l by lia. rewrite (Z.div_small off) by lia.
  rewrite Z.add_0_r, Z.shiftr_div_pow2 by done. done.
Qed.

(** After [era] whole eras and [off] blocks, at most [2 - 2^(1-era) + off * 2^(-era)]
    times an era's first mint: the sum of a geometric series. *)
Lemma emitted_bound cfg n :
  0 <= InitialTokensPerBlock cfg → 0 < BlocksPerHalvening cfg →
  let era := Z.of_nat n / BlocksPerHalvening cfg in
  let off := Z.of_nat n mod BlocksPerHalvening cfg in
  2 ^ era * emitted cfg n <=
    InitialTokensPerBlock cfg * (BlocksPerHalvening cfg * (2 ^ (era + 1) - 2) + off).
Proof.
  intros Hi Hb. induction n as [|n IH].
  - cbn zeta. rewrite Z.div_0_l, Z.mod_0_l by lia. cbn [emitted]. change (2 ^ (0 + 1)) with 2. nia.
  - cbn zeta in *. cbn [emitted]. set (B := BlocksPerHalvening cfg) in *. set (I := InitialTokensPerBlock cfg) in *.
    set (m := Z.of_nat n) in *. replace (Z.of_nat (S n)) with (m + 1) by lia.
    pose proof (Z.div_mod m B ltac:(lia)) as Hdm. pose proof (Z.mod_pos_bound m B Hb) as Hmb.
    set (e := m / B) in *. set (o := m mod B) in *.
    assert (He : 0 <= e) by (apply Z.div_pos; lia).
    assert (Hh : halved cfg m = I / 2 ^ e).
    { rewrite Hdm, (Z.mul_comm B). by apply halved_era. }
    assert (Hp : 0 < 2 ^ e) by (by apply Z.pow_pos_nonneg).
    pose proof (Z.mul_div_le I (2 ^ e) Hp) as Hd. rewrite Hh.
    destruct (Z.eq_dec (o + 1) B) as [Hlast|Hlast].
    + assert (E1 : (m + 1) / B = e + 1).
      { symmetry. apply (Z.div_unique_pos _ _ _ 0); nia. }
      assert (E2 : (m + 1) mod B = 0).
      { symmetry. apply (Z.mod_unique_pos _ _ (e + 1)); nia. }
      rewrite E1, E2. rewrite !Z.pow_add_r in * by lia. change (2 ^ 1) with 2 in *. nia.
    + assert (E1 : (m + 1) / B = e).
      { symmetry. apply (Z.div_unique_pos _ _ _ (o + 1)); nia. }
      assert (E2 : (m + 1) mod B = o + 1).
      { symmetry. apply (Z.mod_unique_pos _ _ e); nia. }
      rewrite E1, E2. rewrite !Z.pow_add_r in * by lia. change (2 ^ 1) with 2 in *. nia.
Qed.

(** The halving schedule caps the supply: however many blocks are
    committed, the mints of all of them together never reach twice the first
    era's mint, [2 * InitialTokensPerBlock * BlocksPerHalvening]. *)
Theorem emission_capped cfg n :
  0 <= InitialTokensPerBlock cfg → 0 < BlocksPerHalvening cfg →
  0 <= emitted cfg n <= 2 * InitialTokensPerBlock cfg * BlocksPerHalvening cfg.
Proof.
  intros Hi Hb. split.
  - induction n as [|n IH]; cbn [emitted]; [done|].
    pose proof (halved_range cfg (Z.of_nat n) Hi ltac:(lia) Hb). lia.
  - pose proof (emitted_bound cfg n Hi Hb) as He. cbn zeta in He.
    pose proof (Z.mod_pos_bound (Z.of_nat n) (BlocksPerHalvening cfg) Hb).
    assert (0 <= Z.of_nat n / BlocksPerHalvening cfg) by (apply Z.div_pos; lia).
    rewrite Z.pow_add_r in He by lia. change (2 ^ 1) with 2 in He.
    assert (0 < 2 ^ (Z.of_nat n / BlocksPerHalvening cfg)) by (by apply Z.pow_pos_nonneg).
    set (P := 2 ^ (Z.of_nat n / BlocksPerHalvening cfg)) in *.
    set (o := Z.of_nat n mod BlocksPerHalvening cfg) in *.
    assert (InitialTokensPerBlock cfg * (BlocksPerHalvening cfg * (P * 2 - 2) + o)
      <= InitialTokensPerBlock cfg * (BlocksPerHalvening cfg * (P * 2))) by nia.
    nia.
Qed.

(** ** Lemmas: committee data *)

Definition sum_percents (l : list PaymentPercents) : Z := list_sum pay_Percent l.
(** The percents of [l] designated for a chain. *)
Definition own_percents (chainId : Z) (l : list PaymentPercents) : Z :=
  list_sum (λ p, if pay_ChainId p =? chainId then pay_Percent p else 0) l.

(** On average, at most 100 percent per sample. *)
Record fair (d : CommitteeData) : Prop := {
  fa_u64 : Forall (λ p, u64 (pay_Percent p)) (cd_PaymentPercents d);
  fa_sum : sum_percents (cd_PaymentPercents d) <= 100 * NumberOfSamples d;
  fa_samples : u64 (NumberOfSamples d);
}.

Lemma addPercents_spec a n ch l l' :
  u64 n → Forall (λ p, u64 (pay_Percent p)) l → addPercents a n ch l = Ok l' →
  Forall (λ p, u64 (pay_Percent p)) l' ∧ sum_percents l' = sum_percents l + n.
Proof.
  intros Hn Hl. revert l'. unfold sum_percents. induction Hl as [|p l Hp Hl IH]; intros l'; cbn [addPercents].
  - destruct (Z.eqb_spec n 0) as [->|]; intros [= <-]; [done|].
    split; [by apply Forall_singleton|]. rewrite list_sum_cons. change (list_sum _ []) with 0. cbn. lia.
  - destruct (Z.eqb_spec n 0) as [->|]; [intros [= <-]; split; [by constructor|lia]|].
    case_decide as Ha.
    + destruct (_ <? _) eqn:Hg; [done|]. intros [= <-]. apply max_guard in Hg; [|done..].
      rewrite u64_add_small by done. split; [by constructor|]. rewrite !list_sum_cons. cbn. lia.
    + destruct (addPercents a n ch l) as [l1|]; [|done]. intros [= <-].
      destruct (IH l1 eq_refl) as [HF HS]. split; [by constructor|]. rewrite !list_sum_cons, HS. lia.
Qed.
Lemma combine_percents_spec ch new l l' :
  Forall (λ p, u64 (pay_Percent p)) new → Forall (λ p, u64 (pay_Percent p)) l →
  combine_percents ch new l = Ok l' →
  Forall (λ p, u64 (pay_Percent p)) l' ∧ sum_percents l' = sum_percents l + own_percents ch new.
Proof.
  intros Hnew. revert l. induction Hnew as [|p new Hp Hnew IH]; intros l Hl; cbn [combine_percents].
  - intros [= <-]. split; [done|]. change (own_percents ch []) with 0. lia.
  - unfold own_percents. rewrite list_sum_cons. fold (own_percents ch new).
    destruct (_ =? ch); [|intros H; destruct (IH l Hl H); split; [done|lia]].
    destruct (addPercents _ _ _ l) as [l1|] eqn:Ha; [|done]. intros Hc.
    destruct (addPercents_spec _ _ _ _ _ Hp Hl Ha) as [Hl1 HS1].
    destruct (IH l1 Hl1 Hc) as [HF HS]. split; [done|lia].
Qed.
Lemma Combine_fair x data ch x' :
  fair x → Forall (λ p, u64 (pay_Percent p)) (cd_PaymentPercents data) →
  own_percents ch (cd_PaymentPercents data) <= 100 → Combine x data ch = Ok x' →
  fair x' ∧ NumberOfSamples x' = NumberOfSamples x + 1 ∧ cd_ChainId x' = cd_ChainId data ∧
  LastRootHeightUpdated x' = LastRootHeightUpdated data ∧
  LastChainHeightUpdated x' = LastChainHeightUpdated data ∧
  sum_percents (cd_PaymentPercents x') =
    sum_percents (cd_PaymentPercents x) + own_percents ch (cd_PaymentPercents data).
Proof.
  intros [Hu Hs Hn] Hd Hown. unfold Combine.
  destruct (combine_percents _ _ _) as [l|] eqn:Hc; [|done].
  destruct (Z.eqb_spec (NumberOfSamples x) u64_max) as [|Hmax]; [done|]. intros [= <-].
  destruct (combine_percents_spec _ _ _ _ Hd Hu Hc) as [Hl HS].
  rewrite u64_add_small by u64. split_and!; [|done..]. split; cbn; [done|lia|u64].
Qed.

Lemma find_committee_data_spec ch l l' d idx :
  find_committee_data ch l = (l', d, idx) →
  l' !! idx = Some d ∧ cd_ChainId d = ch ∧
  ((l' = l ∧ d ∈ l) ∨ (l' = l ++ [d] ∧ d = new_committee_data ch ∧ ∀ x, x ∈ l → cd_ChainId x ≠ ch)).
Proof.
  revert l' d idx. induction l as [|x l IH]; intros l' d idx; cbn [find_committee_data].
  - intros [= <- <- <-]. split_and!; [done..|]. right. split_and!; [done..|]. set_solver.
  - destruct (Z.eqb_spec (cd_ChainId x) ch) as [Hx|Hx].
    + intros [= <- <- <-]. split_and!; [done..|]. left. set_solver.
    + destruct (find_committee_data ch l) as [[l2 d2] i2]. intros [= <- <- <-].
      destruct (IH _ _ _ eq_refl) as (Hl & Hd & Hor). split_and!; [done..|].
      destruct Hor as [[-> Hin]|(-> & -> & Hne)]; [left; set_solver|].
      right. split_and!; [done..|]. set_solver.
Qed.

Lemma find_after_update ch l l' d idx t :
  find_committee_data ch l = (l', d, idx) → cd_ChainId t = ch →
  find_committee_data ch (<[idx:=t]> l') = (<[idx:=t]> l', t, idx).
Proof.
  intros Hf Ht. revert l' d idx Hf. induction l as [|x l IH]; intros l' d idx; cbn [find_committee_data].
  - intros [= <- <- <-]. cbn. by rewrite Ht, Z.eqb_refl.
  - destruct (Z.eqb_spec (cd_ChainId x) ch) as [Hx|Hx].
    + intros [= <- <- <-]. cbn. by rewrite Ht, Z.eqb_refl.
    + destruct (find_committee_data ch l) as [[l2 d2] i2]. intros [= <- <- <-].
      change (<[S i2:=t]> (x :: l2)) with (x :: <[i2:=t]> l2). cbn [find_committee_data].
      apply Z.eqb_neq in Hx. by rewrite Hx, (IH _ _ _ eq_refl).
Qed.
Lemma fair_new ch : fair (new_committee_data ch).
Proof. split; cbn; [done|done|u64]. Qed.
Lemma find_fair ch l l' d idx :
  find_committee_data ch l = (l', d, idx) → Forall fair l → Forall fair l' ∧ fair d.
Proof.
  intros Hf HF. apply find_committee_data_spec in Hf as (_ & _ & [[-> Hin]|(-> & -> & _)]).
  - split; [done|]. by apply (proj1 (Forall_forall _ _) HF).
  - split; [|apply fair_new]. apply Forall_app. split; [done|]. apply Forall_singleton, fair_new.
Qed.

Lemma GetCommitteeData_run ch s :
  GetCommitteeData ch s = (Ok (snd (fst (find_committee_data ch (committees_data (store s))))), s).
Proof.
  unfold GetCommitteeData, getCommitteeDataAndList, GetCommitteesData. runs.
  by destruct (find_committee_data ch (committees_data (store s))) as [[l d] i].
Qed.

(** [UpsertCommitteeData] only accepts newer data: on success the
    committee's chain height was strictly raised and its root height not
    lowered, the sample count went up by one, the percents for the own chain were added,
    every other committee is kept, and an allocation of at most 100 percent keeps
    the average allocation of every committee at or below 100 percent. *)
Theorem UpsertCommitteeData_monotone new s u s' :
  Forall fair (committees_data (store s)) →
  Forall (λ p, u64 (pay_Percent p)) (cd_PaymentPercents new) →
  own_percents (ChainId (config s)) (cd_PaymentPercents new) <= 100 →
  UpsertCommitteeData new s = (Ok u, s') →
  ∃ old d, fst (GetCommitteeData (cd_ChainId new) s) = Ok old ∧ 
    fst (GetCommitteeData (cd_ChainId new) s') = Ok d ∧
    LastChainHeightUpdated old < LastChainHeightUpdated d ∧
    LastRootHeightUpdated old <= LastRootHeightUpdated d ∧
    NumberOfSamples d = NumberOfSamples old + 1 ∧
    sum_percents (cd_PaymentPercents d) = sum_percents (cd_PaymentPercents old)
      + own_percents (ChainId (config s)) (cd_PaymentPercents new) ∧
    (∀ x, x ∈ committees_data (store s) → cd_ChainId x ≠ cd_ChainId new → x ∈ committees_data (store s')) ∧
    Forall fair (committees_data (store s')).
Proof.
  intros HF Hnew Hown. unfold UpsertCommitteeData. rewrite !GetCommitteeData_run.
  unfold getCommitteeDataAndList, GetCommitteesData, getst.
  destruct (find_committee_data (cd_ChainId new) (committees_data (store s))) as [[l' old] idx] eqn:Hf.
  rewrite (bind_run_Ok _ _ _ (l', old, idx) s) by (runs; by rewrite Hf).
  intros Hrun. apply bind_Ok in Hrun as (? & ? & [G1 ->]%fail_if_Ok & Hrun).
  apply bind_Ok in Hrun as (? & ? & [G2 ->]%fail_if_Ok & Hrun).
  rewrite (bind_run_Ok _ _ _ (config s) s) in Hrun by done.
  apply bind_Ok in Hrun as (t & ? & [= Hc ->] & Hrun).
  unfold SetCommitteesData, upd, modify in Hrun. injection Hrun as _ <-. zify_bools.
  destruct (find_fair _ _ _ _ _ Hf HF) as [HF' Hold].
  destruct (Combine_fair _ _ _ _ Hold Hnew Hown Hc) as (Hfa & Hn & Hid & Hr & Hh & Hsum).
  exists old, t. cbn [store set_store committees_data set_committees_data].
  rewrite (find_after_update _ _ _ _ _ _ Hf Hid). cbn [fst snd].
  apply find_committee_data_spec in Hf as (Hl & Hd & Hor).
  split_and!; [done|done|lia..|done| |by apply Forall_insert].
  intros y Hx Hne. apply list_elem_of_lookup in Hx as [i Hi].
  assert (Hi' : l' !! i = Some y).
  { destruct Hor as [[-> _]|(-> & _ & _)]; [done|]. by apply lookup_app_l_Some. }
  apply list_elem_of_lookup. exists i. rewrite list_lookup_insert_ne; [done|]. intros ->.
  rewrite Hl in Hi'. injection Hi' as <-. done.
Qed.

(** ** Lemmas: reward distribution *)

Lemma early_reward_range full penalty :
  u64 full → u64 penalty → 0 <= early_reward full penalty <= full.
Proof.
  intros Hf Hp. unfold early_reward. destruct (_ || _) eqn:Ho; [u64|]. zify_bools.
  destruct (Z.eqb_spec penalty 0); [u64|]. rewrite u64_sub_small by u64.
  assert (0 <= full * (100 - penalty) / 100 <= full).
  { split; [apply Z.div_pos; u64|]. apply Z.div_le_upper_bound; u64. }
  rewrite SafeMulDiv_exact by u64. done.
Qed.

(** A stub of at most 100 percent per sample gets at most its share of the pool. *)
Lemma full_reward_range percent R n :
  0 <= percent <= 100 * n → u64 R →
  0 <= full_reward percent R n <= R ∧ full_reward percent R n * (100 * n) <= percent * R ∧
  (n = 0 → full_reward percent R n = 0).
Proof.
  intros Hp HR. unfold full_reward. destruct (Z.eqb_spec n 0) as [->|Hn]; [split_and!; [u64..|done]|].
  assert (Hd : 0 <= percent * R / (n * 100) <= R).
  { split; [apply Z.div_pos; u64|]. apply Z.div_le_upper_bound; u64. }
  unfold big_Uint64. rewrite wrap64_small by u64. split_and!; [lia..| |done].
  pose proof (Z.mul_div_le (percent * R) (n * 100) ltac:(lia)). lia.
Qed.

(** What distributing rewards leaves alone. *)
Record rw_frame (s s' : FSM) : Prop := {
  rf_pools : pools (store s') = pools (store s);
  rf_data : committees_data (store s') = committees_data (store s);
}.
Lemma rw_frame_trans s1 s2 s3 : rw_frame s1 s2 → rw_frame s2 s3 → rw_frame s1 s3.
Proof. intros [? ?] [? ?]. split; congruence. Qed.

Definition d_paid (n : Z) : gaps := Gaps (- n) 0 0 0 0 0 0.

Lemma DistributeCommitteeReward_spec stub R n p s d s' :
  wf s → (∀ c, 0 <= g_staked (books c (store s))) → u64 R → u64 (EarlyWithdrawalPenalty p) →
  0 <= pay_Percent stub <= 100 * n →
  DistributeCommitteeReward stub R n p s = (Ok d, s') →
  (∀ c, posted c (d_paid d) s s') ∧ rw_frame s s' ∧
  0 <= d <= R ∧ d * (100 * n) <= pay_Percent stub * R ∧ (n = 0 → d = 0).
Proof.
  intros Hw Hg HR Hpen Hst. unfold DistributeCommitteeReward.
  destruct (full_reward_range _ _ _ Hst HR) as (Hfull & Hshare & Hzero).
  set (full := full_reward _ _ _) in *. cbv zeta.
  destruct (early_reward_range full (EarlyWithdrawalPenalty p) ltac:(u64) Hpen) as [He1 He2].
  set (early := early_reward _ _) in *.
  assert (Hacc : ∀ a, (AccountAdd a early;; mret early) s = (Ok d, s') →
    (∀ c, posted c (d_paid d) s s') ∧ rw_frame s s' ∧ 0 <= d <= R ∧
    d * (100 * n) <= pay_Percent stub * R ∧ (n = 0 → d = 0)).
  { intros a Hrun. apply bind_Ok in Hrun as (? & s1 & Hadd & [= <- <-]).
    apply AccountAdd_spec in Hadd as [Hw1 Hsh _ (accs & ca & ->)]; [|done|u64].
    split_and!; [by split|done|lia|lia|nia|lia]. }
  rewrite (bind_run_Ok _ _ _ _ _ (try_run _ _)), GetValidator_run by done. cbn [fst snd].
  destruct (validators (store s) !! pay_Address stub) as [v|] eqn:Hv; [|apply Hacc].
  destruct (_ && _); [|apply Hacc].
  destruct (wf_validators s Hw _ _ Hv) as [Ha _]. rewrite <- Ha in Hv.
  intros Hrun. apply bind_Ok in Hrun as (u & s1 & Hupd & [= <- <-]).
  pose proof (λ c, UpdateValidatorStake_spec c v (Committees v) full s u s1 Hw ltac:(u64) (Hg c) Hv Hupd) as HU.
  split_and!; [|split|lia|lia|nia|done].
  - intros c. destruct (HU c) as [P _]. eapply posted_eq; [exact P|]. unfold d_paid. g_eq.
  - by destruct (HU 0) as (_ & _ & ? & ? & ? & ->).
  - by destruct (HU 0) as (_ & _ & ? & ? & ? & ->).
Qed.

Lemma g_staked_posted c d s s' :
  posted c d s s' → g_staked (books c (store s')) = g_staked (books c (store s)) + g_staked d.
Proof. intros [_ Hsh]. unfold shift in Hsh. by rewrite Hsh. Qed.

Lemma distribute_stubs_spec data R p s D s' :
  wf s → (∀ c, 0 <= g_staked (books c (store s))) → u64 R → u64 (EarlyWithdrawalPenalty p) →
  fair data → distribute_stubs data R p s = (Ok D, s') →
  (∀ c, posted c (d_paid D) s s') ∧ rw_frame s s' ∧ 0 <= D <= R.
Proof.
  intros Hw Hg HR Hpen [Hu Hsum Hn] Hrun.
  apply (fold_m_inv (λ dn D s1, (∀ c, posted c (d_paid D) s s1) ∧ rw_frame s s1 ∧ u64 D ∧
    (NumberOfSamples data = 0 → D = 0) ∧
    D * (100 * NumberOfSamples data) <= sum_percents dn * R)) in Hrun as (HP & HF & HD & HD0 & Hshare).
  - split_and!; [done|done|u64|]. destruct (Z.eq_dec (NumberOfSamples data) 0) as [Hz|Hz]; [u64|].
    destruct Hn. assert (0 <= sum_percents (cd_PaymentPercents data)).
    { apply list_sum_nonneg. intros q Hq. rewrite Forall_forall in Hu. pose proof (Hu q Hq) as H'. cbn in H'. u64. }
    u64.
  - clear Hrun. intros dn x rest D1 s1 D1' s1' Hk (HP & F1 & HD & HD0 & Hshare) Hrun.
    apply bind_Ok in Hrun as (d & s2 & Hd & Hrun).
    assert (Hx : u64 (pay_Percent x)) by (apply (proj1 (Forall_forall _ _) Hu); rewrite Hk; set_solver).
    assert (Hx100 : pay_Percent x <= 100 * NumberOfSamples data).
    { etransitivity; [|exact Hsum]. rewrite Hk. unfold sum_percents. rewrite list_sum_app, list_sum_cons.
      rewrite Hk, Forall_app, Forall_cons in Hu. destruct Hu as (Hu1 & _ & Hu2).
      assert (0 <= list_sum pay_Percent dn) by (apply list_sum_nonneg; intros q Hq;
        pose proof (proj1 (Forall_forall _ _) Hu1 q Hq) as H'; cbn in H'; u64).
      assert (0 <= list_sum pay_Percent rest) by (apply list_sum_nonneg; intros q Hq;
        pose proof (proj1 (Forall_forall _ _) Hu2 q Hq) as H'; cbn in H'; u64).
      lia. }
    apply DistributeCommitteeReward_spec in Hd as (P & F & Hd & Hsh & Hd0); [|apply (HP 0)| |done|done|u64].
    2:{ intros c. rewrite (g_staked_posted _ _ _ _ (HP c)). specialize (Hg c). unfold d_paid. cbn [g_staked]. lia. }
    assert (Hs : sum_percents (dn ++ [x]) = sum_percents dn + pay_Percent x).
    { unfold sum_percents. rewrite list_sum_app, list_sum_cons. change (list_sum _ []) with 0. lia. }
    pose proof (rw_frame_trans _ _ _ F1 F) as F2.
    assert (P2 : ∀ c, posted c (d_paid (D1 + d)) s s2).
    { intros c. eapply posted_eq; [exact (posted_trans _ _ _ _ _ _ (HP c) (P c))|]. unfold d_paid. g_eq. }
    destruct (Z.ltb_spec 0 d) as [Hpos|Hpos].
    + apply bind_Ok in Hrun as (? & s3 & [_ Hsame]%addEvent_same & Hrun).
      apply bind_Ok in Hrun as (? & ? & [Hg3 ->]%fail_if_Ok & [= <- <-]).
      pose proof Hsame as (Hst & _). assert (Hfit : u64 (D1 + d)).
      { apply max_guard; [done|u64|done]. }
      rewrite u64_add_small by done. split_and!; [|by destruct F2; split; rewrite Hst|done|lia|nia].
      intros c. eapply posted_eq; [eapply posted_trans; [apply P2|]|].
      * eapply same_books_posted; [apply (P2 c)|done].
      * unfold d_paid. g_eq.
    + injection Hrun as <- <-. assert (d = 0) as -> by lia. rewrite Z.add_0_r in P2.
      split_and!; [done..|lia].
  - split_and!; [|done|u64|done|cbn; change (sum_percents []) with 0; lia].
    intros c. eapply posted_eq; [by apply posted_0|]. done.
Qed.

(** One committee: what its pool holds is paid or burned. *)
Definition settled (data : CommitteeData) : CommitteeData :=
  match cd_PaymentPercents data with [] => data | _ => cleared data end.
Definition drained (data : CommitteeData) (i n : Z) : Z :=
  match cd_PaymentPercents data with [] => n | _ => if i =? cd_ChainId data then 0 else n end.

Lemma distribute_one_spec p data s d s' :
  wf s → (∀ c, 0 <= g_staked (books c (store s))) → u64 (EarlyWithdrawalPenalty p) →
  fair data → valid_chain (cd_ChainId data) → distribute_one p data s = (Ok d, s') →
  (∀ c, valid_chain c → posted c g_zero s s') ∧
  committees_data (store s') = committees_data (store s) ∧
  (∀ i, pool_bal (store s') i = drained data i (pool_bal (store s) i)) ∧ d = settled data.
Proof.
  intros Hw Hg Hpen Hfair Hch. unfold distribute_one, drained, settled.
  destruct (cd_PaymentPercents data) as [|x l] eqn:Hl.
  { intros [= <- <-]. split_and!; [intros; by apply posted_0|done..]. }
  unfold GetPool, getst. set (R := pool_bal (store s) (cd_ChainId data)).
  rewrite (bind_run_Ok _ _ _ (lookup_pool (cd_ChainId data) (store s)) s) by done.
  destruct (lookup_pool_spec (cd_ChainId data) (store s)) as [Hpid Hpam]. rewrite Hpam. fold R.
  pose proof (pool_bal_range s (cd_ChainId data) Hw) as HR. fold R in HR.
  intros Hrun. apply bind_Ok in Hrun as (D & s1 & Hstubs & Hrun).
  apply distribute_stubs_spec in Hstubs as (HP & [Hpools Hdata] & HD); [|done..].
  rewrite u64_sub_small in Hrun by u64.
  apply bind_Ok in Hrun as (? & s2 & Hsub & Hrun).
  apply SubFromTotalSupply_spec in Hsub as [[Hw2 Hsh2 (y & Hs2)] _]; [|apply (HP 0)|u64].
  apply bind_Ok in Hrun as (? & s3 & Hset & [= <- <-]).
  apply SetPool_spec in Hset as [_ HPool]; [|done|cbn; u64]. cbn in HPool. rewrite Hpid in HPool.
  assert (Hb2 : ∀ i, pool_bal (store s2) i = pool_bal (store s) i).
  { intros i. subst s2. unfold pool_bal. cbn. by rewrite Hpools. }
  rewrite Hb2 in HPool. fold R in HPool. destruct HPool as [Hw3 Hsh3 Hb3 (ps & Hs3)].
  split_and!; [| | |done].
  - intros c Hc. split; [done|].
    eapply shift_eq; [eapply shift_trans; [apply (HP c)|eapply shift_trans; [apply Hsh2|apply Hsh3]]|].
    rewrite d_pool_plain by auto. unfold d_paid. g_eq.
  - by rewrite Hs3, Hs2.
  - intros i. rewrite Hb3, Hb2. unfold hit. destruct (Z.eqb_spec i (cd_ChainId data)) as [->|]; unfold R; lia.
Qed.

(** C19. [DistributeCommitteeRewards] never pays out more than a reward pool
    holds: with at most 100 percent allocated per sample, the run that succeeds leaves the books of
    every chain unchanged (what is not paid is burned from the total supply),
    empties the pool of every committee that issued payments, touches no other
    pool, and clears the payments and samples while keeping the heights. *)
Theorem DistributeCommitteeRewards_conserves s p s0 u s' :
  wf s → (∀ c, 0 <= g_staked (books c (store s))) →
  GetParamsVal s = (Ok p, s0) → u64 (EarlyWithdrawalPenalty p) →
  Forall fair (committees_data (store s)) →
  Forall (λ d, valid_chain (cd_ChainId d)) (committees_data (store s)) →
  DistributeCommitteeRewards s = (Ok u, s') →
  wf s' ∧ (∀ c, valid_chain c → books c (store s') = books c (store s)) ∧
  committees_data (store s') = map settled (committees_data (store s)) ∧
  (∀ i, pool_bal (store s') i = foldl (λ n d, drained d i n) (pool_bal (store s) i) (committees_data (store s))).
Proof.
  intros Hw Hg Hp Hpen Hfair Hch. unfold DistributeCommitteeRewards, GetCommitteesData, getst.
  rewrite (bind_run_Ok _ _ _ _ _ Hp). apply GetParamsVal_same in Hp as Hsame.
  pose proof (same_books_wf _ _ Hsame Hw) as Hw0. destruct Hsame as (Hst & _ & _).
  rewrite <- Hst in Hg, Hfair, Hch |- *.
  rewrite (bind_run_Ok _ _ _ (committees_data (store s0)) s0) by done.
  intros Hrun. apply bind_Ok in Hrun as (l & s1 & Hfold & Hrun).
  unfold SetCommitteesData, upd, modify in Hrun. injection Hrun as _ <-.
  set (cds := committees_data (store s0)) in *.
  apply (fold_m_inv (λ dn acc t, (∀ c, valid_chain c → posted c g_zero s0 t) ∧ acc = map settled dn ∧
    (∀ i, pool_bal (store t) i = foldl (λ n d, drained d i n) (pool_bal (store s0) i) dn)))
    in Hfold as (HP & -> & HB).
  - split_and!; [| |done|exact HB].
    + destruct (po_ok _ _ _ _ (HP 1 valid_chain_1)). by constructor.
    + intros c Hc. destruct (HP c Hc) as [_ Hsh]. unfold shift in Hsh. rewrite g_add_0_r in Hsh. done.
  - clear Hfold. intros dn d rest acc t acc' t' Hk (HP & -> & HB) Hrun.
    apply bind_Ok in Hrun as (d' & t1 & Hone & [= <- <-]).
    assert (Hin : d ∈ cds) by (rewrite Hk; set_solver).
    apply distribute_one_spec in Hone as (P & _ & B & ->); [|apply (HP 1), valid_chain_1| |done| |].
    + split_and!; [| |intros i; by rewrite B, HB, foldl_app].
      * intros c Hc. exact (posted_trans _ _ _ _ _ _ (HP c Hc) (P c Hc)).
      * by rewrite map_app.
    + intros c. pose proof (g_staked_posted _ _ _ _ (HP 1 valid_chain_1)) as Hgs. cbn [g_staked g_zero] in Hgs.
      specialize (Hg 1). change (g_staked (books c (store t))) with (g_staked (books 1 (store t))). lia.
    + by apply (proj1 (Forall_forall _ _) Hfair).
    + by apply (proj1 (Forall_forall _ _) Hch).
  - split_and!; [intros; by apply posted_0|done..].
Qed.

(** ** Instances *)

Lemma FundCommitteeRewardPools_mints_witness :
  let s' := snd (FundCommitteeRewardPools demo) in
  Total (supply (store s')) = 1895 ∧
  wf s' ∧ (∀ c, valid_chain c → books c (store s') = books c (store demo)) ∧
  0 <= Total (supply (store s')) - Total (supply (store demo)) <= halved (config demo) (height demo).
Proof.
  intros s'. split; [vm_compute; reflexivity|].
  apply (FundCommitteeRewardPools_mints demo () s'); [apply demo_wf|by unfold valid_chain| | |done..| |run_now].
  - apply Forall_forall. unfold valid_chain. decide_now.
  - intros g [= <-]. decide_now.
  - decide_now.
Defined.

Lemma emission_capped_witness :
  emitted (config demo) 2 = 160 ∧ 0 <= emitted (config demo) 2 <= 2 * 80 * 210000.
Proof. split; [reflexivity|]. apply (emission_capped (config demo) 2); [done|done]. Defined.

Lemma UpsertCommitteeData_monotone_witness :
  let new := MkCommitteeData 1 3 5 [MkPaymentPercents bob 90 1] 0 in
  let s' := snd (UpsertCommitteeData new demo) in
  ∃ old d, fst (GetCommitteeData 1 demo) = Ok old ∧ fst (GetCommitteeData 1 s') = Ok d ∧
    LastChainHeightUpdated old < LastChainHeightUpdated d ∧ NumberOfSamples d = NumberOfSamples old + 1.
Proof.
  intros new s'.
  destruct (UpsertCommitteeData_monotone new demo () s') as (old & d & H1 & H2 & H3 & _ & H4 & _).
  - apply Forall_singleton. split; cbn; decide_now.
  - apply Forall_singleton. decide_now.
  - decide_now.
  - run_now.
  - exists old, d. split_and!; [exact H1|exact H2|exact H3|exact H4].
Defined.

Lemma DistributeCommitteeRewards_conserves_witness :
  let s' := snd (DistributeCommitteeRewards demo) in
  Total (supply (store s')) = 1806 ∧ acc_bal (store s') bob = 533 ∧
  wf s' ∧ (∀ c, valid_chain c → books c (store s') = books c (store demo)).
Proof.
  intros s'. do 2 (split; [vm_compute; reflexivity|]).
  destruct (DistributeCommitteeRewards_conserves demo demo_val (snd (GetParamsVal demo)) () s')
    as (Hw & HB & _); [apply demo_wf| |reflexivity|decide_now| | |run_now|split; [exact Hw|exact HB]].
  - intros c. change (g_staked (books c (store demo))) with (g_staked (books 1 demo_store)).
    rewrite demo_books. done.
  - apply Forall_singleton. split; cbn; decide_now.
  - apply Forall_singleton. unfold valid_chain. decide_now.
Defined.
