(* ===== verification/Byzantine.v ===== *)
(** * Byzantine actors: non-signers, double signers and slashing ([fsm/byzantine.go]) *)
From S2P Require Import Prelude LibUtil State Ledger Params Fixtures Crypto Account Validator.

(** ** The slash tracker *)

(** [GetTotalSlashPercent]; a missing entry reads as 0. *)
Definition GetTotalSlashPercent (t : gmap bytes (gmap Z Z)) (address : bytes) (chainId : Z) : Z :=
  default 0 (default ∅ (t !! address) !! chainId).
Definition AddSlash (t : gmap bytes (gmap Z Z)) (address : bytes) (chainId percent : Z) : gmap bytes (gmap Z Z) :=
  <[address := <[chainId := u64_add (GetTotalSlashPercent t address chainId) percent]>
     (default ∅ (t !! address))]> t.

(** ** Slashing *)

(** The loop that removes the first occurrence of the slashing chain. *)
Fixpoint remove_first (chainId : Z) (l : list Z) : list Z :=
  match l with
  | [] => []
  | id :: l' => if id =? chainId then l' else id :: remove_first chainId l'
  end.

Definition stake_after_slash (stakedAmount percent : Z) : Z :=
  if (100 <=? percent) || (stakedAmount =? 0) then 0
  else if percent =? 0 then stakedAmount
  else SafeMulDiv stakedAmount (u64_sub 100 percent) 100.

(** Everything after the committee scoped limit has fixed the percent. *)
Definition apply_slash (validator : Validator) (newCommittees : list Z) (percent : Z) (p : ValidatorParams) : F unit :=
  let stakeAfterSlash := stake_after_slash (StakedAmount validator) percent in
  let slashAmount := u64_sub (StakedAmount validator) stakeAfterSlash in
  SubFromTotalSupply slashAmount;;
  if stakeAfterSlash =? 0 then
    addEvent (EventSlash (val_Address validator) slashAmount);;
    DeleteValidator validator
  else
    SubFromStakedSupply slashAmount;;
    UpdateCommittees (val_Address validator) validator stakeAfterSlash newCommittees;;
    let validator := set_StakedAmount stakeAfterSlash (set_Committees newCommittees validator) in
    isSet ← SetValidatorUnstakingIfBelowMinimum validator p;
    if isSet : bool then mret ()
    else
      SetValidator validator;;
      addEvent (EventSlash (val_Address validator) slashAmount).

Definition SlashValidator (validator : Validator) (chainId percent : Z) (p : ValidatorParams) : F unit :=
  committeeScoped ← IsFeatureEnabled 2;
  if committeeScoped : bool then
    if negb (bool_decide (chainId ∈ Committees validator)) then mret () else
    tracker ← gets slashTracker;
    let slashTotal := GetTotalSlashPercent tracker (val_Address validator) chainId in
    if MaxSlashPerCommittee p <=? slashTotal then mret () else
    let '(percent, newCommittees) :=
      if MaxSlashPerCommittee p <=? u64_add slashTotal percent
      then (u64_sub (MaxSlashPerCommittee p) slashTotal, remove_first chainId (Committees validator))
      else (percent, Committees validator) in
    modify (λ s, set_slashTracker (AddSlash (slashTracker s) (val_Address validator) chainId percent) s);;
    apply_slash validator newCommittees percent p
  else apply_slash validator (Committees validator) percent p.

Definition SlashValidators (addresses : list bytes) (chainId percent : Z) (p : ValidatorParams) : F unit :=
  for_each addresses (λ addr,
    r ← try (GetValidator addr);
    match r with
    | Err _ => mret ()
    | Ok validator => SlashValidator validator chainId percent p
    end).

Definition SlashNonSigners (chainId : Z) (params : ValidatorParams) (nonSignerAddrs : list bytes) : F unit :=
  SlashValidators nonSignerAddrs chainId (NonSignSlashPercentage params) params.
Definition SlashDoubleSigners (chainId : Z) (params : ValidatorParams) (doubleSignerAddrs : list bytes) : F unit :=
  SlashValidators doubleSignerAddrs chainId (DoubleSignSlashPercentage params) params.

(** ** Non-signers *)

Fixpoint incrementNonSignerChainCounter (chainId : Z) (l : list (Z * Z)) : list (Z * Z) :=
  match l with
  | [] => [(chainId, 1)]
  | c :: l' =>
      if fst c =? chainId then (fst c, u64_add (snd c) 1) :: l'
      else c :: incrementNonSignerChainCounter chainId l'
  end.
Fixpoint nonSignerCounterForChain (chainId : Z) (l : list (Z * Z)) : Z :=
  match l with
  | [] => 0
  | c :: l' => if fst c =? chainId then snd c else nonSignerCounterForChain chainId l'
  end.

Definition lookup_non_signer (st : Store) (a : bytes) : NonSigner :=
  default (MkNonSigner 0 []) (non_signers st !! a).

Definition bump (trackByChain : bool) (chainId : Z) (ptr : NonSigner) : NonSigner :=
  MkNonSigner (u64_add (ns_Counter ptr) 1)
    (if trackByChain then incrementNonSignerChainCounter chainId (ChainCounters ptr) else ChainCounters ptr).

Definition IncrementNonSigners `{Crypto} (chainId : Z) (nonSignerPubKeys : list bytes) : F unit :=
  trackByChain ← IsFeatureEnabled 2;
  for_each nonSignerPubKeys (λ ns,
    match pubKeyAddress ns with
    | None => throw ErrPubKeyFromBytes
    | Some address =>
        ptr ← getst (λ st, lookup_non_signer st address);
        upd (λ st, set_non_signers (<[address := bump trackByChain chainId ptr]> (non_signers st)) st)
    end).

(** [count > params.MaxNonSign], with the counter the protocol version selects. *)
Definition non_sign_count (committeeScoped : bool) (chainId : Z) (ptr : NonSigner) : Z :=
  if committeeScoped && negb (match ChainCounters ptr with [] => true | _ => false end)
  then nonSignerCounterForChain chainId (ChainCounters ptr) else ns_Counter ptr.

Definition non_signer_list (st : Store) : list (bytes * NonSigner) :=
  sorted_by (λ a b, bytes_le (fst a) (fst b)) (map_to_list (non_signers st)).

Definition SlashAndResetNonSigners (chainId : Z) (params : ValidatorParams) : F unit :=
  committeeScoped ← IsFeatureEnabled 2;
  entries ← getst non_signer_list;
  let slashList := map fst (filter (λ e, MaxNonSign params < non_sign_count committeeScoped chainId (snd e)) entries) in
  SetValidatorsPaused chainId slashList;;
  SlashNonSigners chainId params slashList;;
  upd (λ st, set_non_signers (filter (λ e, e.1 ∉ map fst entries) (non_signers st)) st).

(** ** Double signers *)

Record DoubleSigner : Type := MkDoubleSigner { ds_Id : bytes; Heights : list Z }.

Definition index_double_signer (address : bytes) (h : Z) : F unit :=
  seen ← getst (λ st, bool_decide ((address, h) ∈ double_signers st));
  fail_if seen ErrInvalidDoubleSigner;;
  upd (λ st, set_double_signers ({[(address, h)]} ∪ double_signers st) st).

Definition HandleDoubleSigners `{Crypto} (chainId : Z) (params : ValidatorParams)
    (doubleSigners : list DoubleSigner) : F unit :=
  slashList ← fold_m (λ slashList ds,
    match ds_Id ds with
    | [] => throw ErrEmptyDoubleSigner
    | _ =>
        match Heights ds with
        | [] => throw ErrInvalidDoubleSignHeights
        | heights =>
            match pubKeyAddress (ds_Id ds) with
            | None => throw ErrPubKeyFromBytes
            | Some address =>
                for_each heights (index_double_signer address);;
                mret (slashList ++ map (λ _, address) heights)
            end
        end
    end) [] doubleSigners;
  SlashDoubleSigners chainId params slashList.

(** [HandleByzantine]: [nonSigners] is what [qc.GetNonSigners] returns and
    [doubleSigners] the slash recipients of the certificate, if any. *)
Definition HandleByzantine `{Crypto} (chainId : Z) (nonSigners : result ErrorI (list bytes * Z))
    (doubleSigners : option (list DoubleSigner)) : F Z :=
  params ← GetParamsVal;
  h ← Height;
  fail_if (NonSignWindow params =? 0) ErrPanic;;
  (if h mod NonSignWindow params =? 0 then SlashAndResetNonSigners chainId params else mret ());;
  match nonSigners with
  | Err e => throw e
  | Ok (nonSignerPubKeys, nonSignerPercent) =>
      IncrementNonSigners chainId nonSignerPubKeys;;
      match doubleSigners with
      | None => mret nonSignerPercent
      | Some l => HandleDoubleSigners chainId params l;; mret nonSignerPercent
      end
  end.

(** ** Lemmas: one slash *)

Lemma stake_after_slash_range S p :
  u64 S → u64 p →
  0 <= stake_after_slash S p <= S ∧
  stake_after_slash S p = if 100 <=? p then 0 else S * (100 - p) / 100.
Proof.
  intros HS Hp. unfold stake_after_slash. destruct (Z.leb_spec 100 p); cbn [orb]; [u64|].
  destruct (Z.eqb_spec S 0) as [->|]; [done|].
  assert (Hd : 0 <= S * (100 - p) / 100 <= S).
  { split; [apply Z.div_pos; u64|]. apply Z.div_le_upper_bound; u64. }
  destruct (Z.eqb_spec p 0) as [->|].
  - rewrite Z.sub_0_r, Z.div_mul by done. u64.
  - rewrite u64_sub_small by u64. rewrite SafeMulDiv_exact by u64. done.
Qed.

(** What a slash posts: nothing for a validator; a delegate that keeps some
    stake stays in the delegated counters with its old stake. *)
Definition d_slash (c : Z) (v : Validator) (newCommittees : list Z) (after : Z) : gaps :=
  if (after =? 0) || negb (Delegate v) then g_zero
  else Gaps 0 0 (StakedAmount v - after) 0
         (times c (Committees v) * StakedAmount v - times c newCommittees * after) 0 0.

Lemma write_replaces c a v w un pa s :
  wf s → validators (store s) !! a = Some v → val_Address w = a → u64 (StakedAmount w) →
  posted c (d_replace c (Some v) w) s (write_validator a w un pa s).
Proof.
  intros Hs Hv <- Hu. destruct (SetValidator w s) as [r s'] eqn:Hrun.
  apply (SetValidator_spec c) in Hrun as (_ & [[H1 H2 H3 H4 H5] Hp] & ->); [|done..].
  rewrite Hv in Hp. split; [by constructor|]. exact Hp.
Qed.

Lemma below_minimum_cases v p s :
  SetValidatorUnstakingIfBelowMinimum v p s = (Ok false, s) ∨
  UnstakingHeight v = 0 ∧ ∃ h, SetValidatorUnstakingIfBelowMinimum v p s = (Ok true,
    write_validator (val_Address v) (set_UnstakingHeight h (set_MaxPausedHeight 0 v))
      ({[(h, val_Address v)]} ∪ unstaking (store s))
      (if MaxPausedHeight v =? 0 then paused (store s)
       else paused (store s) ∖ {[(MaxPausedHeight v, val_Address v)]}) s).
Proof.
  unfold SetValidatorUnstakingIfBelowMinimum.
  destruct (Z.eqb_spec (UnstakingHeight v) 0) as [Hu|]; cbn [negb]; [|by left].
  assert (Hunst : ∀ n, ∃ h,
    (h ← Height; _ ← SetValidatorUnstaking (val_Address v) v (u64_add h n); mret true) s = (Ok true,
      write_validator (val_Address v) (set_UnstakingHeight h (set_MaxPausedHeight 0 v))
      ({[(h, val_Address v)]} ∪ unstaking (store s))
      (if MaxPausedHeight v =? 0 then paused (store s)
       else paused (store s) ∖ {[(MaxPausedHeight v, val_Address v)]}) s)).
  { intros n. eexists. runs. by rewrite SetValidatorUnstaking_run. }
  destruct (Delegate v), (_ <? _); cbn iota beta zeta; auto.
Qed.

(** The validator a slash leaves behind. *)
Definition slashed_to (v : Validator) (newCommittees : list Z) (after : Z) (w : Validator) : Prop :=
  same_stake (set_StakedAmount after (set_Committees newCommittees v)) w ∧
  (UnstakingHeight v ≠ 0 → UnstakingHeight w = UnstakingHeight v).

Record slashed (v : Validator) (C' : list Z) (after : Z) (s s' : FSM) : Prop := {
  sl_posted : ∀ c, posted c (d_slash c v C' after) s s';
  sl_tracker : slashTracker s' = slashTracker s;
  sl_height : height s' = height s;
  sl_store : if after =? 0 then validators (store s') = delete (val_Address v) (validators (store s))
    else ∃ w, slashed_to v C' after w ∧ validators (store s') = <[val_Address v := w]> (validators (store s));
  sl_cycle : lifecycle s → lifecycle s';
  sl_double : double_signers (store s') = double_signers (store s);
}.

(** The slash up to the validator record itself. *)
Lemma slash_supply v C' after s s1 u1 u2 u3 s2 s3 c :
  wf s → validators (store s) !! val_Address v = Some v → 0 <= after <= StakedAmount v →
  SubFromTotalSupply (StakedAmount v - after) s = (Ok u1, s1) →
  SubFromStakedSupply (StakedAmount v - after) s1 = (Ok u2, s2) →
  UpdateCommittees (val_Address v) v after C' s2 = (Ok u3, s3) →
  posted c (Gaps (after - StakedAmount v) (after - StakedAmount v) 0
    (times c C' * after - times c (Committees v) * StakedAmount v) 0 0 0) s s3 ∧
  only_supply_idx s s3.
Proof.
  intros Hw Hv Ha H1 H2 H3. destruct (wf_validators s Hw _ _ Hv) as [_ Hu].
  apply SubFromTotalSupply_spec in H1 as [T1 _]; [|done|u64].
  apply (tracked_step c) in T1 as [P1 O1].
  apply SubFromStakedSupply_spec in H2 as T2; [|apply P1|u64].
  apply (tracked_step c) in T2 as [P2 O2].
  unfold UpdateCommittees in H3. apply bind_Ok in H3 as (u & s4 & H3 & H4).
  apply (DeleteCommittees_spec c) in H3 as [P3 O3]; [|apply P2|done].
  apply (SetCommittees_spec c) in H4 as [P4 O4]; [|apply P3|u64].
  split; [|eauto using only_supply_idx_trans].
  eapply posted_eq; [eapply posted_trans; [exact P1|eapply posted_trans; [exact P2
    |eapply posted_trans; [exact P3|exact P4]]]|].
  unfold d_committees. g_eq.
Qed.

Lemma d_slash_posts c v C' after w :
  slashed_to v C' after w → after ≠ 0 →
  g_add (Gaps (after - StakedAmount v) (after - StakedAmount v) 0
    (times c C' * after - times c (Committees v) * StakedAmount v) 0 0 0)
    (d_replace c (Some v) w) = d_slash c v C' after.
Proof.
  intros ((_ & Hs & Hc & Hd) & _) Ha. cbn in Hs, Hc, Hd. apply Z.eqb_neq in Ha.
  unfold d_slash. rewrite Ha. unfold d_replace, d_validator, comm_stake, commdel_stake, deleg_stake.
  rewrite Hs, Hc, Hd. destruct (Delegate v); cbn; g_eq.
Qed.

Lemma slashed_write v C' after s t w un pa :
  wf s → validators (store s) !! val_Address v = Some v → u64 after → after ≠ 0 →
  (∀ c, posted c (Gaps (after - StakedAmount v) (after - StakedAmount v) 0
    (times c C' * after - times c (Committees v) * StakedAmount v) 0 0 0) s t ∧
    only_supply_idx s t) →
  slashed_to v C' after w →
  (lifecycle t → lifecycle (write_validator (val_Address v) w un pa t)) →
  slashed v C' after s (write_validator (val_Address v) w un pa t).
Proof.
  intros Hw Hv Hu Ha HP Hs HL.
  destruct (HP 0) as [_ (x & ci & di & Ht)].
  assert (Hvt : validators (store t) !! val_Address v = Some v) by by rewrite Ht.
  pose proof Hs as ((Haddr & Hst & _) & _). cbn in Haddr, Hst.
  split.
  - intros c. destruct (HP c) as [P _].
    rewrite <- (d_slash_posts c v C' after w) by done.
    eapply posted_trans; [exact P|]. apply write_replaces; [apply P|done|done|by rewrite Hst].
  - by rewrite Ht.
  - by rewrite Ht.
  - apply Z.eqb_neq in Ha. rewrite Ha. exists w. split; [done|]. by rewrite Ht.
  - intros HLs. apply HL. by rewrite Ht.
  - by rewrite Ht.
Qed.

Lemma slashed_event v C' after s s' e r s'' :
  slashed v C' after s s' → addEvent e s' = (r, s'') → slashed v C' after s s''.
Proof.
  intros [HP HT HH HV HL HD] [= _ <-]. split; [|done..].
  intros c. destruct (HP c) as [Hw Hsh]. split; [by destruct Hw|done].
Qed.

Lemma queued_keep v w s t :
  lifecycle s → validators (store s) !! val_Address v = Some v → store t = store s →
  UnstakingHeight w = UnstakingHeight v → MaxPausedHeight w = MaxPausedHeight v →
  lifecycle (write_validator (val_Address v) w (unstaking (store t)) (paused (store t)) t).
Proof.
  intros HL Hv Ht Hu Hm. apply write_lifecycle; [unfold lifecycle; by rewrite Ht|set_solver|set_solver|].
  destruct (HL _ _ Hv) as [H1 H2]. split; cbn; rewrite Ht, ?Hu, ?Hm; [exact H1|exact H2].
Qed.

(** [SlashValidator] after the percent is fixed: the stake becomes its floor
    share, the difference leaves the total and staked supply, and a stake of
    zero removes the validator. *)
Lemma apply_slash_spec v C' percent p s u s' :
  wf s → validators (store s) !! val_Address v = Some v → u64 percent →
  apply_slash v C' percent p s = (Ok u, s') →
  slashed v C' (stake_after_slash (StakedAmount v) percent) s s'.
Proof.
  intros Hw Hv Hp. destruct (wf_validators s Hw _ _ Hv) as [_ Hu].
  destruct (stake_after_slash_range _ _ Hu Hp) as [Ha _]. unfold apply_slash.
  set (after := stake_after_slash (StakedAmount v) percent) in *. cbv zeta.
  rewrite u64_sub_small by u64. intros Hrun.
  apply bind_Ok in Hrun as (u1 & s1 & H1 & Hrun).
  destruct (Z.eqb_spec after 0) as [H0|H0].
  - apply SubFromTotalSupply_spec in H1 as [T1 _]; [|done|u64].
    destruct T1 as [Hw1 Hsh1 (x & Hs1)].
    apply bind_Ok in Hrun as (u2 & s2 & Hev & Hrun). injection Hev as _ <-.
    set (s2 := set_events _ s1) in *.
    assert (P2 : ∀ c, posted c (d_total (- (StakedAmount v - after))) s s2).
    { intros c. split; [by destruct Hw1|apply Hsh1]. }
    assert (Hv2 : validators (store s2) !! val_Address v = Some v) by (unfold s2; by rewrite Hs1).
    pose proof (λ c, DeleteValidator_spec c v s2 u s' (po_ok _ _ _ _ (P2 c)) Hv2 Hrun) as HD.
    destruct (HD 0) as (_ & y & ci & di & Hs'). apply Z.eqb_eq in H0 as H0'. split; rewrite ?H0'.
    + intros c. destruct (HD c) as [P3 _]. unfold d_slash. rewrite H0'.
      eapply posted_eq; [eapply posted_trans; [exact (P2 c)|exact P3]|]. cbn. g_eq.
    + rewrite Hs'. unfold s2. by rewrite Hs1.
    + rewrite Hs'. unfold s2. by rewrite Hs1.
    + rewrite Hs'. unfold s2. by rewrite Hs1.
    + intros HL b w. rewrite Hs'. unfold s2. rewrite Hs1. cbn. intros [_ Hb]%lookup_delete_Some.
      exact (HL b w Hb).
    + rewrite Hs'. unfold s2. by rewrite Hs1.
  - apply bind_Ok in Hrun as (u2 & s2 & H2 & Hrun). apply bind_Ok in Hrun as (u3 & s3 & H3 & Hrun).
    pose proof (λ c, slash_supply v C' after s s1 u1 u2 u3 s2 s3 c Hw Hv Ha H1 H2 H3) as HP.
    set (v' := set_StakedAmount after (set_Committees C' v)) in *.
    destruct (HP 0) as [P0 (x & ci & di & Hs3)].
    destruct (below_minimum_cases v' p s3) as [E|(Hz & h & E)]; rewrite (bind_run_Ok _ _ _ _ _ E) in Hrun;
      cbv iota in Hrun.
    + apply bind_Ok in Hrun as (u4 & s4 & H4 & H5). eapply slashed_event; [|exact H5].
      assert (H4' : s4 = write_validator (val_Address v) v' (unstaking (store s3)) (paused (store s3)) s3).
      { unfold SetValidator, upd, modify in H4. injection H4 as _ <-. by destruct s3 as [[]]. }
      subst s4. apply slashed_write; [done|done|u64|done|exact HP|done|].
      intros HL. eapply (queued_keep v v' s3); [done|by rewrite Hs3|done..].
    + injection Hrun as _ <-. change (val_Address v') with (val_Address v).
      change (MaxPausedHeight v') with (MaxPausedHeight v).
      apply slashed_write; [done|done|u64|done|exact HP| |].
      * split; [done|]. intros Hn. done.
      * intros HL. apply write_lifecycle; [done|set_solver| |].
        -- intros k Hk Hne. destruct (_ =? 0); set_solver.
        -- split; cbn; [set_solver|done].
Qed.

(** ** Lemmas: the limit per committee and block *)

(** No committee has slashed a validator by more than its maximum in this block. *)
Definition tracker_within (p : ValidatorParams) (s : FSM) : Prop :=
  ∀ a ch, 0 <= GetTotalSlashPercent (slashTracker s) a ch <= MaxSlashPerCommittee p.

Lemma AddSlash_total t a ch n b ch' :
  GetTotalSlashPercent (AddSlash t a ch n) b ch' =
  if decide (b = a ∧ ch' = ch) then u64_add (GetTotalSlashPercent t a ch) n
  else GetTotalSlashPercent t b ch'.
Proof.
  unfold AddSlash. unfold GetTotalSlashPercent at 1. destruct (decide (b = a)) as [->|Hb].
  - rewrite lookup_insert_eq. cbn [default from_option id]. destruct (decide (ch' = ch)) as [->|Hc].
    + by rewrite lookup_insert_eq, decide_True.
    + rewrite lookup_insert_ne, decide_False by naive_solver. done.
  - rewrite lookup_insert_ne, decide_False by naive_solver. done.
Qed.

(** What [SlashValidator] decides before touching the stake. *)
Inductive slash_plan (v : Validator) (ch percent : Z) (p : ValidatorParams) (s : FSM) :
    option (Z * list Z * FSM) → Prop :=
| plan_v1 : feature_enabled 2 s = false → slash_plan v ch percent p s (Some (percent, Committees v, s))
| plan_not_member : feature_enabled 2 s = true → ch ∉ Committees v → slash_plan v ch percent p s None
| plan_exhausted : feature_enabled 2 s = true →
    MaxSlashPerCommittee p <= GetTotalSlashPercent (slashTracker s) (val_Address v) ch →
    slash_plan v ch percent p s None
| plan_below : feature_enabled 2 s = true → ch ∈ Committees v →
    GetTotalSlashPercent (slashTracker s) (val_Address v) ch + percent < MaxSlashPerCommittee p →
    slash_plan v ch percent p s (Some (percent, Committees v,
      set_slashTracker (AddSlash (slashTracker s) (val_Address v) ch percent) s))
| plan_eject n : feature_enabled 2 s = true → ch ∈ Committees v →
    n = MaxSlashPerCommittee p - GetTotalSlashPercent (slashTracker s) (val_Address v) ch → 0 < n <= percent →
    slash_plan v ch percent p s (Some (n, remove_first ch (Committees v),
      set_slashTracker (AddSlash (slashTracker s) (val_Address v) ch n) s)).

Lemma SlashValidator_plan v ch percent p s :
  0 <= percent <= 100 → 0 <= MaxSlashPerCommittee p <= 100 → tracker_within p s →
  ∃ o, slash_plan v ch percent p s o ∧
    SlashValidator v ch percent p s =
      match o with
      | None => (Ok (), s)
      | Some (n, C', t) => apply_slash v C' n p t
      end.
Proof.
  intros Hp HM HT. specialize (HT (val_Address v) ch). unfold SlashValidator, IsFeatureEnabled.
  rewrite (bind_run_Ok _ _ _ (feature_enabled 2 s) s) by done.
  destruct (feature_enabled 2 s) eqn:HF; [|eexists; split; [by apply plan_v1|done]].
  case_bool_decide as Hin; cbn [negb]; [|exists None; split; [by apply plan_not_member|done]].
  rewrite (bind_run_Ok _ _ _ (slashTracker s) s) by done.
  destruct (Z.leb_spec (MaxSlashPerCommittee p) (GetTotalSlashPercent (slashTracker s) (val_Address v) ch)) as [Hle|Hlt].
  { exists None. split; [by apply plan_exhausted|done]. }
  rewrite u64_add_small by u64. cbv zeta.
  destruct (Z.leb_spec (MaxSlashPerCommittee p) (GetTotalSlashPercent (slashTracker s) (val_Address v) ch + percent)).
  - rewrite u64_sub_small by u64. eexists. split; [eapply plan_eject; [done..|lia]|]. done.
  - eexists. split; [by apply plan_below|]. done.
Qed.

(** The plan keeps the limit. *)
Lemma plan_within v ch percent p s n C' t :
  0 <= percent <= 100 → 0 <= MaxSlashPerCommittee p <= 100 → tracker_within p s →
  slash_plan v ch percent p s (Some (n, C', t)) →
  tracker_within p t ∧ 0 <= n <= percent ∧ store t = store s ∧ height t = height s ∧
  cache_accounts t = cache_accounts s.
Proof.
  intros Hp HM HT Hplan. remember (Some (n, C', t)) as o eqn:Ho.
  pose proof (HT (val_Address v) ch) as Hv.
  destruct Hplan; inv Ho; (split_and!; [|lia|lia|done..]); [done|..];
    intros b ch'; cbn; rewrite AddSlash_total; case_decide; try apply HT; rewrite u64_add_small by u64; lia.
Qed.

Lemma SlashValidator_spec v ch percent p s u s' :
  wf s → validators (store s) !! val_Address v = Some v →
  0 <= percent <= 100 → 0 <= MaxSlashPerCommittee p <= 100 → tracker_within p s →
  SlashValidator v ch percent p s = (Ok u, s') →
  s' = s ∨ ∃ n C' t, slash_plan v ch percent p s (Some (n, C', t)) ∧ 0 <= n <= percent ∧
    store t = store s ∧ wf t ∧ height t = height s ∧ tracker_within p s' ∧
    slashed v C' (stake_after_slash (StakedAmount v) n) t s'.
Proof.
  intros Hw Hv Hp HM HT Hrun.
  destruct (SlashValidator_plan v ch percent p s Hp HM HT) as (o & Hplan & E). rewrite E in Hrun.
  destruct o as [[[n C'] t]|]; [|injection Hrun as _ <-; by left]. right. exists n, C', t.
  destruct (plan_within _ _ _ _ _ _ _ _ Hp HM HT Hplan) as (HTt & Hn & Hst & Hh & Hc).
  assert (Hwt : wf t) by (eapply same_books_wf; [|exact Hw]; done).
  apply apply_slash_spec in Hrun as HS; [|done|by rewrite Hst|u64].
  split_and!; try done; [lia..|]. unfold tracker_within. by rewrite (sl_tracker _ _ _ _ _ HS).
Qed.

(** ** Lemmas: slashing a list *)

Definition books_but_delegations (c : Z) (st st' : Store) : Prop :=
  g_total (books c st') = g_total (books c st) ∧ g_staked (books c st') = g_staked (books c st) ∧
  g_comm (books c st') = g_comm (books c st) ∧ g_escrow (books c st') = g_escrow (books c st) ∧
  g_holding (books c st') = g_holding (books c st).

Record slash_step (p : ValidatorParams) (s s' : FSM) : Prop := {
  ss_wf : wf s';
  ss_cycle : lifecycle s';
  ss_tracker : tracker_within p s';
  ss_height : height s' = height s;
  ss_double : double_signers (store s') = double_signers (store s);
  ss_books : ∀ c, books_but_delegations c (store s) (store s');
  ss_stakes : ∀ a w, validators (store s') !! a = Some w →
    ∃ v, validators (store s) !! a = Some v ∧ StakedAmount w <= StakedAmount v ∧ Delegate w = Delegate v;
  ss_validators : (∀ a v, validators (store s) !! a = Some v → Delegate v = false) →
    ∀ c, books c (store s') = books c (store s);
}.
Lemma slash_step_refl p s : wf s → lifecycle s → tracker_within p s → slash_step p s s.
Proof. intros. split; try done. intros a w Hw. exists w. split_and!; [done|lia|done]. Qed.
Lemma slash_step_trans p s1 s2 s3 : slash_step p s1 s2 → slash_step p s2 s3 → slash_step p s1 s3.
Proof.
  intros [W1 C1 T1 H1 D1 B1 S1 V1] [W2 C2 T2 H2 D2 B2 S2 V2]. split; [done..|congruence|congruence| | |].
  - intros c. destruct (B1 c) as (?&?&?&?&?), (B2 c) as (?&?&?&?&?). split_and!; congruence.
  - intros a x (w & Hw & Hle & Hd)%S2. destruct (S1 a w Hw) as (v & Hv & Hle' & Hd').
    exists v. split_and!; [done|lia|congruence].
  - intros Hv c. rewrite V2; [by apply V1|].
    intros a w (v & Hav & _ & ->)%S1. by apply (Hv a).
Qed.

Lemma slashed_step p v C' n s t s' :
  wf t → lifecycle s → tracker_within p s' → store t = store s → height t = height s →
  validators (store s) !! val_Address v = Some v → u64 n →
  slashed v C' (stake_after_slash (StakedAmount v) n) t s' → slash_step p s s'.
Proof.
  intros Hw HL HT Hst Hh Hv Hn [HP _ HH HV HC HDS].
  destruct (wf_validators t Hw (val_Address v) v) as [_ Hu]; [by rewrite Hst|].
  destruct (stake_after_slash_range _ _ Hu Hn) as [Ha _].
  split; [apply (HP 0)|apply HC; unfold lifecycle; by rewrite Hst|done|congruence|congruence| | |].
  - intros c. destruct (HP c) as [_ Hsh]. unfold shift in Hsh. rewrite Hst in Hsh. unfold books_but_delegations.
    rewrite Hsh. unfold d_slash. destruct (_ || _); cbn [g_add g_zero g_total g_staked g_comm g_escrow g_holding];
      split_and!; lia.
  - intros a w Hw'. destruct (stake_after_slash (StakedAmount v) n =? 0).
    + rewrite HV, Hst in Hw'. apply lookup_delete_Some in Hw' as [_ Hw'].
      exists w. split_and!; [done|lia|done].
    + destruct HV as (x & ((_ & Hx & _ & Hd) & _) & HV). rewrite HV, Hst in Hw'. cbn in Hx, Hd.
      apply lookup_insert_Some in Hw' as [[<- <-]|[_ Hw']].
      * exists v. split_and!; [done|lia|done].
      * exists w. split_and!; [done|lia|done].
  - intros Hno c. destruct (HP c) as [_ Hsh]. unfold shift in Hsh. rewrite Hst in Hsh. rewrite Hsh.
    unfold d_slash. rewrite (Hno _ _ Hv), orb_true_r. by rewrite g_add_0_r.
Qed.

Lemma SlashValidators_step l ch percent p s u s' :
  wf s → lifecycle s → tracker_within p s →
  0 <= percent <= 100 → 0 <= MaxSlashPerCommittee p <= 100 →
  SlashValidators l ch percent p s = (Ok u, s') → slash_step p s s'.
Proof.
  intros Hw HL HT Hp HM. apply (for_each_inv (slash_step p s)).
  - intros x s1 s1' u' _ HS Hrun. eapply slash_step_trans; [exact HS|].
    destruct HS as [W C T _ _ _ _ _].
    rewrite (bind_run_Ok _ _ _ _ _ (try_run _ _)), GetValidator_run in Hrun by done. cbn [fst snd] in Hrun.
    destruct (validators (store s1) !! x) as [v|] eqn:Hv.
    2:{ injection Hrun as _ <-. by apply slash_step_refl. }
    destruct (wf_validators s1 W _ _ Hv) as [<- _].
    apply SlashValidator_spec in Hrun as [->|(n & C' & t & _ & Hn & Hst & Wt & Ht & HT' & HS)]; [| |done..].
    + by apply slash_step_refl.
    + apply (slashed_step p v C' n s1 t); [exact Wt|done|done|done|done|exact Hv|u64|exact HS].
  - by apply slash_step_refl.
Qed.

(** ** Slashing is bounded and conserves the books *)


(** With committee scoped slashing (protocol version 2) a member that the
    committee has already slashed by [t] percent in this block loses
    [min percent (MaxSlashPerCommittee - t)] percent, rounded so that the
    validator keeps the floor of its share; on reaching the limit it is ejected
    from the committee, and a stake of zero removes the validator. *)
Theorem SlashValidator_exact v ch percent p s u s' :
  wf s → validators (store s) !! val_Address v = Some v →
  0 <= percent <= 100 → 0 <= MaxSlashPerCommittee p <= 100 → tracker_within p s →
  feature_enabled 2 s = true → ch ∈ Committees v →
  let t := GetTotalSlashPercent (slashTracker s) (val_Address v) ch in
  t < MaxSlashPerCommittee p →
  SlashValidator v ch percent p s = (Ok u, s') →
  let n := Z.min percent (MaxSlashPerCommittee p - t) in
  let after := StakedAmount v * (100 - n) / 100 in
  GetTotalSlashPercent (slashTracker s') (val_Address v) ch = t + n ∧
  match validators (store s') !! val_Address v with
  | None => after = 0
  | Some w => StakedAmount w = after ∧
      Committees w = (if MaxSlashPerCommittee p <=? t + percent then remove_first ch (Committees v)
                      else Committees v)
  end.
Proof.
  intros Hw Hv Hp HM HT HF Hin t Ht Hrun n after. pose proof (HT (val_Address v) ch) as Htv. fold t in Htv.
  destruct (SlashValidator_plan v ch percent p s Hp HM HT) as (o & Hplan & E). rewrite E in Hrun.
  assert (Ho : o = Some (n, (if MaxSlashPerCommittee p <=? t + percent then remove_first ch (Committees v) else Committees v),
    set_slashTracker (AddSlash (slashTracker s) (val_Address v) ch n) s)).
  { destruct Hplan as [|?|? ?|? ? Hlt|m ? ? -> Hm]; try done; try congruence.
    - lia.
    - fold t in Hlt. assert (n = percent) as -> by lia. destruct (Z.leb_spec (MaxSlashPerCommittee p) (t + percent)); [lia|done].
    - fold t in Hm |- *. assert (n = MaxSlashPerCommittee p - t) as -> by lia.
      destruct (Z.leb_spec (MaxSlashPerCommittee p) (t + percent)); [done|lia]. }
  subst o. destruct (wf_validators s Hw _ _ Hv) as [_ Hu].
  apply apply_slash_spec in Hrun as [_ HTr _ HV _ _]; [|by eapply same_books_wf; [|exact Hw]|done|u64].
  destruct (stake_after_slash_range (StakedAmount v) n Hu ltac:(u64)) as [Ha Heq].
  assert (Hafter : stake_after_slash (StakedAmount v) n = after).
  { rewrite Heq. destruct (Z.leb_spec 100 n); [|done]. unfold after. assert (n = 100) as -> by lia. by rewrite Z.mul_0_r. }
  rewrite Hafter in HV. split.
  - rewrite HTr. cbn. rewrite AddSlash_total, decide_True by done. fold t. rewrite u64_add_small by u64. done.
  - destruct (Z.eqb_spec after 0) as [H0|H0].
    + rewrite HV. cbn. by rewrite lookup_delete_eq.
    + destruct HV as (w & ((_ & Hs & Hc & _) & _) & HV). rewrite HV. cbn in Hs, Hc |- *. by rewrite lookup_insert_eq.
Qed.

(** A delegate that survives a slash drifts: its stake falls by the slash
    but the delegated supply counter keeps the old amount, so the counter
    overstates the delegated stake by exactly the amount slashed. *)
Theorem slashed_delegate_drift v ch percent p s u s' c :
  wf s → validators (store s) !! val_Address v = Some v → Delegate v = true →
  0 <= percent <= 100 → feature_enabled 2 s = false →
  stake_after_slash (StakedAmount v) percent ≠ 0 →
  SlashValidator v ch percent p s = (Ok u, s') →
  DelegatedOnly (supply (store s')) - map_sum (λ _, deleg_stake) (validators (store s')) =
  DelegatedOnly (supply (store s)) - map_sum (λ _, deleg_stake) (validators (store s))
  + (StakedAmount v - stake_after_slash (StakedAmount v) percent) ∧
  g_total (books c (store s')) = g_total (books c (store s)).
Proof.
  intros Hw Hv HD Hp HF Hne. unfold SlashValidator, IsFeatureEnabled.
  rewrite (bind_run_Ok _ _ _ (feature_enabled 2 s) s) by done. rewrite HF. intros Hrun.
  apply apply_slash_spec in Hrun as [HP _ _ _ _ _]; [|done..|u64].
  destruct (HP c) as [_ Hsh]. unfold shift, d_slash in Hsh. apply Z.eqb_neq in Hne. rewrite Hne, HD in Hsh.
  cbn [orb negb] in Hsh. split.
  - exact (f_equal g_deleg Hsh).
  - apply (f_equal g_total) in Hsh. cbn [g_add g_total] in Hsh. lia.
Qed.

(** ** Double signing evidence is used once *)

(** The evidence of a list of double signers, as indexed. *)
Definition evidence `{Crypto} (l : list DoubleSigner) : list (bytes * Z) :=
  l ≫= λ ds, match pubKeyAddress (ds_Id ds) with
             | Some a => map (pair a) (Heights ds)
             | None => []
             end.

Lemma index_loop a hs s u s' :
  for_each hs (index_double_signer a) s = (Ok u, s') →
  (∀ h, h ∈ hs → (a, h) ∉ double_signers (store s)) ∧ NoDup hs ∧
  s' = set_store (set_double_signers (list_to_set (map (pair a) hs) ∪ double_signers (store s)) (store s)) s.
Proof.
  revert s. induction hs as [|h hs IH]; intros s.
  - intros [= _ <-]. split_and!; [set_solver|constructor|]. cbn. rewrite union_empty_l_L. by destruct s as [[]].
  - rewrite for_each_cons. intros Hrun. apply bind_Ok in Hrun as (? & s1 & Hone & Hrun).
    unfold index_double_signer, getst, upd in Hone.
    apply bind_Ok in Hone as (seen & ? & [= Hseen <-] & Hone).
    apply bind_Ok in Hone as (? & ? & [Hs ->]%fail_if_Ok & [= _ <-]).
    rewrite <- Hseen in Hs. apply bool_decide_eq_false in Hs.
    apply IH in Hrun as (Hn & Hnd & ->). cbn in Hn. split_and!.
    + intros h' [->|Hh']%elem_of_cons; [done|]. intros Hin. apply (Hn h' Hh'). set_solver.
    + constructor; [|done]. intros Hin. apply (Hn h Hin). set_solver.
    + assert (E : list_to_set (map (pair a) (h :: hs)) ∪ double_signers (store s)
        = list_to_set (map (pair a) hs) ∪ ({[(a, h)]} ∪ double_signers (store s))) by set_solver.
      by rewrite E.
Qed.

Lemma index_seen a h hs s :
  (a, h) ∈ double_signers (store s) →
  for_each (h :: hs) (index_double_signer a) s = (Err ErrInvalidDoubleSigner, s).
Proof.
  intros Hin. rewrite for_each_cons. apply bind_run_Err. unfold index_double_signer, getst. runs.
  by rewrite bool_decide_eq_true_2.
Qed.

Lemma double_fold `{Crypto} l acc s out s' :
  fold_m (λ slashList ds,
    match ds_Id ds with
    | [] => throw ErrEmptyDoubleSigner
    | _ =>
        match Heights ds with
        | [] => throw ErrInvalidDoubleSignHeights
        | heights =>
            match pubKeyAddress (ds_Id ds) with
            | None => throw ErrPubKeyFromBytes
            | Some address =>
                for_each heights (index_double_signer address);;
                mret (slashList ++ map (λ _, address) heights)
            end
        end
    end) acc l s = (Ok out, s') →
  (∀ ds, ds ∈ l → ds_Id ds ≠ [] ∧ Heights ds ≠ [] ∧ is_Some (pubKeyAddress (ds_Id ds))) ∧
  NoDup (evidence l) ∧ (∀ k, k ∈ evidence l → k ∉ double_signers (store s)) ∧
  s' = set_store (set_double_signers (list_to_set (evidence l) ∪ double_signers (store s)) (store s)) s ∧
  out = acc ++ map fst (evidence l).
Proof.
  revert acc s. induction l as [|ds l IH]; intros acc s.
  - intros [= <- <-]. split_and!; [set_solver|constructor|set_solver| |by rewrite app_nil_r].
    cbn. rewrite union_empty_l_L. by destruct s as [[]].
  - rewrite fold_m_cons. intros Hrun. apply bind_Ok in Hrun as (acc' & s1 & Hone & Hrun).
    destruct (ds_Id ds) as [|i0 i] eqn:Hid; [done|]. destruct (Heights ds) as [|h0 hs] eqn:Hhs; [done|].
    destruct (pubKeyAddress (i0 :: i)) as [a|] eqn:Ha; [|done].
    apply bind_Ok in Hone as (? & s2 & Hloop & [= <- <-]).
    apply index_loop in Hloop as (Hnew & Hnd & ->).
    apply IH in Hrun as (Hwf & Hnd' & Hnew' & -> & ->).
    assert (Hev : evidence (ds :: l) = map (pair a) (h0 :: hs) ++ evidence l).
    { unfold evidence. cbn [mbind list_bind]. by rewrite Hid, Ha, Hhs. }
    cbn [store set_store double_signers set_double_signers] in Hnew'.
    rewrite Hev. split_and!.
    + intros y [->|Hx]%elem_of_cons; [|by apply Hwf]. by rewrite Hid, Hhs, Ha.
    + apply NoDup_app. split_and!; [|intros k Hk Hk'|done].
      * apply NoDup_fmap_2; [|done]. by intros ?? [= ->].
      * apply (Hnew' k Hk'). apply elem_of_union_l, elem_of_list_to_set. done.
    + intros k [Hk|Hk]%elem_of_app; [|intros Hin; apply (Hnew' k Hk); set_solver].
      apply list_elem_of_fmap in Hk as (h & -> & Hh). by apply Hnew.
    + assert (E : list_to_set (map (pair a) (h0 :: hs) ++ evidence l) ∪ double_signers (store s)
        = list_to_set (evidence l) ∪ (list_to_set (map (pair a) (h0 :: hs)) ∪ double_signers (store s)))
        by (rewrite list_to_set_app_L; set_solver).
      by rewrite E.
    + rewrite map_app, map_map, <- app_assoc. done.
Qed.

(** Double signing evidence is used at most once: an accepted list names no
    (address, height) pair twice and none that was indexed before, afterwards
    all of them are indexed, and resubmitting any part of it is refused. *)
Theorem HandleDoubleSigners_once `{Crypto} ch p l s u s' ds :
  wf s → lifecycle s → tracker_within p s →
  0 <= DoubleSignSlashPercentage p <= 100 → 0 <= MaxSlashPerCommittee p <= 100 →
  HandleDoubleSigners ch p l s = (Ok u, s') → ds ∈ l →
  NoDup (evidence l) ∧ (∀ k, k ∈ evidence l → k ∉ double_signers (store s)) ∧
  double_signers (store s') = list_to_set (evidence l) ∪ double_signers (store s) ∧
  fst (HandleDoubleSigners ch p [ds] s') = Err ErrInvalidDoubleSigner.
Proof.
  intros Hw HL HT Hp HM Hrun Hin. unfold HandleDoubleSigners in Hrun.
  apply bind_Ok in Hrun as (slashList & s1 & Hfold & Hrun).
  apply double_fold in Hfold as (Hwf & Hnd & Hnew & -> & ->).
  apply SlashValidators_step in Hrun as HS; [|by destruct Hw|done|done|done|done].
  pose proof (ss_double _ _ _ HS) as HDS. cbn in HDS.
  split_and!; [done..|].
  destruct (Hwf ds Hin) as (Hid & Hh & a & Ha).
  assert (Hk : ∀ h, h ∈ Heights ds → (a, h) ∈ double_signers (store s')).
  { intros h Hh'. rewrite HDS. apply elem_of_union_l, elem_of_list_to_set. unfold evidence.
    apply list_elem_of_bind. exists ds. split; [|done]. rewrite Ha. by apply list_elem_of_fmap_2. }
  unfold HandleDoubleSigners.
  match goal with |- fst ((?m ≫= _) s') = _ => assert (E : m s' = (Err ErrInvalidDoubleSigner, s')) end.
  { rewrite fold_m_cons. apply bind_run_Err. cbv beta.
    destruct (ds_Id ds) as [|i0 i]; [done|]. destruct (Heights ds) as [|h0 hs]; [done|].
    rewrite Ha. apply bind_run_Err, index_seen, Hk. set_solver. }
  by rewrite (bind_run_Err _ _ _ _ _ E).
Qed.

(** ** Counting missed signatures *)

(** How often the address [a] occurs among the public keys. *)
Definition missed `{Crypto} (a : bytes) (pks : list bytes) : Z :=
  list_sum (λ pk, if decide (pubKeyAddress pk = Some a) then 1 else 0) pks.

Lemma incremented_counter ch ch' l :
  u64 (nonSignerCounterForChain ch' l + 1) →
  nonSignerCounterForChain ch' (incrementNonSignerChainCounter ch l) =
  nonSignerCounterForChain ch' l + (if ch' =? ch then 1 else 0).
Proof.
  rewrite (Z.eqb_sym ch' ch). induction l as [|[i n] l IH]; cbn; intros Hu.
  - destruct (ch =? ch'); lia.
  - destruct (Z.eqb_spec i ch) as [->|Hi]; cbn.
    + destruct (Z.eqb_spec ch ch') as [->|]; cbn in *; [by rewrite u64_add_small|lia].
    + destruct (Z.eqb_spec i ch') as [->|Hi']; cbn in *.
      * apply Z.eqb_neq in Hi. rewrite (Z.eqb_sym ch ch'), Hi. lia.
      * by apply IH.
Qed.

Lemma lookup_non_signer_insert st a n b :
  lookup_non_signer (set_non_signers (<[a := n]> (non_signers st)) st) b =
  if decide (b = a) then n else lookup_non_signer st b.
Proof.
  unfold lookup_non_signer. cbn. case_decide as Hb; [subst; by rewrite lookup_insert_eq|].
  by rewrite lookup_insert_ne.
Qed.

(** [IncrementNonSigners] adds to every validator's counter the number of
    its public keys in the list, and with protocol version 2 the same number to
    its counter for the certificate's chain and nothing to any other chain's. *)
Theorem IncrementNonSigners_counts `{Crypto} ch pks s u s' :
  (∀ a, 0 <= ns_Counter (lookup_non_signer (store s) a) < two64 - Z.of_nat (length pks)) →
  (∀ a ch', 0 <= nonSignerCounterForChain ch' (ChainCounters (lookup_non_signer (store s) a))
     < two64 - Z.of_nat (length pks)) →
  IncrementNonSigners ch pks s = (Ok u, s') →
  ∀ a,
    ns_Counter (lookup_non_signer (store s') a) = ns_Counter (lookup_non_signer (store s) a) + missed a pks ∧
    ∀ ch', nonSignerCounterForChain ch' (ChainCounters (lookup_non_signer (store s') a)) =
      nonSignerCounterForChain ch' (ChainCounters (lookup_non_signer (store s) a))
      + (if feature_enabled 2 s && (ch' =? ch) then missed a pks else 0).
Proof.
  intros Hu Hu' Hrun. unfold IncrementNonSigners, IsFeatureEnabled in Hrun.
  rewrite (bind_run_Ok _ _ _ (feature_enabled 2 s) s) in Hrun by done.
  set (v2 := feature_enabled 2 s) in *.
  assert (Hle : ∀ a l, 0 <= missed a l <= Z.of_nat (length l)).
  { intros a l. unfold missed. induction l as [|x l IH]; [done|]. rewrite list_sum_cons. cbn [length].
    case_decide; lia. }
  set (P := λ (dn : list bytes) (s1 : FSM), ∀ a,
    ns_Counter (lookup_non_signer (store s1) a) = ns_Counter (lookup_non_signer (store s) a) + missed a dn ∧
    ∀ ch', nonSignerCounterForChain ch' (ChainCounters (lookup_non_signer (store s1) a)) =
      nonSignerCounterForChain ch' (ChainCounters (lookup_non_signer (store s) a))
      + (if v2 && (ch' =? ch) then missed a dn else 0)).
  enough (HP : P pks s') by exact HP. revert Hrun. apply (for_each_Ok P); unfold P; clear P.
  - intros dn x rest s1 s1' u' Hk HI Hrun.
    destruct (pubKeyAddress x) as [ax|] eqn:Hx; [|done].
    unfold getst, upd in Hrun. rewrite (bind_run_Ok _ _ _ (lookup_non_signer (store s1) ax) s1) in Hrun by done.
    injection Hrun as _ <-. intros a. specialize (HI a). destruct HI as [HC HCh].
    assert (Hm : missed a (dn ++ [x]) = missed a dn + (if decide (a = ax) then 1 else 0)).
    { unfold missed. rewrite list_sum_app, list_sum_cons, Hx. change (list_sum _ []) with 0.
      case_decide as H1; case_decide as H2; simplify_eq; lia. }
    assert (Hlen : missed a dn + 1 <= Z.of_nat (length pks)).
    { rewrite Hk, length_app. cbn [length]. pose proof (Hle a dn). lia. }
    cbn [store set_store]. rewrite Hm, lookup_non_signer_insert. pose proof (Hle a dn).
    specialize (Hu a). case_decide as Hne; [subst ax|rewrite Z.add_0_r; split; [done|exact HCh]].
    unfold bump. cbn [ns_Counter ChainCounters]. split; [rewrite HC; rewrite u64_add_small by u64; lia|].
    intros ch'. specialize (Hu' a ch'). destruct v2; cbn [andb] in *; [|rewrite HCh; lia].
    rewrite incremented_counter, HCh; [|rewrite HCh]; destruct (ch' =? ch); u64.
  - intros a. change (missed a []) with 0. split; [lia|]. intros ch'. destruct (_ && _); lia.
Qed.

(** ** Instances *)

(** The fixture under protocol version 2. *)
Definition demo2 : FSM :=
  set_store (set_params_cons (Some (set_ProtocolVersion "2/0" demo_cons)) demo_store) demo.

Lemma demo_wf2 : wf demo2.
Proof. constructor; unfold wf_supply; decide_now. Qed.
Lemma demo_lifecycle2 : lifecycle demo2.
Proof. exact demo_lifecycle. Qed.
Lemma empty_tracker s : slashTracker s = ∅ → tracker_within demo_val s.
Proof. intros H a ch. unfold GetTotalSlashPercent. by rewrite H, lookup_empty. Qed.


Lemma SlashValidator_exact_witness :
  let v := MkValidator val1 [] EmptyString 100 [1] 7 0 alice false true in
  let s' := snd (SlashValidator v 1 20 demo_val demo2) in
  GetTotalSlashPercent (slashTracker s') val1 1 = 15 ∧
  match validators (store s') !! val1 with
  | None => False
  | Some w => StakedAmount w = 85 ∧ Committees w = []
  end.
Proof.
  intros v s'.
  destruct (SlashValidator_exact v 1 20 demo_val demo2 () s' demo_wf2) as [H1 H2];
    [reflexivity|done|done|by apply empty_tracker|vm_compute; reflexivity|decide_now|reflexivity|run_now|].
  split; [exact H1|]. revert H2. vm_compute. tauto.
Defined.

Lemma slashed_delegate_drift_witness :
  let v := MkValidator del1 [] EmptyString 50 [1; 2] 0 5 bob true false in
  let s' := snd (SlashValidator v 1 10 demo_val demo) in
  DelegatedOnly (supply (store s')) = 50 ∧
  DelegatedOnly (supply (store s')) - map_sum (λ _, deleg_stake) (validators (store s')) = 5.
Proof.
  intros v s'. split; [vm_compute; reflexivity|].
  destruct (slashed_delegate_drift v 1 10 demo_val demo () s' 1 demo_wf) as [H _];
    [reflexivity|reflexivity|done|vm_compute; reflexivity|vm_compute; discriminate|run_now|].
  rewrite H. vm_compute. reflexivity.
Defined.

Lemma HandleDoubleSigners_once_witness :
  let l := [MkDoubleSigner val1 [2; 3]] in
  let s' := snd (HandleDoubleSigners (H := toy_crypto) 1 demo_val l demo2) in
  double_signers (store s') = {[ (val1, 2); (val1, 3) ]} ∪ ∅ ∧
  fst (HandleDoubleSigners (H := toy_crypto) 1 demo_val l s') = Err ErrInvalidDoubleSigner.
Proof.
  intros l s'.
  destruct (HandleDoubleSigners_once (H := toy_crypto) 1 demo_val l demo2 () s' (MkDoubleSigner val1 [2; 3])
    demo_wf2 demo_lifecycle2) as (_ & _ & H1 & H2);
    [by apply empty_tracker|done|done|run_now|set_solver|].
  split; [rewrite H1; vm_compute; reflexivity|exact H2].
Defined.

Lemma IncrementNonSigners_counts_witness :
  let pks := [val1; del1; val1] in
  let s' := snd (IncrementNonSigners (H := toy_crypto) 1 pks demo2) in
  ns_Counter (lookup_non_signer (store s') val1) = 2.
Proof.
  intros pks s'.
  destruct (IncrementNonSigners_counts (H := toy_crypto) 1 pks demo2 () s') with (a := val1) as [H1 _];
    [| |run_now|rewrite H1; vm_compute; reflexivity].
  - intros a. unfold lookup_non_signer. change (non_signers (store demo2)) with (∅ : gmap bytes NonSigner).
    rewrite lookup_empty. cbn. u64.
  - intros a ch'. unfold lookup_non_signer. change (non_signers (store demo2)) with (∅ : gmap bytes NonSigner).
    rewrite lookup_empty. cbn. u64.
Defined.
