(* ===== verification/Swap.v ===== *)
(** * Token swaps: the sell order book and its escrow ([fsm/swap.go]; the order
    handlers of [fsm/message.go]) *)
From S2P Require Import Prelude LibUtil State Ledger Params Fixtures Account Committee.

(** ** The order book *)

Definition SetOrder (order : SellOrder) (chainId : Z) : F unit :=
  upd (λ st, set_orders (<[(chainId, order_Id order) := order]> (orders st)) st).
Definition DeleteOrder (orderId : bytes) (chainId : Z) : F unit :=
  upd (λ st, set_orders (delete (chainId, orderId) (orders st)) st).
Definition GetOrder (orderId : bytes) (chainId : Z) : F SellOrder :=
  o ← getst (λ st, orders st !! (chainId, orderId));
  match o with Some order => mret order | None => throw ErrOrderNotFound end.

(** [GetOrderBook]: the orders of a chain in key order. *)
Definition order_list (chainId : Z) (st : Store) : list SellOrder :=
  map snd (sorted_by (λ a b, bytes_le (snd (fst a)) (snd (fst b)))
    (filter (λ e, fst (fst e) = chainId) (map_to_list (orders st)))).
Definition GetOrderBook (chainId : Z) : F (list SellOrder) := getst (order_list chainId).

(** ** Committee instructions *)

Record LockOrderMsg : Type := MkLockOrder {
  lo_OrderId : bytes;
  lo_ChainId : Z;
  lo_BuyerReceiveAddress : bytes;
  lo_BuyerSendAddress : bytes;
  lo_BuyerChainDeadline : Z;
}.

Definition set_buyer (receive send : bytes) (deadline : Z) (o : SellOrder) : SellOrder :=
  MkSellOrder (order_Id o) (Committee o) (order_Data o) (AmountForSale o) (RequestedAmount o)
    (SellerReceiveAddress o) send receive deadline (SellersSendAddress o).

(** An absent byte field is Go's [nil]: an order is locked when its buyer's
    receive address is not empty. *)
Definition is_locked (o : SellOrder) : bool := negb (bool_decide (BuyerReceiveAddress o = [])).

Definition LockOrder (lock : LockOrderMsg) (chainId : Z) : F unit :=
  order ← GetOrder (lo_OrderId lock) chainId;
  fail_if (is_locked order) ErrOrderLocked;;
  let order := set_buyer (lo_BuyerReceiveAddress lock) (lo_BuyerSendAddress lock)
                 (lo_BuyerChainDeadline lock) order in
  SetOrder order chainId;;
  addEvent (EventOrderBookLock order).

Definition ResetOrder (orderId : bytes) (chainId : Z) : F unit :=
  order ← GetOrder orderId chainId;
  addEvent (EventOrderBookReset order);;
  SetOrder (set_buyer [] [] 0 order) chainId.

Definition CloseOrder (orderId : bytes) (chainId : Z) : F unit :=
  order ← GetOrder orderId chainId;
  fail_if (negb (is_locked order)) ErrInvalidLockOrder;;
  let buyerAddress := BuyerReceiveAddress order in
  buyerAccount ← GetAccount buyerAddress;
  fail_if (u64_sub u64_max (AmountForSale order) <? acc_Amount buyerAccount) ErrInvalidAmount;;
  escrowPool ← GetPool (escrow_id chainId);
  fail_if (pool_Amount escrowPool <? AmountForSale order) ErrInsufficientFunds;;
  PoolSub (escrow_id chainId) (AmountForSale order);;
  AccountAdd buyerAddress (AmountForSale order);;
  addEvent (EventOrderBookSwap order);;
  DeleteOrder orderId chainId.

Record Orders : Type := MkOrders {
  LockOrders : list (option LockOrderMsg);
  ResetOrders : list bytes;
  CloseOrders : list bytes;
}.

(** Failed instructions are logged and skipped, their writes stay. *)
Definition HandleCommitteeSwaps (o : option Orders) (chainId : Z) : F unit :=
  match o with
  | None => mret ()
  | Some o =>
      for_each (LockOrders o) (λ l,
        match l with None => mret () | Some lock => swallow (LockOrder lock chainId) end);;
      for_each (ResetOrders o) (λ resetOrderId,
        if bool_decide (resetOrderId ∈ CloseOrders o) then mret ()
        else swallow (ResetOrder resetOrderId chainId));;
      for_each (CloseOrders o) (λ closeOrderId, swallow (CloseOrder closeOrderId chainId))
  end.

(** ** Handlers of the seller's messages *)

Record MessageCreateOrder : Type := MkCreateOrder {
  co_ChainId : Z;
  co_Data : bytes;
  co_AmountForSale : Z;
  co_RequestedAmount : Z;
  co_SellerReceiveAddress : bytes;
  co_SellersSendAddress : bytes;
  co_OrderId : bytes;
}.
Record MessageEditOrder : Type := MkEditOrder {
  eo_OrderId : bytes;
  eo_ChainId : Z;
  eo_Data : bytes;
  eo_AmountForSale : Z;
  eo_RequestedAmount : Z;
  eo_SellerReceiveAddress : bytes;
}.
Record MessageDeleteOrder : Type := MkDeleteOrder { do_OrderId : bytes; do_ChainId : Z }.

Definition HandleMessageCreateOrder (msg : MessageCreateOrder) : F unit :=
  valParams ← GetParamsVal;
  fail_if (co_AmountForSale msg <? MinimumOrderSize valParams) ErrMinimumOrderSize;;
  AccountSub (co_SellersSendAddress msg) (co_AmountForSale msg);;
  PoolAdd (escrow_id (co_ChainId msg)) (co_AmountForSale msg);;
  SetOrder (MkSellOrder (co_OrderId msg) (co_ChainId msg) (co_Data msg) (co_AmountForSale msg)
    (co_RequestedAmount msg) (co_SellerReceiveAddress msg) [] [] 0 (co_SellersSendAddress msg))
    (co_ChainId msg).

Definition HandleMessageEditOrder (msg : MessageEditOrder) : F unit :=
  order ← GetOrder (eo_OrderId msg) (eo_ChainId msg);
  fail_if (is_locked order) ErrOrderLocked;;
  valParams ← GetParamsVal;
  fail_if (eo_AmountForSale msg <? MinimumOrderSize valParams) ErrMinimumOrderSize;;
  let address := SellersSendAddress order in
  (if AmountForSale order <? eo_AmountForSale msg then
     let amountDifference := u64_sub (eo_AmountForSale msg) (AmountForSale order) in
     AccountSub address amountDifference;;
     PoolAdd (escrow_id (eo_ChainId msg)) amountDifference
   else if eo_AmountForSale msg <? AmountForSale order then
     let amountDifference := u64_sub (AmountForSale order) (eo_AmountForSale msg) in
     PoolSub (escrow_id (eo_ChainId msg)) amountDifference;;
     AccountAdd address amountDifference
   else mret ());;
  SetOrder (MkSellOrder (order_Id order) (eo_ChainId msg) (eo_Data msg) (eo_AmountForSale msg)
    (eo_RequestedAmount msg) (eo_SellerReceiveAddress msg) [] [] 0 (SellersSendAddress order))
    (eo_ChainId msg).

Definition HandleMessageDeleteOrder (msg : MessageDeleteOrder) : F unit :=
  order ← GetOrder (do_OrderId msg) (do_ChainId msg);
  fail_if (is_locked order) ErrOrderLocked;;
  PoolSub (escrow_id (do_ChainId msg)) (AmountForSale order);;
  AccountAdd (SellersSendAddress order) (AmountForSale order);;
  DeleteOrder (do_OrderId msg) (do_ChainId msg).

(** ** Lemmas: the order book *)

(** Orders are stored under their own id. *)
Definition wf_orders (st : Store) : Prop :=
  map_Forall (λ (k : Z * bytes) o, order_Id o = k.2 ∧ u64 (AmountForSale o)) (orders st).
Definition order_amount (st : Store) (k : Z * bytes) : Z :=
  match orders st !! k with Some o => AmountForSale o | None => 0 end.

(** Only the order book changed. *)
Definition with_orders (m : gmap (Z * bytes) SellOrder) (s : FSM) : FSM := set_store (set_orders m (store s)) s.

Lemma hit_sub a b n m : hit a b (n - m) = hit a b n - hit a b m.
Proof. unfold hit. destruct (a =? b); lia. Qed.
Lemma hit_opp a b n : hit a b (- n) = - hit a b n.
Proof. unfold hit. destruct (a =? b); lia. Qed.
Lemma at_order c st ch id : at_key (order_due c) (orders st) (ch, id) = hit ch c (order_amount st (ch, id)).
Proof.
  unfold at_key, order_due, order_amount, hit. cbn. destruct (orders st !! (ch, id)); [done|].
  by destruct (ch =? c).
Qed.

Lemma with_orders_posted c m s d :
  wf s → map_sum (order_due c) m = map_sum (order_due c) (orders (store s)) + d →
  posted c (Gaps 0 0 0 0 0 (- d) 0) s (with_orders m s).
Proof. intros [H1 H2 H3 H4 H5] Hm. split; [by constructor|]. books_step. Qed.

Lemma SetOrder_spec c ch o s r s' :
  wf s → SetOrder o ch s = (r, s') →
  r = Ok () ∧ s' = with_orders (<[(ch, order_Id o) := o]> (orders (store s))) s ∧
  posted c (d_order c ch (AmountForSale o - order_amount (store s) (ch, order_Id o))) s s'.
Proof.
  intros Hw [= <- <-]. split_and!; [done..|].
  eapply posted_eq; [eapply (with_orders_posted c _ s (hit ch c (AmountForSale o) - hit ch c (order_amount (store s) (ch, order_Id o)))); [done|]|].
  - rewrite map_sum_insert, at_order. change (order_due c (ch, order_Id o) o) with (hit ch c (AmountForSale o)). lia.
  - unfold d_order. rewrite hit_sub. g_eq.
Qed.
Lemma DeleteOrder_spec c ch id s r s' :
  wf s → DeleteOrder id ch s = (r, s') →
  r = Ok () ∧ s' = with_orders (delete (ch, id) (orders (store s))) s ∧
  posted c (d_order c ch (- order_amount (store s) (ch, id))) s s'.
Proof.
  intros Hw [= <- <-]. split_and!; [done..|].
  eapply posted_eq; [eapply (with_orders_posted c _ s (- hit ch c (order_amount (store s) (ch, id)))); [done|]|].
  - rewrite map_sum_delete, at_order. lia.
  - unfold d_order. rewrite hit_opp. g_eq.
Qed.

Lemma GetOrder_run id ch s :
  GetOrder id ch s =
    (match orders (store s) !! (ch, id) with Some o => Ok o | None => Err ErrOrderNotFound end, s).
Proof. unfold GetOrder. runs. by destruct (orders (store s) !! (ch, id)). Qed.

(** Tokens moved through the escrow pool of [ch], as the books of [c] see it. *)
Lemma d_pool_escrow c ch n :
  valid_chain c → valid_chain ch → d_pool c (escrow_id ch) n = Gaps (- n) 0 0 0 0 (hit ch c n) 0.
Proof.
  intros Hc Hch. unfold d_pool. rewrite hit_escrow by done.
  destruct (pool_ids_disjoint c ch Hc Hch) as (Hne & _).
  rewrite (hit_ne (escrow_id ch) (holding_id c)) by congruence. done.
Qed.

(** ** Lemmas: instructions *)

(** The order [k] was rewritten without touching its amount or id. *)
Definition relabeled (k : Z * bytes) (o o' : SellOrder) (s s' : FSM) : Prop :=
  orders (store s) !! k = Some o ∧ AmountForSale o' = AmountForSale o ∧ order_Id o' = order_Id o ∧
  orders (store s') = <[k := o']> (orders (store s)) ∧ ∀ c, posted c g_zero s s'.

Lemma relabel_spec ch id o o' e s s' :
  wf s → wf_orders (store s) → orders (store s) !! (ch, id) = Some o →
  AmountForSale o' = AmountForSale o → order_Id o' = order_Id o →
  s' = set_events e (with_orders (<[(ch, order_Id o') := o']> (orders (store s))) s) →
  relabeled (ch, id) o o' s s'.
Proof.
  intros Hw Hwo Ho Ha Hid ->. destruct (Hwo _ _ Ho) as [Hk _]. cbn in Hk.
  rewrite Hid, Hk. unfold relabeled. split_and!; try done. intros c.
  destruct (SetOrder o' ch s) as [r s1] eqn:E. apply (SetOrder_spec c) in E as (_ & -> & P); [|done].
  rewrite Hid, Hk in P. unfold order_amount in P. rewrite Ho, Ha in P.
  split; [destruct P as [[H1 H2 H3 H4 H5] _]; by constructor|]. destruct P as [_ Hsh].
  eapply shift_eq; [exact Hsh|]. unfold d_order. rewrite Z.sub_diag. g_eq.
Qed.

Lemma LockOrder_spec l ch s r s' :
  wf s → wf_orders (store s) → LockOrder l ch s = (r, s') →
  match r with
  | Ok _ => ∃ o, is_locked o = false ∧ relabeled (ch, lo_OrderId l) o
      (set_buyer (lo_BuyerReceiveAddress l) (lo_BuyerSendAddress l) (lo_BuyerChainDeadline l) o) s s'
  | Err _ => s' = s
  end.
Proof.
  intros Hw Hwo. unfold LockOrder.
  destruct (orders (store s) !! (ch, lo_OrderId l)) as [o|] eqn:Ho.
  2:{ rewrite (bind_run_Err _ _ _ ErrOrderNotFound s) by (by rewrite GetOrder_run, Ho). by intros [= <- <-]. }
  rewrite (bind_run_Ok _ _ _ o s) by (by rewrite GetOrder_run, Ho).
  destruct (is_locked o) eqn:Hl; [by runs; intros [= <- <-]|].
  intros Hrun. runs in Hrun. injection Hrun as <- <-. exists o. split; [done|].
  by eapply (relabel_spec _ _ _ _ _ s).
Qed.

Lemma ResetOrder_spec id ch s r s' :
  wf s → wf_orders (store s) → ResetOrder id ch s = (r, s') →
  match r with
  | Ok _ => ∃ o, relabeled (ch, id) o (set_buyer [] [] 0 o) s s'
  | Err _ => s' = s
  end.
Proof.
  intros Hw Hwo. unfold ResetOrder.
  destruct (orders (store s) !! (ch, id)) as [o|] eqn:Ho.
  2:{ rewrite (bind_run_Err _ _ _ ErrOrderNotFound s) by (by rewrite GetOrder_run, Ho). by intros [= <- <-]. }
  rewrite (bind_run_Ok _ _ _ o s) by (by rewrite GetOrder_run, Ho).
  intros Hrun. runs in Hrun. injection Hrun as <- <-. exists o.
  by eapply (relabel_spec _ _ _ _ _ s).
Qed.

(** A closed order: escrow to buyer, and the order is gone. *)
Record closed (k : Z * bytes) (o : SellOrder) (s s' : FSM) : Prop := {
  cl_order : orders (store s) !! k = Some o;
  cl_locked : is_locked o = true;
  cl_orders : orders (store s') = delete k (orders (store s));
  cl_buyer : ∀ b, acc_bal (store s') b = acc_bal (store s) b +
    (if decide (b = BuyerReceiveAddress o) then AmountForSale o else 0);
  cl_escrow : ∀ i, pool_bal (store s') i = pool_bal (store s) i - hit i (escrow_id k.1) (AmountForSale o);
  cl_posted : ∀ c, valid_chain c → valid_chain k.1 → posted c g_zero s s';
  cl_wf : wf s';
}.

(** [CloseOrder] is atomic: the preflight checks leave no failure for the writes. *)
Lemma CloseOrder_spec id ch s r s' :
  wf s → wf_orders (store s) → CloseOrder id ch s = (r, s') →
  match r with Ok _ => ∃ o, closed (ch, id) o s s' | Err _ => s' = s end.
Proof.
  intros Hw Hwo. unfold CloseOrder.
  destruct (orders (store s) !! (ch, id)) as [o|] eqn:Ho.
  2:{ rewrite (bind_run_Err _ _ _ ErrOrderNotFound s) by (by rewrite GetOrder_run, Ho). by intros [= <- <-]. }
  rewrite (bind_run_Ok _ _ _ o s) by (by rewrite GetOrder_run, Ho).
  destruct (Hwo _ _ Ho) as [_ Hu].
  destruct (is_locked o) eqn:Hl; cbn [negb]; [|by runs; intros [= <- <-]].
  rewrite (bind_run_Ok _ _ _ () s) by done. cbv zeta.
  rewrite (bind_run_Ok _ _ _ (lookup_account (BuyerReceiveAddress o) s) s) by done.
  destruct (lookup_account_spec (BuyerReceiveAddress o) s Hw) as [_ ->].
  pose proof (acc_bal_range s (BuyerReceiveAddress o) Hw).
  destruct (_ <? acc_bal _ _) eqn:G1; [by runs; intros [= <- <-]|].
  apply max_guard in G1; [|done..]. rewrite (bind_run_Ok _ _ _ () s) by done.
  rewrite (bind_run_Ok _ _ _ (lookup_pool (escrow_id ch) (store s)) s) by done.
  destruct (lookup_pool_spec (escrow_id ch) (store s)) as [_ ->].
  destruct (_ <? AmountForSale o) eqn:G2; [by runs; intros [= <- <-]|].
  rewrite (bind_run_Ok _ _ _ () s) by done. zify_bools. intros Hrun.
  destruct (PoolSub (escrow_id ch) (AmountForSale o) s) as [r1 s1] eqn:H1.
  apply PoolSub_spec in H1 as HP; [|done..].
  destruct r1 as [[]|e1]; [|destruct HP as (_ & _ & ?); lia].
  rewrite (bind_run_Ok _ _ _ _ _ H1) in Hrun. destruct HP as [[Hw1 Sh1 B1 (ps & Hs1)] _].
  assert (Hacc : ∀ b, acc_bal (store s1) b = acc_bal (store s) b) by (intros; by rewrite Hs1).
  destruct (AccountAdd (BuyerReceiveAddress o) (AmountForSale o) s1) as [r2 s2] eqn:H2.
  apply AccountAdd_spec in H2 as HA; [|done..].
  destruct r2 as [[]|e2]; [|destruct HA as (_ & _ & Hov); rewrite Hacc in Hov; u64].
  rewrite (bind_run_Ok _ _ _ _ _ H2) in Hrun. destruct HA as [Hw2 Sh2 B2 (accs & ca & Hs2)].
  rewrite (bind_run_Ok _ _ _ () (set_events (events s2 ++ [EventOrderBookSwap o]) s2)) in Hrun by done.
  set (s3 := set_events _ s2) in *.
  assert (Hw3 : wf s3) by by destruct Hw2.
  assert (Ho3 : orders (store s3) = orders (store s)) by (unfold s3; cbn; by rewrite Hs2, Hs1).
  pose proof (λ c, DeleteOrder_spec c ch id s3 r s' Hw3 Hrun) as HD.
  destruct (HD 0) as (-> & Hs' & _). exists o. split; cbn [fst snd].
  - done.
  - done.
  - rewrite Hs'. unfold with_orders. cbn [store set_store orders set_orders]. by rewrite Ho3.
  - intros b. rewrite Hs'. unfold with_orders. rewrite <- Hacc, <- B2. done.
  - intros i. rewrite Hs'. transitivity (pool_bal (store s1) i); [by unfold s3; cbn; rewrite Hs2|].
    rewrite B1, hit_opp. lia.
  - intros c Hc Hch. destruct (HD c) as (_ & _ & P4). unfold order_amount in P4. rewrite Ho3, Ho in P4.
    assert (P3 : posted c g_zero s2 s3) by (split; [done|by apply shift_refl]).
    eapply posted_eq; [eapply posted_trans; [exact (Posted _ _ _ _ Hw1 (Sh1 c))|
      eapply posted_trans; [exact (Posted _ _ _ _ Hw2 (Sh2 c))|eapply posted_trans; [exact P3|exact P4]]]|].
    rewrite d_pool_escrow by done. unfold d_order. rewrite !hit_opp. g_eq.
  - destruct (HD 0) as (_ & _ & [Hw' _]). exact Hw'.
Qed.

(** ** Lemmas: the seller's messages *)

Lemma PoolAdd_posted c id n s u s' :
  wf s → 0 <= n <= g_total (books 1 (store s)) → PoolAdd id n s = (Ok u, s') →
  posted c (d_pool c id n) s s' ∧ only_pools s s' ∧
  (∀ i, pool_bal (store s') i = pool_bal (store s) i + hit i id n).
Proof. intros Hw Hn Hrun. apply (PoolAdd_spec 1) in Hrun as [_ [? Hsh ? ?]]; [|done..]. by split_and!. Qed.

Lemma g_total_posted c d s s' :
  posted c d s s' → g_total (books 1 (store s')) = g_total (books 1 (store s)) + g_total d.
Proof. intros [_ Hsh]. unfold shift in Hsh. apply (f_equal g_total) in Hsh. exact Hsh. Qed.

Lemma wf_orders_insert m st k o :
  wf_orders st → order_Id o = k.2 → u64 (AmountForSale o) → m = <[k := o]> (orders st) →
  wf_orders (set_orders m st).
Proof.
  intros Hw Hid Hu -> k' o'. cbn. destruct (decide (k' = k)) as [->|Hne].
  - rewrite lookup_insert_eq. by intros [= <-].
  - rewrite lookup_insert_ne by done. apply Hw.
Qed.
Lemma wf_orders_delete st k : wf_orders st → wf_orders (set_orders (delete k (orders st)) st).
Proof. intros Hw k' o'. cbn. intros [_ ?]%lookup_delete_Some. by apply Hw. Qed.

(** An account paid [n] into the escrow of [ch]. *)
Lemma escrow_in c a ch n s u1 s1 u2 s2 :
  wf s → u64 n → valid_chain c → valid_chain ch → 0 <= g_total (books 1 (store s)) →
  AccountSub a n s = (Ok u1, s1) → PoolAdd (escrow_id ch) n s1 = (Ok u2, s2) →
  posted c (Gaps 0 0 0 0 0 (hit ch c n) 0) s s2 ∧ orders (store s2) = orders (store s) ∧
  n <= acc_bal (store s) a ∧
  (∀ b, acc_bal (store s2) b = acc_bal (store s) b - (if decide (b = a) then n else 0)).
Proof.
  intros Hw Hn Hc Hch Hg H1 H2. apply AccountSub_spec in H1 as ([Hw1 Sh1 B1 (accs & ca & Hs1)] & Hle & _); [|done..].
  assert (G1 : g_total (books 1 (store s1)) = g_total (books 1 (store s)) + n).
  { rewrite (g_total_posted 1 _ s s1 (Posted _ _ _ _ Hw1 (Sh1 1))). cbn. lia. }
  apply (PoolAdd_posted c) in H2 as (P2 & (ps & Hs2) & _); [|done|u64].
  split_and!; [|by rewrite Hs2, Hs1|done|].
  - eapply posted_eq; [eapply posted_trans; [exact (Posted _ _ _ _ Hw1 (Sh1 c))|exact P2]|].
    rewrite d_pool_escrow by done. g_eq.
  - intros b. transitivity (acc_bal (store s1) b); [by rewrite Hs2|]. rewrite B1. case_decide; lia.
Qed.
(** An account was paid [n] from the escrow of [ch]. *)
Lemma escrow_out c a ch n s u1 s1 u2 s2 :
  wf s → u64 n → valid_chain c → valid_chain ch →
  PoolSub (escrow_id ch) n s = (Ok u1, s1) → AccountAdd a n s1 = (Ok u2, s2) →
  posted c (Gaps 0 0 0 0 0 (- hit ch c n) 0) s s2 ∧ orders (store s2) = orders (store s) ∧
  (∀ b, acc_bal (store s2) b = acc_bal (store s) b + (if decide (b = a) then n else 0)).
Proof.
  intros Hw Hn Hc Hch H1 H2. apply PoolSub_spec in H1 as ([Hw1 Sh1 B1 (ps & Hs1)] & Hle); [|done..].
  apply AccountAdd_spec in H2 as [Hw2 Sh2 B2 (accs & ca & Hs2)]; [|done..].
  split_and!; [|by rewrite Hs2, Hs1|].
  - eapply posted_eq; [eapply posted_trans; [exact (Posted _ _ _ _ Hw1 (Sh1 c))
      |exact (Posted _ _ _ _ Hw2 (Sh2 c))]|]. rewrite d_pool_escrow by done. rewrite !hit_opp. g_eq.
  - intros b. rewrite B2. by rewrite Hs1.
Qed.

(** The books after an order message: only the escrow gap of the order's chain
    may move, by [n]. *)
Record order_step (ch n : Z) (s s' : FSM) : Prop := {
  os_posted : ∀ c, valid_chain c → posted c (Gaps 0 0 0 0 0 (hit ch c n) 0) s s';
  os_orders : wf_orders (store s');
}.

Lemma HandleMessageCreateOrder_spec msg s u s' :
  wf s → wf_orders (store s) → 0 <= g_total (books 1 (store s)) →
  u64 (co_AmountForSale msg) → valid_chain (co_ChainId msg) →
  HandleMessageCreateOrder msg s = (Ok u, s') →
  order_step (co_ChainId msg) (order_amount (store s) (co_ChainId msg, co_OrderId msg)) s s' ∧
  co_AmountForSale msg <= acc_bal (store s) (co_SellersSendAddress msg) ∧
  (∀ b, acc_bal (store s') b = acc_bal (store s) b -
     (if decide (b = co_SellersSendAddress msg) then co_AmountForSale msg else 0)) ∧
  orders (store s') = <[(co_ChainId msg, co_OrderId msg) :=
    MkSellOrder (co_OrderId msg) (co_ChainId msg) (co_Data msg) (co_AmountForSale msg)
    (co_RequestedAmount msg) (co_SellerReceiveAddress msg) [] [] 0 (co_SellersSendAddress msg)]> (orders (store s)).
Proof.
  intros Hw Hwo Hg Hu Hch. unfold HandleMessageCreateOrder. set (o := MkSellOrder _ _ _ _ _ _ _ _ _ _). intros Hrun.
  apply bind_Ok in Hrun as (p & s0 & Hp & Hrun). apply GetParamsVal_same in Hp as Hsame.
  pose proof (same_books_wf _ _ Hsame Hw) as Hw0. pose proof Hsame as (Hst & _ & _).
  apply bind_Ok in Hrun as (? & ? & [_ ->]%fail_if_Ok & Hrun).
  apply bind_Ok in Hrun as (u1 & s1 & H1 & Hrun). apply bind_Ok in Hrun as (u2 & s2 & H2 & Hrun).
  assert (HE := λ c Hc, escrow_in c _ _ _ s0 u1 s1 u2 s2 Hw0 Hu Hc Hch ltac:(by rewrite Hst) H1 H2).
  destruct (HE 1 valid_chain_1) as (P0 & Ho & Hle & Hb). rewrite Hst in Ho, Hle, Hb.
  pose proof (λ c, SetOrder_spec c _ o s2 (Ok u) s' (po_ok _ _ _ _ P0) Hrun) as HS.
  destruct (HS 0) as (_ & Hs' & _). change (order_Id o) with (co_OrderId msg) in *.
  split_and!; [|done|intros b; by rewrite Hs', <- Hb|by rewrite Hs', <- Ho].
  split; [|rewrite Hs', Ho; apply (wf_orders_insert _ _ (co_ChainId msg, co_OrderId msg) o);
           [intros k q Hk; rewrite Ho in Hk; by apply Hwo|done|done|by rewrite Ho]].
  intros c Hc. destruct (HE c Hc) as (P1 & _). destruct (HS c) as (_ & _ & P2).
  unfold order_amount in P2. rewrite Ho in P2. fold (order_amount (store s) (co_ChainId msg, co_OrderId msg)) in P2.
  eapply posted_eq; [eapply posted_trans; [exact (same_books_posted c _ _ Hw Hsame)|
    eapply posted_trans; [exact P1|exact P2]]|]. unfold d_order. rewrite hit_sub. cbn [AmountForSale o]. g_eq.
Qed.

Lemma HandleMessageDeleteOrder_spec msg s u s' :
  wf s → wf_orders (store s) → valid_chain (do_ChainId msg) →
  HandleMessageDeleteOrder msg s = (Ok u, s') →
  order_step (do_ChainId msg) 0 s s' ∧ ∃ o,
    orders (store s) !! (do_ChainId msg, do_OrderId msg) = Some o ∧ is_locked o = false ∧
    orders (store s') = delete (do_ChainId msg, do_OrderId msg) (orders (store s)) ∧
    ∀ b, acc_bal (store s') b = acc_bal (store s) b +
      (if decide (b = SellersSendAddress o) then AmountForSale o else 0).
Proof.
  intros Hw Hwo Hch. unfold HandleMessageDeleteOrder. intros Hrun.
  apply bind_Ok in Hrun as (o & s0 & Hget & Hrun). rewrite GetOrder_run in Hget.
  destruct (orders (store s) !! (do_ChainId msg, do_OrderId msg)) as [o'|] eqn:Ho; [|done].
  injection Hget as -> <-. destruct (Hwo _ _ Ho) as [_ Hu].
  apply bind_Ok in Hrun as (? & ? & [Hl ->]%fail_if_Ok & Hrun).
  apply bind_Ok in Hrun as (u1 & s1 & H1 & Hrun). apply bind_Ok in Hrun as (u2 & s2 & H2 & Hrun).
  assert (HE := λ c Hc, escrow_out c _ _ _ s u1 s1 u2 s2 Hw Hu Hc Hch H1 H2).
  destruct (HE 1 valid_chain_1) as (P0 & Ho2 & Hb).
  pose proof (λ c, DeleteOrder_spec c _ _ s2 (Ok u) s' (po_ok _ _ _ _ P0) Hrun) as HD.
  destruct (HD 0) as (_ & Hs' & _). split.
  - split; [|rewrite Hs', Ho2; exact (wf_orders_delete (store s) (do_ChainId msg, do_OrderId msg) Hwo)].
    intros c Hc. destruct (HE c Hc) as (P1 & _). destruct (HD c) as (_ & _ & P2).
    unfold order_amount in P2. rewrite Ho2, Ho in P2.
    eapply posted_eq; [eapply posted_trans; [exact P1|exact P2]|].
    unfold d_order. rewrite hit_opp. g_eq.
  - exists o. split_and!; [done..|by rewrite Hs', <- Ho2|]. intros b. rewrite Hs'. exact (Hb b).
Qed.

Lemma HandleMessageEditOrder_spec msg s u s' :
  wf s → wf_orders (store s) → 0 <= g_total (books 1 (store s)) →
  u64 (eo_AmountForSale msg) → valid_chain (eo_ChainId msg) →
  HandleMessageEditOrder msg s = (Ok u, s') →
  order_step (eo_ChainId msg) 0 s s' ∧ ∃ o,
    orders (store s) !! (eo_ChainId msg, eo_OrderId msg) = Some o ∧ is_locked o = false ∧
    ∀ b, acc_bal (store s') b = acc_bal (store s) b +
      (if decide (b = SellersSendAddress o) then AmountForSale o - eo_AmountForSale msg else 0).
Proof.
  intros Hw Hwo Hg Hu Hch. unfold HandleMessageEditOrder. intros Hrun.
  apply bind_Ok in Hrun as (o & s0 & Hget & Hrun). rewrite GetOrder_run in Hget.
  destruct (orders (store s) !! (eo_ChainId msg, eo_OrderId msg)) as [o'|] eqn:Ho; [|done].
  injection Hget as -> <-. destruct (Hwo _ _ Ho) as [Hid Huo]. cbn in Hid.
  apply bind_Ok in Hrun as (? & ? & [Hl ->]%fail_if_Ok & Hrun).
  apply bind_Ok in Hrun as (p & s0 & Hp & Hrun). apply GetParamsVal_same in Hp as Hsame.
  pose proof (same_books_wf _ _ Hsame Hw) as Hw0. pose proof Hsame as (Hst & _ & _).
  apply bind_Ok in Hrun as (? & ? & [_ ->]%fail_if_Ok & Hrun).
  apply bind_Ok in Hrun as (u2 & s2 & H2 & Hrun).
  set (n := eo_AmountForSale msg) in *.
  assert (HM : (∀ c, valid_chain c → posted c (Gaps 0 0 0 0 0 (hit (eo_ChainId msg) c (n - AmountForSale o)) 0) s0 s2) ∧
    orders (store s2) = orders (store s0) ∧
    (∀ b, acc_bal (store s2) b = acc_bal (store s0) b +
      (if decide (b = SellersSendAddress o) then AmountForSale o - n else 0))).
  { destruct (Z.ltb_spec (AmountForSale o) n) as [Hlt|Hge]; [|destruct (Z.ltb_spec n (AmountForSale o)) as [Hlt|Heq]].
    - rewrite u64_sub_small in H2 by u64. apply bind_Ok in H2 as (u1 & s1 & H1 & H2).
      assert (HE := λ c Hc, escrow_in c _ _ (n - AmountForSale o) s0 u1 s1 u2 s2 Hw0 ltac:(u64) Hc Hch ltac:(by rewrite Hst) H1 H2).
      destruct (HE 1 valid_chain_1) as (_ & Ho2 & _ & Hb). split_and!; [intros c Hc; apply (HE c Hc)|done|].
      intros b. rewrite Hb. case_decide; lia.
    - rewrite u64_sub_small in H2 by u64. apply bind_Ok in H2 as (u1 & s1 & H1 & H2).
      assert (HE := λ c Hc, escrow_out c _ _ (AmountForSale o - n) s0 u1 s1 u2 s2 Hw0 ltac:(u64) Hc Hch H1 H2).
      destruct (HE 1 valid_chain_1) as (_ & Ho2 & Hb). split_and!; [|done|done].
      intros c Hc. destruct (HE c Hc) as (P & _). eapply posted_eq; [exact P|]. rewrite <- hit_opp.
      f_equal. f_equal. lia.
    - injection H2 as _ <-. split_and!; [|done|intros b; case_decide; lia].
      intros c Hc. assert (n - AmountForSale o = 0) as -> by lia. rewrite hit_0.
      by apply posted_0. }
  destruct HM as (HP & Ho2 & Hb). rewrite Hst in Ho2, Hb.
  set (o2 := MkSellOrder _ _ _ _ _ _ _ _ _ _) in Hrun.
  pose proof (λ c, SetOrder_spec c _ o2 s2 (Ok u) s' (po_ok _ _ _ _ (HP 1 valid_chain_1)) Hrun) as HS.
  destruct (HS 0) as (_ & Hs' & _). change (order_Id o2) with (order_Id o) in *. rewrite Hid in *.
  split.
  - split; [|rewrite Hs', Ho2; apply (wf_orders_insert _ _ (eo_ChainId msg, eo_OrderId msg) o2);
             [intros k q Hk; rewrite Ho2 in Hk; by apply Hwo|done|done|by rewrite Ho2]].
    intros c Hc. destruct (HS c) as (_ & _ & P2). unfold order_amount in P2. rewrite Ho2, Ho in P2.
    eapply posted_eq; [eapply posted_trans; [exact (same_books_posted c _ _ Hw Hsame)|
      eapply posted_trans; [exact (HP c Hc)|exact P2]]|].
    unfold d_order. rewrite hit_0. cbn [AmountForSale o2]. g_eq.
  - exists o. split_and!; [done..|]. intros b. rewrite Hs'. exact (Hb b).
Qed.

(** ** Lemmas: a committee's instruction set *)

(** The order at [k] keeps its terms, if it is still there. *)
Definition same_terms (o o' : SellOrder) : Prop :=
  AmountForSale o' = AmountForSale o ∧ order_Id o' = order_Id o ∧
  RequestedAmount o' = RequestedAmount o ∧ SellersSendAddress o' = SellersSendAddress o ∧
  SellerReceiveAddress o' = SellerReceiveAddress o.

Record instructed (ch : Z) (closes : list bytes) (s s' : FSM) : Prop := {
  in_wf : wf s';
  in_orders : wf_orders (store s');
  in_books : valid_chain ch → ∀ c, valid_chain c → posted c g_zero s s';
  in_kept : ∀ k o', orders (store s') !! k = Some o' → ∃ o, orders (store s) !! k = Some o ∧ same_terms o o';
  in_gone : ∀ k o, orders (store s) !! k = Some o → orders (store s') !! k = None →
    k.1 = ch ∧ k.2 ∈ closes;
  in_others : ∀ k, k.1 ≠ ch → orders (store s') !! k = orders (store s) !! k;
  in_accounts : ∀ b, acc_bal (store s) b <= acc_bal (store s') b;
}.

Lemma same_terms_refl o : same_terms o o.
Proof. by split_and!. Qed.
Lemma same_terms_trans o1 o2 o3 : same_terms o1 o2 → same_terms o2 o3 → same_terms o1 o3.
Proof. unfold same_terms. intuition congruence. Qed.
Lemma instructed_refl ch l s : wf s → wf_orders (store s) → instructed ch l s s.
Proof.
  intros Hw Hwo. split; try done.
  - intros _ c _. by apply posted_0.
  - intros k o Hk. exists o. by split; [|apply same_terms_refl].
  - intros k o Hk Hn. congruence.
Qed.
Lemma instructed_trans ch l s1 s2 s3 : instructed ch l s1 s2 → instructed ch l s2 s3 → instructed ch l s1 s3.
Proof.
  intros [W1 O1 B1 K1 G1 T1 A1] [W2 O2 B2 K2 G2 T2 A2]. split; [done|done| | | | |].
  - intros Hch c Hc. exact (posted_trans _ _ _ _ _ _ (B1 Hch c Hc) (B2 Hch c Hc)).
  - intros k o3 (o2 & Ho2 & H23)%K2. destruct (K1 k o2 Ho2) as (o1 & ? & ?).
    exists o1. split; [done|]. by eapply same_terms_trans.
  - intros k o Hk Hn. destruct (orders (store s2) !! k) as [o2|] eqn:H2; [by eapply G2|by eapply G1].
  - intros k Hk. rewrite T2, T1; done.
  - intros b. specialize (A1 b). specialize (A2 b). lia.
Qed.

Lemma relabeled_instructed ch id o o' l s s' :
  wf s → wf_orders (store s) → accounts (store s') = accounts (store s) →
  relabeled (ch, id) o o' s s' → same_terms o o' → instructed ch l s s'.
Proof.
  intros Hw Hwo Hacc (Ho & Ha & Hi & HO & HP) Ht. destruct (Hwo _ _ Ho) as [Hid Hu].
  split.
  - apply (HP 0).
  - intros k q. rewrite HO. destruct (decide (k = (ch, id))) as [->|Hne].
    + rewrite lookup_insert_eq. intros [= <-]. by rewrite Hi, Ha.
    + rewrite lookup_insert_ne by done. apply Hwo.
  - intros _ c _. apply HP.
  - intros k q. rewrite HO. destruct (decide (k = (ch, id))) as [->|Hne].
    + rewrite lookup_insert_eq. intros [= <-]. by exists o.
    + rewrite lookup_insert_ne by done. intros Hq. exists q. by split; [|apply same_terms_refl].
  - intros k q Hk. rewrite HO. destruct (decide (k = (ch, id))) as [->|Hne].
    + by rewrite lookup_insert_eq.
    + rewrite lookup_insert_ne by done. congruence.
  - intros k Hk. rewrite HO, lookup_insert_ne; [done|]. by intros <-.
  - intros b. unfold acc_bal. by rewrite Hacc.
Qed.
Lemma closed_instructed ch id o l s s' :
  wf s → wf_orders (store s) → id ∈ l → closed (ch, id) o s s' → instructed ch l s s'.
Proof.
  intros Hw Hwo Hin [Ho Hl HO Hb _ HP Hw']. cbn in HP. destruct (Hwo _ _ Ho) as [_ Hu].
  split; [done| | | | | |].
  - intros k q. rewrite HO. intros [_ Hq]%lookup_delete_Some. by apply Hwo.
  - intros Hch c Hc. by apply HP.
  - intros k q. rewrite HO. intros [_ Hq]%lookup_delete_Some. exists q. by split; [|apply same_terms_refl].
  - intros k q Hq. rewrite HO. intros [<-|Hn]%lookup_delete_None; [done|congruence].
  - intros k Hk. rewrite HO, lookup_delete_ne; [done|]. by intros <-.
  - intros b. rewrite Hb. case_decide; u64.
Qed.

Lemma LockOrder_accounts l ch s r s' : LockOrder l ch s = (r, s') → accounts (store s') = accounts (store s).
Proof.
  unfold LockOrder. destruct (orders (store s) !! (ch, lo_OrderId l)) as [o|] eqn:Ho.
  2:{ rewrite (bind_run_Err _ _ _ ErrOrderNotFound s) by (by rewrite GetOrder_run, Ho). by intros [= <- <-]. }
  rewrite (bind_run_Ok _ _ _ o s) by (by rewrite GetOrder_run, Ho).
  runs. destruct (is_locked o); by intros [= <- <-].
Qed.
Lemma ResetOrder_accounts id ch s r s' : ResetOrder id ch s = (r, s') → accounts (store s') = accounts (store s).
Proof.
  unfold ResetOrder. destruct (orders (store s) !! (ch, id)) as [o|] eqn:Ho.
  2:{ rewrite (bind_run_Err _ _ _ ErrOrderNotFound s) by (by rewrite GetOrder_run, Ho). by intros [= <- <-]. }
  rewrite (bind_run_Ok _ _ _ o s) by (by rewrite GetOrder_run, Ho). runs. by intros [= <- <-].
Qed.

(** A loop whose body never fails and keeps [instructed]. *)
Lemma instructed_loop {A} ch l (xs : list A) (f : A → F unit) s :
  wf s → wf_orders (store s) →
  (∀ x s1, x ∈ xs → wf s1 → wf_orders (store s1) → ∃ s2, f x s1 = (Ok (), s2) ∧ instructed ch l s1 s2) →
  ∃ s2, for_each xs f s = (Ok (), s2) ∧ instructed ch l s s2.
Proof.
  intros Hw Hwo Hf. revert s Hw Hwo. induction xs as [|x xs IH]; intros s Hw Hwo.
  - exists s. split; [done|]. by apply instructed_refl.
  - destruct (Hf x s ltac:(set_solver) Hw Hwo) as (s1 & E & I1).
    destruct (IH ltac:(set_solver) s1 (in_wf _ _ _ _ I1) (in_orders _ _ _ _ I1)) as (s2 & E2 & I2).
    exists s2. rewrite for_each_cons, (bind_run_Ok _ _ _ _ _ E). split; [done|].
    by eapply instructed_trans.
Qed.

Lemma HandleCommitteeSwaps_spec o ch s :
  wf s → wf_orders (store s) →
  ∃ s', HandleCommitteeSwaps (Some o) ch s = (Ok (), s') ∧ instructed ch (CloseOrders o) s s'.
Proof.
  intros Hw Hwo. unfold HandleCommitteeSwaps.
  edestruct (instructed_loop ch (CloseOrders o) (LockOrders o)) as (s1 & E1 & I1); [done|done| |].
  2:{ rewrite (bind_run_Ok _ _ _ _ _ E1).
      edestruct (instructed_loop ch (CloseOrders o) (ResetOrders o)) as (s2 & E2 & I2);
        [exact (in_wf _ _ _ _ I1)|exact (in_orders _ _ _ _ I1)| |].
      2:{ rewrite (bind_run_Ok _ _ _ _ _ E2).
          edestruct (instructed_loop ch (CloseOrders o) (CloseOrders o)) as (s3 & E3 & I3);
            [exact (in_wf _ _ _ _ I2)|exact (in_orders _ _ _ _ I2)| |].
          2:{ exists s3. split; [exact E3|]. eauto using instructed_trans. }
          intros x t Hx Wt Ot. eexists. split; [done|]. cbn.
          destruct (CloseOrder x ch t) as [r t'] eqn:E. apply CloseOrder_spec in E; [|done..].
          destruct r; [destruct E as (q & Hq); by eapply closed_instructed|subst t'; by apply instructed_refl]. }
      intros x t Hx Wt Ot. cbv beta. case_bool_decide.
      { exists t. split; [done|]. by apply instructed_refl. }
      eexists. split; [done|]. cbn. destruct (ResetOrder x ch t) as [r t'] eqn:E.
      apply ResetOrder_accounts in E as Hacc. apply ResetOrder_spec in E; [|done..].
      destruct r; [destruct E as (q & Hq); by eapply relabeled_instructed|subst t'; by apply instructed_refl]. }
  intros [x|] t Hx Wt Ot; [|exists t; split; [done|]; by apply instructed_refl].
  eexists. split; [done|]. cbn. destruct (LockOrder x ch t) as [r t'] eqn:E.
  apply LockOrder_accounts in E as Hacc. apply LockOrder_spec in E; [|done..].
  destruct r; [destruct E as (q & _ & Hq); by eapply relabeled_instructed|subst t'; by apply instructed_refl].
Qed.

(** ** The escrow is solvent *)

(** The transitions of the order book: the seller's three messages and a
    committee's instruction set. *)
Inductive swap_step : FSM → FSM → Prop :=
| swap_create msg s s' : u64 (co_AmountForSale msg) → valid_chain (co_ChainId msg) →
    HandleMessageCreateOrder msg s = (Ok (), s') → swap_step s s'
| swap_edit msg s s' : u64 (eo_AmountForSale msg) → valid_chain (eo_ChainId msg) →
    HandleMessageEditOrder msg s = (Ok (), s') → swap_step s s'
| swap_delete msg s s' : valid_chain (do_ChainId msg) →
    HandleMessageDeleteOrder msg s = (Ok (), s') → swap_step s s'
| swap_instruct o ch s s' : valid_chain ch →
    HandleCommitteeSwaps o ch s = (Ok (), s') → swap_step s s'.

Lemma order_amount_nonneg st k : wf_orders st → 0 <= order_amount st k.
Proof.
  intros Hwo. unfold order_amount. destruct (orders st !! k) as [o|] eqn:Ho; [|done].
  destruct (Hwo _ _ Ho) as [_ Hu]. u64.
Qed.

Lemma swap_step_spec s s' :
  swap_step s s' → wf s → wf_orders (store s) → 0 <= g_total (books 1 (store s)) →
  wf_orders (store s') ∧
  ∃ ch n, 0 <= n ∧ ∀ c, valid_chain c → posted c (Gaps 0 0 0 0 0 (hit ch c n) 0) s s'.
Proof.
  intros Hstep Hw Hwo Hg. destruct Hstep as [msg s s' Hu Hc H|msg s s' Hu Hc H|msg s s' Hc H|o ch s s' Hc H].
  - apply HandleMessageCreateOrder_spec in H as ([HP HO] & _); [|done..].
    split; [done|]. exists (co_ChainId msg), (order_amount (store s) (co_ChainId msg, co_OrderId msg)).
    split; [by apply order_amount_nonneg|done].
  - apply HandleMessageEditOrder_spec in H as ([HP HO] & _); [|done..]. split; [done|]. by exists (eo_ChainId msg), 0.
  - apply HandleMessageDeleteOrder_spec in H as ([HP HO] & _); [|done..]. split; [done|]. by exists (do_ChainId msg), 0.
  - destruct o as [o|]; [|injection H as <-].
    + destruct (HandleCommitteeSwaps_spec o ch s Hw Hwo) as (s2 & E & I). rewrite H in E. injection E as <-.
      split; [apply I|]. exists ch, 0. split; [done|]. intros c Hcv. rewrite hit_0. by apply I.
    + split; [done|]. exists ch, 0. split; [done|]. intros c _. rewrite hit_0. by apply posted_0.
Qed.


(** [CloseOrder] is atomic: either it moves exactly the order's amount from
    the escrow pool to the buyer that locked the order, deletes the order and
    leaves every book unchanged, or the state is exactly as before. *)
Theorem CloseOrder_atomic id ch s r s' :
  wf s → wf_orders (store s) → valid_chain ch → CloseOrder id ch s = (r, s') →
  match r with
  | Err _ => s' = s
  | Ok _ => ∃ o, orders (store s) !! (ch, id) = Some o ∧ is_locked o = true ∧
      orders (store s') = delete (ch, id) (orders (store s)) ∧
      (∀ b, acc_bal (store s') b = acc_bal (store s) b +
         (if decide (b = BuyerReceiveAddress o) then AmountForSale o else 0)) ∧
      pool_bal (store s') (escrow_id ch) = pool_bal (store s) (escrow_id ch) - AmountForSale o ∧
      ∀ c, valid_chain c → books c (store s') = books c (store s)
  end.
Proof.
  intros Hw Hwo Hch Hrun. apply CloseOrder_spec in Hrun; [|done..]. destruct r as [[]|]; [|done].
  destruct Hrun as (o & [Ho Hl HO HB HE HP _]). cbn in HE, HP. exists o. split_and!; [done..| |].
  - rewrite HE, hit_eq. done.
  - intros c Hc. destruct (HP c Hc Hch) as [_ Hsh]. unfold shift in Hsh. by rewrite Hsh, g_add_0_r.
Qed.

(** A committee's instructions never fail as a whole and stay in bounds:
    the books of every valid chain are unchanged, only orders of the committee's
    own chain can change, an order disappears only if it is in the close list,
    the terms of the others are kept, and no account loses tokens. *)
Theorem HandleCommitteeSwaps_bounded o ch s :
  wf s → wf_orders (store s) → valid_chain ch →
  ∃ s', HandleCommitteeSwaps (Some o) ch s = (Ok (), s') ∧ wf s' ∧ wf_orders (store s') ∧
  (∀ c, valid_chain c → books c (store s') = books c (store s)) ∧
  (∀ k, k.1 ≠ ch → orders (store s') !! k = orders (store s) !! k) ∧
  (∀ k q, orders (store s) !! k = Some q → orders (store s') !! k = None → k.2 ∈ CloseOrders o) ∧
  (∀ k q', orders (store s') !! k = Some q' → ∃ q, orders (store s) !! k = Some q ∧ same_terms q q') ∧
  (∀ b, acc_bal (store s) b <= acc_bal (store s') b).
Proof.
  intros Hw Hwo Hch. destruct (HandleCommitteeSwaps_spec o ch s Hw Hwo) as (s' & E & [W O B K G T A]).
  exists s'. split_and!; try done.
  - intros c Hc. destruct (B Hch c Hc) as [_ Hsh]. unfold shift in Hsh. by rewrite Hsh, g_add_0_r.
  - intros k q Hk Hn. by apply (G k q).
Qed.

(** Creating an order under a fresh id and deleting it again returns every
    account to its balance and the order book to its contents. *)
Theorem order_create_delete_roundtrip msg s s1 s2 :
  wf s → wf_orders (store s) → 0 <= g_total (books 1 (store s)) →
  u64 (co_AmountForSale msg) → valid_chain (co_ChainId msg) →
  orders (store s) !! (co_ChainId msg, co_OrderId msg) = None →
  HandleMessageCreateOrder msg s = (Ok (), s1) →
  HandleMessageDeleteOrder (MkDeleteOrder (co_OrderId msg) (co_ChainId msg)) s1 = (Ok (), s2) →
  (∀ b, acc_bal (store s2) b = acc_bal (store s) b) ∧ orders (store s2) = orders (store s) ∧
  ∀ c, valid_chain c → books c (store s2) = books c (store s).
Proof.
  intros Hw Hwo Hg Hu Hch Hnone H1 H2.
  apply HandleMessageCreateOrder_spec in H1 as ([HP1 HO1] & _ & Hb1 & Ho1); [|done..].
  apply HandleMessageDeleteOrder_spec in H2 as ([HP2 HO2] & o & Ho & _ & Hd & Hb2); [|apply (HP1 1), valid_chain_1|done|done].
  cbn in Ho, Hd, HP2. rewrite Ho1, lookup_insert_eq in Ho. injection Ho as <-. cbn in Hb2.
  split_and!.
  - intros b. rewrite Hb2, Hb1. case_decide; lia.
  - rewrite Hd, Ho1. by rewrite delete_insert_id.
  - intros c Hc. destruct (HP1 c Hc) as [_ S1]. destruct (HP2 c Hc) as [_ S2]. unfold shift in S1, S2.
    rewrite S2, S1. unfold order_amount. rewrite Hnone, !hit_0. fold g_zero. by rewrite !g_add_0_r.
Qed.

(** ** Instances *)

Lemma demo_orders : wf_orders demo_store.
Proof. unfold wf_orders. decide_now. Qed.
Definition demo_create : MessageCreateOrder := MkCreateOrder 1 [] 100 200 [x07] bob [xcc].
Definition demo_lock : option Orders :=
  Some (MkOrders [Some (MkLockOrder [xaa] 1 alice [x08] 9)] [] [[xaa]]).


Lemma CloseOrder_atomic_witness :
  let s := snd (LockOrder (MkLockOrder [xaa] 1 alice [x08] 9) 1 demo) in
  let s' := snd (CloseOrder [xaa] 1 s) in
  ∃ o, orders (store s) !! (1, [xaa]) = Some o ∧ is_locked o = true ∧
    pool_bal (store s') (escrow_id 1) = pool_bal (store s) (escrow_id 1) - AmountForSale o.
Proof.
  intros s s'. pose proof (LockOrder_spec (MkLockOrder [xaa] 1 alice [x08] 9) 1 demo (Ok ()) s demo_wf demo_orders
    ltac:(run_now)) as (q & _ & Hq).
  destruct (relabeled_instructed 1 [xaa] q _ [] demo s demo_wf demo_orders ltac:(vm_compute; reflexivity) Hq)
    as [Hw Ho _ _ _ _ _]; [by split_and!|].
  pose proof (CloseOrder_atomic [xaa] 1 s (Ok ()) s' Hw Ho ltac:(by unfold valid_chain) ltac:(run_now))
    as (o & H1 & H2 & _ & _ & H3 & _).
  exists o. split_and!; [exact H1|exact H2|exact H3].
Defined.

Lemma HandleCommitteeSwaps_bounded_witness :
  ∃ s', HandleCommitteeSwaps demo_lock 1 demo = (Ok (), s') ∧
  (∀ c, valid_chain c → books c (store s') = books c (store demo)).
Proof.
  destruct (HandleCommitteeSwaps_bounded (MkOrders [Some (MkLockOrder [xaa] 1 alice [x08] 9)] [] [[xaa]]) 1 demo
    demo_wf demo_orders ltac:(by unfold valid_chain)) as (s' & H1 & _ & _ & H2 & _).
  exists s'. split; [exact H1|exact H2].
Defined.

Lemma order_create_delete_roundtrip_witness :
  let s1 := snd (HandleMessageCreateOrder demo_create demo) in
  let s2 := snd (HandleMessageDeleteOrder (MkDeleteOrder [xcc] 1) s1) in
  acc_bal (store s1) bob = 400 ∧ (∀ b, acc_bal (store s2) b = acc_bal (store demo) b).
Proof.
  intros s1 s2. split; [vm_compute; reflexivity|].
  apply (order_create_delete_roundtrip demo_create demo s1 s2 demo_wf demo_orders);
    [vm_compute; discriminate|decide_now|by unfold valid_chain|vm_compute; reflexivity|run_now|run_now].
Defined.
