(* ===== verification/Quorum.v ===== *)
(** * Validator sets, aggregate signatures and views ([lib/consensus.go])

    A validator set with its +2/3 threshold, the signer bitmap of an aggregate
    signature, and the views of the consensus protocol. *)
From S2P Require Import Prelude LibUtil State Crypto.
#[local] Open Scope Z_scope.

(** ** The validator set *)

Record ConsensusValidator : Type := MkConsensusValidator {
  cv_PublicKey : bytes;
  VotingPower : Z;
  cv_NetAddress : string;
}.

(** [MultiKey] is the list of public keys it is made of, [None] for Go's nil. *)
Record ValidatorSet : Type := MkValidatorSet {
  vs_Validators : list ConsensusValidator;
  MultiKey : option (list bytes);
  TotalPower : Z;
  MinimumMaj23 : Z;
  NumValidators : Z;
}.

(** The loop of [NewValidatorSet]: every key must parse; the power wraps. *)
Fixpoint total_power `{Crypto, Multisig} (isDelegators : bool) (acc : Z) (l : list ConsensusValidator)
    : result ErrorI Z :=
  match l with
  | [] => Ok acc
  | v :: l' =>
      let parsed :=
        if isDelegators then match NewPublicKeyFromBytes (cv_PublicKey v) with Some _ => true | None => false end
        else BytesToBLS12381Point (cv_PublicKey v) in
      if parsed then total_power isDelegators (u64_add acc (VotingPower v)) l'
      else Err ErrPubKeyFromBytes
  end.

Definition minPowerFor23Maj (totalPower : Z) : Z := u64_add (u64_mul 2 totalPower / 3) 1.

Definition NewValidatorSet `{Crypto, Multisig} (validators : option (list ConsensusValidator))
    (isDelegators : bool) : result ErrorI ValidatorSet :=
  match validators with
  | None => Err ErrNoValidators
  | Some l =>
      totalPower ← total_power isDelegators 0 l;
      if totalPower =? 0 then Err ErrNoValidators
      else Ok (MkValidatorSet l (if isDelegators then None else Some (map cv_PublicKey l))
                 totalPower (minPowerFor23Maj totalPower) (Z.of_nat (length l)))
  end.

(** [GetValidatorAndIdx]: the first validator with the key. *)
Fixpoint find_validator (target : bytes) (i : nat) (l : list ConsensusValidator)
    : result ErrorI (ConsensusValidator * nat) :=
  match l with
  | [] => Err ErrValidatorNotInSet
  | v :: l' => if decide (cv_PublicKey v = target) then Ok (v, i) else find_validator target (S i) l'
  end.
Definition GetValidatorAndIdx (vs : ValidatorSet) (targetPublicKey : bytes)
    : result ErrorI (ConsensusValidator * nat) := find_validator targetPublicKey 0 (vs_Validators vs).

(** ** Aggregate signatures *)

Record AggregateSignature : Type := MkAggregateSignature { as_Signature : bytes; Bitmap : bytes }.

Definition BLS12381SignatureSize : Z := 96.

Definition AggregateSignature_CheckBasic (x : option AggregateSignature) : result ErrorI AggregateSignature :=
  match x with
  | None => Err ErrEmptyAggregateSignature
  | Some x =>
      check_not (negb (Z.of_nat (length (as_Signature x)) =? BLS12381SignatureSize)) ErrInvalidAggrSignatureLength;;
      check_not (bool_decide (Bitmap x = [])) ErrEmptySignerBitmap;;
      Ok x
  end.

(** [SignerEnabledAt]: bit [i mod 8] of byte [i / 8]; reading past the mask panics. *)
Definition SignerEnabledAt (mask : bytes) (n i : nat) : result ErrorI bool :=
  if (n <? i)%nat then Err ErrInvalidSignerBitmap
  else match mask !! (i / 8)%nat with
       | Some b => Ok (Z.testbit (byte_to_Z b) (Z.of_nat (i mod 8)))
       | None => Err ErrPanic
       end.

(** The multi key of a set with a bitmap loaded into its copy. *)
Definition key_with_bitmap `{Multisig} (vs : ValidatorSet) (bm : bytes) : result ErrorI (list bytes) :=
  match MultiKey vs with
  | None => Err ErrPanic
  | Some keys => if SetMask (length keys) bm then Ok keys else Err ErrInvalidSignerBitmap
  end.

(** The loop of [getSigners] from index [i] on. *)
Fixpoint collect_signers (bm : bytes) (n : nat) (nonSigners : bool) (i : nat) (l : list ConsensusValidator)
    (pubkeys : list bytes) (power : Z) : result ErrorI (list bytes * Z) :=
  match l with
  | [] => Ok (pubkeys, power)
  | val :: l' =>
      signed ← SignerEnabledAt bm n i;
      if (signed && negb nonSigners) || (negb signed && nonSigners) then
        collect_signers bm n nonSigners (S i) l' (pubkeys ++ [cv_PublicKey val])
          (u64_add power (VotingPower val))
      else collect_signers bm n nonSigners (S i) l' pubkeys power
  end.
Definition getSigners `{Multisig} (x : AggregateSignature) (vs : ValidatorSet) (nonSigners : bool)
    : result ErrorI (list bytes * Z) :=
  keys ← key_with_bitmap vs (Bitmap x);
  collect_signers (Bitmap x) (length keys) nonSigners 0 (vs_Validators vs) [] 0.
Definition GetSigners `{Multisig} (x : AggregateSignature) (vs : ValidatorSet) := getSigners x vs false.

Definition GetNonSigners `{Crypto, Multisig} (x : AggregateSignature)
    (validatorList : option (list ConsensusValidator)) : result ErrorI (list bytes * Z) :=
  vs ← NewValidatorSet validatorList false;
  '(nonSignerPubKeys, nonSignerPower) ← getSigners x vs true;
  Ok (nonSignerPubKeys, Uint64PercentageDiv nonSignerPower (TotalPower vs)).

(** [AggregateSignature.Check]: [Ok true] is a valid signature short of +2/3. *)
Definition AggregateSignature_Check `{Multisig} (x : option AggregateSignature) (signBytes : bytes)
    (vs : ValidatorSet) : result ErrorI bool :=
  x ← AggregateSignature_CheckBasic x;
  keys ← key_with_bitmap vs (Bitmap x);
  check_not (negb (VerifyBytes keys (Bitmap x) signBytes (as_Signature x))) ErrInvalidAggrSignature;;
  '(_, totalSignedPower) ← GetSigners x vs;
  Ok (totalSignedPower <? MinimumMaj23 vs).

Fixpoint collect_double (bm1 bm2 : bytes) (n : nat) (i : nat) (l : list ConsensusValidator)
    (doubleSigners : list bytes) : result ErrorI (list bytes) :=
  match l with
  | [] => Ok doubleSigners
  | val :: l' =>
      signed ← SignerEnabledAt bm1 n i;
      if negb signed then collect_double bm1 bm2 n (S i) l' doubleSigners
      else
        signed2 ← SignerEnabledAt bm2 n i;
        collect_double bm1 bm2 n (S i) l'
          (if signed2 : bool then doubleSigners ++ [cv_PublicKey val] else doubleSigners)
  end.
Definition GetDoubleSigners `{Multisig} (x y : AggregateSignature) (vs : ValidatorSet)
    : result ErrorI (list bytes) :=
  keys ← key_with_bitmap vs (Bitmap x);
  _ ← key_with_bitmap vs (Bitmap y);
  collect_double (Bitmap x) (Bitmap y) (length keys) 0 (vs_Validators vs) [].

(** ** Views *)

Inductive Phase : Type :=
| UNKNOWN | ELECTION | ELECTION_VOTE | PROPOSE | PROPOSE_VOTE | PRECOMMIT | PRECOMMIT_VOTE
| COMMIT | COMMIT_PROCESS | ROUND_INTERRUPT | PACEMAKER.
Definition phase_num (p : Phase) : Z :=
  match p with
  | UNKNOWN => 0 | ELECTION => 1 | ELECTION_VOTE => 2 | PROPOSE => 3 | PROPOSE_VOTE => 4
  | PRECOMMIT => 5 | PRECOMMIT_VOTE => 6 | COMMIT => 7 | COMMIT_PROCESS => 8
  | ROUND_INTERRUPT => 9 | PACEMAKER => 10
  end.
#[export] Instance Phase_eq_dec : EqDecision Phase.
Proof. solve_decision. Defined.

Record View : Type := MkView {
  NetworkId : Z;
  view_ChainId : Z;
  view_Height : Z;
  RootHeight : Z;
  Round : Z;
  view_Phase : Phase;
}.
#[export] Instance View_eq_dec : EqDecision View.
Proof. solve_decision. Defined.

Definition View_Check (x : option View) (view : View) (enforceHeights : bool) : result ErrorI View :=
  match x with
  | None => Err ErrEmptyView
  | Some x =>
      check_not (negb (NetworkId view =? NetworkId x)) ErrWrongNetworkID;;
      check_not (negb (view_ChainId view =? view_ChainId x)) ErrWrongChainId;;
      check_not (enforceHeights && negb (view_Height x =? view_Height view)) ErrWrongViewHeight;;
      check_not (enforceHeights && negb (RootHeight x =? RootHeight view)) ErrWrongRootHeight;;
      Ok x
  end.

Definition View_Equals (x v : option View) : bool :=
  match x, v with
  | Some x, Some v =>
      if negb (view_Height x =? view_Height v) then false
      else if negb (RootHeight x =? RootHeight v) then false
      else if negb (view_ChainId x =? view_ChainId v) then false
      else if negb (NetworkId x =? NetworkId v) then false
      else if negb (Round x =? Round v) then false
      else bool_decide (view_Phase x = view_Phase v)
  | _, _ => false
  end.

Definition View_Less (x v : option View) : bool :=
  match v with
  | None => false
  | Some v =>
      match x with
      | None => true
      | Some x =>
          if view_Height x <? view_Height v then true
          else if view_Height v <? view_Height x then false
          else if RootHeight x <? RootHeight v then true
          else if RootHeight v <? RootHeight x then false
          else if Round x <? Round v then true
          else if Round v <? Round x then false
          else phase_num (view_Phase x) <? phase_num (view_Phase v)
      end
  end.

(** ** Lemmas *)

(** The bit of a mask, and the validators at the positions a predicate selects. *)
Definition bit (bm : bytes) (i : nat) : bool :=
  match bm !! (i / 8)%nat with Some b => Z.testbit (byte_to_Z b) (Z.of_nat (i mod 8)) | None => false end.
Fixpoint picked (f : nat → bool) (i : nat) (l : list ConsensusValidator) : list ConsensusValidator :=
  match l with
  | [] => []
  | v :: l' => if f i then v :: picked f (S i) l' else picked f (S i) l'
  end.
Definition power (l : list ConsensusValidator) : Z := list_sum VotingPower l.
Definition powers_ok (l : list ConsensusValidator) : Prop := Forall (λ v, 0 <= VotingPower v) l.
(** The mask covers the validators from index [i] on. *)
Definition covers (bm : bytes) (n i : nat) (l : list ConsensusValidator) : Prop :=
  ∀ j, (i <= j < i + length l)%nat → SignerEnabledAt bm n j = Ok (bit bm j).

Lemma power_cons v l : power (v :: l) = VotingPower v + power l.
Proof. done. Qed.
Lemma power_nonneg l : powers_ok l → 0 <= power l.
Proof. intros H. apply list_sum_nonneg. by rewrite <- Forall_forall. Qed.
Lemma picked_ok f i l : powers_ok l → powers_ok (picked f i l).
Proof.
  unfold powers_ok. intros H. revert i. induction H; intros i; cbn; [constructor|].
  destruct (f i); [constructor|]; auto.
Qed.
Lemma picked_split f i l : power (picked f i l) + power (picked (λ j, negb (f j)) i l) = power l.
Proof.
  revert i. induction l as [|v l IH]; intros i; cbn [picked]; [done|].
  specialize (IH (S i)). destruct (f i); cbn [negb]; rewrite ?power_cons; lia.
Qed.
Lemma picked_inter f g i l :
  powers_ok l → power (picked f i l) + power (picked g i l) <= power l + power (picked (λ j, f j && g j) i l).
Proof.
  intros H. revert i. induction H as [|v l Hv H IH]; intros i; cbn [picked]; [done|].
  specialize (IH (S i)). destruct (f i), (g i); cbn [andb]; rewrite ?power_cons; lia.
Qed.
Lemma picked_le_filter (P : ConsensusValidator → Prop) `{∀ v, Decision (P v)} f i l :
  powers_ok l → (∀ v, v ∈ picked f i l → P v) → power (picked f i l) <= power (filter P l).
Proof.
  intros Hok. revert i. induction Hok as [|v l Hv Hok IH]; intros i Hp; cbn [picked] in *; [done|].
  rewrite filter_cons. destruct (f i).
  - rewrite decide_True by (apply Hp; set_solver). rewrite !power_cons.
    enough (power (picked f (S i) l) <= power (filter P l)) by lia. apply IH. set_solver.
  - specialize (IH (S i) Hp). case_decide; rewrite ?power_cons; lia.
Qed.

Lemma SignerEnabledAt_bit bm n i b : SignerEnabledAt bm n i = Ok b → b = bit bm i.
Proof.
  unfold SignerEnabledAt, bit. destruct (_ <? _)%nat; [done|]. destruct (bm !! _); by intros [= <-].
Qed.
Lemma covers_tail bm n i v l : covers bm n i (v :: l) → covers bm n (S i) l.
Proof. intros H j Hj. apply H. cbn. lia. Qed.
Lemma covers_head bm n i v l : covers bm n i (v :: l) → SignerEnabledAt bm n i = Ok (bit bm i).
Proof. intros H. apply H. cbn. lia. Qed.
Lemma covers_cons bm n i v l :
  SignerEnabledAt bm n i = Ok (bit bm i) → covers bm n (S i) l → covers bm n i (v :: l).
Proof.
  intros H1 H2 j Hj. destruct (decide (j = i)) as [->|]; [done|]. apply H2. cbn in Hj. lia.
Qed.

(** What the loop of [getSigners] collects. *)
Lemma collect_signers_spec bm n ns i l pks pw :
  powers_ok l → 0 <= pw → pw + power l < two64 → covers bm n i l →
  collect_signers bm n ns i l pks pw =
    Ok (pks ++ map cv_PublicKey (picked (λ j, xorb (bit bm j) ns) i l),
        pw + power (picked (λ j, xorb (bit bm j) ns) i l)).
Proof.
  intros Hok. revert i pks pw. induction Hok as [|v l Hv Hok IH]; intros i pks pw H0 Hs Hc; cbn.
  { f_equal. f_equal; [by rewrite app_nil_r|]. change (power []) with 0. lia. }
  rewrite (covers_head _ _ _ _ _ Hc). pose proof (power_nonneg _ Hok). rewrite power_cons in Hs.
  assert (Hx : (bit bm i && negb ns) || (negb (bit bm i) && ns) = xorb (bit bm i) ns)
    by (by destruct (bit bm i), ns).
  cbn. rewrite Hx. apply covers_tail in Hc. destruct (xorb (bit bm i) ns).
  - rewrite u64_add_small by u64. rewrite IH by (done || lia).
    f_equal. f_equal; [by rewrite <- app_assoc|]. rewrite power_cons. lia.
  - apply IH; [done | lia | done].
Qed.
Lemma collect_signers_covers bm n ns i l pks pw r :
  collect_signers bm n ns i l pks pw = Ok r → covers bm n i l.
Proof.
  revert i pks pw. induction l as [|v l IH]; intros i pks pw; cbn; [intros _ j Hj; cbn in Hj; lia|].
  intros (b & Hb & Hr)%result_bind_Ok. apply covers_cons; [by rewrite Hb, (SignerEnabledAt_bit _ _ _ _ Hb)|].
  case_match; by eapply IH.
Qed.
Lemma collect_double_spec bm1 bm2 n i l ds :
  covers bm1 n i l → covers bm2 n i l →
  collect_double bm1 bm2 n i l ds =
    Ok (ds ++ map cv_PublicKey (picked (λ j, bit bm1 j && bit bm2 j) i l)).
Proof.
  revert i ds. induction l as [|v l IH]; intros i ds H1 H2; cbn; [by rewrite app_nil_r|].
  rewrite (covers_head _ _ _ _ _ H1). cbn. apply covers_head in H2 as Hh.
  apply covers_tail in H1, H2. destruct (bit bm1 i); cbn; [|by apply IH].
  rewrite Hh. cbn. rewrite IH by done. f_equal. destruct (bit bm2 i); cbn; [|done].
  by rewrite <- app_assoc.
Qed.

Lemma total_power_spec `{Crypto, Multisig} b acc l tp :
  powers_ok l → 0 <= acc → acc + power l < two64 → total_power b acc l = Ok tp → tp = acc + power l.
Proof.
  intros Hok. revert acc. induction Hok as [|v l Hv Hok IH]; intros acc Hacc Hs; cbn.
  { intros [= <-]. change (power []) with 0. lia. }
  pose proof (power_nonneg _ Hok). rewrite power_cons in *.
  case_match; [|done]. rewrite u64_add_small by u64. intros Hr%IH; [lia..|]. lia.
Qed.
Lemma minPowerFor23Maj_exact tp : 0 <= 2 * tp < two64 → minPowerFor23Maj tp = 2 * tp / 3 + 1.
Proof.
  intros. unfold minPowerFor23Maj. rewrite u64_mul_small by u64.
  pose proof (Z.div_pos (2 * tp) 3 ltac:(lia) ltac:(lia)).
  pose proof (Z.div_le_upper_bound (2 * tp) 3 (tp) ltac:(lia) ltac:(lia)).
  apply u64_add_small. u64.
Qed.

(** A set built from validators whose total power is at most half the word. *)
Record proper_set `{Crypto, Multisig} (l : list ConsensusValidator) (vs : ValidatorSet) : Prop := {
  ps_new : NewValidatorSet (Some l) false = Ok vs;
  ps_ok : powers_ok l;
  ps_range : 2 * power l < two64;
}.
Lemma proper_set_spec `{Crypto, Multisig} l vs :
  proper_set l vs →
  vs = MkValidatorSet l (Some (map cv_PublicKey l)) (power l) (2 * power l / 3 + 1) (Z.of_nat (length l))
  ∧ 0 < power l.
Proof.
  intros [Hnew Hok Hr]. pose proof (power_nonneg l Hok). cbn in Hnew.
  apply result_bind_Ok in Hnew as (tp & Htp & Hnew).
  apply total_power_spec in Htp; [|done|lia|lia]. rewrite Z.add_0_l in Htp. subst tp.
  destruct (Z.eqb_spec (power l) 0); [done|]. injection Hnew as <-.
  rewrite minPowerFor23Maj_exact by lia. split; [done|lia].
Qed.

(** What a successful signature check says. *)
Lemma AggregateSignature_Check_spec `{Crypto, Multisig} l vs x msg p :
  proper_set l vs → AggregateSignature_Check (Some x) msg vs = Ok p →
  covers (Bitmap x) (length l) 0 l ∧ SetMask (length l) (Bitmap x) = true ∧
  VerifyBytes (map cv_PublicKey l) (Bitmap x) msg (as_Signature x) = true ∧
  p = (power (picked (bit (Bitmap x)) 0 l) <? MinimumMaj23 vs).
Proof.
  intros Hps. pose proof (proper_set_spec _ _ Hps) as [-> Hpos]. destruct Hps as [_ Hok Hr].
  unfold AggregateSignature_Check. intros Hrun.
  apply result_bind_Ok in Hrun as (x' & Hx & Hrun).
  assert (x' = x) as ->.
  { cbn in Hx. apply result_bind_Ok in Hx as (? & _ & Hx). apply result_bind_Ok in Hx as (? & _ & Hx).
    by injection Hx. }
  apply result_bind_Ok in Hrun as (keys & Hk & Hrun). cbn in Hk. rewrite length_map in Hk.
  destruct (SetMask (length l) (Bitmap x)) eqn:Hmask; [|done]. injection Hk as <-.
  apply result_bind_Ok in Hrun as ([] & Hv & Hrun). apply check_not_Ok, negb_false_iff in Hv.
  apply result_bind_Ok in Hrun as ([pks pw] & Hg & Hrun). injection Hrun as <-.
  unfold GetSigners, getSigners, key_with_bitmap in Hg. cbn in Hg. rewrite length_map, Hmask in Hg.
  cbn in Hg. rewrite length_map in Hg.
  pose proof (collect_signers_covers _ _ _ _ _ _ _ _ Hg) as Hc.
  rewrite collect_signers_spec in Hg by (done || lia). injection Hg as _ <-.
  split_and!; [done..|]. cbn. f_equal.
  assert (Hext : ∀ i, picked (λ j, xorb (bit (Bitmap x) j) false) i l = picked (bit (Bitmap x)) i l).
  { clear. induction l as [|v l IH]; intros i; cbn; [done|]. rewrite xorb_false_r. by rewrite !IH. }
  by rewrite Hext.
Qed.

(** Two verified signatures, full or partial: the double signers are exactly the
    validators in both bitmaps. *)
Lemma GetDoubleSigners_run `{Crypto, Multisig} l vs x y mx my p q :
  proper_set l vs → AggregateSignature_Check (Some x) mx vs = Ok p →
  AggregateSignature_Check (Some y) my vs = Ok q →
  GetDoubleSigners x y vs =
    Ok (map cv_PublicKey (picked (λ j, bit (Bitmap x) j && bit (Bitmap y) j) 0 l)).
Proof.
  intros Hps Hx Hy. pose proof (proper_set_spec _ _ Hps) as [Hvs _].
  apply (AggregateSignature_Check_spec l) in Hx as (Cx & Mx & _); [|done].
  apply (AggregateSignature_Check_spec l) in Hy as (Cy & My & _); [|done].
  unfold GetDoubleSigners, key_with_bitmap. rewrite Hvs. cbn. rewrite length_map, Mx, My. cbn.
  rewrite length_map. by rewrite collect_double_spec.
Qed.

(** ** Properties *)

(** C24. Accountable safety of the +2/3 rule: when two aggregate signatures, on
    whatever payloads, both check as full certificates against the same
    validator set, [GetDoubleSigners] succeeds and the validators it exposes
    hold more than a third of the total voting power (as long as twice the
    total power fits in 64 bits). *)
Theorem double_certificate_exposes_third `{Crypto, Multisig} l vs x y mx my :
  proper_set l vs →
  AggregateSignature_Check (Some x) mx vs = Ok false →
  AggregateSignature_Check (Some y) my vs = Ok false →
  ∃ ds, GetDoubleSigners x y vs = Ok ds ∧
    TotalPower vs < 3 * power (filter (λ v, cv_PublicKey v ∈ ds) l).
Proof.
  intros Hps Hx Hy. eexists. split; [by eapply GetDoubleSigners_run|].
  pose proof (proper_set_spec _ _ Hps) as [Hvs _]. pose proof (ps_ok _ _ Hps) as Hok.
  apply (AggregateSignature_Check_spec l) in Hx as (_ & _ & _ & Hx); [|done].
  apply (AggregateSignature_Check_spec l) in Hy as (_ & _ & _ & Hy); [|done].
  symmetry in Hx, Hy. apply Z.ltb_ge in Hx, Hy. rewrite Hvs in *. cbn in *.
  set (f := λ j, bit (Bitmap x) j && bit (Bitmap y) j).
  pose proof (picked_inter (bit (Bitmap x)) (bit (Bitmap y)) 0 l Hok) as Hi. fold f in Hi.
  pose proof (picked_le_filter (λ v, cv_PublicKey v ∈ map cv_PublicKey (picked f 0 l)) f 0 l Hok) as Hf.
  assert (power (picked f 0 l) <= power (filter (λ v, cv_PublicKey v ∈ map cv_PublicKey (picked f 0 l)) l)).
  { apply Hf. intros v Hv. by apply (list_elem_of_fmap_2 cv_PublicKey). }
  pose proof (Z.div_mod (2 * power l) 3 ltac:(lia)). pose proof (Z.mod_pos_bound (2 * power l) 3 ltac:(lia)).
  lia.
Qed.

(** Signers and non-signers partition the validator set: for a signature
    that passed its check, [getSigners] returns for either side the public keys
    selected by the bitmap with exactly their power, the two powers add up to
    the total, and the signature is full precisely when strictly more than two
    thirds of the power signed; the non-signer percentage of a full certificate
    is at most 33. *)
Theorem signers_partition `{Crypto, Multisig} l vs x m p :
  proper_set l vs → 100 * power l < two64 →
  AggregateSignature_Check (Some x) m vs = Ok p →
  ∃ S NS np pct,
    getSigners x vs false = Ok (map cv_PublicKey S, power S) ∧
    getSigners x vs true = Ok (map cv_PublicKey NS, power NS) ∧
    S ++ NS ≡ₚ l ∧ power S + power NS = TotalPower vs ∧
    (p = false ↔ 2 * TotalPower vs < 3 * power S) ∧
    GetNonSigners x (Some l) = Ok (np, pct) ∧ np = map cv_PublicKey NS ∧
    pct = 100 * power NS / TotalPower vs ∧ (p = false → pct <= 33).
Proof.
  intros Hps Hr Hc. pose proof (proper_set_spec _ _ Hps) as [Hvs Hpos].
  pose proof (ps_ok _ _ Hps) as Hok. pose proof (ps_range _ _ Hps) as H2.
  apply (AggregateSignature_Check_spec l) in Hc as (Hcov & Hmask & _ & Hp); [|done].
  set (fS := λ j, xorb (bit (Bitmap x) j) false). set (fN := λ j, xorb (bit (Bitmap x) j) true).
  assert (Hrun : ∀ ns, getSigners x vs ns =
    Ok (map cv_PublicKey (picked (λ j, xorb (bit (Bitmap x) j) ns) 0 l),
        power (picked (λ j, xorb (bit (Bitmap x) j) ns) 0 l))).
  { intros ns. unfold getSigners, key_with_bitmap. rewrite Hvs. cbn. rewrite length_map, Hmask. cbn.
    rewrite length_map. by rewrite collect_signers_spec by (done || lia). }
  assert (HS : picked (bit (Bitmap x)) 0 l = picked fS 0 l).
  { unfold fS. clear. generalize 0%nat. induction l as [|v l IH]; intros i; cbn; [done|].
    rewrite xorb_false_r. by rewrite !IH. }
  assert (Hsplit : power (picked fS 0 l) + power (picked fN 0 l) = power l).
  { rewrite <- (picked_split fS 0 l). f_equal. f_equal. unfold fS, fN. clear. generalize 0%nat.
    induction l as [|v l IH]; intros i; cbn; [done|].
    rewrite xorb_true_r, xorb_false_r. by rewrite !IH. }
  assert (Hperm : picked fS 0 l ++ picked fN 0 l ≡ₚ l).
  { unfold fS, fN. clear. generalize 0%nat. induction l as [|v l IH]; intros i; cbn; [done|].
    rewrite xorb_true_r, xorb_false_r. destruct (bit (Bitmap x) i); cbn.
    - by rewrite IH.
    - by rewrite <- Permutation_middle, IH. }
  pose proof (power_nonneg _ (picked_ok fN 0 l Hok)) as HN.
  pose proof (power_nonneg _ (picked_ok fS 0 l Hok)) as HS0.
  pose proof (Z.div_mod (2 * power l) 3 ltac:(lia)). pose proof (Z.mod_pos_bound (2 * power l) 3 ltac:(lia)).
  assert (Hiff : p = false ↔ 2 * power l < 3 * power (picked fS 0 l)).
  { rewrite Hp, HS, Hvs. cbn. rewrite Z.ltb_ge. lia. }
  exists (picked fS 0 l), (picked fN 0 l), (map cv_PublicKey (picked fN 0 l)),
    (100 * power (picked fN 0 l) / power l).
  split_and!; [exact (Hrun false) | exact (Hrun true) | done | by rewrite Hvs | by rewrite Hvs | | done
    | by rewrite Hvs |].
  - unfold GetNonSigners. rewrite (ps_new _ _ Hps). cbn. rewrite (Hrun true). cbn. rewrite Hvs. cbn.
    unfold Uint64PercentageDiv. fold fN. do 2 f_equal.
    destruct (Z.eqb_spec (power (picked fN 0 l)) 0) as [->|]; [by rewrite Z.mul_0_r, Z.div_0_l by lia|].
    destruct (Z.eqb_spec (power l) 0); [lia|]. cbn.
    rewrite u64_mul_small by u64. rewrite (Z.mul_comm _ 100).
    assert (100 * power (picked fN 0 l) / power l <= 100) by (apply Z.div_le_upper_bound; lia).
    by replace (100 <? _) with false by (symmetry; apply Z.ltb_ge; lia).
  - intros Hf%Hiff. apply Z.lt_succ_r. apply Z.div_lt_upper_bound; lia.
Qed.

(** C25. The majority threshold is computed on wrapped words: it is the least
    power above two thirds exactly when the total power is below 2^63; from
    there on it falls to two thirds or less (1 at 2^63). *)
Theorem min_majority_exact tp :
  u64 tp →
  (tp < two64 / 2 ↔ 2 * tp < 3 * minPowerFor23Maj tp) ∧
  (tp < two64 / 2 → ∀ q, 2 * tp < 3 * q → minPowerFor23Maj tp <= q) ∧
  minPowerFor23Maj (two64 / 2) = 1.
Proof.
  intros Htp. change (two64 / 2) with 9223372036854775808.
  destruct (Z.lt_ge_cases tp 9223372036854775808) as [Hlt|Hge].
  - rewrite (minPowerFor23Maj_exact tp) by u64.
    pose proof (Z.mul_div_le (2 * tp) 3 ltac:(lia)). pose proof (Z.mul_succ_div_gt (2 * tp) 3 ltac:(lia)).
    split_and!; [lia| |reflexivity]. intros _ q Hq. lia.
  - assert (minPowerFor23Maj tp = (2 * tp - two64) / 3 + 1) as ->.
    { unfold minPowerFor23Maj, u64_mul. replace (wrap64 (2 * tp)) with (2 * tp - two64) by (unfold wrap64; apply (Z.mod_unique _ _ 1); u64).
      pose proof (Z.div_le_upper_bound (2 * tp - two64) 3 two64 ltac:(lia) ltac:(u64)).
      pose proof (Z.div_pos (2 * tp - two64) 3 ltac:(u64) ltac:(lia)).
      apply u64_add_small. assert ((2 * tp - two64) / 3 <= two64 / 3) by (apply Z.div_le_mono; u64).
      change (two64 / 3) with 6148914691236517205 in *. u64. }
    pose proof (Z.mul_div_le (2 * tp - two64) 3 ltac:(lia)).
    split_and!; [|lia|reflexivity]. split; [lia|]. intros. u64.
Qed.
Lemma min_majority_exact_witness :
  2 * 40 < 3 * minPowerFor23Maj 40 ∧ minPowerFor23Maj (two64 / 2) = 1.
Proof.
  destruct (min_majority_exact 40 ltac:(u64)) as (H1 & _ & H3). split; [by apply H1|exact H3].
Defined.

(** [View.Less] is a strict order, total on the views of one chain:
    of two views of the same network and chain exactly one of less, equal and
    greater holds, and [Equals] is equality. *)
Theorem View_Less_order a b c :
  View_Less (Some a) (Some a) = false ∧
  (View_Less (Some a) (Some b) = true → View_Less (Some b) (Some c) = true →
     View_Less (Some a) (Some c) = true) ∧
  (View_Less (Some a) (Some b) = true → View_Less (Some b) (Some a) = false) ∧
  (NetworkId a = NetworkId b → view_ChainId a = view_ChainId b →
     View_Less (Some a) (Some b) = false → View_Less (Some b) (Some a) = false → a = b) ∧
  (View_Equals (Some a) (Some b) = true ↔ a = b).
Proof.
  assert (Hphase : ∀ p q, phase_num p = phase_num q → p = q) by (intros [] []; done).
  destruct a as [n1 c1 h1 r1 d1 p1], b as [n2 c2 h2 r2 d2 p2], c as [n3 c3 h3 r3 d3 p3]. cbn.
  split_and!.
  - rewrite !Z.ltb_irrefl. done.
  - repeat case_match; zify_bools; try done; intros; zify_bools; try lia.
  - repeat case_match; zify_bools; try done; intros; zify_bools; try lia; apply Z.ltb_ge; lia.
  - intros -> ->. repeat case_match; zify_bools; try done; intros; zify_bools; try lia.
    f_equal; solve [lia | apply Hphase; lia].
  - split.
    + repeat case_match; zify_bools; try done. intros. zify_bools. congruence.
    + intros [= -> -> -> -> -> ->]. rewrite !Z.eqb_refl. cbn. by apply bool_decide_eq_true.
Qed.

(** ** Witnesses *)

Definition four : list ConsensusValidator :=
  [MkConsensusValidator [x01] 10 EmptyString; MkConsensusValidator [x02] 10 EmptyString;
   MkConsensusValidator [x03] 10 EmptyString; MkConsensusValidator [x04] 10 EmptyString].
Definition four_set : ValidatorSet := MkValidatorSet four (Some [[x01]; [x02]; [x03]; [x04]]) 40 27 4.
Definition payload (b : byte) : bytes := replicate 96 b.
Lemma four_proper : @proper_set toy_crypto toy_multisig four four_set.
Proof. split; [done | repeat constructor; cbn; lia | done]. Qed.

(** Validators 1-3 sign one payload, 2-4 another: 2 and 3 are exposed. *)
Lemma double_certificate_exposes_third_witness :
  ∃ ds, @GetDoubleSigners toy_multisig (MkAggregateSignature (payload x00) [x07])
      (MkAggregateSignature (payload x01) [x0e]) four_set = Ok ds ∧
    40 < 3 * power (filter (λ v, cv_PublicKey v ∈ ds) four).
Proof.
  apply (@double_certificate_exposes_third toy_crypto toy_multisig four four_set _ _ (payload x00)
    (payload x01)); [apply four_proper | vm_compute; reflexivity | vm_compute; reflexivity].
Defined.

Lemma signers_partition_witness :
  ∃ S NS np pct,
    @getSigners toy_multisig (MkAggregateSignature (payload x00) [x07]) four_set false
      = Ok (map cv_PublicKey S, power S) ∧
    @getSigners toy_multisig (MkAggregateSignature (payload x00) [x07]) four_set true
      = Ok (map cv_PublicKey NS, power NS) ∧
    S ++ NS ≡ₚ four ∧ power S + power NS = 40 ∧
    (false = false ↔ 2 * 40 < 3 * power S) ∧
    @GetNonSigners toy_crypto toy_multisig (MkAggregateSignature (payload x00) [x07]) (Some four)
      = Ok (np, pct) ∧ np = map cv_PublicKey NS ∧
    pct = 100 * power NS / 40 ∧ (false = false → pct <= 33).
Proof.
  apply (@signers_partition toy_crypto toy_multisig four four_set _ (payload x00) false);
    [apply four_proper | reflexivity | vm_compute; reflexivity].
Defined.
