(* ===== verification/Certificate.v ===== *)
(** * Quorum certificates and their results ([lib/certificate.go])

    The messages of [certificate.proto], their stateless checks and their
    equality tests. *)
From S2P Require Import Prelude LibUtil State Crypto Wire Account Quorum Byzantine Swap.
#[local] Open Scope Z_scope.

(** ** Messages *)

Record RewardRecipients : Type := MkRewardRecipients {
  PaymentPercentsList : list PaymentPercents;
  rr_NumberOfSamples : Z;
}.
Record Checkpoint : Type := MkCheckpoint { cp_Height : Z; cp_BlockHash : bytes }.

(** A nil message field is [None]; an empty byte field is an absent one. *)
Record CertificateResult : Type := MkCertificateResult {
  cr_RewardRecipients : option RewardRecipients;
  cr_SlashRecipients : option (list DoubleSigner);
  cr_Orders : option Orders;
  cr_Checkpoint : option Checkpoint;
  cr_Retired : bool;
  cr_DexBatch : option DexBatch;
  cr_RootDexBatch : option DexBatch;
}.
Record QuorumCertificate : Type := MkQuorumCertificate {
  Header : option View;
  Results : option CertificateResult;
  ResultsHash : bytes;
  qc_Block : bytes;
  BlockHash : bytes;
  ProposerKey : bytes;
  Signature : option AggregateSignature;
}.

(** Protobuf's serialization and the block type behind it are parameters. *)
Class Codec : Type := {
  MarshalQC : QuorumCertificate → bytes;
  MarshalCertificateResult : CertificateResult → bytes;
  MarshalDexBatch : DexBatch → bytes;
  MarshalDexLimitOrder : DexLimitOrder → bytes;
  (** [Unmarshal(x.Block, block)] and [block.Transactions] *)
  BlockTransactions : bytes → option (list bytes);
  (** [int(units.MB)] *)
  MB : Z;
  (** the wire format the block hash is read from *)
  Codec_wire :: ProtoWire;
}.

Definition HashSize : Z := 32.
Definition AddressSize : Z := 20.
Definition BLS12381PubKeySize : Z := 48.
Definition MaxDepositsPerDexBatch : Z := 5000.
Definition MaxWithdrawsPerDexBatch : Z := 5000.
Definition MaxOrdersPerDexBatch : Z := 10000.
Definition MaxReceipts : Z := MaxOrdersPerDexBatch.

Definition len {A} (l : list A) : Z := Z.of_nat (length l).

(** ** Stateless checks

    Elements of protobuf lists are never nil here, the tests for it are dropped;
    lock orders, whose handler has a case for nil, keep theirs. *)

(** The running allocation per chain. *)
Fixpoint check_percents (chainMap : gmap Z Z) (l : list PaymentPercents) : result ErrorI unit :=
  match l with
  | [] => Ok ()
  | pp :: l' =>
      let sum := default 0 (chainMap !! pay_ChainId pp) in
      check_not (pay_ChainId pp =? 0) ErrEmptyChainId;;
      check_not (negb (len (pay_Address pp) =? AddressSize)) ErrInvalidAddress;;
      check_not (u64_sub u64_max (pay_Percent pp) <? sum) ErrInvalidPercentAllocation;;
      check_not (100 <? u64_add sum (pay_Percent pp)) ErrInvalidPercentAllocation;;
      check_percents (<[pay_ChainId pp := u64_add sum (pay_Percent pp)]> chainMap) l'
  end.
Definition RewardRecipients_CheckBasic (x : option RewardRecipients) : result ErrorI unit :=
  match x with
  | None => Err ErrNilRewardRecipients
  | Some x =>
      let paymentRecipientCount := len (PaymentPercentsList x) in
      check_not ((paymentRecipientCount =? 0) || (100 <? paymentRecipientCount)) ErrPaymentRecipientsCount;;
      check_percents ∅ (PaymentPercentsList x)
  end.

Definition SlashRecipients_CheckBasic (x : option (list DoubleSigner)) : result ErrorI unit :=
  match x with
  | None => Ok ()
  | Some l => check_all (λ r,
      check_not (bool_decide (Heights r = []) || bool_decide (ds_Id r = [])) ErrInvalidDoubleSigner) l
  end.

(** The [DeDuplicator] loops. *)
Fixpoint check_distinct (e : ErrorI) (seen : gset bytes) (l : list bytes) : result ErrorI unit :=
  match l with
  | [] => Ok ()
  | k :: l' => let '(found, seen') := Found seen k in
               if found then Err e else check_distinct e seen' l'
  end.

Definition Orders_CheckBasic (x : option Orders) : result ErrorI unit :=
  match x with
  | None => Ok ()
  | Some x =>
      check_not ((MaxOrdersPerDexBatch <? len (LockOrders x)) || (MaxOrdersPerDexBatch <? len (ResetOrders x))
        || (MaxOrdersPerDexBatch <? len (CloseOrders x))) ErrTooManyDexOrders;;
      check_all (λ l,
        match l with
        | None => Err ErrNilLockOrder
        | Some lock =>
            check_not (len (lo_BuyerSendAddress lock) =? 0) ErrInvalidBuyerSendAddress;;
            check_not (negb (len (lo_BuyerReceiveAddress lock) =? AddressSize)) ErrInvalidBuyerReceiveAddress;;
            check_not (lo_BuyerChainDeadline lock =? 0) ErrInvalidBuyerDeadline
        end) (LockOrders x);;
      check_distinct ErrDuplicateResetOrder ∅ (ResetOrders x);;
      check_distinct ErrDuplicateCloseOrder ∅ (CloseOrders x)
  end.

Definition DexBatch_CheckBasic (x : option DexBatch) : result ErrorI unit :=
  match x with
  | None => Ok ()
  | Some x =>
      check_not (MaxDepositsPerDexBatch <? len (Deposits x)) ErrTooManyDexDeposits;;
      check_not (MaxWithdrawsPerDexBatch <? len (Withdrawals x)) ErrTooManyDexWithdraws;;
      check_all (λ w, check_not ((wd_Percent w =? 0) || (100 <? wd_Percent w)) ErrInvalidPercentAllocation)
        (Withdrawals x);;
      check_not (MaxOrdersPerDexBatch <? len (db_Orders x)) ErrTooManyDexOrders;;
      check_not (MaxReceipts <? len (Receipts x)) ErrTooManyDexReceipts;;
      check_not (MaxLiquidityProviders <? len (db_PoolPoints x)) ErrTooManyDexReceipts;;
      check_all (λ p, check_not (negb (len (pp_Address p) =? AddressSize)) ErrInvalidAddress)
        (db_PoolPoints x);;
      check_not (100 <? len (ReceiptHash x)) ErrInvalidBlockHash
  end.

Definition Checkpoint_CheckBasic (x : option Checkpoint) : result ErrorI unit :=
  match x with
  | None => Ok ()
  | Some x => check_not (100 <? len (cp_BlockHash x)) ErrInvalidBlockHash
  end.

Definition CertificateResult_CheckBasic (x : option CertificateResult) : result ErrorI unit :=
  match x with
  | None => Err ErrNilCertResults
  | Some x =>
      RewardRecipients_CheckBasic (cr_RewardRecipients x);;
      SlashRecipients_CheckBasic (cr_SlashRecipients x);;
      Orders_CheckBasic (cr_Orders x);;
      DexBatch_CheckBasic (cr_DexBatch x);;
      check_not (match cr_DexBatch x with
                 | Some b => negb (bool_decide (db_PoolPoints b = []))
                 | None => false
                 end) ErrNonNilPoolPoints;;
      DexBatch_CheckBasic (cr_RootDexBatch x);;
      Checkpoint_CheckBasic (cr_Checkpoint x)
  end.

Section certificate_checks.
Context `{Crypto, Multisig, Codec}.

Definition GlobalMaxBlockSize : Z := 256 * MB.

Definition QuorumCertificate_CheckBasic (x : QuorumCertificate) : result ErrorI unit :=
  check_not (bool_decide (ResultsHash x = []) && bool_decide (ProposerKey x = [])) ErrEmptyQuorumCertificate;;
  check_not (match Header x with None => true | Some _ => false end) ErrEmptyView;;
  (if negb (bool_decide (ResultsHash x = [])) then
     check_not (negb (len (BlockHash x) =? HashSize)) ErrInvalidBlockHash;;
     check_not (negb (len (ResultsHash x) =? HashSize)) ErrInvalidResultsHash;;
     match Results x with
     | None => Ok ()
     | Some results =>
         CertificateResult_CheckBasic (Some results);;
         check_not (negb (bool_decide (ResultsHash x = Hash (MarshalCertificateResult results))))
           ErrMismatchResultsHash
     end;;
     (if bool_decide (qc_Block x = []) then Ok ()
      else
        hash ← BytesToBlockHash (qc_Block x);
        check_not (negb (bool_decide (BlockHash x = hash))) ErrMismatchQCBlockHash;;
        check_not (GlobalMaxBlockSize <? len (qc_Block x)) ErrExpectedMaxBlockSize)
   else
     check_not (negb (len (ProposerKey x) =? BLS12381PubKeySize)) ErrInvalidSigner;;
     check_not (negb (len (ResultsHash x) =? 0) || match Results x with Some _ => true | None => false end)
       ErrMismatchResultsHash;;
     check_not (negb (len (BlockHash x) =? 0) || negb (len (qc_Block x) =? 0)) ErrNonNilBlock);;
  AggregateSignature_CheckBasic (Signature x);;
  Ok ().

(** [SignBytes]: an election vote signs the header and the proposer, every other
    certificate everything but the results, the block and the signature. *)
Definition SignBytes (x : QuorumCertificate) : bytes :=
  match Header x with
  | Some h =>
      if bool_decide (view_Phase h = ELECTION_VOTE) then
        MarshalQC (MkQuorumCertificate (Header x) None [] [] [] (ProposerKey x) None)
      else MarshalQC (MkQuorumCertificate (Header x) None (ResultsHash x) [] (BlockHash x) (ProposerKey x) None)
  | None => MarshalQC (MkQuorumCertificate None None (ResultsHash x) [] (BlockHash x) (ProposerKey x) None)
  end.

(** [QuorumCertificate.Check]: [Ok true] is a partial certificate. *)
Definition QuorumCertificate_Check (x : QuorumCertificate) (vs : ValidatorSet) (maxBlockSize : Z)
    (view : View) (enforceHeights : bool) : result ErrorI bool :=
  QuorumCertificate_CheckBasic x;;
  View_Check (Header x) view enforceHeights;;
  match BlockTransactions (qc_Block x) with
  | None => Err ErrUnmarshal
  | Some txs =>
      check_not (maxBlockSize <? list_sum len txs) ErrExpectedMaxBlockSize;;
      AggregateSignature_Check (Signature x) (SignBytes x) vs
  end.

Definition CheckHighQC (x : QuorumCertificate) (maxBlockSize : Z) (view : View) (lastRootHeightUpdated : Z)
    (vs : ValidatorSet) : result ErrorI unit :=
  isPartialQC ← QuorumCertificate_Check x vs maxBlockSize view false;
  check_not isPartialQC ErrNoMaj23;;
  match Header x with
  | None => Err ErrPanic
  | Some h =>
      check_not (RootHeight h <? lastRootHeightUpdated) ErrWrongHighQCRootHeight;;
      check_not (negb (view_Height h =? view_Height view)) ErrWrongHighQCHeight;;
      check_not (negb (bool_decide (view_Phase h = PROPOSE_VOTE))) ErrWrongPhase
  end.

Definition qc_GetNonSigners (x : QuorumCertificate) (vs : option (list ConsensusValidator))
    : result ErrorI (list bytes * Z) :=
  match Signature x with
  | None => Err ErrEmptyQuorumCertificate
  | Some sig => GetNonSigners sig vs
  end.
End certificate_checks.

(** ** Equality tests *)

Fixpoint list_eqb {A} (eqb : A → A → bool) (a b : list A) : bool :=
  match a, b with
  | [], [] => true
  | x :: a', y :: b' => eqb x y && list_eqb eqb a' b'
  | _, _ => false
  end.
Definition opt_eqb {A} (eqb : A → A → bool) (x y : option A) : bool :=
  match x, y with None, None => true | Some x, Some y => eqb x y | _, _ => false end.
Definition bytes_eqb (a b : bytes) : bool := bool_decide (a = b).

Definition RewardRecipients_Equals : option RewardRecipients → option RewardRecipients → bool :=
  opt_eqb (λ x y,
    list_eqb (λ a b, (pay_ChainId a =? pay_ChainId b) && bytes_eqb (pay_Address a) (pay_Address b)
      && (pay_Percent a =? pay_Percent b)) (PaymentPercentsList x) (PaymentPercentsList y)
    && (rr_NumberOfSamples x =? rr_NumberOfSamples y)).
Definition SlashRecipients_Equals : option (list DoubleSigner) → option (list DoubleSigner) → bool :=
  opt_eqb (list_eqb (λ a b, bytes_eqb (ds_Id a) (ds_Id b) && bool_decide (Heights a = Heights b))).
Definition LockOrder_Equals : option LockOrderMsg → option LockOrderMsg → bool :=
  opt_eqb (λ x y,
    bytes_eqb (lo_BuyerReceiveAddress x) (lo_BuyerReceiveAddress y)
    && bytes_eqb (lo_BuyerSendAddress x) (lo_BuyerSendAddress y) && (lo_ChainId x =? lo_ChainId y)
    && bytes_eqb (lo_OrderId x) (lo_OrderId y) && (lo_BuyerChainDeadline x =? lo_BuyerChainDeadline y)).
Definition Orders_Equals : option Orders → option Orders → bool :=
  opt_eqb (λ x y,
    EqualByteSlices (CloseOrders x) (CloseOrders y) && EqualByteSlices (ResetOrders x) (ResetOrders y)
    && list_eqb LockOrder_Equals (LockOrders x) (LockOrders y)).
(** The receipt hash is not compared. *)
Definition DexBatch_Equals : option DexBatch → option DexBatch → bool :=
  opt_eqb (λ x y,
    (db_Committee x =? db_Committee y) && (LockedHeight x =? LockedHeight y)
    && (db_TotalPoolPoints x =? db_TotalPoolPoints y) && (CounterPoolSize x =? CounterPoolSize y)
    && (PoolSize x =? PoolSize y)
    && list_eqb (λ a b, (dep_Amount a =? dep_Amount b) && bytes_eqb (dep_Address a) (dep_Address b)
         && bytes_eqb (dep_OrderId a) (dep_OrderId b)) (Deposits x) (Deposits y)
    && list_eqb (λ a b, (wd_Percent a =? wd_Percent b) && bytes_eqb (wd_Address a) (wd_Address b)
         && bytes_eqb (wd_OrderId a) (wd_OrderId b)) (Withdrawals x) (Withdrawals y)
    && list_eqb (λ a b, (dlo_AmountForSale a =? dlo_AmountForSale b)
         && (dlo_RequestedAmount a =? dlo_RequestedAmount b) && bytes_eqb (dlo_Address a) (dlo_Address b)
         && bytes_eqb (dlo_OrderId a) (dlo_OrderId b)) (db_Orders x) (db_Orders y)
    && bool_decide (Receipts x = Receipts y)
    && list_eqb (λ a b, (pp_Points a =? pp_Points b) && bytes_eqb (pp_Address a) (pp_Address b))
         (db_PoolPoints x) (db_PoolPoints y)
    && eqb (LivenessFallback x) (LivenessFallback y)).
Definition Checkpoint_Equals : option Checkpoint → option Checkpoint → bool :=
  opt_eqb (λ x y, bytes_eqb (cp_BlockHash x) (cp_BlockHash y) && (cp_Height x =? cp_Height y)).

Definition CertificateResult_Equals (x y : option CertificateResult) : bool :=
  match x, y with
  | Some x, Some y =>
      RewardRecipients_Equals (cr_RewardRecipients x) (cr_RewardRecipients y)
      && SlashRecipients_Equals (cr_SlashRecipients x) (cr_SlashRecipients y)
      && Orders_Equals (cr_Orders x) (cr_Orders y)
      && Checkpoint_Equals (cr_Checkpoint x) (cr_Checkpoint y)
      && DexBatch_Equals (cr_DexBatch x) (cr_DexBatch y)
      && DexBatch_Equals (cr_RootDexBatch x) (cr_RootDexBatch y)
      && eqb (cr_Retired x) (cr_Retired y)
  | _, _ => false
  end.

(** ** Lemmas *)

Lemma list_eqb_spec {A} (eqb : A → A → bool) (R : A → A → Prop) a b :
  (∀ x y, eqb x y = true ↔ R x y) → list_eqb eqb a b = true ↔ Forall2 R a b.
Proof.
  intros He. revert b. induction a as [|x a IH]; intros [|y b]; cbn; try solve [split; [done | inversion 1]].
  - split; constructor.
  - rewrite andb_true_iff, He, IH. split; [by intros []; constructor | by inversion 1].
Qed.
Lemma list_eqb_eq {A} (eqb : A → A → bool) a b :
  (∀ x y, eqb x y = true ↔ x = y) → list_eqb eqb a b = true ↔ a = b.
Proof.
  intros He. rewrite (list_eqb_spec eqb eq) by done. by rewrite <- list_eq_Forall2.
Qed.
Lemma opt_eqb_eq {A} (eqb : A → A → bool) x y :
  (∀ x y, eqb x y = true ↔ x = y) → opt_eqb eqb x y = true ↔ x = y.
Proof. intros He. destruct x, y; cbn; rewrite ?He; naive_solver. Qed.
Lemma bytes_eqb_eq a b : bytes_eqb a b = true ↔ a = b.
Proof. apply bool_decide_eq_true. Qed.
Lemma EqualByteSlices_eq a b : EqualByteSlices a b = true ↔ a = b.
Proof.
  revert b. induction a as [|x a IH]; intros [|y b]; cbn; try done.
  case_decide; [rewrite IH|]; naive_solver.
Qed.

(** Solve [test = true ↔ record = record] for a conjunction of field tests. *)
Ltac eqb_record :=
  rewrite ?andb_true_iff, ?bytes_eqb_eq, ?Z.eqb_eq, ?bool_decide_eq_true, ?eqb_true_iff;
  split; [intros; destruct_and?; by f_equal | by intros [=]].

Lemma RewardRecipients_Equals_eq x y : RewardRecipients_Equals x y = true ↔ x = y.
Proof.
  apply opt_eqb_eq. intros [l n] [l' n']. cbn. rewrite andb_true_iff, list_eqb_eq, Z.eqb_eq; [naive_solver|].
  intros [] []; cbn. eqb_record.
Qed.
Lemma SlashRecipients_Equals_eq x y : SlashRecipients_Equals x y = true ↔ x = y.
Proof. apply opt_eqb_eq. intros. apply list_eqb_eq. intros [] []; cbn. eqb_record. Qed.
Lemma Orders_Equals_eq x y : Orders_Equals x y = true ↔ x = y.
Proof.
  apply opt_eqb_eq. intros [l r c] [l' r' c']. cbn.
  rewrite !andb_true_iff, !EqualByteSlices_eq, list_eqb_eq; [naive_solver|].
  intros a b. apply opt_eqb_eq. intros [] []; cbn. eqb_record.
Qed.
Lemma Checkpoint_Equals_eq x y : Checkpoint_Equals x y = true ↔ x = y.
Proof. apply opt_eqb_eq. intros [] []; cbn. eqb_record. Qed.

(** What the equality of dex batches does not look at. *)
Definition erase_batch (b : DexBatch) : DexBatch := set_ReceiptHash [] b.
Definition erase_results (x : CertificateResult) : CertificateResult :=
  MkCertificateResult (cr_RewardRecipients x) (cr_SlashRecipients x) (cr_Orders x) (cr_Checkpoint x)
    (cr_Retired x) (erase_batch <$> cr_DexBatch x) (erase_batch <$> cr_RootDexBatch x).

Lemma DexBatch_Equals_eq x y : DexBatch_Equals x y = true ↔ erase_batch <$> x = erase_batch <$> y.
Proof.
  destruct x as [[]|], y as [[]|]; cbn; try done. unfold erase_batch, set_ReceiptHash. cbn.
  rewrite !andb_true_iff, !list_eqb_eq, !Z.eqb_eq, bool_decide_eq_true, eqb_true_iff;
    [|intros [] []; cbn; eqb_record..].
  split; [intros; destruct_and?; by subst | intros [=]; by subst].
Qed.

(** The allocations a reward list gives per chain. *)
Definition chain_percent (c : Z) (l : list PaymentPercents) : Z :=
  list_sum (λ p, if pay_ChainId p =? c then pay_Percent p else 0) l.

Lemma check_percents_spec m l :
  map_Forall (λ _ n, u64 n) m → Forall (λ p, u64 (pay_Percent p)) l →
  check_percents m l = Ok () →
  Forall (λ p, pay_ChainId p ≠ 0 ∧ len (pay_Address p) = AddressSize) l ∧
  ∀ c, default 0 (m !! c) + chain_percent c l <= Z.max 100 (default 0 (m !! c)).
Proof.
  intros Hm Hl. revert m Hm. induction Hl as [|pp l Hp Hl IH]; intros m Hm; cbn [check_percents].
  { intros _. split; [constructor|]. intros c. change (chain_percent c []) with 0. lia. }
  intros (? & H1%check_not_Ok & Hr)%result_bind_Ok.
  apply result_bind_Ok in Hr as (? & H2%check_not_Ok & Hr).
  apply result_bind_Ok in Hr as (? & H3%check_not_Ok & Hr).
  apply result_bind_Ok in Hr as (? & H4%check_not_Ok & Hr).
  assert (Hs : u64 (default 0 (m !! pay_ChainId pp))).
  { destruct (m !! pay_ChainId pp) eqn:Hk; cbn; [by apply (Hm _ _ Hk)|u64]. }
  apply max_guard in H3; [|done..]. rewrite u64_add_small in * by done.
  apply IH in Hr as [Hf Hb]; [|by apply map_Forall_insert_2]. zify_bools.
  split; [by constructor|]. intros c. specialize (Hb c). unfold chain_percent in *. rewrite list_sum_cons.
  unfold u64 in *.
  destruct (Z.eqb_spec (pay_ChainId pp) c) as [<-|Hc].
  - rewrite lookup_insert_eq in Hb. cbn in Hb. lia.
  - rewrite lookup_insert_ne in Hb by done. lia.
Qed.

(** ** Properties *)

(** Two certificate results compare equal exactly when they agree on
    everything but the receipt hashes of their dex batches, which
    [DexBatch.Equals] never compares. *)
Theorem CertificateResult_Equals_exact x y :
  CertificateResult_Equals (Some x) (Some y) = true ↔ erase_results x = erase_results y.
Proof.
  unfold CertificateResult_Equals, erase_results.
  rewrite !andb_true_iff, RewardRecipients_Equals_eq, SlashRecipients_Equals_eq, Orders_Equals_eq,
    Checkpoint_Equals_eq, !DexBatch_Equals_eq, eqb_true_iff.
  split; [intros; destruct_and?; by f_equal | by intros [= -> -> -> -> -> -> ->]].
Qed.

(** A reward list that passes [RewardRecipients.CheckBasic] has between one
    and a hundred recipients with 20 byte addresses and non-zero chain ids, and
    allocates at most 100 percent on every chain. *)
Theorem RewardRecipients_CheckBasic_sound x :
  Forall (λ p, u64 (pay_Percent p)) (PaymentPercentsList x) →
  RewardRecipients_CheckBasic (Some x) = Ok () →
  1 <= len (PaymentPercentsList x) <= 100 ∧
  Forall (λ p, pay_ChainId p ≠ 0 ∧ len (pay_Address p) = AddressSize) (PaymentPercentsList x) ∧
  ∀ c, chain_percent c (PaymentPercentsList x) <= 100.
Proof.
  intros Hu Hr. cbn in Hr. apply result_bind_Ok in Hr as (? & H1%check_not_Ok & Hr). zify_bools.
  apply check_percents_spec in Hr as [Hf Hc]; [|done..].
  split_and!; [unfold len in *; lia | unfold len in *; lia | done |].
  intros c. specialize (Hc c). rewrite lookup_empty in Hc. cbn in Hc. lia.
Qed.

Definition demo_rewards : RewardRecipients :=
  MkRewardRecipients [MkPaymentPercents (replicate 20 x01) 60 1; MkPaymentPercents (replicate 20 x02) 40 1;
    MkPaymentPercents (replicate 20 x01) 100 2] 0.
Lemma RewardRecipients_CheckBasic_sound_witness :
  1 <= len (PaymentPercentsList demo_rewards) <= 100 ∧
  Forall (λ p, pay_ChainId p ≠ 0 ∧ len (pay_Address p) = AddressSize) (PaymentPercentsList demo_rewards) ∧
  ∀ c, chain_percent c (PaymentPercentsList demo_rewards) <= 100.
Proof.
  apply RewardRecipients_CheckBasic_sound; [|vm_compute; reflexivity].
  apply (bool_decide_unpack _). vm_compute. exact I.
Defined.

(** A concrete codec, for evaluation. *)
Definition toy_codec : Codec :=
  {| MarshalQC := λ _, [x11]; MarshalCertificateResult := λ _, [x12];
     MarshalDexBatch := λ b, replicate (length (db_Orders b)) x13 ++ replicate (length (Deposits b)) x14;
     MarshalDexLimitOrder := λ o, dlo_Address o;
     BlockTransactions := λ _, Some []; MB := 1000000; Codec_wire := toy_wire |}.
