(* ===== verification/Dex.v ===== *)
(** * The automated market maker between a root and a nested chain
    ([fsm/dex.go], [lib/dex.go], the dex handlers of [fsm/message.go])

    Each chain collects orders, deposits and withdrawals in a next batch, locks
    it, executes the counter chain's locked batch and settles its own when the
    receipts come back. *)
From S2P Require Import Prelude LibUtil State Ledger Params Fixtures Crypto Account Committee.
From S2P Require Import Quorum Certificate Swap.
#[local] Open Scope Z_scope.

(** ** Batches *)

(** [strings.Repeat("F", crypto.HashSize)] *)
Definition EmptyReceiptsHash : bytes := replicate 32 x46.
(** [strings.Repeat("dead", 10)] in hex. *)
Definition deadAddr : bytes := concat (replicate 10 [xde; xad]).

(** [binary.BigEndian.PutUint64] *)
Definition be64 (n : Z) : bytes := map (λ k, byte_of_Z (Z.shiftr n (8 * k))) [7; 6; 5; 4; 3; 2; 1; 0].

Definition IsEmpty (x : DexBatch) : bool :=
  (len (ReceiptHash x) =? 0) && (len (Receipts x) =? 0) && (len (db_Orders x) =? 0)
  && (len (Withdrawals x) =? 0) && (len (Deposits x) =? 0).

(** [DexBatch.Copy] *)
Definition CopyBatch (x : DexBatch) : DexBatch :=
  MkDexBatch (db_Committee x) (ReceiptHash x) (db_Orders x) (Deposits x) (Withdrawals x) (PoolSize x) 0 [] 0
    (Receipts x) (LockedHeight x) (LivenessFallback x).
(** [DexLimitOrder.Copy]: the order id is not copied. *)
Definition CopyOrder (x : DexLimitOrder) : DexLimitOrder :=
  MkDexLimitOrder (dlo_AmountForSale x) (dlo_RequestedAmount x) (dlo_Address x) [].

Definition zero_batch : DexBatch := MkDexBatch 0 [] [] [] [] 0 0 [] 0 [] 0 false.

(** [GetDexBatch]: a batch that serializes to no bytes reads like an absent one. *)
Definition lookup_batch (chainId : Z) (locked withPoints : bool) (st : Store) : DexBatch :=
  let lPool := lookup_pool (liquidity_id chainId) st in
  let stored := (if locked then locked_batch st else next_batch st) !! chainId in
  match stored with
  | Some b =>
      if decide (b = zero_batch) then set_PoolSize (pool_Amount lPool) (set_db_Committee chainId zero_batch)
      else if withPoints then set_db_TotalPoolPoints (TotalPoolPoints lPool) (set_db_PoolPoints (pool_Points lPool) b)
      else b
  | None => set_PoolSize (pool_Amount lPool) (set_db_Committee chainId zero_batch)
  end.
Definition GetDexBatch (chainId : Z) (locked withPoints : bool) : F DexBatch :=
  getst (lookup_batch chainId locked withPoints).
(** [SetDexBatch] under [KeyForLockedBatch] or [KeyForNextBatch]. *)
Definition SetDexBatch (chainId : Z) (locked : bool) (b : DexBatch) : F unit :=
  upd (λ st, if locked then set_locked_batch (<[chainId := b]> (locked_batch st)) st
             else set_next_batch (<[chainId := b]> (next_batch st)) st).
Definition DeleteDexBatch (chainId : Z) (locked : bool) : F unit :=
  upd (λ st, if locked then set_locked_batch (delete chainId (locked_batch st)) st
             else set_next_batch (delete chainId (next_batch st)) st).

(** ** The price formula *)

(** [SafeComputeDY]: constant product with a 1% fee; callers exclude [x = 0]. *)
Definition SafeComputeDY (x y dX : Z) : Z :=
  let amountInWithFee := dX * 990 in
  let numerator := amountInWithFee * y in
  let denominator := x * 1000 + amountInWithFee in
  big_Uint64 (numerator / denominator).

Record DexPrice : Type := MkDexPrice {
  LocalChainId : Z; RemoteChainId : Z; LocalPool : Z; RemotePool : Z; E6ScaledPrice : Z }.
Definition getPrice (batch : DexBatch) : F DexPrice :=
  cfg ← gets config;
  fail_if ((PoolSize batch =? 0) || (CounterPoolSize batch =? 0)) ErrInvalidLiquidityPool;;
  let price := PoolSize batch * 1000000 / CounterPoolSize batch in
  fail_if (two64 <=? price) ErrInvalidLiquidityPool;;
  mret (MkDexPrice (ChainId cfg) (db_Committee batch) (PoolSize batch) (CounterPoolSize batch) price).

(** ** Settling the local batch: receipts of orders *)

Definition order_receipt (chainId committee : Z) (receipts : list Z) (xy : Z * Z) (io : nat * DexLimitOrder)
    : F (Z * Z) :=
  let '(x, y) := xy in
  let '(i, o) := io in
  PoolSub (holding_id chainId) (dlo_AmountForSale o);;
  match receipts !! i with
  | None => throw ErrPanic
  | Some dY =>
      let success := negb (dY =? 0) in
      xy' ← (if success then
               fail_if (y <=? dY) ErrRemotePoolSizeDebit;;
               PoolAdd (liquidity_id chainId) (dlo_AmountForSale o);;
               mret (u64_add x (dlo_AmountForSale o), u64_sub y dY)
             else
               AccountAdd (dlo_Address o) (dlo_AmountForSale o);;
               mret (x, y));
      addEvent (EventDexSwap (dlo_Address o) (dlo_OrderId o) (dlo_AmountForSale o) dY committee true success);;
      mret xy'
  end.
Definition HandleOrderReceipts (localBatch remoteBatch : DexBatch) (chainId x y : Z) : F (Z * Z) :=
  fold_m (order_receipt chainId (db_Committee localBatch) (Receipts remoteBatch)) (x, y)
    (imap pair (db_Orders localBatch)).

(** ** Liquidity withdrawals *)

Definition points_to_remove (p : Pool) (w : DexLiquidityWithdraw) : Z :=
  match GetPointsFor p (wd_Address w) with
  | Ok initialPoints => SafeMulDiv initialPoints (wd_Percent w) 100
  | Err _ => 0
  end.
(** The overflow-checked sum; [None] is the overflow. *)
Fixpoint sum_checked (acc : Z) (l : list Z) : option Z :=
  match l with
  | [] => Some acc
  | n :: l' => let '(sum, overflow) := AddUint64 acc n in
               if overflow then None else sum_checked sum l'
  end.

(** One withdrawal; the state is the pool object and the paid totals. *)
Definition withdraw_one (local : bool) (counterChainId totalX totalY totalPointsToRemove : Z)
    (st : Pool * Z * Z) (w : DexLiquidityWithdraw) : F (Pool * Z * Z) :=
  let '(p, paidX, paidY) := st in
  match GetPointsFor p (wd_Address w) with
  | Err _ => mret st
  | Ok initialPoints =>
      let points := SafeMulDiv initialPoints (wd_Percent w) 100 in
      let yShare := SafeMulDiv totalY points totalPointsToRemove in
      let xShare := SafeMulDiv totalX points totalPointsToRemove in
      let '(p', e) := RemovePoints p (wd_Address w) points in
      match e with
      | Some err => throw err
      | None =>
          let payout := if local then xShare else yShare in
          let counter := if local then yShare else xShare in
          AccountAdd (wd_Address w) payout;;
          addEvent (EventDexLiquidityWithdraw (wd_Address w) (wd_OrderId w) payout counter points counterChainId);;
          mret (p', u64_add paidX xShare, u64_add paidY yShare)
      end
  end.

Definition HandleBatchWithdraw (batch : DexBatch) (counterChainId x y : Z) (local : bool) : F (Z * Z) :=
  if len (Withdrawals batch) =? 0 then mret (x, y) else
  p ← GetPool (liquidity_id counterChainId);
  match sum_checked 0 (map (points_to_remove p) (Withdrawals batch)) with
  | None => throw ErrInvalidLiquidityPool
  | Some totalPointsToRemove =>
      if (totalPointsToRemove =? 0) || (TotalPoolPoints p =? 0) then mret (x, y) else
      let totalYWithdrawal := SafeMulDiv y totalPointsToRemove (TotalPoolPoints p) in
      let totalXWithdraw := SafeMulDiv x totalPointsToRemove (TotalPoolPoints p) in
      '(p', paidX, paidY) ← fold_m
        (withdraw_one local counterChainId totalXWithdraw totalYWithdrawal totalPointsToRemove)
        (p, 0, 0) (Withdrawals batch);
      let y' := u64_sub y paidY in
      let x' := u64_sub x paidX in
      SetPool (set_pool_Amount (if local then x' else y') p');;
      mret (x', y')
  end.

(** ** Liquidity deposits *)

(** One deposit; the state is the pool object, the points distributed and the
    reserve [x]. *)
Definition deposit_one (local : bool) (chainId totalDL totalDeposit : Z)
    (st : Pool * Z * Z) (deposit : DexLiquidityDeposit) : F (Pool * Z * Z) :=
  let '(p, distributed, x) := st in
  let share := SafeMulDiv totalDL (dep_Amount deposit) totalDeposit in
  fail_if ((0 <? share)
           && match GetPointsFor p (dep_Address deposit) with Ok _ => false | Err _ => true end
           && (MaxLiquidityProviders <=? len (pool_Points p))) ErrInvalidLiquidityPool;;
  p1 ← lift (AddPoints p (dep_Address deposit) share);
  p2 ← (if local then
          PoolSub (holding_id chainId) (dep_Amount deposit);;
          let '(amount, overflow) := AddUint64 (pool_Amount p1) (dep_Amount deposit) in
          fail_if overflow ErrInvalidLiquidityPool;;
          mret (set_pool_Amount amount p1)
        else mret p1);
  let '(x', overflow) := AddUint64 x (dep_Amount deposit) in
  fail_if overflow ErrInvalidLiquidityPool;;
  addEvent (EventDexLiquidityDeposit (dep_Address deposit) (dep_OrderId deposit) (dep_Amount deposit) share
    chainId local);;
  mret (p2, u64_add distributed share, x').

Definition HandleBatchDeposit (batch : DexBatch) (chainId x y : Z) (local : bool) : F (Z * Z) :=
  if len (Deposits batch) =? 0 then mret (x, y) else
  p ← GetPool (liquidity_id chainId);
  match sum_checked 0 (map dep_Amount (Deposits batch)) with
  | None => throw ErrInvalidLiquidityPool
  | Some totalDeposit =>
      if (totalDeposit =? 0) || (x =? 0) || (y =? 0) then mret (x, y) else
      '(L, p) ← (if TotalPoolPoints p =? 0 then
                   let L := SqrtProductUint64 x y in
                   p ← lift (AddPoints p deadAddr L); mret (L, p)
                 else mret (TotalPoolPoints p, p));
      let oldK := SqrtProductUint64 x y in
      fail_if (oldK =? 0) ErrInvalidLiquidityPool;;
      let '(xAfterTotalDeposit, overflow) := AddUint64 x totalDeposit in
      fail_if overflow ErrInvalidLiquidityPool;;
      let newK := SqrtProductUint64 xAfterTotalDeposit y in
      fail_if (newK <? oldK) ErrInvalidLiquidityPool;;
      let totalDL := SafeMulDiv L (u64_sub newK oldK) oldK in
      '(p, distributed, x') ← fold_m (deposit_one local chainId totalDL totalDeposit) (p, 0, x) (Deposits batch);
      p ← lift (AddPoints p deadAddr (u64_sub totalDL distributed));
      SetPool p;;
      mret (x', y)
  end.

(** ** Executing the remote batch *)

Section dex.
Context `{Crypto, Codec}.

(** [DexBatch.Hash]: the hash and the batch after the call, which marks an
    empty batch. *)
Definition HashBatch (x : DexBatch) : bytes * DexBatch :=
  let x' := if IsEmpty x then set_ReceiptHash EmptyReceiptsHash x else x in
  (Hash (MarshalDexBatch (CopyBatch x')), x').

(** [DexLimitOrderWithKey.HashKey] on the copy of the order: [crypto.HashString]
    of block hash, index and order. *)
Definition order_key (blockHash : bytes) (io : nat * DexLimitOrder) : bytes :=
  EncodeToString (Hash (blockHash ++ be64 (Z.of_nat (fst io)) ++ MarshalDexLimitOrder (CopyOrder (snd io)))).
(** [CopyOrders]: the copies with their keys, in the order of the batch. *)
Definition CopyOrders (x : DexBatch) (blockHash : bytes) : list (bytes * DexLimitOrder) :=
  imap (λ i o, (order_key blockHash (i, o), CopyOrder o)) (db_Orders x).

(** One order of the execution loop. *)
Definition execute_order (chainId : Z) (st : Z * Z * gmap bytes Z) (order : bytes * DexLimitOrder)
    : F (Z * Z * gmap bytes Z) :=
  let '(x, y, result) := st in
  let '(key, o) := order in
  let dX := dlo_AmountForSale o in
  let dY0 := SafeComputeDY x y dX in
  let dY := if dY0 <? dlo_RequestedAmount o then 0 else dY0 in
  let result' := <[key := dY]> result in
  let '(xAfter, overflow) := AddUint64 x dX in
  fail_if (negb (dY =? 0) && overflow) ErrInvalidLiquidityPool;;
  addEvent (EventDexSwap (dlo_Address o) (dlo_OrderId o) dX dY chainId false (negb (dY =? 0)));;
  if negb (dY =? 0) then mret (xAfter, u64_sub y dY, result') else mret (x, y, result').

(** One order of the payout loop. *)
Definition pay_order (chainId : Z) (result : gmap bytes Z) (receipts : list Z) (order : bytes * DexLimitOrder)
    : F (list Z) :=
  let out := default 0 (result !! fst order) in
  when (negb (out =? 0)) (
    PoolSub (liquidity_id chainId) out;;
    AccountAdd (dlo_Address (snd order)) out);;
  mret (receipts ++ [out]).

(** [LoadBlock(height - 1)] never reads below height 1. *)
Definition prev_block_hash (s : FSM) : option bytes :=
  let h := u64_sub (height s) 1 in
  block_hashes (store s) !! (if h <=? 1 then 1 else h).

Definition HandleDexBatchOrders (remoteBatch : DexBatch) (x y chainId : Z) : F (list Z * Z * Z) :=
  blk ← gets prev_block_hash;
  match blk with
  | None => throw ErrNilBlock
  | Some blockHash =>
      let orders := CopyOrders remoteBatch blockHash in
      let sorted := sorted_by (λ a b, bytes_le (fst a) (fst b)) orders in
      fail_if ((x =? 0) || (y =? 0)) ErrInvalidLiquidityPool;;
      '(x', y', result) ← fold_m (execute_order chainId) (x, y, ∅) sorted;
      receipts ← fold_m (pay_order chainId result) [] orders;
      mret (receipts, x', y')
  end.

(** ** The batch life cycle *)

Definition RotateDexBatches (receiptsHash : bytes) (lPoolSize counterPoolSize chainId : Z) (receipts : list Z)
    : F unit :=
  lockedBatch ← GetDexBatch chainId true false;
  if negb (IsEmpty lockedBatch) then mret () else
  nextSellBatch ← GetDexBatch chainId false false;
  h ← Height;
  let b := set_LockedHeight h (set_CounterPoolSize counterPoolSize (set_ReceiptHash receiptsHash
             (set_PoolSize lPoolSize nextSellBatch))) in
  let b := if bool_decide (receipts = []) then b else set_Receipts receipts b in
  DeleteDexBatch chainId false;;
  SetDexBatch chainId true b.

(** [true] when the local batch still waits for its receipts; the mirror of the
    counter pool comes back. *)
Definition HandleReceiptsForOurLockedBatch (remoteBatch : DexBatch) (counterPoolSizeMirror counterChainId : Z)
    : F (bool * Z) :=
  localBatch ← GetDexBatch counterChainId true false;
  if IsEmpty localBatch then mret (false, counterPoolSizeMirror) else
  let receiptMismatch := negb (bool_decide (ReceiptHash remoteBatch = fst (HashBatch localBatch)))
                         || negb (len (db_Orders localBatch) =? len (Receipts remoteBatch)) in
  if receiptMismatch then mret (true, counterPoolSizeMirror) else
  localPoolSize ← GetPoolBalance (liquidity_id counterChainId);
  '(x, y) ← HandleOrderReceipts localBatch remoteBatch counterChainId localPoolSize counterPoolSizeMirror;
  '(x, y) ← HandleBatchWithdraw localBatch counterChainId x y true;
  '(x, y) ← HandleBatchDeposit localBatch counterChainId x y true;
  DeleteDexBatch counterChainId true;;
  mret (false, y).

Definition HandleRemoteChainLockedBatch (remoteBatch : DexBatch) (counterPoolSizeMirror chainId : Z)
    : F (list Z * Z) :=
  localPoolSize ← GetPoolBalance (liquidity_id chainId);
  '(receipts, x, y) ← HandleDexBatchOrders remoteBatch counterPoolSizeMirror localPoolSize chainId;
  '(x, y) ← HandleBatchWithdraw remoteBatch chainId x y false;
  '(x, y) ← HandleBatchDeposit remoteBatch chainId x y false;
  mret (receipts, x).

(** [HandleRemoteDexBatch]; the remote batch after the call is returned, because
    hashing an empty one marks it. *)
Definition HandleRemoteDexBatch (remoteBatch : DexBatch) (chainId : Z) : F DexBatch :=
  let processRemote := negb (IsEmpty remoteBatch) in
  let remoteBatchCopy := CopyBatch remoteBatch in
  let counterPoolSizeMirror := PoolSize remoteBatch in
  midPointPoolSize ← GetPoolBalance (liquidity_id chainId);
  '(locked, receipts, counterPoolSizeMirror, midPointPoolSize) ←
    (if processRemote then
       '(locked, y) ← HandleReceiptsForOurLockedBatch remoteBatchCopy counterPoolSizeMirror chainId;
       if (locked : bool) then mret (true, [], y, midPointPoolSize)
       else
         midPointPoolSize ← GetPoolBalance (liquidity_id chainId);
         '(receipts, x) ← HandleRemoteChainLockedBatch remoteBatchCopy y chainId;
         mret (false, receipts, x, midPointPoolSize)
     else mret (false, [], counterPoolSizeMirror, midPointPoolSize));
  if (locked : bool) then mret remoteBatch else
  let '(h, remoteBatch) := HashBatch remoteBatch in
  let receiptsHash := if LivenessFallback remoteBatch
                      then fst (HashBatch (set_LivenessFallback false (CopyBatch remoteBatch))) else h in
  RotateDexBatches receiptsHash midPointPoolSize counterPoolSizeMirror chainId receipts;;
  mret remoteBatch.

(** [HandleLivenessFallback] *)
Definition refund (rcId : Z) (address : bytes) (amount : Z) : F unit :=
  PoolSub (holding_id rcId) amount;; AccountAdd address amount.
Definition HandleLivenessFallback (rcId : Z) (localBatch remoteBatch : DexBatch) : F unit :=
  for_each (db_Orders localBatch) (λ order, refund rcId (dlo_Address order) (dlo_AmountForSale order));;
  for_each (Deposits localBatch) (λ deposit, refund rcId (dep_Address deposit) (dep_Amount deposit));;
  SetPoolPoints (liquidity_id rcId) (db_PoolPoints remoteBatch) (db_TotalPoolPoints remoteBatch);;
  SetDexBatch rcId true zero_batch.

Definition HandleDexBatch (chainId : Z) (results : CertificateResult) (isNested : bool) : F unit :=
  rootChainId ← (if isNested then GetRootChainId else mret chainId);
  cached ← gets cache_rootDexBatch;
  let from_cache := isNested && match cr_RootDexBatch results with
                                | Some b => negb (LivenessFallback b)
                                | None => false
                                end in
  let remote := if isNested then (if from_cache then cached else cr_RootDexBatch results)
                else cr_DexBatch results in
  liqPoolSize ← GetPoolBalance (liquidity_id rootChainId);
  match remote with
  | None => mret ()
  | Some remoteBatch =>
      if liqPoolSize =? 0 then mret () else
      localBatch ← GetDexBatch rootChainId true false;
      when (LivenessFallback remoteBatch) (HandleLivenessFallback rootChainId localBatch remoteBatch);;
      remoteBatch' ← HandleRemoteDexBatch remoteBatch rootChainId;
      when from_cache (modify (set_cache_rootDexBatch (Some remoteBatch')))
  end.
End dex.

(** [IncludeSameBlockDex]: move operations of a batch locked in this block. *)
Definition canMove (lockedLen nextLen max : Z) : Z :=
  if (nextLen =? 0) || (max <=? lockedLen) then 0
  else let remaining := max - lockedLen in
       if nextLen <? remaining then nextLen else remaining.
Definition include_one (k : Z) (dexBatch : DexBatch) : F unit :=
  h ← Height;
  if negb (LockedHeight dexBatch =? h) then mret () else
  nextBatch ← GetDexBatch (db_Committee dexBatch) false false;
  let ordersToMove := canMove (len (db_Orders dexBatch)) (len (db_Orders nextBatch)) MaxOrdersPerDexBatch in
  let depositsToMove := canMove (len (Deposits dexBatch)) (len (Deposits nextBatch)) MaxDepositsPerDexBatch in
  let withdrawalsToMove :=
    canMove (len (Withdrawals dexBatch)) (len (Withdrawals nextBatch)) MaxWithdrawsPerDexBatch in
  let n1 := Z.to_nat ordersToMove in let n2 := Z.to_nat depositsToMove in let n3 := Z.to_nat withdrawalsToMove in
  let dexBatch' := set_db_Orders (db_Orders dexBatch ++ take n1 (db_Orders nextBatch))
    (set_Deposits (Deposits dexBatch ++ take n2 (Deposits nextBatch))
    (set_Withdrawals (Withdrawals dexBatch ++ take n3 (Withdrawals nextBatch)) dexBatch)) in
  let nextBatch' := set_db_Orders (drop n1 (db_Orders nextBatch))
    (set_Deposits (drop n2 (Deposits nextBatch))
    (set_Withdrawals (drop n3 (Withdrawals nextBatch)) nextBatch)) in
  if (ordersToMove =? 0) && (depositsToMove =? 0) && (withdrawalsToMove =? 0) then mret () else
  SetDexBatch k true dexBatch';;
  if (len (db_Orders nextBatch') =? 0) && (len (Deposits nextBatch') =? 0) && (len (Withdrawals nextBatch') =? 0)
  then DeleteDexBatch (db_Committee dexBatch) false
  else SetDexBatch (db_Committee dexBatch) false nextBatch'.
Definition IncludeSameBlockDex : F unit :=
  l ← getst (λ st, sorted_by (λ a b, fst a <=? fst b) (map_to_list (locked_batch st)));
  for_each l (λ kb, include_one (fst kb) (snd kb)).

(** ** Handlers of the users' messages *)

Record MessageDexLimitOrder : Type := MkMsgDexLimitOrder {
  dl_ChainId : Z; dl_AmountForSale : Z; dl_RequestedAmount : Z; dl_Address : bytes; dl_OrderId : bytes }.
Record MessageDexLiquidityDeposit : Type := MkMsgDexLiquidityDeposit {
  dd_ChainId : Z; dd_Amount : Z; dd_Address : bytes; dd_OrderId : bytes }.
Record MessageDexLiquidityWithdraw : Type := MkMsgDexLiquidityWithdraw {
  dw_ChainId : Z; dw_Percent : Z; dw_Address : bytes; dw_OrderId : bytes }.

Definition HandleMessageDexLimitOrder (msg : MessageDexLimitOrder) : F unit :=
  batch ← GetDexBatch (dl_ChainId msg) false false;
  cfg ← gets config;
  fail_if ((PoolSize batch =? 0) || (ChainId cfg =? dl_ChainId msg)) ErrInvalidLiquidityPool;;
  fail_if (MaxOrdersPerDexBatch <=? len (db_Orders batch)) ErrMaxDexBatchSize;;
  AccountSub (dl_Address msg) (dl_AmountForSale msg);;
  PoolAdd (holding_id (dl_ChainId msg)) (dl_AmountForSale msg);;
  SetDexBatch (dl_ChainId msg) false
    (set_db_Orders (db_Orders batch ++ [MkDexLimitOrder (dl_AmountForSale msg) (dl_RequestedAmount msg)
       (dl_Address msg) (dl_OrderId msg)]) batch).

Definition HandleMessageDexLiquidityDeposit (msg : MessageDexLiquidityDeposit) : F unit :=
  batch ← GetDexBatch (dd_ChainId msg) false false;
  lPool ← GetPool (liquidity_id (dd_ChainId msg));
  cfg ← gets config;
  fail_if ((pool_Amount lPool =? 0) || (ChainId cfg =? dd_ChainId msg)
    || (MaxLiquidityProviders <=? len (pool_Points lPool))) ErrInvalidLiquidityPool;;
  fail_if (MaxDepositsPerDexBatch <=? len (Deposits batch)) ErrMaxDexBatchSize;;
  AccountSub (dd_Address msg) (dd_Amount msg);;
  PoolAdd (holding_id (dd_ChainId msg)) (dd_Amount msg);;
  SetDexBatch (dd_ChainId msg) false
    (set_Deposits (Deposits batch ++ [MkDexLiquidityDeposit (dd_Address msg) (dd_Amount msg) (dd_OrderId msg)])
       batch).

Definition HandleMessageDexLiquidityWithdraw (msg : MessageDexLiquidityWithdraw) : F unit :=
  batch ← GetDexBatch (dw_ChainId msg) false false;
  cfg ← gets config;
  fail_if ((PoolSize batch =? 0) || (ChainId cfg =? dw_ChainId msg)) ErrInvalidLiquidityPool;;
  fail_if (MaxWithdrawsPerDexBatch <=? len (Withdrawals batch)) ErrMaxDexBatchSize;;
  p ← GetPool (liquidity_id (dw_ChainId msg));
  _ ← lift (GetPointsFor p (dw_Address msg));
  SetDexBatch (dw_ChainId msg) false
    (set_Withdrawals (Withdrawals batch ++ [MkDexLiquidityWithdraw (dw_Address msg) (dw_Percent msg)
       (dw_OrderId msg)]) batch).

(** ** Lemmas: the price formula *)

Lemma SafeComputeDY_spec x y dX :
  0 < x → u64 y → 0 < y → 0 <= dX →
  let dY := SafeComputeDY x y dX in
  0 <= dY < y ∧ x * y <= (x + dX) * (y - dY) ∧ dY * (1000 * x + 990 * dX) <= 990 * dX * y.
Proof.
  intros Hx Hy Hy0 Hd. unfold SafeComputeDY, big_Uint64. cbn zeta.
  assert (Hden : 0 < x * 1000 + dX * 990) by lia.
  set (q := dX * 990 * y / (x * 1000 + dX * 990)).
  assert (Hq : 0 <= q) by (apply Z.div_pos; nia).
  pose proof (Z.mul_div_le (dX * 990 * y) (x * 1000 + dX * 990) Hden) as Hle. fold q in Hle.
  assert (Hlt : q < y) by nia.
  rewrite wrap64_small by u64. split_and!; [lia | lia | | nia].
  assert (q * (x + dX) <= dX * y) by nia. nia.
Qed.

(** ** Lemmas: moving funds around the dex *)

(** Accounts, pools and events may have changed, nothing else. *)
Definition only_funds (s s' : FSM) : Prop :=
  ∃ accs ps ca ev, s' = set_events ev (set_cache_accounts ca
    (set_store (set_pools ps (set_accounts accs (store s))) s)).
Lemma only_funds_refl s : only_funds s s.
Proof. exists (accounts (store s)), (pools (store s)), (cache_accounts s), (events s). by destruct s as [[]]. Qed.
Lemma only_funds_trans s1 s2 s3 : only_funds s1 s2 → only_funds s2 s3 → only_funds s1 s3.
Proof. intros (a1 & p1 & c1 & e1 & ->) (a2 & p2 & c2 & e2 & ->). by exists a2, p2, c2, e2. Qed.
Lemma only_accounts_funds s s' : only_accounts s s' → only_funds s s'.
Proof. intros (accs & ca & ->). exists accs, (pools (store s)), ca, (events s). by destruct s as [[]]. Qed.
Lemma only_pools_funds s s' : only_pools s s' → only_funds s s'.
Proof. intros (ps & ->). exists (accounts (store s)), ps, (cache_accounts s), (events s). by destruct s as [[]]. Qed.

Definition lpool (ch : Z) (s : FSM) : Pool := lookup_pool (liquidity_id ch) (store s).

(** Tokens moved on behalf of the dex with chain [ch]: [t] left the stores'
    holdings, [h] entered the holding pool, [l] the liquidity pool. *)
Record dex_move (ch t h l : Z) (s s' : FSM) : Prop := {
  dm_wf : wf s';
  dm_posted : ∀ c, valid_chain c → posted c (Gaps t 0 0 0 0 0 (hit ch c h)) s s';
  dm_liq : pool_bal (store s') (liquidity_id ch) = pool_bal (store s) (liquidity_id ch) + l;
  dm_points : ∀ c, valid_chain c → wf_points (lpool c s) → wf_points (lpool c s');
  dm_only : only_funds s s';
}.
Lemma dex_move_0 ch s : wf s → dex_move ch 0 0 0 s s.
Proof.
  intros Hw. split; [done| |lia|done|apply only_funds_refl].
  intros c _. eapply posted_eq; [by apply posted_0|]. rewrite hit_0. g_eq.
Qed.
Lemma dex_move_trans ch t1 h1 l1 t2 h2 l2 t h l s1 s2 s3 :
  dex_move ch t1 h1 l1 s1 s2 → dex_move ch t2 h2 l2 s2 s3 →
  t = t1 + t2 → h = h1 + h2 → l = l1 + l2 → dex_move ch t h l s1 s3.
Proof.
  intros [W1 P1 L1 Q1 O1] [W2 P2 L2 Q2 O2] -> -> ->. split; [done| |lia|auto|by eapply only_funds_trans].
  intros c Hc. eapply posted_eq; [eapply posted_trans; [by apply P1|by apply P2]|].
  unfold hit. destruct (ch =? c); g_eq.
Qed.
Lemma dex_move_eq ch t1 h1 l1 t h l s s' :
  dex_move ch t1 h1 l1 s s' → t1 = t → h1 = h → l1 = l → dex_move ch t h l s s'.
Proof. by intros ? <- <- <-. Qed.
Lemma dex_move_total ch t h l s s' :
  dex_move ch t h l s s' → g_total (books 1 (store s')) = g_total (books 1 (store s)) + t.
Proof. intros Hm. by rewrite (g_total_posted _ _ _ _ (dm_posted _ _ _ _ _ _ Hm 1 valid_chain_1)). Qed.

Lemma d_pool_holding c ch n :
  valid_chain c → valid_chain ch → d_pool c (holding_id ch) n = Gaps (- n) 0 0 0 0 0 (hit ch c n).
Proof.
  intros Hc Hch. unfold d_pool. rewrite hit_holding by done.
  destruct (pool_ids_disjoint ch c Hch Hc) as (Hne & _). by rewrite (hit_ne (holding_id ch) (escrow_id c)).
Qed.
Lemma d_pool_liquidity c ch n :
  valid_chain c → valid_chain ch → d_pool c (liquidity_id ch) n = Gaps (- n) 0 0 0 0 0 0.
Proof.
  intros Hc Hch. unfold d_pool. destruct (pool_ids_disjoint ch c Hch Hc) as (_ & H1 & H2 & _).
  by rewrite !hit_ne.
Qed.
Lemma liquidity_id_inj c c' : valid_chain c → valid_chain c' → liquidity_id c = liquidity_id c' → c = c'.
Proof.
  unfold valid_chain, liquidity_id. change MaxChainId with 16383. change LiquidityPoolAddend with 32767.
  intros. rewrite !u64_add_small in * by u64. lia.
Qed.

(** A pool is untouched when another one is written. *)
Lemma pooled_other ps id i st :
  i ≠ id → (∀ j, j ≠ id → ps !! j = pools st !! j) → lookup_pool i (set_pools ps st) = lookup_pool i st.
Proof. intros Hi Hj. unfold lookup_pool. cbn. by rewrite Hj. Qed.

Lemma SetPool_frame p s r s' :
  SetPool p s = (r, s') →
  s' = set_store (set_pools (partial_alter (λ _, if pool_Amount p =? 0 then None else Some p) (pool_Id p)
         (pools (store s))) (store s)) s.
Proof. unfold SetPool. runs. destruct (pool_Amount p =? 0); intros H; by inv H. Qed.
Lemma SetPool_lookup p s r s' i :
  SetPool p s = (r, s') →
  lookup_pool i (store s') =
    if decide (i = pool_Id p) then (if pool_Amount p =? 0 then MkPool i 0 [] 0 else p)
    else lookup_pool i (store s).
Proof.
  intros ->%SetPool_frame. unfold lookup_pool. cbn. case_decide as Hi.
  - rewrite Hi, lookup_partial_alter_eq. destruct (pool_Amount p =? 0); [done|]. by destruct p.
  - by rewrite lookup_partial_alter_ne.
Qed.
Lemma wf_points_none i : wf_points (MkPool i 0 [] 0).
Proof. split; cbn; [done | u64 | constructor | constructor]. Qed.
Lemma wf_points_amount p n : wf_points p → wf_points (set_pool_Amount n p).
Proof. intros []. by split. Qed.

Lemma PoolSub_run id n s :
  wf s → u64 n → PoolSub id n s =
    if pool_bal (store s) id <? n then (Err ErrInsufficientFunds, s)
    else SetPool (set_pool_Amount (pool_bal (store s) id - n) (lookup_pool id (store s))) s.
Proof.
  intros Hw Hn. unfold PoolSub, GetPool. runs. destruct (lookup_pool_spec id (store s)) as [_ ->].
  pose proof (pool_bal_range s id Hw). destruct (Z.ltb_spec (pool_bal (store s) id) n); [done|].
  by rewrite u64_sub_small by u64.
Qed.
Lemma PoolAdd_run id n s :
  wf s → 0 <= n <= g_total (books 1 (store s)) → PoolAdd id n s =
    SetPool (set_pool_Amount (pool_bal (store s) id + n) (lookup_pool id (store s))) s.
Proof.
  intros Hw Hn. unfold PoolAdd, GetPool. runs. destruct (lookup_pool_spec id (store s)) as [_ ->].
  by rewrite u64_add_small by by eapply (covered_pool 1).
Qed.

Section moves.
Context (ch : Z) (Hch : valid_chain ch).

(** A pool of the dex is written: [set] is the holding or the liquidity pool. *)
Lemma move_pool (liq : bool) p s r s' :
  wf s → u64 (pool_Amount p) →
  pool_Id p = (if liq then liquidity_id ch else holding_id ch) → (liq = true → wf_points p) →
  SetPool p s = (r, s') →
  let n := pool_Amount p - pool_bal (store s) (pool_Id p) in
  r = Ok () ∧ dex_move ch (- n) (if liq then 0 else n) (if liq then n else 0) s s'.
Proof.
  intros Hw Hu Hid Hp Hrun. assert (Hlook := λ i, SetPool_lookup _ _ _ _ i Hrun).
  apply SetPool_spec in Hrun as [-> [Hw' Hsh Hb Ho]]; [|done..]. cbn zeta.
  destruct (pool_ids_disjoint ch ch Hch Hch) as (_ & _ & Hlh & _).
  split; [done|]. split; [done| | | |by apply only_pools_funds].
  - intros c Hc. split; [done|]. eapply shift_eq; [apply Hsh|]. rewrite Hid. destruct liq.
    + by rewrite d_pool_liquidity, hit_0.
    + by rewrite d_pool_holding.
  - rewrite Hb, Hid. destruct liq; [by rewrite hit_eq|]. rewrite hit_ne; [lia|done].
  - intros c Hc Hwp. unfold lpool. rewrite Hlook. destruct (decide (liquidity_id c = pool_Id p)) as [Hi|]; [|done].
    destruct (pool_Amount p =? 0); [apply wf_points_none|]. apply Hp. rewrite Hid in Hi. destruct liq; [done|].
    exfalso. by destruct (pool_ids_disjoint c ch Hc Hch) as (_ & _ & ? & _).
Qed.

Lemma move_holding_sub n s u s' :
  wf s → u64 n → PoolSub (holding_id ch) n s = (Ok u, s') → dex_move ch n (- n) 0 s s'.
Proof.
  intros Hw Hn. rewrite PoolSub_run by done. destruct (Z.ltb_spec (pool_bal (store s) (holding_id ch)) n); [done|].
  pose proof (pool_bal_range s (holding_id ch) Hw). intros Hrun.
  destruct (lookup_pool_spec (holding_id ch) (store s)) as [Hid _].
  apply (move_pool false) in Hrun as [_ Hm]; [|done|cbn; u64|done|done]. cbn in Hm. rewrite Hid in Hm.
  eapply dex_move_eq; [exact Hm|lia..].
Qed.
Lemma move_holding_add n s u s' :
  wf s → 0 <= n <= g_total (books 1 (store s)) → PoolAdd (holding_id ch) n s = (Ok u, s') →
  dex_move ch (- n) n 0 s s'.
Proof.
  intros Hw Hn. rewrite PoolAdd_run by done. intros Hrun.
  pose proof (covered_pool 1 s (holding_id ch) n Hw Hn).
  destruct (lookup_pool_spec (holding_id ch) (store s)) as [Hid _].
  apply (move_pool false) in Hrun as [_ Hm]; [|done|done|done|done]. cbn in Hm. rewrite Hid in Hm.
  eapply dex_move_eq; [exact Hm|lia..].
Qed.
Lemma move_liquidity_add n s u s' :
  wf s → 0 <= n <= g_total (books 1 (store s)) → wf_points (lpool ch s) →
  PoolAdd (liquidity_id ch) n s = (Ok u, s') → dex_move ch (- n) 0 n s s'.
Proof.
  intros Hw Hn Hp. rewrite PoolAdd_run by done. intros Hrun.
  pose proof (covered_pool 1 s (liquidity_id ch) n Hw Hn).
  destruct (lookup_pool_spec (liquidity_id ch) (store s)) as [Hid _].
  apply (move_pool true) in Hrun as [_ Hm]; [|done|done|done|by intros; apply wf_points_amount].
  cbn in Hm. rewrite Hid in Hm. eapply dex_move_eq; [exact Hm|lia..].
Qed.
Lemma move_liquidity_sub n s :
  wf s → 0 <= n <= pool_bal (store s) (liquidity_id ch) → wf_points (lpool ch s) →
  ∃ s', PoolSub (liquidity_id ch) n s = (Ok (), s') ∧ dex_move ch n 0 (- n) s s'.
Proof.
  intros Hw Hn Hp. pose proof (pool_bal_range s (liquidity_id ch) Hw) as Hr.
  rewrite PoolSub_run by (done || u64).
  destruct (Z.ltb_spec (pool_bal (store s) (liquidity_id ch)) n); [lia|].
  destruct (SetPool _ s) as [r s'] eqn:Hrun. exists s'.
  destruct (lookup_pool_spec (liquidity_id ch) (store s)) as [Hid _].
  apply (move_pool true) in Hrun as [-> Hm]; [|done|cbn; u64|done|by intros; apply wf_points_amount].
  split; [done|]. cbn in Hm. rewrite Hid in Hm. eapply dex_move_eq; [exact Hm|lia..].
Qed.
Lemma move_account a n s s' : credited a n s s' → dex_move ch (- n) 0 0 s s'.
Proof.
  intros [Hw Hsh _ Ho]. pose proof Ho as (accs & ca & Hs').
  split; [done| |rewrite Hs'; cbn; unfold pool_bal; cbn; lia| |by apply only_accounts_funds].
  - intros c Hc. split; [done|]. eapply shift_eq; [apply Hsh|]. rewrite hit_0. g_eq.
  - intros c Hc. unfold lpool, lookup_pool. by rewrite Hs'.
Qed.
Lemma move_account_add a n s u s' :
  wf s → u64 n → AccountAdd a n s = (Ok u, s') → dex_move ch (- n) 0 0 s s'.
Proof. intros Hw Hn Hrun. apply AccountAdd_spec in Hrun; [|done..]. by eapply move_account. Qed.
Lemma move_event e s r s' : wf s → addEvent e s = (r, s') → r = Ok () ∧ dex_move ch 0 0 0 s s'.
Proof.
  intros Hw Hrun. pose proof Hrun as [= <- <-]. split; [done|].
  apply addEvent_same in Hrun as [_ Hs]. split; [by eapply same_books_wf| |cbn; lia|done|].
  - intros c Hc. eapply posted_eq; [by apply same_books_posted|]. rewrite hit_0. g_eq.
  - exists (accounts (store s)), (pools (store s)), (cache_accounts s), (events s ++ [e]). by destruct s as [[]].
Qed.
End moves.

(** ** Lemmas: executing orders *)

Definition paid_for (result : gmap bytes Z) (order : bytes * DexLimitOrder) : Z :=
  default 0 (result !! fst order).
Definition sold_for (result : gmap bytes Z) (order : bytes * DexLimitOrder) : Z :=
  if paid_for result order =? 0 then 0 else dlo_AmountForSale (snd order).
Definition sum_sales (l : list (bytes * DexLimitOrder)) : Z := list_sum (λ o, dlo_AmountForSale (snd o)) l.
(** An order got nothing, or at least what it asked for. *)
Definition limit_kept (o : DexLimitOrder) (dY : Z) : Prop := dY = 0 ∨ 0 < dY ∧ dlo_RequestedAmount o <= dY.

(** What the execution loop does to the two reserves and the results. *)
Record executed (l : list (bytes * DexLimitOrder)) (x y : Z) (res : gmap bytes Z)
    (x' y' : Z) (res' : gmap bytes Z) : Prop := {
  ex_reserves : x <= x' ∧ 0 < y' <= y ∧ x * y <= x' * y';
  ex_others : ∀ k, k ∉ map fst l → res' !! k = res !! k;
  ex_limits : Forall (λ o, limit_kept (snd o) (paid_for res' o)) l;
  ex_paid : list_sum (paid_for res') l = y - y';
  ex_sold : list_sum (sold_for res') l = x' - x;
}.

Lemma sum_sales_nonneg l : Forall (λ o, u64 (dlo_AmountForSale (snd o))) l → 0 <= sum_sales l.
Proof. intros Hl. apply list_sum_nonneg. intros o Ho. rewrite Forall_forall in Hl. apply Hl in Ho. u64. Qed.

Lemma executed_cons k o l x y res dY x1 y1 x' y' res' :
  k ∉ map fst l → limit_kept o dY →
  x1 = x + (if dY =? 0 then 0 else dlo_AmountForSale o) → y1 = y - dY → 0 <= dY →
  x <= x1 → x * y <= x1 * y1 →
  executed l x1 y1 (<[k := dY]> res) x' y' res' → executed ((k, o) :: l) x y res x' y' res'.
Proof.
  intros Hk Hlim Hx Hy Hd Hle Hp [R1 R2 R3 R4 R5].
  assert (Hres : paid_for res' (k, o) = dY).
  { unfold paid_for. cbn. rewrite R2 by done. by rewrite lookup_insert_eq. }
  split.
  - split_and!; lia.
  - intros j Hj. cbn in Hj. rewrite R2 by set_solver. rewrite lookup_insert_ne; [done|set_solver].
  - constructor; [by rewrite Hres | done].
  - rewrite list_sum_cons, Hres. lia.
  - rewrite list_sum_cons. unfold sold_for at 1. rewrite Hres. cbn. lia.
Qed.

Lemma execute_loop c l x y res s :
  wf s → NoDup (map fst l) → Forall (λ o, u64 (dlo_AmountForSale (snd o))) l →
  0 < x → u64 (x + sum_sales l) → 0 < y → u64 y →
  ∃ x' y' res' s', fold_m (execute_order c) (x, y, res) l s = (Ok (x', y', res'), s') ∧
    executed l x y res x' y' res' ∧ ∀ ch, dex_move ch 0 0 0 s s'.
Proof.
  intros Hw Hnd Hl. revert x y res s Hw Hnd. induction Hl as [|[k o] l Ho Hl IH];
    intros x y res s Hw Hnd Hx Hs Hy Hu; cbn [map fst] in *.
  { exists x, y, res, s. split_and!; [done| |by intros; apply dex_move_0].
    split; [lia|done|constructor| |]; change (list_sum _ []) with 0; lia. }
  apply NoDup_cons in Hnd as [Hk Hnd]. cbn in Ho.
  assert (Hss : sum_sales ((k, o) :: l) = dlo_AmountForSale o + sum_sales l) by done.
  pose proof (sum_sales_nonneg l Hl) as Hs0. rewrite Hss in Hs.
  pose proof (SafeComputeDY_spec x y (dlo_AmountForSale o) Hx Hu Hy ltac:(u64)) as (Hd1 & Hd2 & _).
  cbn zeta in *. set (dY0 := SafeComputeDY x y (dlo_AmountForSale o)) in *.
  set (dY := if dY0 <? dlo_RequestedAmount o then 0 else dY0).
  assert (Hlim : limit_kept o dY).
  { subst dY. unfold limit_kept. destruct (Z.ltb_spec dY0 (dlo_RequestedAmount o)); lia. }
  set (x1 := x + (if dY =? 0 then 0 else dlo_AmountForSale o)).
  assert (Hstep : ∃ s1, execute_order c (x, y, res) (k, o) s = (Ok (x1, y - dY, <[k := dY]> res), s1) ∧
      (∀ ch, dex_move ch 0 0 0 s s1)).
  { unfold execute_order, AddUint64. runs. fold dY0 dY.
    replace (two64 <=? x + dlo_AmountForSale o) with false by (symmetry; apply Z.leb_gt; u64).
    rewrite andb_false_r. rewrite u64_add_small by u64. subst x1.
    assert (0 <= dY <= dY0) by (subst dY; destruct (dY0 <? _); lia).
    destruct (Z.eqb_spec dY 0) as [He|He]; cbn [negb]; eexists;
      (split; [|intros ch; by eapply (move_event ch)]).
    - by rewrite He, Z.sub_0_r, Z.add_0_r.
    - by rewrite u64_sub_small by u64. }
  destruct Hstep as (s1 & Hrun & Hm1). rewrite fold_m_cons, (bind_run_Ok _ _ _ _ _ Hrun).
  assert (0 <= dY <= dY0) by (subst dY; destruct (dY0 <? _); lia).
  assert (Hx1 : x <= x1 <= x + dlo_AmountForSale o) by (subst x1; destruct (dY =? 0); u64).
  destruct (IH x1 (y - dY) (<[k := dY]> res) s1) as (x' & y' & res' & s' & Hr & He & Hm);
    [apply (dm_wf _ _ _ _ _ _ (Hm1 1)) | done | lia | u64 | lia | u64 |].
  exists x', y', res', s'. split_and!; [done| |by intros; eapply dex_move_trans].
  eapply (executed_cons k o l x y res dY x1 (y - dY)); try done; [lia.. |].
  subst x1 dY. destruct (dY0 <? _); cbn; [nia|]. destruct (Z.eqb_spec dY0 0) as [->|]; [nia|]. nia.
Qed.

(** The same loop when all that is known is that it did not fail. *)
Lemma execute_loop_Ok c l x y res s x' y' res' s' :
  wf s → NoDup (map fst l) → Forall (λ o, u64 (dlo_AmountForSale (snd o))) l →
  0 < x → u64 x → 0 < y → u64 y →
  fold_m (execute_order c) (x, y, res) l s = (Ok (x', y', res'), s') →
  executed l x y res x' y' res' ∧ u64 x' ∧ ∀ ch, dex_move ch 0 0 0 s s'.
Proof.
  intros Hw Hnd Hl. revert x y res s Hw Hnd. induction Hl as [|[k o] l Ho Hl IH];
    intros x y res s Hw Hnd Hx Hxu Hy Hu; cbn [map fst] in *.
  { intros [= <- <- <- <-]. split_and!; [|done|by intros; apply dex_move_0].
    split; [lia|done|constructor| |]; change (list_sum _ []) with 0; lia. }
  apply NoDup_cons in Hnd as [Hk Hnd]. cbn in Ho. rewrite fold_m_cons.
  pose proof (SafeComputeDY_spec x y (dlo_AmountForSale o) Hx Hu Hy ltac:(u64)) as (Hd1 & Hd2 & _).
  cbn zeta in *. intros Hrun. apply bind_Ok in Hrun as ([[x1 y1] res1] & s1 & Hone & Hrun).
  unfold execute_order in Hone. set (dY0 := SafeComputeDY x y (dlo_AmountForSale o)) in *.
  set (dY := if dY0 <? dlo_RequestedAmount o then 0 else dY0) in *.
  destruct (AddUint64 x (dlo_AmountForSale o)) as [xA ov] eqn:HxA.
  apply bind_Ok in Hone as (u1 & s2 & Hf & Hone). apply fail_if_Ok in Hf as [Hov ->].
  apply bind_Ok in Hone as (u2 & s2 & Hev & Hone).
  assert (Hm1 : ∀ ch, dex_move ch 0 0 0 s s2) by (intros ch; by eapply (move_event ch) in Hev as [_ ?]).
  assert (Hlim : limit_kept o dY).
  { subst dY. unfold limit_kept. destruct (Z.ltb_spec dY0 (dlo_RequestedAmount o)); lia. }
  assert (Hd : 0 <= dY <= dY0) by (subst dY; destruct (dY0 <? _); lia).
  set (x2 := x + (if dY =? 0 then 0 else dlo_AmountForSale o)).
  assert (H1 : x1 = x2 ∧ u64 x2 ∧ y1 = y - dY ∧ res1 = <[k := dY]> res ∧ s1 = s2).
  { subst x2. destruct (Z.eqb_spec dY 0) as [He|He]; cbn [negb andb] in *; injection Hone as <- <- <- <-.
    - split_and!; [lia|by rewrite Z.add_0_r|lia|done|done].
    - subst ov. apply AddUint64_no_overflow in HxA as [-> ?]; [|done..].
      rewrite u64_sub_small by u64. by split_and!. }
  destruct H1 as (-> & Hx2 & -> & -> & ->).
  assert (x <= x2) by (subst x2; destruct (dY =? 0); u64).
  destruct (IH x2 (y - dY) (<[k := dY]> res) s2) as (He & Hxu' & Hm); try done; [apply (Hm1 1)|lia|lia|u64|].
  split_and!; [|done|by intros; eapply dex_move_trans].
  eapply (executed_cons k o l x y res dY x2 (y - dY)); try done; [lia|].
  subst x2 dY. destruct (dY0 <? _); cbn; [nia|]. destruct (Z.eqb_spec dY0 0) as [->|]; nia.
Qed.

Section pay.
Context (ch : Z) (Hch : valid_chain ch).

(** The payout loop: every order's amount leaves the liquidity pool. *)
Lemma pay_loop res l rs s :
  wf s → 0 <= g_total (books 1 (store s)) → wf_points (lpool ch s) →
  Forall (λ o, 0 <= paid_for res o) l →
  list_sum (paid_for res) l <= pool_bal (store s) (liquidity_id ch) →
  ∃ s', fold_m (pay_order ch res) rs l s = (Ok (rs ++ map (paid_for res) l), s') ∧
    dex_move ch 0 0 (- list_sum (paid_for res) l) s s'.
Proof.
  intros Hw Hg Hp Hl. revert rs s Hw Hg Hp. induction Hl as [|o l Ho Hl IH]; intros rs s Hw Hg Hp Hs.
  { exists s. split; [by rewrite app_nil_r | by apply dex_move_0]. }
  rewrite list_sum_cons in Hs. pose proof (list_sum_nonneg (paid_for res) l) as H0.
  assert (0 <= list_sum (paid_for res) l) as H0' by (apply H0; by apply Forall_forall).
  pose proof (pool_bal_range s (liquidity_id ch) Hw) as Hr.
  assert (Hstep : ∃ s1, pay_order ch res rs o s = (Ok (rs ++ [paid_for res o]), s1) ∧
      dex_move ch 0 0 (- paid_for res o) s s1).
  { unfold pay_order. fold (paid_for res o). set (out := paid_for res o) in *.
    unfold when. destruct (Z.eqb_spec out 0) as [He|He]; cbn [negb].
    { exists s. split; [done|]. rewrite He. by apply dex_move_0. }
    destruct (move_liquidity_sub ch Hch out s Hw ltac:(lia) Hp) as (s1 & Hr1 & Hm1).
    destruct (AccountAdd (dlo_Address (snd o)) out s1) as [r s2] eqn:Hr2.
    pose proof (dm_wf _ _ _ _ _ _ Hm1) as Hw1. pose proof (dex_move_total _ _ _ _ _ _ Hm1) as Ht.
    assert (r = Ok ()) as ->.
    { pose proof Hr2 as H2. apply AccountAdd_spec in H2; [|done|u64]. destruct r as [[]|e]; [done|].
      destruct H2 as (_ & _ & Hov). exfalso.
      pose proof (at_key_le_sum (λ _, acc_Amount) (accounts (store s1)) (dlo_Address (snd o))) as Hle.
      assert (acc_bal (store s1) (dlo_Address (snd o)) <= sum_accounts (store s1)).
      { apply Hle. intros k v Hk. pose proof (wf_accounts s1 Hw1 k v Hk) as Hwa. unfold wf_account in Hwa. u64. }
      assert (sum_accounts (store s1) = sum_accounts (store s)) as He1.
      { destruct (PoolSub_spec (liquidity_id ch) out s (Ok ()) s1 Hw ltac:(u64) Hr1) as ([_ _ _ (ps & ->)] & _). done. }
      pose proof (pool_bal_le_sum s (liquidity_id ch) Hw). pose proof (sum_stakes_nonneg s Hw).
      cbn in Hg. unfold held in Hg. destruct (wf_supplies s Hw) as [? _]. u64. }
    exists s2. split.
    - rewrite (bind_run_Ok _ _ _ () s2); [done|]. by rewrite (bind_run_Ok _ _ _ () s1).
    - eapply dex_move_trans; [exact Hm1|eapply (move_account_add ch); [done| |exact Hr2]|..]; first [u64|lia]. }
  destruct Hstep as (s1 & Hr1 & Hm1). pose proof (dex_move_total _ _ _ _ _ _ Hm1) as Ht.
  destruct (IH (rs ++ [paid_for res o]) s1) as (s' & Hrun & Hm).
  { by apply Hm1. } { lia. } { by apply Hm1. } { rewrite (dm_liq _ _ _ _ _ _ Hm1). lia. }
  exists s'. rewrite fold_m_cons, (bind_run_Ok _ _ _ _ _ Hr1), Hrun. split.
  - by rewrite <- app_assoc.
  - rewrite list_sum_cons. eapply dex_move_trans; [exact Hm1|exact Hm|lia..].
Qed.
End pay.

Definition sum_amounts (l : list DexLimitOrder) : Z := list_sum dlo_AmountForSale l.
Definition wf_order_amounts (l : list DexLimitOrder) : Prop := Forall (λ o, u64 (dlo_AmountForSale o)) l.
(** What the successful orders sold, read off the receipts. *)
Definition sum_sold (l : list DexLimitOrder) (receipts : list Z) : Z :=
  list_sum (λ p, if p.2 =? 0 then 0 else dlo_AmountForSale p.1) (zip l receipts).

Section copies.
Context `{Crypto, Codec}.

(** The copies correspond to the orders one to one. *)
Lemma copies_forall2 bh k (f : bytes * DexLimitOrder → Z) (R : DexLimitOrder → Z → Prop) l :
  (∀ k o, R (CopyOrder o) (f (k, CopyOrder o)) → R o (f (k, CopyOrder o))) →
  let cs := imap (λ i o, (order_key bh ((k + i)%nat, o), CopyOrder o)) l in
  Forall (λ c, R (snd c) (f c)) cs → Forall2 R l (map f cs).
Proof.
  intros HR. cbn zeta. revert k. induction l as [|o l IH]; intros k Hf; [constructor|].
  rewrite imap_cons in *. apply Forall_cons in Hf as [H1 H2]. cbn. constructor; [by apply HR|].
  assert (He : imap ((λ i o, (order_key bh ((k + i)%nat, o), CopyOrder o)) ∘ S) l =
    imap (λ i o, (order_key bh ((S k + i)%nat, o), CopyOrder o)) l).
  { apply imap_ext. intros i x _. cbn. by replace (k + S i)%nat with (S (k + i)) by lia. }
  rewrite He in *. by apply IH.
Qed.
Lemma copies_sums bh l :
  let cs := imap (λ i o, (order_key bh (i, o), CopyOrder o)) l in
  sum_sales cs = sum_amounts l ∧
  (wf_order_amounts l → Forall (λ o, u64 (dlo_AmountForSale (snd o))) cs) ∧
  ∀ res, list_sum (sold_for res) cs = sum_sold l (map (paid_for res) cs).
Proof.
  cbn zeta. cut (∀ k, let cs := imap (λ i o, (order_key bh ((k + i)%nat, o), CopyOrder o)) l in
    sum_sales cs = sum_amounts l ∧
    (wf_order_amounts l → Forall (λ o, u64 (dlo_AmountForSale (snd o))) cs) ∧
    ∀ res, list_sum (sold_for res) cs = sum_sold l (map (paid_for res) cs)); [intros Hc; exact (Hc 0%nat)|].
  induction l as [|o l IH]; intros k; cbn zeta; [done|]. rewrite imap_cons.
  assert (He : imap ((λ i o, (order_key bh ((k + i)%nat, o), CopyOrder o)) ∘ S) l =
    imap (λ i o, (order_key bh ((S k + i)%nat, o), CopyOrder o)) l).
  { apply imap_ext. intros i x _. cbn. by replace (k + S i)%nat with (S (k + i)) by lia. }
  rewrite He. destruct (IH (S k)) as (H1 & H2 & H3). split_and!.
  - unfold sum_sales, sum_amounts in *. rewrite !list_sum_cons. f_equal. exact H1.
  - intros [? ?]%Forall_cons. constructor; [done|by apply H2].
  - intros res. cbn [map]. unfold sum_sold in *. cbn [zip zip_with]. rewrite !list_sum_cons.
    f_equal. apply H3.
Qed.
End copies.

(** C21. Settlement of a remote batch: with a known previous block, live reserves,
    amounts that fit and distinct order keys, executing the batch always
    succeeds; every order gets nothing or at least the amount it requested, the
    local reserve falls by exactly the sum of the receipts and is never drained,
    the counter reserve grows by exactly what the successful orders sold, the
    constant product never falls, and every book of every chain stays balanced. *)
Theorem HandleDexBatchOrders_settles `{Crypto, Codec} b x ch s bh :
  valid_chain ch → wf s → 0 <= g_total (books 1 (store s)) → wf_points (lpool ch s) →
  prev_block_hash s = Some bh → NoDup (map fst (CopyOrders b bh)) → wf_order_amounts (db_Orders b) →
  0 < x → u64 (x + sum_amounts (db_Orders b)) → 0 < pool_bal (store s) (liquidity_id ch) →
  let y := pool_bal (store s) (liquidity_id ch) in
  ∃ receipts x' y' s',
    HandleDexBatchOrders b x y ch s = (Ok (receipts, x', y'), s') ∧
    Forall2 limit_kept (db_Orders b) receipts ∧
    list_sum id receipts = y - y' ∧ sum_sold (db_Orders b) receipts = x' - x ∧
    x * y <= x' * y' ∧ 0 < y' ∧ pool_bal (store s') (liquidity_id ch) = y' ∧
    ∀ c, valid_chain c → posted c g_zero s s'.
Proof.
  intros Hch Hw Hg Hp Hblk Hnd Ham Hx Hxs Hy. cbn zeta. set (y := pool_bal (store s) (liquidity_id ch)) in *.
  pose proof (pool_bal_range s (liquidity_id ch) Hw) as Hyr. fold y in Hyr.
  pose proof (copies_sums bh (db_Orders b)) as Hcs. cbn zeta in Hcs.
  fold (CopyOrders b bh) in Hcs. destruct Hcs as (Hc1 & Hc2 & Hc3). specialize (Hc2 Ham).
  set (os := CopyOrders b bh) in *. set (sorted := sorted_by (λ a c, bytes_le (fst a) (fst c)) os).
  assert (Hperm : sorted ≡ₚ os) by apply sorted_by_perm.
  destruct (execute_loop ch sorted x y ∅ s) as (x' & y' & res & s1 & Hrun1 & Hex & Hm1); try done.
  { by rewrite Hperm. } { by rewrite Hperm. }
  { unfold sum_sales. rewrite (list_sum_perm _ _ _ Hperm). fold (sum_sales os). by rewrite Hc1. }
  destruct Hex as [(R1 & R1' & R1'') _ R3 R4 R5].
  rewrite (list_sum_perm _ _ _ Hperm) in R4. rewrite (list_sum_perm _ _ _ Hperm) in R5. rewrite Hperm in R3. specialize (Hm1 ch).
  destruct (pay_loop ch Hch res os [] s1) as (s' & Hrun2 & Hm2).
  { by apply Hm1. } { rewrite (dex_move_total _ _ _ _ _ _ Hm1). lia. } { by apply Hm1. }
  { eapply Forall_impl; [exact R3|]. intros o Ho. unfold limit_kept in Ho. lia. }
  { rewrite (dm_liq _ _ _ _ _ _ Hm1). fold y. lia. }
  pose proof (dex_move_trans _ _ _ _ _ _ _ 0 0 (y' - y) _ _ _ Hm1 Hm2 eq_refl eq_refl ltac:(lia)) as Hm.
  exists (map (paid_for res) os), x', y', s'. split_and!; [| | |by rewrite <- Hc3|done|lia| |].
  - unfold HandleDexBatchOrders. rewrite (bind_run_Ok _ _ _ (Some bh) s) by (unfold gets; by rewrite Hblk).
    fold os sorted. rewrite (bind_run_Ok _ _ _ () s).
    2:{ unfold fail_if. by destruct (Z.eqb_spec x 0), (Z.eqb_spec y 0); try lia. }
    rewrite (bind_run_Ok _ _ _ _ _ Hrun1). by rewrite (bind_run_Ok _ _ _ _ _ Hrun2).
  - eapply (copies_forall2 bh 0 (paid_for res) limit_kept); [by intros|]. exact R3.
  - rewrite <- R4. clear. induction os as [|o os IH]; cbn [map]; [done|]. by rewrite !list_sum_cons, IH.
  - rewrite (dm_liq _ _ _ _ _ _ Hm). fold y. lia.
  - intros c Hc. eapply posted_eq; [by apply Hm|]. rewrite hit_0. g_eq.
Qed.

(** ** Lemmas: withdrawals *)

Definition percents_ok (l : list DexLiquidityWithdraw) : Prop := Forall (λ w, 0 <= wd_Percent w <= 100) l.

Lemma sum_checked_spec acc l n :
  u64 acc → Forall u64 l → sum_checked acc l = Some n → n = acc + list_sum id l ∧ u64 n.
Proof.
  intros Hacc Hl. revert acc Hacc. induction Hl as [|a l Ha Hl IH]; intros acc Hacc; cbn [sum_checked].
  { intros [= <-]. change (list_sum id []) with 0. split; [lia|done]. }
  destruct (AddUint64 acc a) as [sum o] eqn:Hs. destruct o; [done|].
  apply AddUint64_no_overflow in Hs as [-> ?]; [|done..]. intros [-> ?]%IH; [|done].
  rewrite list_sum_cons. split; [cbn; lia|done].
Qed.

Section withdraw.
Context (ch : Z) (Hch : valid_chain ch).

(** The state of the withdrawal loop: [p0] and [s0] are the pool and the state
    before it, [x] and [y] the reserves. *)
Record withdrawing (local : bool) (x y : Z) (p0 : Pool) (s0 : FSM) (st : Pool * Z * Z) (s : FSM) : Prop := {
  wi_points : wf_points (fst (fst st));
  wi_pool : pool_Id (fst (fst st)) = pool_Id p0;
  wi_removed : 0 <= TotalPoolPoints p0 - TotalPoolPoints (fst (fst st))
               ∧ (TotalPoolPoints (fst (fst st)) = TotalPoolPoints p0 ∨ 0 < TotalPoolPoints (fst (fst st)));
  wi_x : 0 <= snd (fst st) ∧
         snd (fst st) * TotalPoolPoints p0 <= x * (TotalPoolPoints p0 - TotalPoolPoints (fst (fst st)));
  wi_y : 0 <= snd st ∧
         snd st * TotalPoolPoints p0 <= y * (TotalPoolPoints p0 - TotalPoolPoints (fst (fst st)));
  wi_move : dex_move ch (- (if local then snd (fst st) else snd st)) 0 0 s0 s;
  wi_pools : pools (store s) = pools (store s0);
}.

Lemma withdraw_one_spec local cc tX tY tp x y p0 s0 st w s st' s' :
  0 < TotalPoolPoints p0 → u64 x → u64 y → 0 < tp →
  0 <= tX → tX * TotalPoolPoints p0 <= x * tp → 0 <= tY → tY * TotalPoolPoints p0 <= y * tp →
  0 <= wd_Percent w <= 100 →
  withdrawing local x y p0 s0 st s → withdraw_one local cc tX tY tp st w s = (Ok st', s') →
  withdrawing local x y p0 s0 st' s'.
Proof.
  intros HT Hx Hy Htp HtX1 HtX HtY1 HtY Hpct Hw. pose proof Hw as [W1 W2 W3 W4 W5 W6 W7].
  destruct st as [[p pX] pY]. cbn [fst snd] in *. unfold withdraw_one.
  destruct (GetPointsFor p (wd_Address w)) as [n|e] eqn:Hpts; [|by intros [= <- <-]].
  unfold GetPointsFor in Hpts. destruct (points_of _ _) as [n'|] eqn:Hof; [|done]. injection Hpts as ->.
  assert (Hn : u64 n).
  { apply points_of_Some in Hof as (lp & Hin & _ & <-). pose proof (wp_range _ W1) as Hr.
    rewrite Forall_forall in Hr. by apply Hr. }
  set (pts := SafeMulDiv n (wd_Percent w) 100).
  assert (Hpts : 0 <= pts <= n) by (by apply SafeMulDiv_share).
  destruct (SafeMulDiv_le tY pts tp) as [Hy1 Hy2]; [lia..|].
  destruct (SafeMulDiv_le tX pts tp) as [Hx1 Hx2]; [lia..|].
  pose proof (SafeMulDiv_u64 tX pts tp) as HxS. pose proof (SafeMulDiv_u64 tY pts tp) as HyS.
  set (yS := SafeMulDiv tY pts tp) in *. set (xS := SafeMulDiv tX pts tp) in *.
  destruct (RemovePoints p (wd_Address w) pts) as [p' e] eqn:Hrem.
  apply (RemovePoints_wf _ _ _ _ _ n) in Hrem as (R1 & R2 & R3 & R4 & R5); [|done..].
  destruct e as [e|]; [by intros [=]|]. destruct R5 as [R5 _]. specialize (R5 eq_refl).
  set (pay := if local then xS else yS). set (cnt := if local then yS else xS).
  intros Hrun. apply bind_Ok in Hrun as ([] & s1 & Hadd & Hrun).
  apply bind_Ok in Hrun as (u & s2 & Hev & Hrun). injection Hrun as <- <-.
  pose proof (wp_u64 _ R1) as HT'.
  assert (xS * TotalPoolPoints p0 <= x * pts) by nia. assert (yS * TotalPoolPoints p0 <= y * pts) by nia.
  assert (HpX : (pX + xS) * TotalPoolPoints p0 <= x * (TotalPoolPoints p0 - TotalPoolPoints p')) by (rewrite R2; nia).
  assert (HpY : (pY + yS) * TotalPoolPoints p0 <= y * (TotalPoolPoints p0 - TotalPoolPoints p')) by (rewrite R2; nia).
  assert (pX + xS <= x) by (unfold u64 in *; nia). assert (pY + yS <= y) by (unfold u64 in *; nia).
  rewrite !u64_add_small by u64.
  pose proof (move_account_add ch _ pay s _ s1 ltac:(apply W6) ltac:(subst pay; by destruct local) Hadd) as Hm1.
  apply (move_event ch) in Hev as Hm2; [|apply Hm1]. destruct Hm2 as [_ Hm2].
  assert (Hpools : pools (store s2) = pools (store s)).
  { injection Hev as _ <-. cbn.
    apply AccountAdd_spec in Hadd as [_ _ _ (accs & ca & ->)]; [done|apply W6|subst pay; by destruct local]. }
  split; cbn [fst snd]; [done|congruence|u64|split; [lia|done]|split; [lia|done]| |congruence].
  eapply dex_move_trans; [exact W6|eapply dex_move_trans; [exact Hm1|exact Hm2|..]|..]; try reflexivity.
  subst pay. destruct local; lia.
Qed.

(** What a batch of withdrawals does: [removed] of the pool's points are burnt
    and neither reserve pays more than their share. *)
Record withdrawn (local : bool) (x y x' y' : Z) (s s' : FSM) : Prop := {
  wd_range : 0 <= x' <= x ∧ 0 <= y' <= y;
  wd_share : ∃ removed, 0 <= removed ∧
    (x - x') * TotalPoolPoints (lpool ch s) <= x * removed ∧
    (y - y') * TotalPoolPoints (lpool ch s) <= y * removed ∧
    TotalPoolPoints (lpool ch s') = TotalPoolPoints (lpool ch s) - removed;
  wd_reserve : pool_bal (store s') (liquidity_id ch) = if local then x' else y';
  wd_positive : (0 < x → 0 < x') ∧ (0 < y → 0 < y');
  wd_move : dex_move ch 0 0 ((if local then x' else y') - (if local then x else y)) s s';
}.

Lemma withdrawn_0 (local : bool) x y s :
  wf s → u64 x → u64 y → pool_bal (store s) (liquidity_id ch) = (if local then x else y) →
  withdrawn local x y x y s s.
Proof.
  intros Hw Hx Hy Hb. split; [u64| |done|done|].
  - exists 0. lia.
  - eapply dex_move_eq; [by apply dex_move_0|lia..].
Qed.

Lemma HandleBatchWithdraw_spec b x y (local : bool) s x' y' s' :
  wf s → wf_points (lpool ch s) → u64 x → u64 y → percents_ok (Withdrawals b) →
  pool_bal (store s) (liquidity_id ch) = (if local then x else y) → 0 < (if local then x else y) →
  HandleBatchWithdraw b ch x y local s = (Ok (x', y'), s') →
  withdrawn local x y x' y' s s'.
Proof.
  intros Hw Hp Hx Hy Hpct Hbal Hpos Hrun. unfold HandleBatchWithdraw in Hrun.
  destruct (len (Withdrawals b) =? 0); [injection Hrun as <- <- <-; by apply withdrawn_0|].
  rewrite (bind_run_Ok _ _ _ (lpool ch s) s) in Hrun by done.
  destruct (sum_checked 0 _) as [tp|] eqn:Hsum; [|done].
  assert (Htp : u64 tp).
  { apply sum_checked_spec in Hsum as [_ ?]; [done|u64|]. apply Forall_forall. intros n Hn.
    apply list_elem_of_fmap in Hn as (w & -> & _). unfold points_to_remove.
    destruct (GetPointsFor _ _); [apply SafeMulDiv_u64|u64]. }
  destruct (Z.eqb_spec tp 0) as [|Htp0]; [injection Hrun as <- <- <-; by apply withdrawn_0|].
  destruct (Z.eqb_spec (TotalPoolPoints (lpool ch s)) 0) as [|HT]; cbn [orb] in Hrun.
  { injection Hrun as <- <- <-. by apply withdrawn_0. }
  pose proof (wp_u64 _ Hp) as HTu. set (T := TotalPoolPoints (lpool ch s)) in *.
  destruct (SafeMulDiv_le y tp T) as [HY1 HY2]; [u64..|]. destruct (SafeMulDiv_le x tp T) as [HX1 HX2]; [u64..|].
  apply bind_Ok in Hrun as ([[p pX] pY] & s1 & Hloop & Hrun).
  assert (Hinv : withdrawing local x y (lpool ch s) s (p, pX, pY) s1).
  { eapply (fold_m_inv (λ _, withdrawing local x y (lpool ch s) s)); [|..|exact Hloop].
    - intros dn w rest st s2 st' s3 Hl Hst Hone. eapply withdraw_one_spec; [..|exact Hst|exact Hone]; try done;
        [fold T; u64|u64|].
      unfold percents_ok in Hpct. rewrite Forall_forall in Hpct. apply Hpct. rewrite Hl. set_solver.
    - split; cbn [fst snd]; [done|done|split; [lia|by left]|lia|lia| |done].
      destruct local; by apply dex_move_0. }
  destruct Hinv as [W1 W2 W3 W4 W5 W6 W7]. cbn [fst snd] in *. fold T in W3, W4, W5.
  pose proof (wp_u64 _ W1) as HT'. assert (pX <= x) by (unfold u64 in *; nia). assert (pY <= y) by (unfold u64 in *; nia).
  rewrite !u64_sub_small in Hrun by u64.
  set (keep := if local then x - pX else y - pY) in *.
  assert (Hkeep : 0 < keep).
  { subst keep. destruct local, W3 as [? [?|?]]; unfold u64 in *; nia. }
  assert (Hkeep' : u64 keep) by (subst keep; destruct local; u64).
  apply bind_Ok in Hrun as (u & s2 & Hset & Hrun). injection Hrun as <- <- <-.
  pose proof (SetPool_lookup _ _ _ _ (liquidity_id ch) Hset) as Hlk. cbn [pool_Id pool_Amount set_pool_Amount] in Hlk.
  destruct (lookup_pool_spec (liquidity_id ch) (store s)) as [Hid Hb]. rewrite W2 in Hlk. unfold lpool in Hlk.
  rewrite Hid, decide_True, (proj2 (Z.eqb_neq keep 0)) in Hlk by (done || lia).
  apply (move_pool ch Hch true) in Hset as [_ Hm]; [|apply W6|done|cbn; by rewrite W2|by intros; apply wf_points_amount].
  cbn in Hm. rewrite W2 in Hm. unfold lpool in Hm. rewrite Hid, (dm_liq _ _ _ _ _ _ W6), Z.add_0_r in Hm.
  split.
  - lia.
  - exists (T - TotalPoolPoints p). fold T. split_and!; [lia|lia|lia|].
    unfold lpool. rewrite Hlk. cbn. lia.
  - rewrite (dm_liq _ _ _ _ _ _ Hm), (dm_liq _ _ _ _ _ _ W6). destruct local; subst keep; lia.
  - assert (0 < TotalPoolPoints p) by (destruct W3 as [? [?|?]]; unfold u64 in *; lia).
    unfold u64 in *. split; intros; nia.
  - eapply dex_move_trans; [exact W6|exact Hm|..]; subst keep; destruct local; lia.
Qed.
End withdraw.

(** ** Lemmas: deposits *)

Definition sum_deposits (l : list DexLiquidityDeposit) : Z := list_sum dep_Amount l.
Definition deposits_ok (l : list DexLiquidityDeposit) : Prop := Forall (λ d, u64 (dep_Amount d)) l.

Section deposit.
Context (ch : Z) (Hch : valid_chain ch).

(** The state of the deposit loop after the deposits [done]. *)
Record depositing (local : bool) (p1 : Pool) (x0 tDL tD : Z) (s0 : FSM) (done_ : list DexLiquidityDeposit)
    (st : Pool * Z * Z) (s : FSM) : Prop := {
  di_points : wf_points (fst (fst st));
  di_pool : pool_Id (fst (fst st)) = pool_Id p1;
  di_amount : pool_Amount (fst (fst st)) = pool_Amount p1 + (if local then sum_deposits done_ else 0)
              ∧ u64 (pool_Amount (fst (fst st)));
  di_total : TotalPoolPoints (fst (fst st)) = TotalPoolPoints p1 + snd (fst st);
  di_dist : 0 <= snd (fst st) ∧ snd (fst st) * tD <= tDL * sum_deposits done_;
  di_x : snd st = x0 + sum_deposits done_ ∧ u64 (snd st);
  di_move : dex_move ch (if local then sum_deposits done_ else 0) (if local then - sum_deposits done_ else 0) 0 s0 s;
}.

Lemma deposit_one_spec local cc p1 x0 tDL tD s0 dn d st s st' s' :
  cc = ch → u64 tDL → 0 < tD → u64 (dep_Amount d) → 0 <= TotalPoolPoints p1 →
  depositing local p1 x0 tDL tD s0 dn st s →
  deposit_one local cc tDL tD st d s = (Ok st', s') →
  depositing local p1 x0 tDL tD s0 (dn ++ [d]) st' s'.
Proof.
  intros -> HtDL HtD Hd HT1 [W1 W2 W3 W4 W5 W6 W7] Hrun.
  destruct st as [[p dist] x]. cbn [fst snd] in *. unfold deposit_one in Hrun.
  set (n := dep_Amount d) in *.
  assert (Hsum : sum_deposits (dn ++ [d]) = sum_deposits dn + n).
  { unfold sum_deposits. rewrite list_sum_app, list_sum_cons. change (list_sum dep_Amount []) with 0. lia. }
  destruct (SafeMulDiv_le tDL n tD) as [Hs1 Hs2]; [u64..|]. pose proof (SafeMulDiv_u64 tDL n tD) as Hs3.
  set (share := SafeMulDiv tDL n tD) in *.
  apply bind_Ok in Hrun as (u & s1 & Hf & Hrun). apply fail_if_Ok in Hf as [_ ->].
  apply bind_Ok in Hrun as (p2 & s2 & Hadd & Hrun).
  unfold lift in Hadd. injection Hadd as Hadd <-. apply AddPoints_wf in Hadd as (A1 & A2 & A3 & A4); [|done..].
  apply bind_Ok in Hrun as (p3 & s3 & Hloc & Hrun).
  assert (Hp3 : wf_points p3 ∧ pool_Id p3 = pool_Id p ∧ TotalPoolPoints p3 = TotalPoolPoints p2 ∧
      pool_Amount p3 = pool_Amount p + (if local then n else 0) ∧ u64 (pool_Amount p3) ∧
      dex_move ch (if local then n else 0) (if local then - n else 0) 0 s s3).
  { destruct local.
    - apply bind_Ok in Hloc as ([] & s4 & Hsub & Hloc).
      apply (move_holding_sub ch Hch) in Hsub as Hm; [|apply W7|done].
      destruct (AddUint64 (pool_Amount p2) n) as [am o] eqn:Ham.
      apply bind_Ok in Hloc as (u' & s5 & Hf & Hloc). apply fail_if_Ok in Hf as [-> ->].
      injection Hloc as <- <-. rewrite A3 in Ham.
      apply AddUint64_no_overflow in Ham as [-> ?]; [|apply W3|done].
      split_and!; [by apply wf_points_amount|done..].
    - injection Hloc as <- <-. destruct W3. rewrite A3. split_and!; [done..|lia|done|].
      apply dex_move_0. apply W7. }
  destruct Hp3 as (B1 & B2 & B3 & B4 & B5 & B6).
  destruct (AddUint64 x n) as [x' o] eqn:Hx.
  apply bind_Ok in Hrun as (u' & s5 & Hf & Hrun). apply fail_if_Ok in Hf as [-> ->].
  apply AddUint64_no_overflow in Hx as [-> Hxu]; [|apply W6|done].
  apply bind_Ok in Hrun as (u'' & s6 & Hev & Hrun). injection Hrun as <- <-.
  apply (move_event ch) in Hev as [_ Hm2]; [|apply B6].
  pose proof (wp_u64 _ A1) as HTu. rewrite u64_add_small by u64.
  destruct W3 as [W3 _], W6 as [W6 _]. split; cbn [fst snd]; rewrite ?Hsum.
  - done.
  - congruence.
  - split; [destruct local; lia|done].
  - lia.
  - split; [lia|nia].
  - split; [lia|done].
  - eapply dex_move_trans; [exact W7|eapply dex_move_trans; [exact B6|exact Hm2|reflexivity..]|..];
      destruct local; lia.
Qed.

(** What a batch of deposits does: [total] tokens enter the reserve [x] and the
    new points never dilute the old ones below the growth of the reserves. *)
Record deposited (local : bool) (x y x' total : Z) (s s' : FSM) : Prop := {
  dp_x : x' = x + total ∧ u64 x';
  dp_fair : ∃ L minted,
    L = (if TotalPoolPoints (lpool ch s) =? 0 then Z.sqrt (x * y) else TotalPoolPoints (lpool ch s)) ∧
    TotalPoolPoints (lpool ch s') = L + minted ∧ 0 <= minted ∧
    minted * Z.sqrt (x * y) <= L * (Z.sqrt (x' * y) - Z.sqrt (x * y));
  dp_move : dex_move ch 0 (if local then - total else 0) (if local then total else 0) s s';
}.

Lemma HandleBatchDeposit_spec b x y (local : bool) s x' y' s' :
  wf s → wf_points (lpool ch s) → u64 x → u64 y → deposits_ok (Deposits b) →
  pool_bal (store s) (liquidity_id ch) = (if local then x else y) →
  HandleBatchDeposit b ch x y local s = (Ok (x', y'), s') →
  y' = y ∧ ((x' = x ∧ s' = s ∧ (x = 0 ∨ y = 0 ∨ sum_deposits (Deposits b) = 0))
            ∨ deposited local x y x' (sum_deposits (Deposits b)) s s').
Proof.
  intros Hw Hp Hx Hy Hds Hbal Hrun. unfold HandleBatchDeposit in Hrun.
  destruct (Z.eqb_spec (len (Deposits b)) 0) as [Hl|Hl].
  { injection Hrun as <- <- <-. split; [done|]. left. split_and!; [done..|]. right; right.
    unfold len in Hl. destruct (Deposits b); [done|]. cbn in Hl. lia. }
  rewrite (bind_run_Ok _ _ _ (lpool ch s) s) in Hrun by done.
  destruct (sum_checked 0 _) as [tD|] eqn:Hsum; [|done].
  apply sum_checked_spec in Hsum as [HtD HtDu]; [|u64|].
  2:{ unfold deposits_ok in Hds. rewrite Forall_forall in Hds. apply Forall_forall. intros n Hn.
      apply list_elem_of_fmap in Hn as (d & -> & Hd). by apply Hds. }
  assert (HtD' : tD = sum_deposits (Deposits b)).
  { rewrite HtD. unfold sum_deposits. clear. induction (Deposits b) as [|d l IH]; [done|].
    cbn [map]. rewrite !list_sum_cons. cbn [id]. lia. }
  clear HtD. rewrite <- HtD'.
  destruct (Z.eqb_spec tD 0); cbn [orb] in Hrun; [injection Hrun as <- <- <-; split; [done|left; by auto]|].
  destruct (Z.eqb_spec x 0); cbn [orb] in Hrun; [injection Hrun as <- <- <-; split; [done|left; by auto]|].
  destruct (Z.eqb_spec y 0); cbn [orb] in Hrun; [injection Hrun as <- <- <-; split; [done|left; by auto]|].
  apply bind_Ok in Hrun as ([L p1] & s1 & Hinit & Hrun).
  pose proof (SqrtProductUint64_exact x y Hx Hy) as [Hk0 Hk0u]. rewrite Hk0 in Hinit, Hrun.
  destruct (lookup_pool_spec (liquidity_id ch) (store s)) as [Hid Hb]. fold (lpool ch s) in Hid, Hb.
  assert (HL : s1 = s ∧ L = (if TotalPoolPoints (lpool ch s) =? 0 then Z.sqrt (x * y) else TotalPoolPoints (lpool ch s))
      ∧ wf_points p1 ∧ TotalPoolPoints p1 = L ∧ pool_Amount p1 = pool_bal (store s) (liquidity_id ch) ∧
      pool_Id p1 = liquidity_id ch).
  { destruct (Z.eqb_spec (TotalPoolPoints (lpool ch s)) 0) as [Hz|Hz].
    - apply bind_Ok in Hinit as (q & s2 & Hadd & Hinit). injection Hinit as <- <- <-.
      unfold lift in Hadd. injection Hadd as Hadd <-.
      apply AddPoints_wf in Hadd as (A1 & A2 & A3 & A4); [|done..].
      split_and!; [done|done|done|lia|congruence|congruence].
    - injection Hinit as <- <- <-. by split_and!. }
  destruct HL as (-> & HL & P1 & P2 & P3 & P4). clear Hinit.
  apply bind_Ok in Hrun as (u1 & s2 & Hf & Hrun). apply fail_if_Ok in Hf as [Hk ->]. apply Z.eqb_neq in Hk.
  destruct (AddUint64 x tD) as [xA o] eqn:HxA.
  apply bind_Ok in Hrun as (u2 & s2 & Hf & Hrun). apply fail_if_Ok in Hf as [-> ->].
  apply AddUint64_no_overflow in HxA as [-> HxA]; [|done..].
  pose proof (SqrtProductUint64_exact (x + tD) y HxA Hy) as [Hk1 Hk1u]. rewrite Hk1 in Hrun.
  apply bind_Ok in Hrun as (u3 & s2 & Hf & Hrun). apply fail_if_Ok in Hf as [Hge ->]. apply Z.ltb_ge in Hge.
  rewrite (u64_sub_small (Z.sqrt ((x + tD) * y))) in Hrun by u64.
  pose proof (wp_u64 _ P1) as HLu. rewrite P2 in HLu.
  destruct (SafeMulDiv_le L (Z.sqrt ((x + tD) * y) - Z.sqrt (x * y)) (Z.sqrt (x * y))) as [HD1 HD2]; [u64..|].
  pose proof (SafeMulDiv_u64 L (Z.sqrt ((x + tD) * y) - Z.sqrt (x * y)) (Z.sqrt (x * y))) as HDu.
  set (tDL := SafeMulDiv L _ _) in *.
  apply bind_Ok in Hrun as ([[p dist] x1] & s2 & Hloop & Hrun).
  assert (Hinv : depositing local p1 x tDL tD s (Deposits b) (p, dist, x1) s2).
  { eapply (fold_m_inv (depositing local p1 x tDL tD s)); [|..|exact Hloop].
    - intros dn d rest st s3 st' s4 Hl' Hst Hone. eapply deposit_one_spec; [..|exact Hst|exact Hone]; try done;
        [u64| |u64].
      unfold deposits_ok in Hds. rewrite Forall_forall in Hds. apply Hds. rewrite Hl'. set_solver.
    - change (sum_deposits []) with 0. pose proof (pool_bal_range s (liquidity_id ch) Hw).
      split; cbn [fst snd]; change (sum_deposits []) with 0;
        [done|done|rewrite P3; split; [destruct local; lia|done]|lia|lia|split; [lia|done]|].
      destruct local; by apply dex_move_0. }
  destruct Hinv as [W1 W2 W3 W4 W5 W6 W7]. cbn [fst snd] in *. rewrite <- HtD' in *.
  assert (0 < tD) by u64. assert (dist <= tDL) by nia. rewrite u64_sub_small in Hrun by u64.
  apply bind_Ok in Hrun as (p2 & s3 & Hadd & Hrun). unfold lift in Hadd. injection Hadd as Hadd <-.
  apply AddPoints_wf in Hadd as (A1 & A2 & A3 & A4); [|done|u64].
  apply bind_Ok in Hrun as (u4 & s4 & Hset & Hrun). injection Hrun as <- <- <-. split; [done|right].
  assert (Hpos : pool_Amount p2 ≠ 0) by (rewrite A3; destruct W3 as [-> _]; rewrite P3, Hbal; destruct local; u64).
  assert (Hp2 : pool_Id p2 = liquidity_id ch) by congruence.
  pose proof (SetPool_lookup _ _ _ _ (liquidity_id ch) Hset) as Hlk.
  rewrite Hp2, decide_True, (proj2 (Z.eqb_neq _ 0)) in Hlk by done.
  apply (move_pool ch Hch true) in Hset as [_ Hm]; [|apply W7|rewrite A3; apply W3|done|done].
  rewrite Hp2, A3, (dm_liq _ _ _ _ _ _ W7) in Hm. destruct W3 as [W3 _], W6 as [W6 W6u].
  split.
  - by split.
  - exists L, tDL. split_and!; [done| |lia|].
    + unfold lpool. rewrite Hlk. lia.
    + rewrite W6. done.
  - eapply dex_move_trans; [exact W7|exact Hm|..]; rewrite ?W3, ?P3; destruct local; lia.
Qed.
End deposit.

(** ** Lemmas: settling the local batch *)

Section receipts.
Context (ch : Z) (Hch : valid_chain ch).

Lemma order_receipt_spec cm rs x y i o s x1 y1 s1 :
  wf s → 0 <= g_total (books 1 (store s)) → wf_points (lpool ch s) → u64 (dlo_AmountForSale o) →
  x = pool_bal (store s) (liquidity_id ch) → u64 y → Forall u64 rs →
  order_receipt ch cm rs (x, y) (i, o) s = (Ok (x1, y1), s1) →
  x <= x1 ∧ y1 <= y ∧ u64 y1 ∧ (0 < y → 0 < y1) ∧
  dex_move ch 0 (- dlo_AmountForSale o) (x1 - x) s s1.
Proof.
  intros Hw Hg Hp Ham -> Hy Hrs Hrun. unfold order_receipt in Hrun.
  apply bind_Ok in Hrun as ([] & s2 & Hsub & Hrun).
  apply (move_holding_sub ch Hch) in Hsub as M1; [|done..].
  pose proof (dm_wf _ _ _ _ _ _ M1) as Hw2. pose proof (dex_move_total _ _ _ _ _ _ M1) as Ht.
  assert (HL : pool_bal (store s2) (liquidity_id ch) = pool_bal (store s) (liquidity_id ch))
    by (rewrite (dm_liq _ _ _ _ _ _ M1); lia).
  destruct (rs !! i) as [dY|] eqn:Hr; [|done].
  assert (HdY : u64 dY) by (by eapply (proj1 (Forall_lookup _ _) Hrs)).
  apply bind_Ok in Hrun as ([x2 y2] & s3 & Hmid & Hrun).
  apply bind_Ok in Hrun as (u & s4 & Hev & Hrun). injection Hrun as <- <- <-.
  destruct (Z.eqb_spec dY 0) as [Hz|Hz]; cbn [negb] in *.
  - apply bind_Ok in Hmid as ([] & s5 & Hadd & Hmid). injection Hmid as <- <- <-.
    apply (move_account_add ch) in Hadd as M2; [|done|done].
    apply (move_event ch) in Hev as [_ M3]; [|apply M2].
    split_and!; [lia|lia|done|done|].
    eapply dex_move_trans; [exact M1|eapply dex_move_trans; [exact M2|exact M3|reflexivity..]|..]; lia.
  - apply bind_Ok in Hmid as (u1 & s5 & Hf & Hmid). apply fail_if_Ok in Hf as [Hle ->]. apply Z.leb_gt in Hle.
    apply bind_Ok in Hmid as ([] & s5 & Hadd & Hmid). injection Hmid as <- <- <-.
    pose proof (covered_pool 1 s2 (liquidity_id ch) (dlo_AmountForSale o) Hw2 ltac:(u64)) as Hcov.
    apply (move_liquidity_add ch Hch) in Hadd as M2; [|done|u64|by apply M1].
    apply (move_event ch) in Hev as [_ M3]; [|apply M2].
    rewrite HL in Hcov. rewrite u64_add_small, u64_sub_small by u64.
    split_and!; [u64|u64|u64|lia|].
    eapply dex_move_trans; [exact M1|eapply dex_move_trans; [exact M2|exact M3|reflexivity..]|..]; lia.
Qed.

Lemma HandleOrderReceipts_spec lb rb x y s x' y' s' :
  wf s → 0 <= g_total (books 1 (store s)) → wf_points (lpool ch s) → wf_order_amounts (db_Orders lb) →
  x = pool_bal (store s) (liquidity_id ch) → u64 y → Forall u64 (Receipts rb) →
  HandleOrderReceipts lb rb ch x y s = (Ok (x', y'), s') →
  x <= x' ∧ y' <= y ∧ u64 y' ∧ (0 < y → 0 < y') ∧
  dex_move ch 0 (- sum_amounts (db_Orders lb)) (x' - x) s s'.
Proof.
  intros Hw Hg Hp Ham Hx Hy Hrs Hrun. unfold HandleOrderReceipts in Hrun.
  set (P := λ (dn : list (nat * DexLimitOrder)) (xy : Z * Z) (s1 : FSM),
    x <= xy.1 ∧ xy.2 <= y ∧ u64 xy.2 ∧ (0 < y → 0 < xy.2) ∧
    dex_move ch 0 (- sum_amounts (map snd dn)) (xy.1 - x) s s1).
  assert (HP : P (imap pair (db_Orders lb)) (x', y') s').
  { eapply (fold_m_inv P); [|..|exact Hrun].
    - intros dn [i o] rest [x1 y1] s1 [x2 y2] s2 Hl (P1 & P2 & P3 & P4 & P5) Hone. cbn [fst snd] in *.
      assert (Ho : u64 (dlo_AmountForSale o)).
      { unfold wf_order_amounts in Ham. rewrite Forall_forall in Ham. apply Ham.
        assert (Hin : (i, o) ∈ imap pair (db_Orders lb)) by (rewrite Hl; set_solver).
        apply elem_of_lookup_imap in Hin as (j & o' & [= <- <-] & Hj). by eapply list_elem_of_lookup_2. }
      apply order_receipt_spec in Hone as (Q1 & Q2 & Q3 & Q4 & Q5); try done.
      + unfold P. cbn [fst snd]. split_and!; [lia|lia|done|auto|].
        unfold sum_amounts. rewrite map_app, list_sum_app. cbn [map]. rewrite list_sum_cons.
        change (list_sum dlo_AmountForSale []) with 0. unfold sum_amounts in P5. cbn [snd].
        eapply dex_move_trans; [exact P5|exact Q5|lia..].
      + apply P5.
      + rewrite (dex_move_total _ _ _ _ _ _ P5). lia.
      + by apply P5.
      + rewrite (dm_liq _ _ _ _ _ _ P5). lia.
    - unfold P. cbn [fst snd map]. change (sum_amounts []) with 0. split_and!; [lia|lia|done|done|].
      eapply dex_move_eq; [by apply dex_move_0|lia..]. }
  destruct HP as (P1 & P2 & P3 & P4 & P5). cbn [fst snd] in *.
  assert (Hmap : map snd (imap pair (db_Orders lb)) = db_Orders lb).
  { clear. change (map snd (imap pair (db_Orders lb))) with (snd <$> imap pair (db_Orders lb)).
    rewrite fmap_imap. etransitivity; [|apply list_fmap_id]. rewrite <- imap_const. by apply imap_ext. }
  rewrite Hmap in P5. by split_and!.
Qed.
End receipts.

(** ** Lemmas: the batch life cycle *)

Definition wf_batch (b : DexBatch) : Prop :=
  wf_order_amounts (db_Orders b) ∧ deposits_ok (Deposits b) ∧ percents_ok (Withdrawals b).
(** Stored batches carry their chain id; a dropped locked batch is the zero batch. *)
Record wf_batches (lk nx : gmap Z DexBatch) : Prop := {
  wb_locked : map_Forall (λ ch b, wf_batch b ∧ (db_Committee b = ch ∨ b = zero_batch)) lk;
  wb_next : map_Forall (λ ch b, wf_batch b ∧ db_Committee b = ch) nx;
}.

Record dex_inv (s : FSM) : Prop := {
  dx_wf : wf s;
  dx_total : 0 <= g_total (books 1 (store s));
  dx_points : ∀ c, valid_chain c → wf_points (lpool c s);
  dx_batches : wf_batches (locked_batch (store s)) (next_batch (store s));
}.
(** A dex step keeps the invariant and every book but the holding gap, which
    may only grow. *)
Record dex_kept (s s' : FSM) : Prop := {
  dk_inv : dex_inv s';
  dk_posted : ∀ c, valid_chain c → ∃ n, 0 <= n ∧ posted c (Gaps 0 0 0 0 0 0 n) s s';
  dk_height : height s' = height s;
}.
Lemma dex_kept_refl s : dex_inv s → dex_kept s s.
Proof. intros Hi. split; [done| |done]. intros c _. exists 0. split; [done|]. apply posted_0, Hi. Qed.
Lemma dex_kept_trans s1 s2 s3 : dex_kept s1 s2 → dex_kept s2 s3 → dex_kept s1 s3.
Proof.
  intros [_ P1 H1] [I2 P2 H2]. split; [done| |congruence]. intros c Hc.
  destruct (P1 c Hc) as (n1 & ? & Q1), (P2 c Hc) as (n2 & ? & Q2). exists (n1 + n2). split; [lia|].
  eapply posted_eq; [by eapply posted_trans|]. g_eq.
Qed.

Definition with_batches (lk nx : gmap Z DexBatch) (s : FSM) : FSM :=
  set_store (set_next_batch nx (set_locked_batch lk (store s))) s.
(** What the batches of a chain owe. *)
Definition owed (lk nx : gmap Z DexBatch) (c : Z) : Z :=
  at_key (λ _, batch_due) lk c + at_key (λ _, batch_due) nx c.

Lemma with_batches_posted c lk nx s :
  wf s → posted c (Gaps 0 0 0 0 0 0 (owed (locked_batch (store s)) (next_batch (store s)) c - owed lk nx c))
           s (with_batches lk nx s).
Proof. intros [H1 H2 H3 H4 H5]. split; [by constructor|]. unfold owed. books_step. Qed.

Lemma only_funds_batches s s' :
  only_funds s s' → locked_batch (store s') = locked_batch (store s) ∧
    next_batch (store s') = next_batch (store s) ∧ height s' = height s ∧ config s' = config s ∧
    block_hashes (store s') = block_hashes (store s).
Proof. by intros (accs & ps & ca & ev & ->). Qed.

(** Funds moved, then the batches rewritten: the holding pool and what the
    batches owe must change together. *)
Lemma move_then_write ch h l lk nx n s s1 :
  dex_inv s → dex_move ch 0 h l s s1 → wf_batches lk nx → 0 <= n →
  (∀ c, owed lk nx c = owed (locked_batch (store s)) (next_batch (store s)) c + hit ch c (h - n)) →
  dex_kept s (with_batches lk nx s1).
Proof.
  intros [I1 I2 I3 I4] Hm Hb Hn Ho. destruct (only_funds_batches _ _ (dm_only _ _ _ _ _ _ Hm)) as (E1 & E2 & E3 & _).
  pose proof (dm_wf _ _ _ _ _ _ Hm) as Hw1.
  split.
  - split.
    + apply (with_batches_posted 1). done.
    + rewrite (g_total_posted _ _ _ _ (with_batches_posted 1 lk nx s1 Hw1)), (dex_move_total _ _ _ _ _ _ Hm). cbn [g_total]. lia.
    + intros c Hc. apply (dm_points _ _ _ _ _ _ Hm c Hc). by apply I3.
    + done.
  - intros c Hc. exists (hit ch c n). split; [unfold hit; destruct (ch =? c); lia|].
    eapply posted_eq; [eapply posted_trans; [by apply Hm|by apply with_batches_posted]|].
    rewrite E1, E2, Ho, hit_sub. g_eq.
  - done.
Qed.
Lemma move_kept ch l s s1 : dex_inv s → dex_move ch 0 0 l s s1 → dex_kept s s1.
Proof.
  intros Hi Hm. destruct (only_funds_batches _ _ (dm_only _ _ _ _ _ _ Hm)) as (E1 & E2 & _).
  assert (He : with_batches (locked_batch (store s1)) (next_batch (store s1)) s1 = s1) by (by destruct s1 as [[]]).
  rewrite <- He. eapply (move_then_write ch 0 l _ _ 0); [done|done| |done|].
  - rewrite E1, E2. apply Hi.
  - intros c. rewrite E1, E2, hit_0. lia.
Qed.

Lemma batch_due_default ch n : batch_due (set_PoolSize n (set_db_Committee ch zero_batch)) = 0.
Proof. done. Qed.
Lemma wf_batch_zero : wf_batch zero_batch.
Proof. repeat constructor. Qed.

Lemma lookup_batch_spec st ch locked wp :
  wf_batches (locked_batch st) (next_batch st) →
  let b := lookup_batch ch locked wp st in
  wf_batch b ∧ db_Committee b = ch ∧
  batch_due b = at_key (λ _, batch_due) (if locked then locked_batch st else next_batch st) ch.
Proof.
  intros [H1 H2]. cbn zeta. unfold lookup_batch, at_key.
  destruct ((if locked then locked_batch st else next_batch st) !! ch) as [b|] eqn:Hb.
  - assert (Hwb : wf_batch b ∧ (db_Committee b = ch ∨ b = zero_batch)).
    { destruct locked; [by apply H1|]. apply H2 in Hb as [? ?]. auto. }
    destruct Hwb as [Hwf Hc]. destruct (decide (b = zero_batch)) as [->|Hne]; [split_and!; [done..|]; done|].
    destruct Hc as [Hc|?]; [|done]. by destruct wp.
  - split_and!; [apply wf_batch_zero|done|done].
Qed.

Lemma owed_insert_next lk nx ch b c :
  owed lk (<[ch := b]> nx) c = owed lk nx c + hit ch c (batch_due b - at_key (λ _, batch_due) nx ch).
Proof.
  unfold owed, at_key, hit. destruct (Z.eqb_spec ch c) as [->|Hne].
  - rewrite lookup_insert_eq. lia.
  - rewrite lookup_insert_ne by done. lia.
Qed.
Lemma owed_insert_locked lk nx ch b c :
  owed (<[ch := b]> lk) nx c = owed lk nx c + hit ch c (batch_due b - at_key (λ _, batch_due) lk ch).
Proof.
  unfold owed, at_key, hit. destruct (Z.eqb_spec ch c) as [->|Hne].
  - rewrite lookup_insert_eq. lia.
  - rewrite lookup_insert_ne by done. lia.
Qed.
Lemma owed_delete_next lk nx ch c :
  owed lk (delete ch nx) c = owed lk nx c - hit ch c (at_key (λ _, batch_due) nx ch).
Proof.
  unfold owed, at_key, hit. destruct (Z.eqb_spec ch c) as [->|Hne].
  - rewrite lookup_delete_eq. lia.
  - rewrite lookup_delete_ne by done. lia.
Qed.
Lemma owed_delete_locked lk nx ch c :
  owed (delete ch lk) nx c = owed lk nx c - hit ch c (at_key (λ _, batch_due) lk ch).
Proof.
  unfold owed, at_key, hit. destruct (Z.eqb_spec ch c) as [->|Hne].
  - rewrite lookup_delete_eq. lia.
  - rewrite lookup_delete_ne by done. lia.
Qed.
Lemma wf_batches_next lk nx ch b :
  wf_batches lk nx → wf_batch b → db_Committee b = ch → wf_batches lk (<[ch := b]> nx).
Proof. intros [H1 H2] ? ?. split; [done|]. by apply map_Forall_insert_2. Qed.
Lemma wf_batches_locked lk nx ch b :
  wf_batches lk nx → wf_batch b → db_Committee b = ch ∨ b = zero_batch → wf_batches (<[ch := b]> lk) nx.
Proof. intros [H1 H2] ? ?. split; [|done]. by apply map_Forall_insert_2. Qed.
Lemma wf_batches_delete_next lk nx ch : wf_batches lk nx → wf_batches lk (delete ch nx).
Proof. intros [H1 H2]. split; [done|]. by apply map_Forall_delete. Qed.
Lemma wf_batches_delete_locked lk nx ch : wf_batches lk nx → wf_batches (delete ch lk) nx.
Proof. intros [H1 H2]. split; [|done]. by apply map_Forall_delete. Qed.

Lemma batch_due_orders b l :
  batch_due (set_db_Orders l b) = batch_due b + (list_sum dlo_AmountForSale l - list_sum dlo_AmountForSale (db_Orders b)).
Proof. unfold batch_due. cbn. lia. Qed.
Lemma batch_due_deposits b l :
  batch_due (set_Deposits l b) = batch_due b + (list_sum dep_Amount l - list_sum dep_Amount (Deposits b)).
Proof. unfold batch_due. cbn. lia. Qed.

(** *** The users' messages *)

(** An account pays [n] into the holding pool of [ch]. *)
Lemma pay_in ch a n s u1 s1 u2 s2 :
  valid_chain ch → wf s → u64 n → 0 <= g_total (books 1 (store s)) →
  AccountSub a n s = (Ok u1, s1) → PoolAdd (holding_id ch) n s1 = (Ok u2, s2) →
  dex_move ch 0 n 0 s s2 ∧ n <= acc_bal (store s) a.
Proof.
  intros Hch Hw Hn Hg H1 H2. apply AccountSub_spec in H1 as (Hcr & Hle & _); [|done..].
  apply (move_account ch) in Hcr as M1. pose proof (dex_move_total _ _ _ _ _ _ M1) as Ht.
  apply (move_holding_add ch Hch) in H2 as M2; [|apply M1|u64].
  split; [|done]. eapply dex_move_trans; [exact M1|exact M2|lia..].
Qed.

Lemma SetDexBatch_next ch b s u s' :
  SetDexBatch ch false b s = (Ok u, s') →
  s' = with_batches (locked_batch (store s)) (<[ch := b]> (next_batch (store s))) s.
Proof. intros [= <-]. by destruct s as [[]]. Qed.

Lemma HandleMessageDexLimitOrder_spec msg s u s' :
  dex_inv s → valid_chain (dl_ChainId msg) → u64 (dl_AmountForSale msg) →
  HandleMessageDexLimitOrder msg s = (Ok u, s') → dex_kept s s'.
Proof.
  intros Hi Hch Hn Hrun. unfold HandleMessageDexLimitOrder in Hrun. set (ch := dl_ChainId msg) in *.
  rewrite (bind_run_Ok _ _ _ (lookup_batch ch false false (store s)) s) in Hrun by done.
  destruct (lookup_batch_spec (store s) ch false false (dx_batches _ Hi)) as ((B1 & B1' & B1'') & B2 & B3).
  set (b := lookup_batch ch false false (store s)) in *. unfold gets in Hrun. cbn in Hrun.
  rewrite (bind_run_Ok _ _ _ (config s) s) in Hrun by done.
  apply bind_Ok in Hrun as (v1 & s1 & Hf & Hrun). apply fail_if_Ok in Hf as [_ ->].
  apply bind_Ok in Hrun as (v2 & s1 & Hf & Hrun). apply fail_if_Ok in Hf as [_ ->].
  apply bind_Ok in Hrun as (v3 & s1 & Hsub & Hrun). apply bind_Ok in Hrun as (v4 & s2 & Hadd & Hrun).
  destruct (pay_in ch _ _ _ _ _ _ _ Hch (dx_wf _ Hi) Hn (dx_total _ Hi) Hsub Hadd) as [Hm _].
  destruct (only_funds_batches _ _ (dm_only _ _ _ _ _ _ Hm)) as (E1 & E2 & _).
  apply SetDexBatch_next in Hrun as ->. rewrite E1, E2.
  eapply (move_then_write ch _ 0 _ _ 0); [done|exact Hm| |done|].
  - apply wf_batches_next; [apply Hi| |done]. split_and!; [|done..].
    apply Forall_app. split; [done|]. by apply Forall_singleton.
  - intros c. rewrite owed_insert_next, batch_due_orders, B3. f_equal. f_equal.
    rewrite list_sum_app, list_sum_cons. change (list_sum dlo_AmountForSale []) with 0. cbn. lia.
Qed.
Lemma HandleMessageDexLiquidityDeposit_spec msg s u s' :
  dex_inv s → valid_chain (dd_ChainId msg) → u64 (dd_Amount msg) →
  HandleMessageDexLiquidityDeposit msg s = (Ok u, s') → dex_kept s s'.
Proof.
  intros Hi Hch Hn Hrun. unfold HandleMessageDexLiquidityDeposit in Hrun. set (ch := dd_ChainId msg) in *.
  rewrite (bind_run_Ok _ _ _ (lookup_batch ch false false (store s)) s) in Hrun by done.
  destruct (lookup_batch_spec (store s) ch false false (dx_batches _ Hi)) as ((B1 & B1' & B1'') & B2 & B3).
  set (b := lookup_batch ch false false (store s)) in *.
  rewrite (bind_run_Ok _ _ _ (lpool ch s) s) in Hrun by done.
  rewrite (bind_run_Ok _ _ _ (config s) s) in Hrun by done.
  apply bind_Ok in Hrun as (v1 & s1 & Hf & Hrun). apply fail_if_Ok in Hf as [_ ->].
  apply bind_Ok in Hrun as (v2 & s1 & Hf & Hrun). apply fail_if_Ok in Hf as [_ ->].
  apply bind_Ok in Hrun as (v3 & s1 & Hsub & Hrun). apply bind_Ok in Hrun as (v4 & s2 & Hadd & Hrun).
  destruct (pay_in ch _ _ _ _ _ _ _ Hch (dx_wf _ Hi) Hn (dx_total _ Hi) Hsub Hadd) as [Hm _].
  destruct (only_funds_batches _ _ (dm_only _ _ _ _ _ _ Hm)) as (E1 & E2 & _).
  apply SetDexBatch_next in Hrun as ->. rewrite E1, E2.
  eapply (move_then_write ch _ 0 _ _ 0); [done|exact Hm| |done|].
  - apply wf_batches_next; [apply Hi| |done]. split_and!; [done| |done].
    apply Forall_app. split; [done|]. by apply Forall_singleton.
  - intros c. rewrite owed_insert_next, batch_due_deposits, B3. f_equal. f_equal.
    rewrite list_sum_app, list_sum_cons. change (list_sum dep_Amount []) with 0. cbn. lia.
Qed.
Lemma HandleMessageDexLiquidityWithdraw_spec msg s u s' :
  dex_inv s → valid_chain (dw_ChainId msg) → 0 <= dw_Percent msg <= 100 →
  HandleMessageDexLiquidityWithdraw msg s = (Ok u, s') → dex_kept s s'.
Proof.
  intros Hi Hch Hn Hrun. unfold HandleMessageDexLiquidityWithdraw in Hrun. set (ch := dw_ChainId msg) in *.
  rewrite (bind_run_Ok _ _ _ (lookup_batch ch false false (store s)) s) in Hrun by done.
  destruct (lookup_batch_spec (store s) ch false false (dx_batches _ Hi)) as ((B1 & B1' & B1'') & B2 & B3).
  set (b := lookup_batch ch false false (store s)) in *.
  rewrite (bind_run_Ok _ _ _ (config s) s) in Hrun by done.
  apply bind_Ok in Hrun as (v1 & s1 & Hf & Hrun). apply fail_if_Ok in Hf as [_ ->].
  apply bind_Ok in Hrun as (v2 & s1 & Hf & Hrun). apply fail_if_Ok in Hf as [_ ->].
  rewrite (bind_run_Ok _ _ _ (lpool ch s) s) in Hrun by done.
  apply bind_Ok in Hrun as (v3 & s1 & Hl & Hrun). unfold lift in Hl. injection Hl as _ <-.
  apply SetDexBatch_next in Hrun as ->.
  eapply (move_then_write ch 0 0 _ _ 0); [done|by apply dex_move_0, Hi| |done|].
  - apply wf_batches_next; [apply Hi| |done]. split_and!; [done..|].
    apply Forall_app. split; [done|]. by apply Forall_singleton.
  - intros c. rewrite owed_insert_next. f_equal. f_equal. unfold batch_due in *. cbn. lia.
Qed.

(** *** The remote batches *)

(** A remote batch with amounts in range that does not report an empty pool. *)
Record remote_ok (b : DexBatch) : Prop := {
  ro_batch : wf_batch b;
  ro_receipts : Forall u64 (Receipts b);
  ro_pool : 0 < PoolSize b < two64;
}.
Lemma remote_ok_copy b : remote_ok b → remote_ok (CopyBatch b).
Proof. by intros []. Qed.

Section lifecycle.
Context `{Crypto, Codec}.

(** Order keys collide only if the hash does. *)
Definition distinct_keys (b : DexBatch) (s : FSM) : Prop :=
  ∀ bh, prev_block_hash s = Some bh → NoDup (map fst (CopyOrders b bh)).

Lemma CopyBatch_keys b s : distinct_keys b s → distinct_keys (CopyBatch b) s.
Proof. done. Qed.
Lemma prev_block_hash_funds s s' : only_funds s s' → prev_block_hash s' = prev_block_hash s.
Proof. intros Ho. destruct (only_funds_batches _ _ Ho) as (_ & _ & E1 & _ & E2). unfold prev_block_hash. by rewrite E1, E2. Qed.

Lemma HandleDexBatchOrders_Ok b x ch s rs x' y' s' :
  valid_chain ch → dex_inv s → remote_ok b → distinct_keys b s → 0 < x → u64 x →
  HandleDexBatchOrders b x (pool_bal (store s) (liquidity_id ch)) ch s = (Ok (rs, x', y'), s') →
  0 < x' ∧ u64 x' ∧ 0 < y' ∧ u64 y' ∧ pool_bal (store s') (liquidity_id ch) = y' ∧ ∃ l, dex_move ch 0 0 l s s'.
Proof.
  intros Hch Hi [(Ham & _) _ _] Hnd Hx Hxu Hrun. pose proof (dx_wf _ Hi) as Hw.
  set (y := pool_bal (store s) (liquidity_id ch)) in *.
  pose proof (pool_bal_range s (liquidity_id ch) Hw) as Hyr. fold y in Hyr.
  unfold HandleDexBatchOrders in Hrun. destruct (prev_block_hash s) as [bh|] eqn:Hblk.
  2:{ unfold gets in Hrun. rewrite (bind_run_Ok _ _ _ None s) in Hrun by (by rewrite Hblk). done. }
  rewrite (bind_run_Ok _ _ _ (Some bh) s) in Hrun by (unfold gets; by rewrite Hblk).
  specialize (Hnd bh Hblk). pose proof (copies_sums bh (db_Orders b)) as Hcs. cbn zeta in Hcs.
  fold (CopyOrders b bh) in Hcs. destruct Hcs as (_ & Hc2 & _). specialize (Hc2 Ham).
  set (os := CopyOrders b bh) in *. set (sorted := sorted_by _ os) in Hrun.
  assert (Hperm : sorted ≡ₚ os) by apply sorted_by_perm.
  apply bind_Ok in Hrun as (u & s1 & Hf & Hrun). apply fail_if_Ok in Hf as [Hf ->].
  apply orb_false_iff in Hf as [_ Hy0]. apply Z.eqb_neq in Hy0.
  apply bind_Ok in Hrun as ([[x1 y1] res] & s1 & Hex & Hrun).
  apply execute_loop_Ok in Hex as ([(R1 & R1' & _) _ R3 R4 _] & Hx1 & Hm1); try done; [|by rewrite Hperm|by rewrite Hperm|u64].
  rewrite (list_sum_perm _ _ _ Hperm) in R4. rewrite Hperm in R3. specialize (Hm1 ch).
  destruct (pay_loop ch Hch res os [] s1) as (s2 & Hrun2 & Hm2).
  { by apply Hm1. } { rewrite (dex_move_total _ _ _ _ _ _ Hm1). pose proof (dx_total _ Hi). lia. }
  { apply (dm_points _ _ _ _ _ _ Hm1 ch Hch). by apply Hi. }
  { eapply Forall_impl; [exact R3|]. intros o Ho. unfold limit_kept in Ho. lia. }
  { rewrite (dm_liq _ _ _ _ _ _ Hm1). fold y. lia. }
  rewrite (bind_run_Ok _ _ _ _ _ Hrun2) in Hrun. injection Hrun as <- <- <- <-.
  split_and!; [lia|done|lia|u64| |].
  - rewrite (dm_liq _ _ _ _ _ _ Hm2), (dm_liq _ _ _ _ _ _ Hm1). fold y. lia.
  - eexists. eapply dex_move_trans; [exact Hm1|exact Hm2|lia|lia|reflexivity].
Qed.

Lemma HandleRemoteChainLockedBatch_spec b x ch s rs x' s' :
  valid_chain ch → dex_inv s → remote_ok b → distinct_keys b s → 0 < x → u64 x →
  HandleRemoteChainLockedBatch b x ch s = (Ok (rs, x'), s') → dex_kept s s'.
Proof.
  intros Hch Hi Hb Hnd Hx Hxu Hrun. unfold HandleRemoteChainLockedBatch, GetPoolBalance in Hrun.
  pose proof Hb as [(_ & Hd & Hp) _ _].
  rewrite (bind_run_Ok _ _ _ (pool_bal (store s) (liquidity_id ch)) s) in Hrun.
  2:{ destruct (lookup_pool_spec (liquidity_id ch) (store s)) as [_ <-]. done. }
  apply bind_Ok in Hrun as ([[rs1 x1] y1] & s1 & Ho & Hrun).
  apply HandleDexBatchOrders_Ok in Ho as (O1 & O2 & O3 & O4 & O5 & l1 & M1); try done.
  pose proof (move_kept _ _ _ _ Hi M1) as K1. pose proof (dk_inv _ _ K1) as I1.
  apply bind_Ok in Hrun as ([x2 y2] & s2 & Hwd & Hrun).
  apply HandleBatchWithdraw_spec in Hwd as [W1 _ W3 W4 W5]; [|done|apply I1|by apply I1|done..].
  pose proof (move_kept _ _ _ _ I1 W5) as K2. pose proof (dk_inv _ _ K2) as I2.
  apply bind_Ok in Hrun as ([x3 y3] & s3 & Hdp & Hrun). injection Hrun as <- <- <-.
  apply HandleBatchDeposit_spec in Hdp as (-> & Hdp); [|done|apply I2|by apply I2|u64|u64|done|done].
  eapply dex_kept_trans; [exact K1|eapply dex_kept_trans; [exact K2|]].
  destruct Hdp as [(_ & -> & _)|[_ _ D3]]; [by apply dex_kept_refl|].
  by eapply move_kept.
Qed.

Lemma IsEmpty_due b : IsEmpty b = true → batch_due b = 0.
Proof.
  unfold IsEmpty, batch_due, len. intros. zify_bools.
  destruct (db_Orders b), (Deposits b); cbn in *; try lia. done.
Qed.

Lemma HandleReceiptsForOurLockedBatch_spec rb y ch s lk y' s' :
  valid_chain ch → dex_inv s → Forall u64 (Receipts rb) → 0 < y → u64 y →
  0 < pool_bal (store s) (liquidity_id ch) →
  HandleReceiptsForOurLockedBatch rb y ch s = (Ok (lk, y'), s') →
  dex_kept s s' ∧ (lk = true → s' = s) ∧ 0 < y' <= y ∧ only_funds s (with_batches (locked_batch (store s)) (next_batch (store s)) s').
Proof.
  intros Hch Hi Hrs Hy Hyu Hpos Hrun. unfold HandleReceiptsForOurLockedBatch in Hrun.
  pose proof (dx_wf _ Hi) as Hw.
  assert (Hsame : only_funds s (with_batches (locked_batch (store s)) (next_batch (store s)) s)).
  { replace (with_batches _ _ s) with s by (by destruct s as [[]]). apply only_funds_refl. }
  rewrite (bind_run_Ok _ _ _ (lookup_batch ch true false (store s)) s) in Hrun by done.
  destruct (lookup_batch_spec (store s) ch true false (dx_batches _ Hi)) as ((B1 & B2 & B3) & B4 & B5).
  set (lb := lookup_batch ch true false (store s)) in *.
  destruct (IsEmpty lb).
  { injection Hrun as <- <- <-. split_and!; [by apply dex_kept_refl|done|done|done|done]. }
  case_match.
  { injection Hrun as <- <- <-. split_and!; [by apply dex_kept_refl|done|done|done|done]. }
  unfold GetPoolBalance in Hrun. rewrite (bind_run_Ok _ _ _ (pool_bal (store s) (liquidity_id ch)) s) in Hrun.
  2:{ destruct (lookup_pool_spec (liquidity_id ch) (store s)) as [_ <-]. done. }
  apply bind_Ok in Hrun as ([x1 y1] & s1 & Ho & Hrun).
  apply HandleOrderReceipts_spec in Ho as (O1 & O2 & O3 & O4 & M1); [|done|done|apply Hi|by apply Hi|done..].
  pose proof (dm_liq _ _ _ _ _ _ M1) as L1. specialize (O4 Hy).
  assert (Hx1 : u64 x1).
  { pose proof (pool_bal_range s1 (liquidity_id ch) (dm_wf _ _ _ _ _ _ M1)) as Hr. rewrite L1 in Hr. u64. }
  apply bind_Ok in Hrun as ([x2 y2] & s2 & Hwd & Hrun).
  apply HandleBatchWithdraw_spec in Hwd as [W1 _ W3 W4 W5]; [|done|apply M1|apply (dm_points _ _ _ _ _ _ M1 ch Hch); by apply Hi|done|done|done|lia|lia].
  apply bind_Ok in Hrun as ([x3 y3] & s3 & Hdp & Hrun).
  apply bind_Ok in Hrun as (u & s4 & Hdel & Hrun). injection Hrun as <- <- <-.
  pose proof (dex_move_trans _ _ _ _ _ _ _ 0 (- sum_amounts (db_Orders lb)) _ _ _ _ M1 W5 eq_refl ltac:(lia) eq_refl) as M2.
  destruct W1 as [W1 W1'], W4 as [_ W4]. specialize (W4 O4).
  apply HandleBatchDeposit_spec in Hdp as (-> & Hdp); [|done|apply M2|apply (dm_points _ _ _ _ _ _ M2 ch Hch); by apply Hi|u64|u64|done|].
  2:{ rewrite (dm_liq _ _ _ _ _ _ M2). lia. }
  set (D := sum_deposits (Deposits lb)) in *.
  assert (HD : 0 <= D).
  { apply list_sum_nonneg. unfold deposits_ok in B2. rewrite Forall_forall in B2. intros d Hd. apply B2 in Hd. u64. }
  assert (M3 : ∃ h l, dex_move ch 0 h l s s3 ∧ - (sum_amounts (db_Orders lb) + D) <= h).
  { destruct Hdp as [(_ & -> & _)|[_ _ D3]].
    - eexists _, _. split; [exact M2|lia].
    - eexists _, _. split; [eapply dex_move_trans; [exact M2|exact D3|lia|reflexivity|reflexivity]|lia]. }
  destruct M3 as (h & l & M3 & Hh).
  destruct (only_funds_batches _ _ (dm_only _ _ _ _ _ _ M3)) as (E1 & E2 & _).
  assert (Hs4 : s4 = with_batches (delete ch (locked_batch (store s))) (next_batch (store s)) s3).
  { injection Hdel as _ <-. rewrite <- E1, <- E2. by destruct s3 as [[]]. }
  split_and!; [|done|lia|lia|].
  - rewrite Hs4. eapply (move_then_write ch h l _ _ (h + (sum_amounts (db_Orders lb) + D))); [done|done| |lia|].
    + apply wf_batches_delete_locked, Hi.
    + intros c. rewrite owed_delete_locked, <- B5. unfold batch_due. fold (sum_amounts (db_Orders lb)).
      fold (sum_deposits (Deposits lb)). fold D. unfold hit. destruct (ch =? c); lia.
  - rewrite Hs4, <- E1, <- E2.
    replace (with_batches _ _ (with_batches _ _ s3)) with s3 by (by destruct s3 as [[]]). apply M3.
Qed.

Lemma RotateDexBatches_spec h a c ch rs s u s' :
  dex_inv s → RotateDexBatches h a c ch rs s = (Ok u, s') →
  dex_kept s s' ∧ (IsEmpty (lookup_batch ch true false (store s)) = false → s' = s).
Proof.
  intros Hi Hrun. unfold RotateDexBatches in Hrun.
  rewrite (bind_run_Ok _ _ _ (lookup_batch ch true false (store s)) s) in Hrun by done.
  destruct (lookup_batch_spec (store s) ch true false (dx_batches _ Hi)) as (_ & _ & L3).
  destruct (IsEmpty (lookup_batch ch true false (store s))) eqn:He; cbn [negb] in Hrun.
  2:{ injection Hrun as _ <-. split; [by apply dex_kept_refl|done]. }
  apply IsEmpty_due in He. rewrite L3 in He.
  rewrite (bind_run_Ok _ _ _ (lookup_batch ch false false (store s)) s) in Hrun by done.
  destruct (lookup_batch_spec (store s) ch false false (dx_batches _ Hi)) as (N1 & N2 & N3).
  set (nb := lookup_batch ch false false (store s)) in *.
  rewrite (bind_run_Ok _ _ _ (height s) s) in Hrun by done.
  set (b := if bool_decide (rs = []) then _ else _) in Hrun.
  assert (Hb : wf_batch b ∧ db_Committee b = ch ∧ batch_due b = batch_due nb) by (subst b; case_match; by split_and!).
  destruct Hb as (Hb1 & Hb2 & Hb3). clearbody b. injection Hrun as _ <-. split; [|done].
  replace (set_store _ _) with (with_batches (<[ch := b]> (locked_batch (store s))) (delete ch (next_batch (store s))) s)
    by (by destruct s as [[]]).
  eapply (move_then_write ch 0 0 _ _ 0); [done|by apply dex_move_0, Hi| |done|].
  - apply wf_batches_delete_next, wf_batches_locked; [apply Hi|done|by left].
  - intros c'. rewrite owed_delete_next, owed_insert_locked, Hb3, N3, He.
    unfold hit. destruct (ch =? c'); lia.
Qed.

Lemma HashBatch_fields b : LivenessFallback (snd (HashBatch b)) = LivenessFallback b.
Proof. cbn. by destruct (IsEmpty b). Qed.

Lemma HandleRemoteDexBatch_spec b ch s b' s' :
  valid_chain ch → dex_inv s → 0 < pool_bal (store s) (liquidity_id ch) →
  (IsEmpty b = false → remote_ok b ∧ distinct_keys b s) →
  HandleRemoteDexBatch b ch s = (Ok b', s') → dex_kept s s'.
Proof.
  intros Hch Hi Hpos Hb Hrun. unfold HandleRemoteDexBatch in Hrun.
  apply bind_Ok in Hrun as (mid & s0 & Hmid & Hrun).
  assert (s0 = s) as -> by (unfold GetPoolBalance in Hmid; runs in Hmid; by injection Hmid).
  destruct (IsEmpty b) eqn:He; cbn [negb] in Hrun.
  { rewrite (bind_run_Ok _ _ _ (false, [], PoolSize b, mid) s) in Hrun by done.
    destruct (HashBatch b) as [hh b1]. apply bind_Ok in Hrun as ([] & s1 & Hrot & Hrun). injection Hrun as _ <-.
    by apply RotateDexBatches_spec in Hrot as [? _]. }
  destruct (Hb eq_refl) as [Hro Hnd]. clear Hb.
  apply bind_Ok in Hrun as ([[[lk rs] m] mid'] & s1 & Hproc & Hrun).
  apply bind_Ok in Hproc as ([lk1 y1] & s2 & Hrec & Hproc).
  apply HandleReceiptsForOurLockedBatch_spec in Hrec as (K1 & Hlk & Hy & Hof); [|done|done|apply Hro|apply Hro|pose proof (ro_pool _ Hro); u64|done].
  destruct lk1.
  { injection Hproc as <- <- <- <- <-. injection Hrun as _ <-. done. }
  assert (K2 : lk = false ∧ dex_kept s s1).
  { apply bind_Ok in Hproc as (mid2 & s3 & Hm2 & Hproc).
    assert (s3 = s2) as -> by (unfold GetPoolBalance in Hm2; runs in Hm2; by injection Hm2).
    apply bind_Ok in Hproc as ([rs2 x2] & s4 & Hrem & Hproc). injection Hproc as <- <- <- <- <-. split; [done|].
    apply HandleRemoteChainLockedBatch_spec in Hrem; [by eapply dex_kept_trans|done|apply K1|by apply remote_ok_copy| |lia|].
    - intros bh Hbh. apply (Hnd bh). by rewrite <- (prev_block_hash_funds _ _ Hof).
    - pose proof (ro_pool _ Hro). unfold CopyBatch in Hy. cbn in Hy. u64. }
  destruct K2 as [-> K2]. destruct (HashBatch b) as [hh b1].
  apply bind_Ok in Hrun as ([] & s3 & Hrot & Hrun). injection Hrun as _ <-.
  apply RotateDexBatches_spec in Hrot as [? _]; [|apply K2]. by eapply dex_kept_trans.
Qed.

Lemma refund_spec ch a n s u s' :
  valid_chain ch → wf s → u64 n → refund ch a n s = (Ok u, s') → dex_move ch 0 (- n) 0 s s'.
Proof.
  intros Hch Hw Hn Hrun. unfold refund in Hrun. apply bind_Ok in Hrun as ([] & s1 & Hsub & Hadd).
  apply (move_holding_sub ch Hch) in Hsub as M1; [|done..].
  apply (move_account_add ch) in Hadd as M2; [|apply M1|done].
  eapply dex_move_trans; [exact M1|exact M2|lia..].
Qed.
Lemma refund_loop {A} ch (addr : A → bytes) (amount : A → Z) l s u s' :
  valid_chain ch → wf s → Forall (λ a, u64 (amount a)) l →
  for_each l (λ a, refund ch (addr a) (amount a)) s = (Ok u, s') →
  dex_move ch 0 (- list_sum amount l) 0 s s'.
Proof.
  intros Hch Hw Hl Hrun.
  eapply (for_each_Ok (λ dn s1, dex_move ch 0 (- list_sum amount dn) 0 s s1)); [|by apply dex_move_0|exact Hrun].
  intros dn x rest s1 s1' u' -> Hm Hone.
  apply Forall_app in Hl as [_ Hl]. apply Forall_cons in Hl as [Hx _].
  apply refund_spec in Hone; [|done|apply Hm|done].
  rewrite list_sum_app, list_sum_cons. change (list_sum amount []) with 0.
  eapply dex_move_trans; [exact Hm|exact Hone|lia..].
Qed.

(** The points a fallback batch carries. *)
Definition fallback_ok (b : DexBatch) : Prop := ∀ id n, wf_points (MkPool id n (db_PoolPoints b) (db_TotalPoolPoints b)).

Lemma HandleLivenessFallback_spec ch rb s u s' :
  valid_chain ch → dex_inv s → fallback_ok rb →
  HandleLivenessFallback ch (lookup_batch ch true false (store s)) rb s = (Ok u, s') →
  dex_kept s s' ∧ pool_bal (store s') (liquidity_id ch) = pool_bal (store s) (liquidity_id ch) ∧
  prev_block_hash s' = prev_block_hash s.
Proof.
  intros Hch Hi Hrb Hrun. unfold HandleLivenessFallback in Hrun.
  destruct (lookup_batch_spec (store s) ch true false (dx_batches _ Hi)) as ((B1 & B2 & B3) & B4 & B5).
  set (lb := lookup_batch ch true false (store s)) in *.
  apply bind_Ok in Hrun as ([] & s1 & H1 & Hrun). apply bind_Ok in Hrun as ([] & s2 & H2 & Hrun).
  apply bind_Ok in Hrun as ([] & s3 & H3 & Hrun).
  apply (refund_loop ch dlo_Address dlo_AmountForSale) in H1; [|done|apply Hi|done].
  apply (refund_loop ch dep_Address dep_Amount) in H2; [|done|apply H1|done].
  pose proof (dex_move_trans _ _ _ _ _ _ _ 0 (- batch_due lb) 0 _ _ _ H1 H2 eq_refl ltac:(unfold batch_due; lia) eq_refl) as M1.
  unfold SetPoolPoints in H3. rewrite (bind_run_Ok _ _ _ (lpool ch s2) s2) in H3 by done.
  destruct (lookup_pool_spec (liquidity_id ch) (store s2)) as [Hid Hb]. fold (lpool ch s2) in Hid, Hb.
  apply (move_pool ch Hch true) in H3 as [_ M2]; [|apply M1| |exact Hid|intros _; exact (Hrb (pool_Id (lpool ch s2)) (pool_Amount (lpool ch s2)))].
  2:{ cbn. rewrite Hb. apply pool_bal_range, M1. }
  cbn in M2. rewrite Hid, Hb, Z.sub_diag in M2.
  assert (M3 : dex_move ch 0 (- batch_due lb) 0 s s3) by (eapply dex_move_trans; [exact M1|exact M2|lia..]).
  destruct (only_funds_batches _ _ (dm_only _ _ _ _ _ _ M3)) as (E1 & E2 & _).
  assert (Hs' : s' = with_batches (<[ch := zero_batch]> (locked_batch (store s))) (next_batch (store s)) s3).
  { injection Hrun as _ <-. rewrite <- E1, <- E2. by destruct s3 as [[]]. }
  split_and!.
  - rewrite Hs'. eapply (move_then_write ch (- batch_due lb) 0 _ _ 0); [done|done| |done|].
    + apply wf_batches_locked; [apply Hi|apply wf_batch_zero|by right].
    + intros c. rewrite owed_insert_locked, <- B5. change (batch_due zero_batch) with 0.
      unfold hit. destruct (ch =? c); lia.
  - rewrite Hs'. change (store (with_batches _ _ s3)) with (set_next_batch (next_batch (store s)) (set_locked_batch (<[ch:=zero_batch]> (locked_batch (store s))) (store s3))).
    unfold pool_bal at 1. cbn [pools set_next_batch set_locked_batch]. pose proof (dm_liq _ _ _ _ _ _ M3) as HL. unfold pool_bal in *. lia.
  - rewrite <- (prev_block_hash_funds _ _ (dm_only _ _ _ _ _ _ M3)). by rewrite Hs'.
Qed.

(** The batch the handler will work on. *)
Definition remote_of (s : FSM) (results : CertificateResult) (isNested : bool) : option DexBatch :=
  let from_cache := isNested && match cr_RootDexBatch results with
                                | Some b => negb (LivenessFallback b)
                                | None => false
                                end in
  if isNested then (if from_cache then cache_rootDexBatch s else cr_RootDexBatch results)
  else cr_DexBatch results.
Definition dex_chain (s : FSM) (chainId : Z) (isNested : bool) : option Z :=
  if isNested then RootChainId <$> params_cons (store s) else Some chainId.

Lemma HandleDexBatch_spec ch results isNested s u s' :
  dex_inv s → (∀ c, dex_chain s ch isNested = Some c → valid_chain c) →
  (∀ b, remote_of s results isNested = Some b →
     (IsEmpty b = false → remote_ok b ∧ distinct_keys b s) ∧ (LivenessFallback b = true → fallback_ok b)) →
  HandleDexBatch ch results isNested s = (Ok u, s') → dex_kept s s'.
Proof.
  intros Hi Hch Hb Hrun. unfold HandleDexBatch in Hrun.
  apply bind_Ok in Hrun as (c & s0 & Hc & Hrun).
  assert (s0 = s ∧ dex_chain s ch isNested = Some c) as [-> Hdc].
  { unfold dex_chain. destruct isNested; [|cbv [mret] in Hc; cbn in Hc; by injection Hc as <- <-].
    unfold GetRootChainId, GetParamsCons, getParams in Hc. runs in Hc.
    destruct (params_cons (store s)); cbn in *; by simplify_eq. }
  specialize (Hch c Hdc). rewrite (bind_run_Ok _ _ _ (cache_rootDexBatch s) s) in Hrun by done.
  unfold remote_of in Hb. set (fc := isNested && _) in *. set (remote := if isNested then _ else _) in *.
  rewrite (bind_run_Ok _ _ _ (pool_bal (store s) (liquidity_id c)) s) in Hrun.
  2:{ unfold GetPoolBalance. destruct (lookup_pool_spec (liquidity_id c) (store s)) as [_ <-]. done. }
  destruct remote as [b|]; [|by injection Hrun as _ <-; apply dex_kept_refl].
  destruct (Hb b eq_refl) as [Hb1 Hb2]. clear Hb.
  destruct (Z.eqb_spec (pool_bal (store s) (liquidity_id c)) 0) as [|Hne]; [by injection Hrun as _ <-; apply dex_kept_refl|].
  pose proof (pool_bal_range s (liquidity_id c) (dx_wf _ Hi)) as Hr.
  rewrite (bind_run_Ok _ _ _ (lookup_batch c true false (store s)) s) in Hrun by done.
  apply bind_Ok in Hrun as ([] & s1 & Hfb & Hrun). apply bind_Ok in Hrun as (b' & s2 & Hrem & Hrun).
  assert (K1 : dex_kept s s1 ∧ pool_bal (store s1) (liquidity_id c) = pool_bal (store s) (liquidity_id c) ∧
      prev_block_hash s1 = prev_block_hash s).
  { unfold when in Hfb. destruct (LivenessFallback b); [apply HandleLivenessFallback_spec in Hfb; auto|].
    injection Hfb as <-. split_and!; [by apply dex_kept_refl|done|done]. }
  destruct K1 as (K1 & P1 & B1).
  apply HandleRemoteDexBatch_spec in Hrem; [|done|apply K1|rewrite P1; u64|].
  2:{ intros He. destruct (Hb1 He) as [? Hk]. split; [done|]. intros bh. rewrite B1. apply Hk. }
  pose proof (dex_kept_trans _ _ _ K1 Hrem) as K2.
  unfold when in Hrun. destruct fc; injection Hrun as _ <-; [|done].
  destruct K2 as [[I1 I2 I3 I4] Q R]. split.
  - split; [destruct I1; by constructor|done..].
  - intros c' Hc'. destruct (Q c' Hc') as (n & ? & [Pw Ps]). exists n. split; [done|]. split; [destruct Pw; by constructor|done].
  - done.
Qed.
(** *** Including operations of the block that locked the batch *)

Lemma list_sum_split {A} (f : A → Z) n l : list_sum f l = list_sum f (take n l) + list_sum f (drop n l).
Proof. rewrite <- list_sum_app. by rewrite take_drop. Qed.

(** Moving prefixes of the next batch keeps what the two batches owe. *)
Definition prefix_moved (n1 n2 n3 : nat) (b nb : DexBatch) : DexBatch * DexBatch :=
  (set_db_Orders (db_Orders b ++ take n1 (db_Orders nb))
     (set_Deposits (Deposits b ++ take n2 (Deposits nb))
     (set_Withdrawals (Withdrawals b ++ take n3 (Withdrawals nb)) b)),
   set_db_Orders (drop n1 (db_Orders nb))
     (set_Deposits (drop n2 (Deposits nb)) (set_Withdrawals (drop n3 (Withdrawals nb)) nb))).
Lemma prefix_moved_spec n1 n2 n3 b nb :
  wf_batch b → wf_batch nb →
  let '(b', nb') := prefix_moved n1 n2 n3 b nb in
  wf_batch b' ∧ wf_batch nb' ∧ db_Committee b' = db_Committee b ∧ db_Committee nb' = db_Committee nb ∧
  batch_due b' + batch_due nb' = batch_due b + batch_due nb.
Proof.
  intros (A1 & A2 & A3) (B1 & B2 & B3). unfold prefix_moved. split_and!; try done.
  - split_and!; cbn; apply Forall_app; split; (done || by apply Forall_take).
  - split_and!; cbn; by apply Forall_drop.
  - unfold batch_due. cbn. rewrite !list_sum_app.
    rewrite (list_sum_split _ n1 (db_Orders nb)), (list_sum_split _ n2 (Deposits nb)). lia.
Qed.

Lemma batch_due_nil b : len (db_Orders b) = 0 → len (Deposits b) = 0 → batch_due b = 0.
Proof. unfold batch_due, len. destruct (db_Orders b), (Deposits b); cbn; lia || done. Qed.

Lemma include_one_spec k b s u s' :
  dex_inv s → 0 < height s → locked_batch (store s) !! k = Some b →
  include_one k b s = (Ok u, s') →
  dex_kept s s' ∧ ∀ k', k' ≠ k → locked_batch (store s') !! k' = locked_batch (store s) !! k'.
Proof.
  intros Hi Hh Hk Hrun. unfold include_one in Hrun.
  rewrite (bind_run_Ok _ _ _ (height s) s) in Hrun by done.
  destruct (Z.eqb_spec (LockedHeight b) (height s)) as [Hlh|]; cbn [negb] in Hrun;
    [|injection Hrun as _ <-; split; [by apply dex_kept_refl|done]].
  pose proof (dx_batches _ Hi) as [D1 D2]. destruct (D1 k b Hk) as [Hwb [Hc| ->]]; [|cbn in Hlh; lia].
  rewrite Hc in Hrun. rewrite (bind_run_Ok _ _ _ (lookup_batch k false false (store s)) s) in Hrun by done.
  destruct (lookup_batch_spec (store s) k false false (dx_batches _ Hi)) as (N1 & N2 & N3).
  set (nb := lookup_batch k false false (store s)) in *.
  destruct ((_ =? 0) && _ && _); [injection Hrun as _ <-; split; [by apply dex_kept_refl|done]|].
  set (n1 := Z.to_nat (canMove (len (db_Orders b)) _ _)) in Hrun.
  set (n2 := Z.to_nat (canMove (len (Deposits b)) _ _)) in Hrun.
  set (n3 := Z.to_nat (canMove (len (Withdrawals b)) _ _)) in Hrun.
  pose proof (prefix_moved_spec n1 n2 n3 b nb Hwb N1) as HP. unfold prefix_moved in HP.
  set (b' := set_db_Orders (db_Orders b ++ _) _) in *. set (nb' := set_db_Orders (drop n1 _) _) in *.
  destruct HP as (P1 & P2 & P3 & P4 & P5). rewrite Hc in P3. rewrite N2 in P4.
  apply bind_Ok in Hrun as (v & s1 & Hset & Hrun). injection Hset as _ <-.
  assert (Hat : at_key (λ _, batch_due) (locked_batch (store s)) k = batch_due b) by (unfold at_key; by rewrite Hk).
  assert (∃ nx, s' = with_batches (<[k := b']> (locked_batch (store s))) nx s ∧
      wf_batches (<[k := b']> (locked_batch (store s))) nx ∧
      ∀ c, owed (<[k := b']> (locked_batch (store s))) nx c =
           owed (locked_batch (store s)) (next_batch (store s)) c) as (nx & -> & Hnx & Ho).
  { assert (Hl : wf_batches (<[k := b']> (locked_batch (store s))) (next_batch (store s))).
    { apply wf_batches_locked; [by split|done|by left]. }
    destruct ((len (db_Orders nb') =? 0) && _ && _) eqn:Hz.
    - exists (delete k (next_batch (store s))). split_and!.
      + injection Hrun as _ <-. by destruct s as [[]].
      + by apply wf_batches_delete_next.
      + intros c. rewrite owed_delete_next, owed_insert_locked, Hat, <- N3.
        zify_bools. rewrite (batch_due_nil nb') in P5 by done. unfold hit. destruct (k =? c); lia.
    - exists (<[k := nb']> (next_batch (store s))). split_and!.
      + injection Hrun as _ <-. by destruct s as [[]].
      + by apply wf_batches_next.
      + intros c. rewrite owed_insert_next, owed_insert_locked, Hat, <- N3. unfold hit. destruct (k =? c); lia. }
  split.
  - eapply (move_then_write k 0 0 _ _ 0); [done|by apply dex_move_0, Hi|done|done|].
    intros c. rewrite Ho, hit_0. lia.
  - intros k' Hne. change (<[k := b']> (locked_batch (store s)) !! k' = locked_batch (store s) !! k').
    by rewrite lookup_insert_ne.
Qed.

Lemma IncludeSameBlockDex_spec s u s' :
  dex_inv s → 0 < height s → IncludeSameBlockDex s = (Ok u, s') → dex_kept s s'.
Proof.
  intros Hi Hh Hrun. unfold IncludeSameBlockDex in Hrun.
  set (l := sorted_by (λ a b, fst a <=? fst b) (map_to_list (locked_batch (store s)))) in *.
  assert (Hperm : l ≡ₚ map_to_list (locked_batch (store s))) by apply sorted_by_perm.
  rewrite (bind_run_Ok _ _ _ l s) in Hrun by done.
  assert (Hnd : NoDup (map fst l)).
  { change (map fst l) with (l.*1). rewrite Hperm. apply NoDup_fst_map_to_list. }
  assert (Hin : ∀ kb, kb ∈ l → locked_batch (store s) !! fst kb = Some (snd kb)).
  { intros [k b]. rewrite Hperm. by rewrite elem_of_map_to_list. }
  clearbody l. clear Hperm.
  assert (Hend : dex_kept s s' ∧ ∀ k', k' ∉ map fst l → locked_batch (store s') !! k' = locked_batch (store s) !! k').
  2:{ apply Hend. }
  eapply (for_each_Ok (λ dn s1, dex_kept s s1 ∧ ∀ k', k' ∉ map fst dn → locked_batch (store s1) !! k' = locked_batch (store s) !! k')); [| |exact Hrun].
  - intros dn [k b] rest s1 s2 u' Hl [Hkept Hsame] Hone. cbn [fst snd] in Hone.
    assert (k ∉ map fst dn).
    { intros Hd. rewrite Hl, map_app in Hnd. apply NoDup_app in Hnd as (_ & Hnd & _). apply (Hnd k Hd). cbn. set_solver. }
    apply include_one_spec in Hone as [K1 K2]; [|apply Hkept|by rewrite (dk_height _ _ Hkept)|].
    2:{ rewrite Hsame by done. apply (Hin (k, b)). rewrite Hl. set_solver. }
    split; [by eapply dex_kept_trans|]. intros k' Hk'. rewrite map_app in Hk'. cbn in Hk'.
    rewrite K2 by set_solver. apply Hsame. set_solver.
  - split; [by apply dex_kept_refl|done].
Qed.

(** *** The machine of the exchange *)

(** A successful step of the exchange: a user's message, a certified batch of
    the counter chain, the inclusion of same-block operations, or a new block. *)
Inductive dex_step : FSM → FSM → Prop :=
| step_order msg u s s' :
    valid_chain (dl_ChainId msg) → u64 (dl_AmountForSale msg) →
    HandleMessageDexLimitOrder msg s = (Ok u, s') → dex_step s s'
| step_deposit msg u s s' :
    valid_chain (dd_ChainId msg) → u64 (dd_Amount msg) →
    HandleMessageDexLiquidityDeposit msg s = (Ok u, s') → dex_step s s'
| step_withdraw msg u s s' :
    valid_chain (dw_ChainId msg) → 0 <= dw_Percent msg <= 100 →
    HandleMessageDexLiquidityWithdraw msg s = (Ok u, s') → dex_step s s'
| step_batch ch results isNested u s s' :
    (∀ c, dex_chain s ch isNested = Some c → valid_chain c) →
    (∀ b, remote_of s results isNested = Some b →
       (IsEmpty b = false → remote_ok b ∧ distinct_keys b s) ∧ (LivenessFallback b = true → fallback_ok b)) →
    HandleDexBatch ch results isNested s = (Ok u, s') → dex_step s s'
| step_include u s s' :
    0 < height s → IncludeSameBlockDex s = (Ok u, s') → dex_step s s'
| step_block h hashes s :
    dex_step s (set_height h (set_store (set_block_hashes hashes (store s)) s)).

(** What every step of the exchange keeps. *)
Definition solvent_step (s s' : FSM) : Prop :=
  dex_inv s' ∧ ∀ c, valid_chain c →
    ∃ n, 0 <= n ∧ books c (store s') = g_add (books c (store s)) (Gaps 0 0 0 0 0 0 n).

Lemma dex_kept_solvent s s' : dex_kept s s' → solvent_step s s'.
Proof. intros [K1 K2 _]. split; [done|]. intros c Hc. destruct (K2 c Hc) as (n & ? & [_ Hs]). by exists n. Qed.

Lemma dex_step_solvent s s' : dex_inv s → dex_step s s' → solvent_step s s'.
Proof.
  intros Hi Hs. destruct Hs.
  - by eapply dex_kept_solvent, HandleMessageDexLimitOrder_spec.
  - by eapply dex_kept_solvent, HandleMessageDexLiquidityDeposit_spec.
  - by eapply dex_kept_solvent, HandleMessageDexLiquidityWithdraw_spec.
  - by eapply dex_kept_solvent, HandleDexBatch_spec.
  - by eapply dex_kept_solvent, IncludeSameBlockDex_spec.
  - destruct Hi as [I1 I2 I3 I4]. split.
    + split; [destruct I1; by constructor|done..].
    + intros c _. exists 0. split; [done|]. symmetry. apply g_add_0_r.
Qed.

(** C20. The exchange stays solvent: along every sequence of dex messages,
    certified remote batches, liveness fallbacks, same-block inclusions and new
    blocks, the invariant holds, no step creates or destroys tokens against the
    recorded total supply, no step touches the escrow or stake books, and a
    holding pool that covers the open orders and deposits of its chain keeps
    covering them. *)
Theorem dex_holding_solvent s s' :
  dex_inv s → rtc dex_step s s' →
  dex_inv s' ∧ ∀ c, valid_chain c →
    (∃ n, 0 <= n ∧ books c (store s') = g_add (books c (store s)) (Gaps 0 0 0 0 0 0 n)) ∧
    (owed (locked_batch (store s)) (next_batch (store s)) c <= pool_bal (store s) (holding_id c) →
     owed (locked_batch (store s')) (next_batch (store s')) c <= pool_bal (store s') (holding_id c)).
Proof.
  intros Hi Hsteps.
  assert (Hall : solvent_step s s').
  { induction Hsteps as [s|s s1 s2 Hone Hrest IH].
    - split; [done|]. intros c _. exists 0. split; [done|]. symmetry. apply g_add_0_r.
    - destruct (dex_step_solvent _ _ Hi Hone) as [I1 Q1]. destruct (IH I1) as [I2 Q2]. split; [done|].
      intros c Hc. destruct (Q1 c Hc) as (n1 & ? & E1), (Q2 c Hc) as (n2 & ? & E2).
      exists (n1 + n2). split; [lia|]. rewrite E2, E1. destruct (books c (store s)). g_eq. }
  destruct Hall as [I Q]. split; [done|]. intros c Hc. split; [by apply Q|].
  destruct (Q c Hc) as (n & Hn & E). apply (f_equal g_holding) in E. cbn in E. unfold owed. lia.
Qed.

End lifecycle.

(** ** Theorems on the pricing and on the liquidity points *)

(** The swap price keeps the constant product: on live reserves that fit,
    the output is computed without wrapping, never drains the reserve, never
    lowers the product of the reserves, and is at most the output after the 1%
    fee. *)
Theorem SafeComputeDY_constant_product x y dX :
  0 < x → u64 y → 0 < y → 0 <= dX →
  let dY := SafeComputeDY x y dX in
  0 <= dY < y ∧ x * y <= (x + dX) * (y - dY) ∧ dY * (1000 * x + 990 * dX) <= 990 * dX * y.
Proof. exact (SafeComputeDY_spec x y dX). Qed.
Lemma SafeComputeDY_constant_product_witness :
  SafeComputeDY 100 100 10 = 9 ∧ 100 * 100 <= (100 + 10) * (100 - SafeComputeDY 100 100 10).
Proof.
  split; [vm_compute; reflexivity|]. by apply (SafeComputeDY_constant_product 100 100 10); vm_compute.
Defined.


(** Depositing liquidity never dilutes: the deposits raise the reserve by
    exactly their sum, and the points in circulation grow by at most the growth
    of the geometric mean of the reserves; the deposited tokens leave the
    holding pool for the liquidity pool. *)
Theorem HandleBatchDeposit_fair ch b x y (local : bool) s x' y' s' :
  valid_chain ch → wf s → wf_points (lpool ch s) → u64 x → u64 y → deposits_ok (Deposits b) →
  pool_bal (store s) (liquidity_id ch) = (if local then x else y) →
  0 < x → 0 < y → 0 < TotalPoolPoints (lpool ch s) →
  HandleBatchDeposit b ch x y local s = (Ok (x', y'), s') →
  let T := TotalPoolPoints (lpool ch s) in let T' := TotalPoolPoints (lpool ch s') in
  let total := sum_deposits (Deposits b) in
  y' = y ∧ x' = x + total ∧ u64 x' ∧ T <= T' ∧ T' * Z.sqrt (x * y) <= T * Z.sqrt (x' * y') ∧
  pool_bal (store s') (liquidity_id ch) = pool_bal (store s) (liquidity_id ch) + (if local then total else 0) ∧
  pool_bal (store s') (holding_id ch) = pool_bal (store s) (holding_id ch) - (if local then total else 0).
Proof.
  intros Hch Hw Hp Hx Hy Hd Hb Hx0 Hy0 HT Hrun. cbn zeta.
  apply HandleBatchDeposit_spec in Hrun as [-> [(-> & -> & Hz)|[[-> D1] (L & n & HL & D2 & D3 & D4) D5]]]; [..|done|done|done|done|done|done|done].
  - assert (sum_deposits (Deposits b) = 0) as -> by lia. split_and!; try done; destruct local; lia.
  - rewrite (proj2 (Z.eqb_neq _ 0)) in HL by lia. subst L.
    split_and!; [done|done|done|lia|nia| |].
    + apply D5.
    + pose proof (dm_posted _ _ _ _ _ _ D5 ch Hch) as [_ Hs].
      destruct (only_funds_batches _ _ (dm_only _ _ _ _ _ _ D5)) as (E1 & E2 & _).
      apply (f_equal g_holding) in Hs. cbn in Hs. rewrite E1, E2, hit_eq in Hs. destruct local; lia.
Qed.

(** ** The theorems at a concrete exchange *)

(** The demo chain with a liquidity pool for chain 2, and a batch of an order
    and a deposit locked for it. *)
Definition locked2 : DexBatch :=
  MkDexBatch 2 [] [MkDexLimitOrder 20 5 alice [xbb]] [MkDexLiquidityDeposit bob 10 [xbc]] [] 0 0 [] 0 [] 5 false.
Definition demo_dex : FSM :=
  set_store (set_supply (set_Total 1945 (supply demo_store))
    (set_locked_batch {[ 2 := locked2 ]}
    (set_pools (<[liquidity_id 2 := MkPool (liquidity_id 2) 100 [MkPoolPoints alice 60; MkPoolPoints bob 40] 100]>
       (<[holding_id 2 := MkPool (holding_id 2) 30 [] 0]> (pools demo_store))) demo_store))) demo.
(** The counter batch that carries its receipts, an order and a withdrawal. *)
Definition remote2 : DexBatch :=
  MkDexBatch 2 [x13; x14] [MkDexLimitOrder 30 10 bob [xbd]] [] [MkDexLiquidityWithdraw alice 50 [xbe]]
    200 100 [] 0 [15] 5 false.
#[local] Existing Instance toy_crypto.
#[local] Existing Instance toy_codec.

Lemma demo_dex_wf : wf demo_dex.
Proof. constructor; unfold wf_supply; decide_now. Qed.
Lemma demo_dex_points c : wf_points (lpool c demo_dex).
Proof.
  assert (Hall : map_Forall (λ _ p, TotalPoolPoints p = sum_points (pool_Points p) ∧ u64 (TotalPoolPoints p) ∧
    Forall (λ lp, u64 (pp_Points lp)) (pool_Points p) ∧ NoDup (map pp_Address (pool_Points p))) (pools (store demo_dex))) by decide_now.
  unfold lpool, lookup_pool. destruct (pools (store demo_dex) !! liquidity_id c) as [p|] eqn:Hp.
  - destruct (Hall _ _ Hp) as (? & ? & ? & ?). by split.
  - apply wf_points_none.
Qed.
Lemma demo_dex_inv : dex_inv demo_dex.
Proof.
  split; [apply demo_dex_wf|by vm_compute|intros c _; apply demo_dex_points|].
  split; unfold wf_batch, wf_order_amounts, deposits_ok, percents_ok; decide_now.
Qed.
Lemma demo_dex_valid : valid_chain 2.
Proof. by vm_compute. Qed.
Lemma remote2_ok : remote_ok remote2.
Proof. split; unfold wf_batch, wf_order_amounts, deposits_ok, percents_ok; [decide_now..|by vm_compute]. Qed.
Lemma remote2_keys s : prev_block_hash s = Some [xee] → distinct_keys remote2 s.
Proof. intros He bh Hb. rewrite He in Hb. injection Hb as <-. decide_now. Qed.

Definition demo_order : MessageDexLimitOrder := MkMsgDexLimitOrder 2 50 10 alice [xc1].
Definition demo_results : CertificateResult := MkCertificateResult None None None None false (Some remote2) None.
Definition demo_dex1 : FSM := snd (HandleMessageDexLimitOrder demo_order demo_dex).
Definition demo_dex2 : FSM := snd (HandleDexBatch 2 demo_results false demo_dex1).

(** A user's order, then the counter batch that settles the locked batch,
    executes the remote order and locks the user's order. *)
Lemma demo_dex_steps : rtc dex_step demo_dex demo_dex2.
Proof.
  apply (rtc_l _ _ demo_dex1); [|apply (rtc_l _ _ demo_dex2); [|apply rtc_refl]].
  - apply (step_order demo_order ()); [by vm_compute|by vm_compute|]. run_now.
  - apply (step_batch 2 demo_results false ()); [by intros c [= <-]| |run_now].
    intros b [= <-]. split; [|done]. intros _. split; [apply remote2_ok|]. by apply remote2_keys.
Qed.
Lemma dex_holding_solvent_witness :
  rtc dex_step demo_dex demo_dex2 ∧ owed (locked_batch (store demo_dex2)) (next_batch (store demo_dex2)) 2 = 50 ∧
  50 <= pool_bal (store demo_dex2) (holding_id 2).
Proof.
  split; [exact demo_dex_steps|]. split; [vm_compute; reflexivity|].
  destruct (dex_holding_solvent demo_dex demo_dex2 demo_dex_inv demo_dex_steps) as [_ Hall].
  destruct (Hall 2 demo_dex_valid) as [_ Hc]. by apply Hc; vm_compute.
Defined.


Lemma HandleDexBatchOrders_settles_witness :
  ∃ receipts x' y' s', HandleDexBatchOrders remote2 200 100 2 demo_dex = (Ok (receipts, x', y'), s') ∧
    Forall2 limit_kept (db_Orders remote2) receipts ∧ 200 * 100 <= x' * y'.
Proof.
  destruct (HandleDexBatchOrders_settles remote2 200 2 demo_dex [xee]) as (r & x & y & s & E & L & _ & _ & K & _);
    [exact demo_dex_valid|apply demo_dex_wf|by vm_compute|apply demo_dex_points|reflexivity|decide_now
    |apply remote2_ok|lia|by vm_compute|by vm_compute|].
  exists r, x, y, s. split; [exact E|]. split; [exact L|exact K].
Defined.


Lemma HandleBatchDeposit_fair_witness :
  let r := HandleBatchDeposit locked2 2 100 200 true demo_dex in
  fst r = Ok (110, 200) ∧
  TotalPoolPoints (lpool 2 (snd r)) * Z.sqrt (100 * 200) <= TotalPoolPoints (lpool 2 demo_dex) * Z.sqrt (110 * 200).
Proof.
  split; [vm_compute; reflexivity|].
  refine (proj1 (proj2 (proj2 (proj2 (proj2 (HandleBatchDeposit_fair 2 locked2 100 200 true demo_dex 110 200
    (snd (HandleBatchDeposit locked2 2 100 200 true demo_dex)) demo_dex_valid demo_dex_wf (demo_dex_points 2)
    _ _ _ _ _ _ _ _)))))); [by vm_compute|by vm_compute|unfold deposits_ok; decide_now|vm_compute; reflexivity|lia|lia
    |by vm_compute|vm_compute; reflexivity].
Defined.
