(* ===== verification/Tx.v ===== *)
(** * Transactions ([lib/tx.go], [lib/.proto/tx.proto])

    The transaction record, its stateless check and its sign bytes.  The
    protobuf codec is a parameter: parsing, serialization and the payload are
    those of generated code. *)
From S2P Require Import Prelude State Crypto.
From Stdlib Require Import String.
#[local] Open Scope Z_scope.

(** [google.protobuf.Any] *)
Record Any : Type := MkAny { TypeUrl : string; any_Value : bytes }.
(** A nil slice is [None]. *)
Record Signature : Type := MkSignature { sig_PublicKey : option bytes; sig_Signature : option bytes }.
Record Transaction : Type := MkTransaction {
  MessageType : string;
  tx_Msg : option Any;
  tx_Signature : option Signature;
  CreatedHeight : Z;
  tx_Time : Z;
  tx_Fee : Z;
  Memo : string;
  tx_NetworkId : Z;
  tx_ChainId : Z;
}.

(** [Marshal] and [Unmarshal] on transactions. *)
Class TxCodec : Type := {
  UnmarshalTx : bytes → result ErrorI Transaction;
  MarshalTx : Transaction → result ErrorI bytes;
}.

Definition is_nil {A} (x : option A) : bool := match x with None => true | Some _ => false end.

(** [Transaction.CheckBasic]; [x == nil] is [None]. *)
Definition Transaction_CheckBasic (x : option Transaction) : result ErrorI unit :=
  match x with
  | None => Err ErrEmptyTransaction
  | Some x =>
      check_not (is_nil (tx_Msg x)) ErrEmptyMessage;;
      check_not (bool_decide (MessageType x = EmptyString)) ErrUnknownMessageName;;
      check_not (match tx_Signature x with
                 | None => true
                 | Some s => is_nil (sig_Signature s) || is_nil (sig_PublicKey s)
                 end) ErrEmptySignature;;
      check_not (CreatedHeight x =? 0) ErrInvalidTxHeight;;
      check_not (tx_Time x =? 0) ErrInvalidTxTime;;
      check_not (200 <? Z.of_nat (String.length (Memo x))) ErrInvalidMemo;;
      check_not (tx_NetworkId x =? 0) ErrNilNetworkID;;
      check_not (tx_ChainId x =? 0) ErrEmptyChainId
  end.

(** [Transaction.GetHash] *)
Definition GetHash `{Crypto, TxCodec} (x : Transaction) : result ErrorI bytes :=
  protoBytes ← MarshalTx x; Ok (Hash protoBytes).
(** [Transaction.GetSignBytes]: the transaction without its signature. *)
Definition GetSignBytes `{TxCodec} (x : Transaction) : result ErrorI bytes :=
  MarshalTx (MkTransaction (MessageType x) (tx_Msg x) None (CreatedHeight x) (tx_Time x) (tx_Fee x) (Memo x)
    (tx_NetworkId x) (tx_ChainId x)).
