(* ===== verification/Mempool.v ===== *)
(** * The memory pool of pending transactions ([lib/mempool.go])

    A list of transactions kept in descending order of fee, a set of their
    hashes and a byte counter.  [AddTransactions] is modelled without its first
    statements, a fragment that names an undeclared variable and does not
    compile. *)
From S2P Require Import Prelude State Crypto Tx.
From Stdlib Require Import String.
#[local] Open Scope Z_scope.

Record MempoolConfig : Type := MkMempoolConfig {
  MaxTotalBytes : Z;
  MaxTransactionCount : Z;
  IndividualMaxTxSize : Z;
  DropPercentage : Z;
}.
Record MempoolTx : Type := MkMempoolTx { mt_Tx : bytes; mt_Fee : Z }.
(** [MempoolTxs]: the hashes [m] and the list [s]. *)
Record MempoolTxs : Type := MkMempoolTxs { mp_m : gset bytes; mp_s : list MempoolTx }.
Record FeeMempool : Type := MkFeeMempool { pool : MempoolTxs; txsBytes : Z; mp_config : MempoolConfig }.

Definition set_pool (v : MempoolTxs) (f : FeeMempool) : FeeMempool := MkFeeMempool v (txsBytes f) (mp_config f).
Definition set_txsBytes (v : Z) (f : FeeMempool) : FeeMempool := MkFeeMempool (pool f) v (mp_config f).
Definition set_MaxTransactionCount (v : Z) (f : FeeMempool) : FeeMempool :=
  MkFeeMempool (pool f) (txsBytes f)
    (MkMempoolConfig (MaxTotalBytes (mp_config f)) v (IndividualMaxTxSize (mp_config f)) (DropPercentage (mp_config f))).

(** The conversion [uint32(n)]. *)
Definition wrap32 (n : Z) : Z := n mod 4294967296.
Definition MaxUint32 : Z := 4294967295.
Definition size {A} (l : list A) : Z := Z.of_nat (List.length l).

(** [sort.Slice] by descending fee: which of two transactions with the same fee
    comes first is not specified. *)
Class FeeSort : Type := { SortByFee : list MempoolTx → list MempoolTx }.
Class FeeSortLaws `{FeeSort} : Prop := {
  SortByFee_perm : ∀ l, SortByFee l ≡ₚ l;
  SortByFee_sorted : ∀ l, StronglySorted (λ a b, mt_Fee b <= mt_Fee a) (SortByFee l);
}.

Section mempool.
Context `{Crypto, TxCodec, FeeSort}.

Definition tx_hash (tx : MempoolTx) : bytes := HashString (mt_Tx tx).

(** ** [MempoolTxs] *)

(** The loop of [insert] that skips duplicates. *)
Fixpoint keep_first (newMap : gset bytes) (combined : list MempoolTx) : MempoolTxs :=
  match combined with
  | [] => MkMempoolTxs newMap []
  | tx :: rest =>
      if decide (tx_hash tx ∈ newMap) then keep_first newMap rest
      else let t := keep_first ({[tx_hash tx]} ∪ newMap) rest in MkMempoolTxs (mp_m t) (tx :: mp_s t)
  end.
Definition insert_txs (t : MempoolTxs) (txs : list MempoolTx) : MempoolTxs :=
  keep_first ∅ (SortByFee (mp_s t ++ txs)).

(** [delete]: the pool without the transactions, the deleted ones, their bytes. *)
Definition delete_txs (t : MempoolTxs) (txs : list bytes) : MempoolTxs * list MempoolTx * Z :=
  if (size txs =? 0) || (size (mp_s t) =? 0) then (t, [], 0) else
  let toDelete : gset bytes := list_to_set (map HashString txs) in
  let deleted := filter (λ tx, tx_hash tx ∈ toDelete) (mp_s t) in
  let newList := filter (λ tx, tx_hash tx ∉ toDelete) (mp_s t) in
  (MkMempoolTxs (list_to_set (map tx_hash newList)) newList, deleted,
   list_sum (λ tx, size (mt_Tx tx)) deleted).

(** [drop]: the evicted tail and the rest; a negative percentage would slice out
    of bounds. *)
Definition drop_txs (t : MempoolTxs) (percent : Z) : MempoolTxs * list MempoolTx :=
  let numDrop := Z.quot (size (mp_s t) * percent) 100 + 1 in
  let numDrop := if size (mp_s t) <=? numDrop then size (mp_s t) else numDrop in
  let cut := Z.to_nat (size (mp_s t) - numDrop) in
  let kept := take cut (mp_s t) in
  (MkMempoolTxs (list_to_set (map tx_hash kept)) kept, drop cut (mp_s t)).

(** ** [FeeMempool] *)

Definition NewMempool (config : MempoolConfig) : FeeMempool :=
  MkFeeMempool (MkMempoolTxs ∅ []) 0
    (if DropPercentage config =? 0
     then MkMempoolConfig (MaxTotalBytes config) (MaxTransactionCount config) (IndividualMaxTxSize config) 35
     else config).

(** The validation loop of [AddTransactions]: the transactions to insert and the
    mempool, whose byte counter has grown even when a later one is rejected. *)
Fixpoint scan_txs (f : FeeMempool) (mempoolTxs : list MempoolTx) (txs : list bytes)
    : result ErrorI (list MempoolTx) * FeeMempool :=
  match txs with
  | [] => (Ok mempoolTxs, f)
  | tx :: rest =>
      if IndividualMaxTxSize (mp_config f) <? wrap32 (size tx) then (Err ErrMaxTxSize, f)
      else if decide (HashString tx ∈ mp_m (pool f)) then scan_txs f mempoolTxs rest
      else
        match UnmarshalTx tx with
        | Err e => (Err e, f)
        | Ok transaction =>
            match Transaction_CheckBasic (Some transaction) with
            | Err e => (Err e, f)
            | Ok _ =>
                let fee := if decide (MessageType transaction = "certificateResults"%string) then MaxUint32
                           else tx_Fee transaction in
                scan_txs (set_txsBytes (txsBytes f + size tx) f) (mempoolTxs ++ [MkMempoolTx tx fee]) rest
            end
        end
  end.

Definition limits_exceeded (f : FeeMempool) : bool :=
  (MaxTransactionCount (mp_config f) <=? wrap32 (size (mp_s (pool f))))
  || (MaxTotalBytes (mp_config f) <? wrap64 (txsBytes f)).
(** The eviction loop; [None] when it still runs after [fuel] iterations. *)
Fixpoint evict (fuel : nat) (f : FeeMempool) : option FeeMempool :=
  if negb (limits_exceeded f) then Some f else
  match fuel with
  | O => None
  | S fuel =>
      let '(t, dropped) := drop_txs (pool f) (DropPercentage (mp_config f)) in
      evict fuel (set_txsBytes (txsBytes f - list_sum (λ tx, size (mt_Tx tx)) dropped) (set_pool t f))
  end.

Definition AddTransactions (fuel : nat) (f : FeeMempool) (txs : list bytes)
    : option (result ErrorI unit * FeeMempool) :=
  match scan_txs f [] txs with
  | (Err e, f) => Some (Err e, f)
  | (Ok mempoolTxs, f) =>
      let f := set_pool (insert_txs (pool f) mempoolTxs) f in
      let f := if MaxTransactionCount (mp_config f) =? 0 then set_MaxTransactionCount 1 f else f in
      f ← evict fuel f;
      Some (Ok (), f)
  end.

Definition DeleteTransaction (f : FeeMempool) (tx : list bytes) : FeeMempool :=
  let '(t, _, deletedBz) := delete_txs (pool f) tx in
  set_txsBytes (txsBytes f - deletedBz) (set_pool t f).
(** [GetTransactions]: the longest prefix whose size fits. *)
Fixpoint fill (maxBytes totalBytes : Z) (s : list MempoolTx) : list bytes :=
  match s with
  | [] => []
  | tx :: rest =>
      let totalBytes := u64_add totalBytes (size (mt_Tx tx)) in
      if maxBytes <? totalBytes then [] else mt_Tx tx :: fill maxBytes totalBytes rest
  end.
Definition GetTransactions (f : FeeMempool) (maxBytes : Z) : list bytes := fill maxBytes 0 (mp_s (pool f)).
Definition Contains (f : FeeMempool) (txHash : bytes) : bool := bool_decide (txHash ∈ mp_m (pool f)).
Definition Clear (f : FeeMempool) : FeeMempool := set_txsBytes 0 (set_pool (MkMempoolTxs ∅ []) f).
Definition TxCount (f : FeeMempool) : Z := size (mp_s (pool f)).
Definition TxsBytes (f : FeeMempool) : Z := txsBytes f.
End mempool.

(** ** Lemmas *)

Definition bytes_of (l : list MempoolTx) : Z := list_sum (λ tx, size (mt_Tx tx)) l.
Lemma size_nonneg {A} (l : list A) : 0 <= size l.
Proof. unfold size. lia. Qed.
Lemma bytes_of_nonneg l : 0 <= bytes_of l.
Proof. apply list_sum_nonneg. intros x _. apply size_nonneg. Qed.
Lemma bytes_of_app l1 l2 : bytes_of (l1 ++ l2) = bytes_of l1 + bytes_of l2.
Proof. apply list_sum_app. Qed.
#[export] Hint Resolve size_nonneg bytes_of_nonneg : go.

Section proofs.
Context `{Crypto, TxCodec, FeeSortLaws}.

(** The pool is in fee order, without duplicates, and its hashes and byte
    counter are exact. *)
Record wf_mempool (f : FeeMempool) : Prop := {
  wm_sorted : StronglySorted (λ a b, mt_Fee b <= mt_Fee a) (mp_s (pool f));
  wm_nodup : NoDup (map tx_hash (mp_s (pool f)));
  wm_hashes : mp_m (pool f) = list_to_set (map tx_hash (mp_s (pool f)));
  wm_bytes : txsBytes f = bytes_of (mp_s (pool f));
}.
Record config_ok (c : MempoolConfig) : Prop := {
  ck_bytes : 0 <= MaxTotalBytes c;
  ck_count : 0 <= MaxTransactionCount c;
  ck_drop : 0 <= DropPercentage c;
}.
(** The limits, with the count limit the pool falls back to. *)
Definition within_limits (f : FeeMempool) : Prop :=
  size (mp_s (pool f)) < Z.max 1 (MaxTransactionCount (mp_config f)) ∧
  bytes_of (mp_s (pool f)) <= MaxTotalBytes (mp_config f).

Lemma keep_first_distinct seen l :
  NoDup (map tx_hash l) → (∀ tx, tx ∈ l → tx_hash tx ∉ seen) →
  keep_first seen l = MkMempoolTxs (seen ∪ list_to_set (map tx_hash l)) l.
Proof.
  revert seen. induction l as [|tx l IH]; intros seen Hnd Hs; cbn [keep_first map].
  { f_equal. set_solver. }
  cbn [map] in Hnd. apply NoDup_cons in Hnd as [Hn Hnd].
  rewrite decide_False by (apply Hs; set_solver). rewrite IH; [|done|].
  - cbn. f_equal. set_solver.
  - intros tx' Hin. apply not_elem_of_union. split; [|apply Hs; set_solver].
    rewrite elem_of_singleton. intros He. apply Hn. rewrite <- He. apply list_elem_of_fmap. eauto.
Qed.

Lemma drop_txs_spec t p t' dropped :
  0 <= p → drop_txs t p = (t', dropped) →
  mp_s t = mp_s t' ++ dropped ∧ mp_m t' = list_to_set (map tx_hash (mp_s t')) ∧ (mp_s t ≠ [] → dropped ≠ []).
Proof.
  intros Hp [= <- <-]. cbn [mp_s mp_m]. split_and!; [by rewrite take_drop|done|].
  intros Hne Hd. apply (f_equal List.length) in Hd. rewrite length_drop in Hd. cbn in Hd.
  assert (0 < size (mp_s t)) by (unfold size; destruct (mp_s t); [done|cbn; lia]).
  assert (0 <= Z.quot (size (mp_s t) * p) 100) by (apply Z.quot_pos; lia).
  set (q := Z.quot (size (mp_s t) * p) 100) in *.
  destruct (Z.leb_spec (size (mp_s t)) (q + 1)); unfold size in *; lia.
Qed.

(** What the eviction loop returns: a prefix within the limits. *)
Lemma evict_spec fuel f :
  config_ok (mp_config f) → 0 < MaxTransactionCount (mp_config f) →
  txsBytes f = bytes_of (mp_s (pool f)) → mp_m (pool f) = list_to_set (map tx_hash (mp_s (pool f))) →
  size (mp_s (pool f)) < 4294967296 → bytes_of (mp_s (pool f)) < two64 →
  (List.length (mp_s (pool f)) <= fuel)%nat →
  ∃ f' dropped, evict fuel f = Some f' ∧ mp_s (pool f) = mp_s (pool f') ++ dropped ∧ mp_config f' = mp_config f ∧
    txsBytes f' = bytes_of (mp_s (pool f')) ∧ mp_m (pool f') = list_to_set (map tx_hash (mp_s (pool f'))) ∧
    within_limits f'.
Proof.
  revert f. induction fuel as [|fuel IH]; intros f Hc Hm Hb Hh Hs Hu Hl.
  all: pose proof (size_nonneg (mp_s (pool f))); pose proof (bytes_of_nonneg (mp_s (pool f))).
  all: cbn [evict]; destruct (limits_exceeded f) eqn:Hx; cbn [negb].
  all: unfold limits_exceeded, wrap32 in Hx;
    rewrite Hb, (wrap64_small (bytes_of _)), (Z.mod_small (size _)) in Hx by (unfold u64; lia).
  - exfalso. apply Nat.le_0_r, length_zero_iff_nil in Hl. rewrite Hl in Hx.
    change (size []) with 0 in Hx. change (bytes_of []) with 0 in Hx. destruct Hc. zify_bools. lia.
  - exists f, []. rewrite app_nil_r. split_and!; try done. unfold within_limits. zify_bools. lia.
  - destruct (drop_txs _ _) as [t dropped] eqn:Hd. apply drop_txs_spec in Hd as (D1 & D2 & D3); [|apply Hc].
    assert (Hne : mp_s (pool f) ≠ []).
    { intros He. rewrite He in Hx. change (size []) with 0 in Hx. change (bytes_of []) with 0 in Hx.
      destruct Hc. zify_bools. lia. }
    specialize (D3 Hne). pose proof (bytes_of_nonneg (mp_s t)). pose proof (bytes_of_nonneg dropped).
    assert (List.length dropped ≠ 0%nat) by (by destruct dropped).
    assert (Hlen : List.length (mp_s (pool f)) = (List.length (mp_s t) + List.length dropped)%nat) by (by rewrite D1, length_app).
    assert (Hbs : bytes_of (mp_s (pool f)) = bytes_of (mp_s t) + bytes_of dropped) by (by rewrite D1, bytes_of_app).
    destruct (IH (set_txsBytes (txsBytes f - bytes_of dropped) (set_pool t f))) as (f' & d' & E & P & Q);
      cbn [pool txsBytes mp_config set_txsBytes set_pool]; try done.
    + lia.
    + unfold size in *. lia.
    + lia.
    + lia.
    + exists f', (d' ++ dropped). split; [exact E|]. cbn in P. rewrite D1, P. by rewrite app_assoc.
  - exists f, []. rewrite app_nil_r. split_and!; try done. unfold within_limits. zify_bools. lia.
Qed.

(** A batch that passes the checks. *)
Lemma scan_txs_Ok f acc txs l f' :
  scan_txs f acc txs = (Ok l, f') →
  ∃ fresh, l = acc ++ fresh ∧ f' = set_txsBytes (txsBytes f + bytes_of fresh) f ∧
    map mt_Tx fresh `sublist_of` txs ∧ ∀ tx, tx ∈ fresh → tx_hash tx ∉ mp_m (pool f).
Proof.
  revert f acc. induction txs as [|tx txs IH]; intros f acc; cbn [scan_txs].
  { intros [= <- <-]. exists []. change (bytes_of []) with 0. rewrite app_nil_r, Z.add_0_r.
    split_and!; [done|by destruct f|done|set_solver]. }
  case_match; [done|]. destruct (decide _) as [|Hfresh].
  { intros (fresh & -> & -> & Hs & Hf)%IH. exists fresh. split_and!; [done|done|by apply sublist_cons|done]. }
  destruct (UnmarshalTx tx) as [t|]; [|done]. destruct (Transaction_CheckBasic _); [|done].
  intros (fresh & -> & -> & Hs & Hf)%IH. cbn [pool mp_config txsBytes set_txsBytes] in *.
  eexists (_ :: fresh). split_and!.
  - rewrite <- app_assoc. done.
  - unfold bytes_of. rewrite list_sum_cons. cbn [mt_Tx]. unfold set_txsBytes. cbn. f_equal. lia.
  - cbn [map mt_Tx]. by apply sublist_skip.
  - intros tx'. rewrite elem_of_cons. intros [->|?]; [done|by apply Hf].
Qed.
(** A rejected batch changes nothing but the byte counter. *)
Lemma scan_txs_Err f acc txs e f' :
  scan_txs f acc txs = (Err e, f') → ∃ n, 0 <= n ∧ f' = set_txsBytes (txsBytes f + n) f.
Proof.
  revert f acc. induction txs as [|tx txs IH]; intros f acc; cbn [scan_txs]; [done|].
  assert (Hid : f = set_txsBytes (txsBytes f + 0) f) by (rewrite Z.add_0_r; by destruct f).
  case_match; [intros [= _ <-]; by exists 0|]. case_decide; [by apply IH|].
  destruct (UnmarshalTx tx) as [t|]; [|intros [= _ <-]; by exists 0].
  destruct (Transaction_CheckBasic _); [|intros [= _ <-]; by exists 0].
  intros (n & ? & ->)%IH. exists (size tx + n). pose proof (size_nonneg tx). split; [lia|].
  unfold set_txsBytes. cbn. f_equal. lia.
Qed.

Lemma bytes_of_perm l1 l2 : l1 ≡ₚ l2 → bytes_of l1 = bytes_of l2.
Proof. apply list_sum_perm. Qed.
Lemma sublist_bytes (fresh : list MempoolTx) txs : map mt_Tx fresh `sublist_of` txs → bytes_of fresh <= list_sum size txs.
Proof.
  intros Hs. unfold bytes_of. assert (Heq : list_sum (λ tx, size (mt_Tx tx)) fresh = list_sum size (map mt_Tx fresh)).
  { clear. induction fresh as [|a l IH]; [done|]. cbn [map]. rewrite !list_sum_cons. lia. }
  rewrite Heq. clear Heq. induction Hs as [|x l1 l2 _ IH|x l1 l2 _ IH]; [done| |]; rewrite ?list_sum_cons; [lia|].
  pose proof (size_nonneg x). lia.
Qed.
End proofs.

(** ** Theorems *)

Section theorems.
Context `{Crypto, TxCodec, FeeSortLaws}.

(** A batch of pairwise different transactions that the counters can hold. *)
Record batch_ok (f : FeeMempool) (txs : list bytes) : Prop := {
  bk_distinct : NoDup (map HashString txs);
  bk_count : size (mp_s (pool f)) + size txs < 4294967296;
  bk_bytes : bytes_of (mp_s (pool f)) + list_sum size txs < two64;
}.

Lemma AddTransactions_run f txs fresh f1 :
  wf_mempool f → config_ok (mp_config f) → batch_ok f txs → scan_txs f [] txs = (Ok fresh, f1) →
  ∃ f' dropped,
    AddTransactions (List.length (mp_s (pool f)) + List.length txs) f txs = Some (Ok (), f') ∧
    wf_mempool f' ∧ within_limits f' ∧ config_ok (mp_config f') ∧
    mp_s (pool f') ++ dropped ≡ₚ mp_s (pool f) ++ fresh ∧
    ∀ kept d, kept ∈ mp_s (pool f') → d ∈ dropped → mt_Fee d <= mt_Fee kept.
Proof.
  intros [W1 W2 W3 W4] Hc [B1 B2 B3] Hscan. unfold AddTransactions. rewrite Hscan.
  apply scan_txs_Ok in Hscan as (fr & -> & -> & Hsub & Hfr). cbn [app] in *.
  set (l := SortByFee (mp_s (pool f) ++ fr)).
  assert (Hperm : l ≡ₚ mp_s (pool f) ++ fr) by apply SortByFee_perm.
  assert (Hnd : NoDup (map tx_hash l)).
  { change (map tx_hash l) with (tx_hash <$> l). rewrite Hperm. change (NoDup (map tx_hash (mp_s (pool f) ++ fr))).
    rewrite map_app. apply NoDup_app. split_and!; [done| |].
    - intros h Hin Hin2. apply list_elem_of_fmap in Hin2 as (tx & -> & Htx). apply (Hfr tx Htx).
      rewrite W3. by apply elem_of_list_to_set.
    - replace (map tx_hash fr) with (map HashString (map mt_Tx fr)) by (by rewrite map_map).
      eapply sublist_NoDup; [exact B1|]. by apply (fmap_sublist HashString). }
  assert (Hins : insert_txs (pool f) fr = MkMempoolTxs (list_to_set (map tx_hash l)) l).
  { unfold insert_txs. fold l. rewrite keep_first_distinct by (done || set_solver). f_equal. set_solver. }
  change (pool (set_txsBytes _ f)) with (pool f). rewrite Hins.
  pose proof (sublist_bytes _ _ Hsub) as Hfb. pose proof (bytes_of_perm _ _ Hperm) as Hlb. rewrite bytes_of_app in Hlb.
  assert (Hls : (List.length l <= List.length (mp_s (pool f)) + List.length txs)%nat).
  { rewrite Hperm, length_app. apply sublist_length in Hsub. rewrite length_map in Hsub. lia. }
  lazymatch goal with |- context [evict _ ?g] => set (f2 := g) end.
  assert (F2 : pool f2 = MkMempoolTxs (list_to_set (map tx_hash l)) l ∧ txsBytes f2 = bytes_of l ∧
      config_ok (mp_config f2) ∧ MaxTransactionCount (mp_config f2) = Z.max 1 (MaxTransactionCount (mp_config f)) ∧
      MaxTotalBytes (mp_config f2) = MaxTotalBytes (mp_config f)).
  { subst f2. destruct Hc as [C1 C2 C3]. cbn [mp_config set_pool set_txsBytes].
    destruct (Z.eqb_spec (MaxTransactionCount (mp_config f)) 0); split_and!; cbn; try done; lia. }
  destruct F2 as (E1 & E2 & E3 & E4 & E5). clearbody f2.
  destruct (evict_spec (List.length (mp_s (pool f)) + List.length txs) f2) as (f' & dropped & -> & P & Q1 & Q2 & Q3 & Q4);
    rewrite ?E1, ?E2; cbn [mp_s mp_m]; try done; [lia|unfold size in *; lia|lia|].
  exists f', dropped. rewrite E1 in P. cbn [mp_s] in P. split; [done|].
  pose proof (SortByFee_sorted (mp_s (pool f) ++ fr)) as Hso. fold l in Hso. rewrite P in Hso, Hnd.
  apply StronglySorted_app in Hso as (S2 & S1 & _). split_and!.
  - rewrite map_app in Hnd. apply NoDup_app in Hnd as [? _]. by split.
  - done.
  - by rewrite Q1.
  - by rewrite <- P.
  - intros k d Hk Hd. by apply S2.
Qed.

(** C26. Adding a batch terminates and keeps the best paying transactions: on a
    consistent pool, a batch of different transactions that pass the checks is
    inserted, the eviction loop stops after at most one iteration per pooled
    transaction, the pool is consistent and within its limits again, and what
    was evicted pays at most the fee of everything that was kept. *)
Theorem AddTransactions_admits f txs fresh f1 :
  wf_mempool f → config_ok (mp_config f) → batch_ok f txs → scan_txs f [] txs = (Ok fresh, f1) →
  ∃ f' dropped,
    AddTransactions (List.length (mp_s (pool f)) + List.length txs) f txs = Some (Ok (), f') ∧
    wf_mempool f' ∧ within_limits f' ∧
    mp_s (pool f') ++ dropped ≡ₚ mp_s (pool f) ++ fresh ∧
    ∀ kept d, kept ∈ mp_s (pool f') → d ∈ dropped → mt_Fee d <= mt_Fee kept.
Proof.
  intros Hw Hc Hb Hs. destruct (AddTransactions_run _ _ _ _ Hw Hc Hb Hs) as (f' & d & R1 & R2 & R3 & _ & R4).
  by exists f', d.
Qed.

(** The operations that change a mempool. *)
Inductive mempool_step : FeeMempool → FeeMempool → Prop :=
| step_add fuel f txs f' :
    batch_ok f txs → AddTransactions fuel f txs = Some (Ok (), f') → mempool_step f f'
| step_delete f txs : mempool_step f (DeleteTransaction f txs)
| step_clear f : mempool_step f (Clear f).

Lemma delete_txs_spec t txs t' deleted n :
  mp_m t = list_to_set (map tx_hash (mp_s t)) → delete_txs t txs = (t', deleted, n) →
  mp_m t' = list_to_set (map tx_hash (mp_s t')) ∧ mp_s t' = filter (λ tx, tx_hash tx ∉ map HashString txs) (mp_s t) ∧
  n = bytes_of (mp_s t) - bytes_of (mp_s t').
Proof.
  intros Hm. unfold delete_txs. destruct (Z.eqb_spec (size txs) 0) as [Hz|_]; cbn [orb].
  { intros [= <- <- <-]. assert (txs = []) as -> by (unfold size in Hz; destruct txs; [done|cbn in Hz; lia]).
    split_and!; [done| |lia]. symmetry. apply filter_all. set_solver. }
  destruct (Z.eqb_spec (size (mp_s t)) 0) as [Hz|_].
  { intros [= <- <- <-]. assert (He : mp_s t = []) by (unfold size in Hz; destruct (mp_s t); [done|cbn in Hz; lia]).
    rewrite He in *. by split_and!. }
  intros [= <- <- <-]. cbn [mp_s mp_m]. split_and!; [done| |].
  - apply list_filter_iff. intros tx. by rewrite elem_of_list_to_set.
  - clear. unfold bytes_of. induction (mp_s t) as [|tx l IH]; [done|]. rewrite !filter_cons.
    destruct (decide _), (decide _); rewrite ?list_sum_cons in *; try done; lia.
Qed.
Lemma filter_size {A} (P : A → Prop) `{!∀ x, Decision (P x)} (l : list A) : size (filter P l) <= size l.
Proof. unfold size. pose proof (length_filter P l). lia. Qed.

Lemma evict_more fuel fuel2 f f1 f2 : evict fuel f = Some f1 → evict fuel2 f = Some f2 → f1 = f2.
Proof.
  revert fuel2 f. induction fuel as [|fuel IH]; intros [|fuel2] f; cbn [evict];
    destruct (negb _); intros; simplify_eq; try done.
  destruct (drop_txs _ _) as [t d]. eauto.
Qed.
Lemma AddTransactions_more fuel fuel2 f txs r1 r2 :
  AddTransactions fuel f txs = Some r1 → AddTransactions fuel2 f txs = Some r2 → r1 = r2.
Proof.
  unfold AddTransactions. destruct (scan_txs f [] txs) as [[l|e] g]; [|congruence].
  lazymatch goal with |- context [evict _ ?g] => set (f2 := g) end.
  destruct (evict fuel f2) as [x|] eqn:E1, (evict fuel2 f2) as [y|] eqn:E2; cbn; [|done..].
  by rewrite (evict_more _ _ _ _ _ E1 E2); intros [= <-] [= <-].
Qed.

Lemma mempool_step_ok f f' :
  mempool_step f f' → config_ok (mp_config f) → wf_mempool f → within_limits f →
  wf_mempool f' ∧ within_limits f' ∧ config_ok (mp_config f').
Proof.
  intros Hstep Hc Hw Hl. destruct Hstep as [fuel f txs f' Hb Hrun|f txs|f].
  - destruct (scan_txs f [] txs) as [[fresh|e] f1] eqn:Hscan.
    2:{ unfold AddTransactions in Hrun. by rewrite Hscan in Hrun. }
    destruct (AddTransactions_run f txs fresh f1 Hw Hc Hb Hscan) as (f2 & d & Hrun2 & W & L & C & _).
    pose proof (AddTransactions_more _ _ _ _ _ _ Hrun Hrun2) as [= ->]. done.
  - unfold DeleteTransaction. destruct Hw as [W1 W2 W3 W4]. destruct Hl as [L1 L2].
    destruct (delete_txs (pool f) txs) as [[t del] n] eqn:Hd. apply delete_txs_spec in Hd as (D1 & D2 & ->); [|done].
    pose proof (filter_size (λ tx, tx_hash tx ∉ map HashString txs) (mp_s (pool f))) as Hsz.
    assert (bytes_of (mp_s t) <= bytes_of (mp_s (pool f))).
    { rewrite D2. clear. unfold bytes_of. induction (mp_s (pool f)) as [|tx l IH]; [done|]. rewrite filter_cons.
      pose proof (size_nonneg (mt_Tx tx)). destruct (decide _); rewrite !list_sum_cons; lia. }
    split_and!; [|split; cbn; [rewrite D2; lia|lia]|done]. split; cbn [pool txsBytes set_txsBytes set_pool].
    + rewrite D2. by apply filter_sorted.
    + rewrite D2. eapply sublist_NoDup; [exact W2|]. apply (fmap_sublist tx_hash). apply sublist_filter.
    + done.
    + lia.
  - split_and!; [|destruct Hc; split; cbn; [change (size []) with 0|change (bytes_of []) with 0]; lia|done].
    split; cbn; [constructor|constructor|done|done].
Qed.

Lemma fill_spec maxBytes acc s :
  u64 maxBytes → 0 <= acc <= maxBytes → acc + bytes_of s < two64 →
  ∃ rest, map mt_Tx s = fill maxBytes acc s ++ rest ∧ acc + list_sum size (fill maxBytes acc s) <= maxBytes ∧
    ∀ next, head rest = Some next → maxBytes < acc + list_sum size (fill maxBytes acc s) + size next.
Proof.
  intros Hm. revert acc. induction s as [|tx s IH]; intros acc Ha Hs; cbn [fill map].
  { exists []. change (list_sum size []) with 0. split_and!; [done|lia|done]. }
  unfold bytes_of in Hs. rewrite list_sum_cons in Hs. fold (bytes_of s) in Hs.
  pose proof (bytes_of_nonneg s). pose proof (size_nonneg (mt_Tx tx)). rewrite u64_add_small by (unfold u64; lia).
  destruct (Z.ltb_spec maxBytes (acc + size (mt_Tx tx))) as [Hlt|Hle].
  - eexists. split; [done|]. change (list_sum size []) with 0. split; [lia|]. intros next [= <-]. lia.
  - destruct (IH (acc + size (mt_Tx tx))) as (rest & E1 & E2 & E3); [lia|lia|]. exists rest. rewrite list_sum_cons.
    split_and!; [by rewrite E1|lia|]. intros next Hn. specialize (E3 next Hn). lia.
Qed.


(** A batch that is rejected with an error. *)
Definition rejected (f f' : FeeMempool) : Prop :=
  ∃ fuel txs e, AddTransactions fuel f txs = Some (Err e, f').
(** A transaction that passes the checks and is not pooled. *)
Definition admissible (f : FeeMempool) (tx : bytes) : Prop :=
  wrap32 (size tx) <= IndividualMaxTxSize (mp_config f) ∧ HashString tx ∉ mp_m (pool f) ∧
  ∃ t, UnmarshalTx tx = Ok t ∧ Transaction_CheckBasic (Some t) = Ok ().

Lemma evict_drifted fuel f :
  0 <= DropPercentage (mp_config f) → 0 <= MaxTotalBytes (mp_config f) →
  MaxTotalBytes (mp_config f) < txsBytes f - bytes_of (mp_s (pool f)) → txsBytes f < two64 →
  evict fuel f = None.
Proof.
  revert f. induction fuel as [|fuel IH]; intros f Hd Hm Hx Hu; cbn [evict].
  all: pose proof (bytes_of_nonneg (mp_s (pool f))).
  all: assert (limits_exceeded f = true) as -> by
    (unfold limits_exceeded; rewrite wrap64_small by (unfold u64; lia); apply orb_true_iff; right; apply Z.ltb_lt; lia).
  all: cbn [negb].
  { done. }
  destruct (drop_txs _ _) as [t dropped] eqn:He. apply drop_txs_spec in He as (E1 & _); [|done].
  rewrite E1, bytes_of_app in Hx. pose proof (bytes_of_nonneg dropped). unfold bytes_of in *.
  apply IH; cbn; [done|done|lia|lia].
Qed.

(** C28. The byte counter grows before a batch is rejected and is not taken
    back, so rejected batches alone disable the pool: once the phantom bytes of
    [n] batches, each an admissible transaction followed by an undecodable one,
    exceed the byte limit, the pool is unchanged but the next call evicts
    everything and loops for ever, whatever the number of iterations. *)
Theorem rejected_batches_hang f tx bad e n :
  wf_mempool f → config_ok (mp_config f) → admissible f tx →
  wrap32 (size bad) <= IndividualMaxTxSize (mp_config f) → HashString bad ∉ mp_m (pool f) → UnmarshalTx bad = Err e →
  MaxTotalBytes (mp_config f) < Z.of_nat n * size tx → txsBytes f + Z.of_nat n * size tx < two64 →
  ∃ f', nsteps rejected n f f' ∧ pool f' = pool f ∧ ∀ fuel, AddTransactions fuel f' [] = None.
Proof.
  intros Hw Hc (T1 & T2 & t & T3 & T4) B1 B2 B3 Hn Hu.
  exists (set_txsBytes (txsBytes f + Z.of_nat n * size tx) f). split_and!; [|done|].
  - clear Hn Hu Hw. induction n as [|n IH].
    { rewrite Z.mul_0_l, Z.add_0_r. destruct f. constructor. }
    eapply nsteps_r; [exact IH|]. exists 0%nat, [tx; bad], e. unfold AddTransactions.
    cbn [scan_txs mp_config pool set_txsBytes txsBytes].
    rewrite (proj2 (Z.ltb_ge _ _) T1), decide_False, T3, T4 by done. cbn [scan_txs mp_config pool set_txsBytes txsBytes].
    rewrite (proj2 (Z.ltb_ge _ _) B1), decide_False, B3 by done. unfold set_txsBytes. cbn. do 3 f_equal. lia.
  - intros fuel. destruct Hw as [W1 W2 W3 W4]. unfold AddTransactions. cbn [scan_txs].
    lazymatch goal with |- context [evict _ ?g] => set (g2 := g) end.
    assert (Hs : bytes_of (mp_s (pool g2)) = bytes_of (mp_s (pool f)) ∧ txsBytes g2 = txsBytes f + Z.of_nat n * size tx ∧
      DropPercentage (mp_config g2) = DropPercentage (mp_config f) ∧ MaxTotalBytes (mp_config g2) = MaxTotalBytes (mp_config f)).
    { assert (Hi : bytes_of (mp_s (insert_txs (pool f) [])) = bytes_of (mp_s (pool f))).
      { unfold insert_txs. rewrite app_nil_r. pose proof (SortByFee_perm (mp_s (pool f))) as Hp.
        rewrite keep_first_distinct; [by apply bytes_of_perm| |set_solver].
        change (NoDup (tx_hash <$> SortByFee (mp_s (pool f)))). by rewrite Hp. }
      subst g2. cbn [mp_config set_pool set_txsBytes]. case_match; split_and!; (done || exact Hi). }
    destruct Hs as (S1 & S2 & S3 & S4). clearbody g2. destruct Hc as [C1 C2 C3].
    rewrite evict_drifted; [done|lia|lia|lia|lia].
Qed.
End theorems.

(** ** The theorems at a concrete mempool *)

Definition demo_config : MempoolConfig := MkMempoolConfig 10 3 20 35.
#[export] Instance toy_sort : FeeSort := {| SortByFee := sorted_by (λ a b, mt_Fee b <=? mt_Fee a) |}.
#[export] Instance toy_sort_laws : FeeSortLaws.
Proof.
  split; [intros; apply sorted_by_perm|]. intros l.
  assert (Hs : StronglySorted (λ a b, (mt_Fee b <=? mt_Fee a) = true) (SortByFee l)).
  { apply sorted_by_Sorted; intros *; rewrite ?Z.leb_le; lia. }
  induction Hs as [|a l' _ IH Hf]; constructor; [done|]. eapply Forall_impl; [exact Hf|]. intros b. apply Z.leb_le.
Qed.
(** The fee of a toy transaction is its first byte; the empty one does not decode. *)
#[local] Existing Instance toy_crypto.
Definition toy_tx : TxCodec :=
  {| UnmarshalTx := λ bz, match bz with
                          | [] => Err ErrUnmarshal
                          | b :: _ => Ok (MkTransaction "send" (Some (MkAny "" [])) (Some (MkSignature (Some []) (Some [])))
                                       1 1 (byte_to_Z b) "" 1 1)
                          end;
     MarshalTx := λ _, Ok [] |}.
#[local] Existing Instance toy_tx.
Definition demo_txs : list bytes := [[x05; x01]; [x09; x02]; [x07; x03]].
Lemma demo_config_ok : config_ok (mp_config (NewMempool demo_config)).
Proof. by split. Qed.
Lemma NewMempool_wf : wf_mempool (NewMempool demo_config).
Proof. split; cbn; [constructor|constructor|done|done]. Qed.
Lemma demo_batch_ok : batch_ok (NewMempool demo_config) demo_txs.
Proof. split; [apply (bool_decide_unpack _); vm_compute; exact I|by vm_compute|by vm_compute]. Qed.
Lemma AddTransactions_admits_witness :
  ∃ f', AddTransactions 3 (NewMempool demo_config) demo_txs = Some (Ok (), f') ∧ wf_mempool f' ∧ within_limits f'.
Proof.
  destruct (AddTransactions_admits (NewMempool demo_config) demo_txs
    [MkMempoolTx [x05; x01] 5; MkMempoolTx [x09; x02] 9; MkMempoolTx [x07; x03] 7]
    (set_txsBytes 6 (NewMempool demo_config)) NewMempool_wf demo_config_ok demo_batch_ok) as (f' & _ & R & W & L & _);
    [vm_compute; reflexivity|].
  exists f'. split; [exact R|]. by split.
Defined.
Definition demo_mempool : FeeMempool :=
  match AddTransactions 3 (NewMempool demo_config) demo_txs with Some (_, f) => f | None => NewMempool demo_config end.
Lemma rejected_batches_hang_witness :
  ∃ f', nsteps rejected 6 (NewMempool demo_config) f' ∧ pool f' = pool (NewMempool demo_config) ∧
    ∀ fuel, AddTransactions fuel f' [] = None.
Proof.
  apply (rejected_batches_hang _ [x05; x01] [] ErrUnmarshal 6); [exact NewMempool_wf|exact demo_config_ok| |
    by vm_compute|cbn; set_solver|done|by vm_compute|by vm_compute].
  split; [by vm_compute|]. split; [cbn; set_solver|]. eexists. split; [reflexivity|]. reflexivity.
Defined.
