(* ===== verification/TxnStore.v ===== *)
(** * The transactional store ([store/txn.go])

    [Txn] keeps set and delete operations in memory over a parent store, reads
    and iterates as if they had been flushed, and flushes them to a writer.  The
    B-tree and the memory hash are third-party code and parameters; a parent is
    anything that implements the reader interface, another [Txn] included. *)
From S2P Require Import Prelude State.
#[local] Open Scope Z_scope.

(** A nil slice is [None]. *)
Notation value := (option bytes).

Inductive op : Type := opDelete | opSet.
Record valueOp : Type := MkValueOp { vo_key : bytes; vo_value : value; vo_version : Z; vo_op : op }.
Record CacheItem : Type := MkCacheItem { HashedKey : Z; ci_Key : bytes; Exists_ : bool }.
#[export] Instance op_eq_dec : EqDecision op.
Proof. solve_decision. Defined.
#[export] Instance CacheItem_eq_dec : EqDecision CacheItem.
Proof. solve_decision. Defined.

(** [bytes.Compare(a, b) < 0] *)
Definition bytes_ltb (a b : bytes) : bool := bytes_le a b && negb (bool_decide (a = b)).
Definition Less (ti than : CacheItem) : bool := bytes_ltb (ci_Key ti) (ci_Key than).

(** [lib.MemHash], the runtime's hash of a key. *)
Class MemHasher : Type := { MemHash : bytes → Z }.

(** What the store uses of [btree.BTreeG[*CacheItem]] ordered by [Less]. *)
Class BTree : Type := {
  btree : Type;
  NewG : btree;
  ReplaceOrInsert : CacheItem → btree → btree;
  bt_Get : btree → CacheItem → option CacheItem;
  bt_Min : btree → option CacheItem;
  bt_Max : btree → option CacheItem;
  (** the items the callback is offered, in order *)
  AscendGreaterOrEqual : btree → CacheItem → list CacheItem;
  DescendLessOrEqual : btree → CacheItem → list CacheItem;
}.

(** [store/store.go] *)
Definition maxKeyBytes : nat := 256.
Definition lssVersion : Z := u64_max.
Definition endBytes : bytes := replicate (maxKeyBytes + 1) xff.
Definition prefixEnd (prefix : bytes) : bytes := prefix ++ endBytes.
Definition removePrefix (b prefix : bytes) : bytes := drop (length prefix) b.
Definition latestStatePrefix : bytes := [x02; x73; x2f].
Definition historicStatePrefix : bytes := [x02; x68; x2f].
Definition has_prefix (prefix k : bytes) : bool := bool_decide (take (length prefix) k = prefix).

(** [TxnReaderI] and [TxnWriterI].  A reader's iterator is the list of the pairs
    it will offer. *)
Class TxnReader (R : Type) : Type := {
  r_Get : R → bytes → value;
  r_NewIterator : R → bytes → bool → list (bytes * value);
}.
Class TxnWriter (W : Type) : Type := {
  w_SetAt : bytes → value → Z → W → result ErrorI W;
  w_DeleteAt : bytes → Z → W → result ErrorI W;
}.

Section txn.
Context `{MemHasher, BTree}.

(** ** Operations *)

(** [txn]: the operations by hashed key and the tree of their keys. *)
Record txn : Type := MkTxn_ { ops : gmap Z valueOp; sorted : btree }.
(** [Txn] without its reader and writer, which are arguments of its methods. *)
Record Txn : Type := MkTxn {
  tx_prefix : bytes; tx_state : bool; tx_sort : bool; writeVersion : Z; tx_txn : txn }.
Definition set_txn (v : txn) (t : Txn) : Txn := MkTxn (tx_prefix t) (tx_state t) (tx_sort t) (writeVersion t) v.

Definition NewTxn (prefix : bytes) (state sort : bool) (version : Z) : Txn :=
  MkTxn prefix state sort version (MkTxn_ ∅ NewG).

Definition Get `{TxnReader R} (r : R) (t : Txn) (key : bytes) : value :=
  match ops (tx_txn t) !! MemHash key with
  | Some v => match vo_op v with opDelete => None | opSet => vo_value v end
  | None => r_Get r (tx_prefix t ++ key)
  end.

Definition addToSorted (key : bytes) (hashedKey : Z) (x : txn) : txn :=
  MkTxn_ (ops x) (ReplaceOrInsert (MkCacheItem hashedKey key true) (sorted x)).
Definition update (key : bytes) (val : value) (version : Z) (opAction : op) (t : Txn) : Txn :=
  let hashedKey := MemHash key in
  let found := match ops (tx_txn t) !! hashedKey with Some _ => true | None => false end in
  let x := if negb found && tx_sort t then addToSorted key hashedKey (tx_txn t) else tx_txn t in
  set_txn (MkTxn_ (<[hashedKey := MkValueOp key val version opAction]> (ops x)) (sorted x)) t.
Definition Set_ (key : bytes) (val : value) (t : Txn) : Txn := update key val (writeVersion t) opSet t.
Definition Delete (key : bytes) (t : Txn) : Txn := update key None (writeVersion t) opDelete t.
Definition SetAt (key : bytes) (val : value) (version : Z) (t : Txn) : Txn := update key val version opSet t.
Definition DeleteAt (key : bytes) (version : Z) (t : Txn) : Txn := update key None version opDelete t.
Definition Discard (t : Txn) : Txn := set_txn (MkTxn_ ∅ NewG) t.

(** ** Commit *)

Definition flushTo (t : Txn) : gmap Z bytes :=
  if tx_state t then <[writeVersion t := historicStatePrefix]> {[lssVersion := latestStatePrefix]}
  else {[writeVersion t := tx_prefix t]}.
Definition write `{TxnWriter W} (prefix : bytes) (version : Z) (o : valueOp) (w : W) : result ErrorI W :=
  let k := prefix ++ vo_key o in
  match vo_op o with
  | opSet => match w_SetAt k (vo_value o) version w with Ok w => Ok w | Err _ => Err ErrStoreSet end
  | opDelete => match w_DeleteAt k version w with Ok w => Ok w | Err _ => Err ErrStoreDelete end
  end.
(** Go ranges over a map in any order: [order] lists the operations. *)
Fixpoint flush `{TxnWriter W} (prefix : bytes) (version : Z) (order : list valueOp) (w : W) : result ErrorI W :=
  match order with
  | [] => Ok w
  | o :: order => w ← write prefix version o w; flush prefix version order w
  end.
Fixpoint flush_all `{TxnWriter W} (to : list (Z * bytes)) (order : list valueOp) (w : W) : result ErrorI W :=
  match to with
  | [] => Ok w
  | (version, prefix) :: to => w ← flush prefix version order w; flush_all to order w
  end.
(** [Commit] discards the operations whether or not the flush fails. *)
Definition Commit `{TxnWriter W} (to : list (Z * bytes)) (order : list valueOp) (w : W) (t : Txn)
    : result ErrorI W * Txn :=
  (flush_all to order w, Discard t).

(** ** The B-tree iterator *)

Record BTreeIterator : Type := MkBTreeIterator { bi_tree : btree; bi_current : option CacheItem; bi_reverse : bool }.
Definition set_current (c : option CacheItem) (bi : BTreeIterator) : BTreeIterator :=
  MkBTreeIterator (bi_tree bi) c (bi_reverse bi).

Definition next_ (tree : btree) (current : CacheItem) : option CacheItem :=
  find (λ item, negb (bool_decide (ci_Key item = ci_Key current))) (AscendGreaterOrEqual tree current).
Definition prev_ (tree : btree) (current : CacheItem) : option CacheItem :=
  find (λ item, Less item current) (DescendLessOrEqual tree current).
Definition Move (item : CacheItem) (bi : BTreeIterator) : BTreeIterator :=
  match bt_Get (bi_tree bi) item with
  | Some exactMatch => set_current (Some exactMatch) bi
  | None =>
      if bi_reverse bi
      then set_current (prev_ (bi_tree bi) (MkCacheItem 0 (ci_Key item ++ endBytes) false)) bi
      else set_current (next_ (bi_tree bi) (MkCacheItem 0 (ci_Key item) false)) bi
  end.
Definition NewBTreeIterator (tree : btree) (start : CacheItem) (reverse : bool) : BTreeIterator :=
  let bt := MkBTreeIterator tree None reverse in
  if bool_decide (ci_Key start = []) then set_current (if reverse then bt_Max tree else bt_Min tree) bt
  else Move start bt.
Definition Current (bi : BTreeIterator) : CacheItem :=
  match bi_current bi with Some c => c | None => MkCacheItem 0 [] false end.
Definition bi_Next (bi : BTreeIterator) : BTreeIterator :=
  match bi_current bi with
  | None => bi
  | Some c => set_current (if bi_reverse bi then prev_ (bi_tree bi) c else next_ (bi_tree bi) c) bi
  end.

(** ** The merged iterator *)

Record TxnIterator : Type := MkTxnIterator {
  ti_parent : list (bytes * value);
  ti_tree : BTreeIterator;
  ti_txn : txn;
  ti_prefix : bytes;
  ti_parentPrefix : bytes;
  ti_reverse : bool;
  ti_invalid : bool;
  ti_useTxn : bool;
}.
Definition set_ti (parent : list (bytes * value)) (tree : BTreeIterator) (invalid useTxn : bool) (ti : TxnIterator)
    : TxnIterator :=
  MkTxnIterator parent tree (ti_txn ti) (ti_prefix ti) (ti_parentPrefix ti) (ti_reverse ti) invalid useTxn.

Definition First (ti : TxnIterator) : TxnIterator :=
  let start := if ti_reverse ti then prefixEnd (ti_prefix ti) else ti_prefix ti in
  set_ti (ti_parent ti) (Move (MkCacheItem 0 start false) (ti_tree ti)) (ti_invalid ti) (ti_useTxn ti) ti.
Definition newTxnIterator (parent : list (bytes * value)) (t : txn) (prefix parentPrefix : bytes) (reverse : bool)
    : TxnIterator :=
  First (MkTxnIterator parent (NewBTreeIterator (sorted t) (MkCacheItem 0 prefix false) reverse) t prefix parentPrefix
    reverse false false).

(** [txnInvalid] caches its answer. *)
Definition txnInvalid (ti : TxnIterator) : bool :=
  ti_invalid ti || bool_decide (ci_Key (Current (ti_tree ti)) = [])
  || negb (has_prefix (ti_prefix ti) (ci_Key (Current (ti_tree ti)))).
Definition checked (ti : TxnIterator) : TxnIterator :=
  set_ti (ti_parent ti) (ti_tree ti) (txnInvalid ti) (ti_useTxn ti) ti.
Definition txnKey (ti : TxnIterator) : bytes := ci_Key (Current (ti_tree ti)).
(** A missing operation is the zero value of [valueOp], a delete. *)
Definition txnValue (ti : TxnIterator) : valueOp :=
  default (MkValueOp [] None 0 opDelete) (ops (ti_txn ti) !! HashedKey (Current (ti_tree ti))).
Definition txnNext (ti : TxnIterator) : TxnIterator :=
  set_ti (ti_parent ti) (bi_Next (ti_tree ti)) (ti_invalid ti) (ti_useTxn ti) ti.
Definition parentNext (ti : TxnIterator) : TxnIterator :=
  set_ti (tail (ti_parent ti)) (ti_tree ti) (ti_invalid ti) (ti_useTxn ti) ti.
Definition set_useTxn (b : bool) (ti : TxnIterator) : TxnIterator :=
  set_ti (ti_parent ti) (ti_tree ti) (ti_invalid ti) b ti.

(** [compare]: the sign of [bytes.Compare], turned around in reverse. *)
Definition compare (reverse : bool) (a b : bytes) : comparison :=
  let c := if bool_decide (a = b) then Eq else if bytes_le a b then Lt else Gt in
  if reverse then CompOpp c else c.

(** The loop of [txnFastForward]; [None] when it still runs. *)
Fixpoint txnFastForward (fuel : nat) (ti : TxnIterator) : option TxnIterator :=
  let ti := checked ti in
  if ti_invalid ti then Some ti else
  match vo_op (txnValue ti) with
  | opSet => Some ti
  | opDelete => match fuel with O => None | S fuel => txnFastForward fuel (txnNext ti) end
  end.
(** The loop of [Valid]: the answer and the moved iterator. *)
Fixpoint Valid (fuel : nat) (ti : TxnIterator) : option (bool * TxnIterator) :=
  match ti_parent ti with
  | [] =>
      ti ← txnFastForward fuel ti;
      Some (negb (txnInvalid ti), set_useTxn true ti)
  | (pk, _) :: _ =>
      let ti := checked ti in
      if ti_invalid ti then Some (true, set_useTxn false ti) else
      match compare (ti_reverse ti) (txnKey ti) (removePrefix pk (ti_parentPrefix ti)) with
      | Gt => Some (true, set_useTxn false ti)
      | Eq =>
          match vo_op (txnValue ti) with
          | opDelete => match fuel with O => None | S fuel => Valid fuel (txnNext (parentNext ti)) end
          | opSet => Some (true, set_useTxn true ti)
          end
      | Lt =>
          match vo_op (txnValue ti) with
          | opDelete => match fuel with O => None | S fuel => Valid fuel (txnNext ti) end
          | opSet => Some (true, set_useTxn true ti)
          end
      end
  end.
Definition Key (ti : TxnIterator) : bytes :=
  if ti_useTxn ti then txnKey ti
  else match ti_parent ti with (pk, _) :: _ => removePrefix pk (ti_parentPrefix ti) | [] => [] end.
Definition Value (ti : TxnIterator) : value :=
  if ti_useTxn ti then vo_value (txnValue ti)
  else match ti_parent ti with (_, v) :: _ => v | [] => None end.
Definition Next (ti : TxnIterator) : TxnIterator :=
  match ti_parent ti with
  | [] => txnNext ti
  | (pk, _) :: _ =>
      let ti := checked ti in
      if ti_invalid ti then parentNext ti else
      match compare (ti_reverse ti) (txnKey ti) (removePrefix pk (ti_parentPrefix ti)) with
      | Gt => parentNext ti
      | Eq => txnNext (parentNext ti)
      | Lt => txnNext ti
      end
  end.

(** The loop [for ; it.Valid(); it.Next()] that collects every pair. *)
Fixpoint drain (fuel : nat) (ti : TxnIterator) : option (list (bytes * value)) :=
  match Valid fuel ti with
  | None => None
  | Some (false, _) => Some []
  | Some (true, ti) =>
      match fuel with
      | O => None
      | S fuel => l ← drain fuel (Next ti); Some ((Key ti, Value ti) :: l)
      end
  end.
Definition NewIterator `{TxnReader R} (r : R) (t : Txn) (prefix : bytes) (reverse : bool) : TxnIterator :=
  newTxnIterator (r_NewIterator r (tx_prefix t ++ prefix) reverse) (tx_txn t) prefix (tx_prefix t) reverse.
End txn.

(** ** What the parameters promise *)

(** The documented behaviour of the B-tree: its items in ascending order. *)
Class BTreeLaws `{BTree} : Type := {
  bt_items : btree → list CacheItem;
  bt_sorted : ∀ t, StronglySorted (λ a b, bytes_ltb (ci_Key a) (ci_Key b) = true) (bt_items t);
  bt_NewG : bt_items NewG = [];
  bt_insert : ∀ x t y, y ∈ bt_items (ReplaceOrInsert x t) ↔ y = x ∨ (y ∈ bt_items t ∧ ci_Key y ≠ ci_Key x);
  bt_Get_find : ∀ t x, bt_Get t x = find (λ y, bool_decide (ci_Key y = ci_Key x)) (bt_items t);
  bt_Min_head : ∀ t, bt_Min t = head (bt_items t);
  bt_Max_last : ∀ t, bt_Max t = last (bt_items t);
  bt_Ascend : ∀ t x, AscendGreaterOrEqual t x = filter (λ y, bytes_le (ci_Key x) (ci_Key y) = true) (bt_items t);
  bt_Descend : ∀ t x,
    DescendLessOrEqual t x = reverse (filter (λ y, bytes_le (ci_Key y) (ci_Key x) = true) (bt_items t));
}.

(** The pairs under a prefix, in key order. *)
Definition listing (m : gmap bytes value) (prefix : bytes) (reverse : bool) : list (bytes * value) :=
  let l := sorted_by (λ a b, bytes_le (fst a) (fst b)) (filter (λ kv, has_prefix prefix (fst kv) = true) (map_to_list m)) in
  if reverse then rev l else l.
(** What a reader promises: in a valid state it shows a finite map, through its
    iterators and, for the keys whose hashes it can tell apart, through [Get]. *)
Class ReaderLaws (R : Type) `{TxnReader R} : Type := {
  r_view : R → gmap bytes value;
  r_ok : R → Prop;
  r_known : R → bytes → Prop;
  r_Get_view : ∀ r k, r_ok r → r_known r k → r_Get r k = default None (r_view r !! k);
  r_NewIterator_view : ∀ r prefix reverse,
    r_ok r → r_NewIterator r prefix reverse = listing (r_view r) prefix reverse;
}.

(** ** Lemmas: keys and prefixes *)

Lemma bytes_ltb_spec a b : bytes_ltb a b = true ↔ bytes_le a b = true ∧ a ≠ b.
Proof. unfold bytes_ltb. by rewrite andb_true_iff, negb_true_iff, bool_decide_eq_false. Qed.
Lemma bytes_ltb_irrefl a : bytes_ltb a a = false.
Proof. unfold bytes_ltb. by rewrite bool_decide_true, andb_false_r. Qed.
Lemma bytes_ltb_trans a b c : bytes_ltb a b = true → bytes_ltb b c = true → bytes_ltb a c = true.
Proof.
  rewrite !bytes_ltb_spec. intros [H1 N1] [H2 N2]. split; [by eapply bytes_le_trans|].
  intros ->. apply N2. by apply bytes_le_antisym.
Qed.
Lemma bytes_le_lt a b : bytes_le a b = negb (bytes_ltb b a).
Proof.
  destruct (bytes_le a b) eqn:H1, (bytes_ltb b a) eqn:H2; try done; exfalso.
  - apply bytes_ltb_spec in H2 as [H2 N]. apply N. by apply bytes_le_antisym.
  - destruct (bytes_le_total a b) as [?|H3]; [congruence|].
    unfold bytes_ltb in H2. rewrite H3 in H2. cbn in H2. apply negb_false_iff, bool_decide_eq_true in H2 as ->.
    by rewrite bytes_le_refl in H1.
Qed.
Lemma bytes_ltb_total a b : a ≠ b → bytes_ltb a b = true ∨ bytes_ltb b a = true.
Proof.
  intros Hne. destruct (bytes_le_total a b); [left|right]; by apply bytes_ltb_spec.
Qed.
Lemma bytes_ltb_asym a b : bytes_ltb a b = true → bytes_ltb b a = false.
Proof.
  intros H1. destruct (bytes_ltb b a) eqn:H2; [|done]. pose proof (bytes_ltb_trans _ _ _ H1 H2) as H3.
  by rewrite bytes_ltb_irrefl in H3.
Qed.

(** The order of an iterator. *)
Definition before (reverse : bool) (a b : bytes) : bool := if reverse then bytes_ltb b a else bytes_ltb a b.
Lemma before_irrefl r a : before r a a = false.
Proof. destruct r; apply bytes_ltb_irrefl. Qed.
Lemma before_trans r a b c : before r a b = true → before r b c = true → before r a c = true.
Proof. destruct r; cbn; [|by apply bytes_ltb_trans]. intros. by eapply bytes_ltb_trans. Qed.
Lemma before_total r a b : a ≠ b → before r a b = true ∨ before r b a = true.
Proof. intros Hne. destruct (bytes_ltb_total a b Hne); destruct r; cbn; auto. Qed.
Lemma before_asym r a b : before r a b = true → before r b a = false.
Proof. destruct r; apply bytes_ltb_asym. Qed.
Lemma compare_spec r a b :
  match compare r a b with Eq => a = b | Lt => before r a b = true | Gt => before r b a = true end.
Proof.
  unfold compare, before. case_bool_decide as Hab; [by destruct r|].
  destruct (bytes_le a b) eqn:Hle; destruct r; cbn; apply bytes_ltb_spec; try done.
  all: destruct (bytes_le_total a b); [congruence|done].
Qed.

Lemma has_prefix_spec p k : has_prefix p k = true ↔ ∃ x, k = p ++ x.
Proof.
  unfold has_prefix. rewrite bool_decide_eq_true. split.
  - intros Ht. exists (drop (length p) k). by rewrite <- Ht at 1; rewrite take_drop.
  - intros [x ->]. by rewrite take_app_length.
Qed.
Lemma bytes_le_app p x y : bytes_le (p ++ x) (p ++ y) = bytes_le x y.
Proof. induction p as [|b p IH]; cbn; [done|]. by rewrite Z.ltb_irrefl. Qed.
Lemma bytes_ltb_app p x y : bytes_ltb (p ++ x) (p ++ y) = bytes_ltb x y.
Proof.
  unfold bytes_ltb. rewrite bytes_le_app. f_equal. f_equal. apply bool_decide_ext. split; [|by intros ->].
  apply app_inv_head.
Qed.
(** A key outside a prefix is below or above every key of the prefix. *)
Lemma outside_prefix p k :
  has_prefix p k = false → (∀ x, bytes_ltb k (p ++ x) = true) ∨ (∀ x, bytes_ltb (p ++ x) k = true).
Proof.
  intros Hp.
  assert (Hne : ∀ x, k ≠ p ++ x) by (intros x ->; apply not_true_iff_false in Hp; apply Hp, has_prefix_spec; eauto).
  assert (Hd : (∀ x, bytes_le k (p ++ x) = true) ∨ (∀ x, bytes_le (p ++ x) k = true)).
  { clear Hp. revert k Hne. induction p as [|b p IH]; intros k Hne; [destruct (Hne k); done|].
    destruct k as [|c k]; [by left|]. cbn. destruct (Z.ltb_spec (byte_to_Z c) (byte_to_Z b)); [by left|].
    destruct (Z.ltb_spec (byte_to_Z b) (byte_to_Z c)); [by right|].
    assert (b = c) as -> by (apply byte_to_Z_inj; lia). apply IH. intros x ->. by apply (Hne x). }
  destruct Hd as [Hd|Hd]; [left|right]; intros x; apply bytes_ltb_spec; split; [done|apply Hne|done|].
  intros He. by apply (Hne x).
Qed.
Lemma below_end x y : (length x <= maxKeyBytes)%nat → bytes_ltb x (endBytes ++ y) = true.
Proof.
  intros Hl. apply bytes_ltb_spec. split.
  - assert (Hgen : ∀ n, (length x <= n)%nat → bytes_le x (replicate n xff ++ y) = true); [|apply Hgen; lia].
    clear Hl. induction x as [|b x IH]; intros [|n] Hn; cbn in *; [done|done|lia|].
    assert (byte_to_Z b <= 255) by (destruct b; vm_compute; congruence).
    destruct (Z.ltb_spec (byte_to_Z b) 255); [done|]. rewrite (proj2 (Z.ltb_ge _ _)) by done.
    apply IH. lia.
  - intros ->. rewrite length_app in Hl. unfold endBytes in Hl. rewrite length_replicate in Hl. lia.
Qed.

(** ** Lemmas: the B-tree iterator walks the ordered items *)

Section iter.
Context `{MemHasher, BTreeLaws}.


(** The items in the direction of the iteration. *)
Definition dir_items (reverse : bool) (t : btree) : list CacheItem := if reverse then rev (bt_items t) else bt_items t.
Lemma dir_sorted r t : StronglySorted (λ a b, before r (ci_Key a) (ci_Key b) = true) (dir_items r t).
Proof. unfold dir_items, before. destruct r; [|apply bt_sorted]. apply (StronglySorted_rev _ _ (bt_sorted t)). Qed.
Lemma elem_of_dir r t c : c ∈ dir_items r t ↔ c ∈ bt_items t.
Proof. destruct r; [apply elem_of_rev|done]. Qed.

Definition after (r : bool) (k : bytes) (t : btree) : list CacheItem :=
  filter (λ y, before r k (ci_Key y) = true) (dir_items r t).

Lemma next_after t c : next_ t c = head (after false (ci_Key c) t).
Proof.
  unfold next_, after. rewrite bt_Ascend, find_filter. f_equal. apply filter_and_ext. intros y. cbn. unfold bytes_ltb.
  do 2 f_equal. apply bool_decide_ext. split; congruence.
Qed.
Lemma prev_after t c : prev_ t c = head (after true (ci_Key c) t).
Proof.
  unfold prev_, after, dir_items. rewrite bt_Descend, <- filter_reverse, rev_reverse, find_filter. f_equal. apply filter_and_ext.
  intros y. cbn. unfold Less. destruct (bytes_ltb (ci_Key y) (ci_Key c)) eqn:Hl; [|by rewrite andb_false_r].
  apply bytes_ltb_spec in Hl as [-> _]. done.
Qed.
Lemma step_after (r : bool) t c : (if r then prev_ t c else next_ t c) = head (after r (ci_Key c) t).
Proof. destruct r; [apply prev_after|apply next_after]. Qed.

(** In a strictly sorted list the items after one of them are its tail. *)
Lemma sorted_after r (l : list CacheItem) pre c post :
  StronglySorted (λ a b, before r (ci_Key a) (ci_Key b) = true) l → l = pre ++ c :: post →
  filter (λ y, before r (ci_Key c) (ci_Key y) = true) l = post.
Proof.
  intros Hs ->. rewrite filter_app, filter_cons_False by (by rewrite before_irrefl).
  assert (Hpre : filter (λ y, before r (ci_Key c) (ci_Key y) = true) pre = []).
  { assert (Hall : Forall (λ x, before r (ci_Key x) (ci_Key c) = true) pre).
    { apply StronglySorted_app in Hs as (Hs & _). apply Forall_forall. intros x Hx. apply Hs; set_solver. }
    clear Hs. induction Hall as [|x l Hx _ IH]; [done|]. rewrite filter_cons_False; [done|].
    rewrite (before_asym _ _ _ Hx). done. }
  rewrite Hpre. cbn. apply StronglySorted_app in Hs as (_ & _ & Hs). apply StronglySorted_inv in Hs as [_ Hs].
  induction Hs as [|x l Hx _ IH]; [done|]. by rewrite filter_cons_True, IH.
Qed.

(** A tree iterator stands at the head of a suffix of the ordered items. *)
Record standing (bi : BTreeIterator) (s : list CacheItem) : Prop := {
  st_current : bi_current bi = head s;
  st_suffix : ∃ pre, dir_items (bi_reverse bi) (bi_tree bi) = pre ++ s;
}.
Lemma standing_Next bi c s : standing bi (c :: s) → standing (bi_Next bi) s.
Proof.
  intros [Hc [pre Hp]]. unfold bi_Next. rewrite Hc. cbn [head]. split; cbn [bi_current bi_tree bi_reverse set_current].
  - rewrite step_after. unfold after. by rewrite (sorted_after _ _ _ _ _ (dir_sorted _ _) Hp).
  - exists (pre ++ [c]). by rewrite <- app_assoc.
Qed.
(** The items not before [k] form a suffix. *)
Lemma sorted_suffix r (l : list CacheItem) k :
  StronglySorted (λ a b, before r (ci_Key a) (ci_Key b) = true) l →
  ∃ pre, l = pre ++ filter (λ y, before r (ci_Key y) k = false) l ∧ ∀ x, x ∈ pre → before r (ci_Key x) k = true.
Proof.
  induction 1 as [|a l Hs IH Hf]; [exists []; split; [done|set_solver]|].
  destruct (before r (ci_Key a) k) eqn:Ha.
  - destruct IH as (pre & Hp & Hb). exists (a :: pre). rewrite filter_cons_False by (by rewrite Ha). cbn. rewrite <- Hp.
    split; [done|]. intros x. rewrite elem_of_cons. intros [->|?]; [done|by apply Hb].
  - exists []. cbn [app]. split; [|set_solver]. rewrite filter_cons_True by done. f_equal. symmetry.
    clear Hs IH. induction Hf as [|b l Hb _ IH]; [done|]. rewrite filter_cons_True; [by rewrite IH at 1|].
    destruct (before r (ci_Key b) k) eqn:Hbk; [|done]. by rewrite (before_trans _ _ _ _ Hb Hbk) in Ha.
Qed.

(** ** Lemmas: the merged iterator *)

(** The in-memory items the iterator still has to offer are [its]. *)
Record at_items (ti : TxnIterator) (its : list CacheItem) : Prop := {
  ai_valid : its ≠ [] → ti_invalid ti = false;
  ai_dir : bi_reverse (ti_tree ti) = ti_reverse ti;
  ai_stand : ∃ post, standing (ti_tree ti) (its ++ post) ∧
    (ti_invalid ti = false → ∀ c, head post = Some c → has_prefix (ti_prefix ti) (ci_Key c) = false);
  ai_keys : Forall (λ c, has_prefix (ti_prefix ti) (ci_Key c) = true ∧ ci_Key c ≠ []) its;
}.
Lemma at_items_Current ti c its : at_items ti (c :: its) → Current (ti_tree ti) = c.
Proof. intros [_ _ (post & [Hc _] & _) _]. unfold Current. by rewrite Hc. Qed.
Lemma at_items_invalid ti its : at_items ti its → txnInvalid ti = bool_decide (its = []).
Proof.
  intros Ha. pose proof Ha as [Hv _ (post & [Hc _] & Hp) Hk]. unfold txnInvalid. destruct its as [|c its].
  - rewrite (bool_decide_true (@nil CacheItem = [])) by done. destruct (ti_invalid ti); [done|]. cbn. unfold Current. rewrite Hc.
    destruct post as [|c post]; cbn [head app ci_Key]; [by rewrite bool_decide_true|].
    rewrite (Hp eq_refl c) by done. by rewrite orb_true_r.
  - rewrite Hv by done. apply Forall_cons in Hk as [[Hk1 Hk2] _]. rewrite (at_items_Current _ _ _ Ha), Hk1.
    by rewrite !bool_decide_false by done.
Qed.
Lemma at_items_checked ti its : at_items ti its → at_items (checked ti) its ∧ ti_invalid (checked ti) = bool_decide (its = []).
Proof.
  intros Ha. pose proof (at_items_invalid _ _ Ha) as Hi. unfold checked. rewrite Hi. split; [|done].
  destruct Ha as [Hv Hd (post & Hs & Hp) Hk]. split; cbn; [|done| |done].
  - intros. by rewrite bool_decide_false.
  - exists post. split; [done|]. rewrite bool_decide_eq_false. intros Hne. apply Hp, Hv, Hne.
Qed.
Lemma at_items_next ti c its : at_items ti (c :: its) → at_items (txnNext ti) its.
Proof.
  intros [Hv Hd (post & Hs & Hp) Hk]. apply Forall_cons in Hk as [_ Hk]. split; cbn.
  - intros _. by apply Hv.
  - unfold bi_Next. destruct (bi_current (ti_tree ti)); done.
  - exists post. split; [by apply standing_Next in Hs|done].
  - done.
Qed.
Lemma at_items_frame ti its parent b :
  at_items ti its → at_items (set_ti parent (ti_tree ti) (ti_invalid ti) b ti) its.
Proof. intros []. by split. Qed.

Section merge.
Context (x : txn) (pp : bytes) (r : bool).

Definition val_of (c : CacheItem) : valueOp := default (MkValueOp [] None 0 opDelete) (ops x !! HashedKey c).
(** The pairs still to be offered: the set operations on the items, and the
    parent's pairs that no item shadows. *)
Definition offered (its : list CacheItem) (par : list (bytes * value)) (k : bytes) (v : value) : Prop :=
  (∃ c, c ∈ its ∧ ci_Key c = k ∧ vo_op (val_of c) = opSet ∧ vo_value (val_of c) = v) ∨
  ((k, v) ∈ par ∧ k ∉ map ci_Key its).

Record merging (ti : TxnIterator) (its : list CacheItem) (par : list (bytes * value)) : Prop := {
  mg_items : at_items ti its;
  mg_parent : ti_parent ti = map (λ kv, (pp ++ fst kv, snd kv)) par;
  mg_txn : ti_txn ti = x;
  mg_pp : ti_parentPrefix ti = pp;
  mg_reverse : ti_reverse ti = r;
  mg_sorted : StronglySorted (λ a b, before r (ci_Key a) (ci_Key b) = true) its;
  mg_psorted : StronglySorted (λ a b, before r (fst a) (fst b) = true) par;
}.
Lemma merging_txnNext ti c its par : merging ti (c :: its) par → merging (txnNext ti) its par.
Proof.
  intros [M1 M2 M3 M4 M5 M6 M7]. apply StronglySorted_inv in M6 as [M6 _].
  split; [by apply at_items_next in M1|done..].
Qed.
Lemma merging_parentNext ti its kv par : merging ti its (kv :: par) → merging (parentNext ti) its par.
Proof.
  intros [M1 M2 M3 M4 M5 M6 M7]. apply StronglySorted_inv in M7 as [M7 _].
  split; cbn; [by apply at_items_frame|by rewrite M2|done..].
Qed.
Lemma merging_checked ti its par :
  merging ti its par → merging (checked ti) its par ∧ ti_invalid (checked ti) = bool_decide (its = []).
Proof.
  intros [M1 M2 M3 M4 M5 M6 M7]. apply at_items_checked in M1 as [M1 Hi]. split; [|done]. by split.
Qed.
Lemma merging_useTxn ti its par b : merging ti its par → merging (set_useTxn b ti) its par.
Proof. intros [M1 M2 M3 M4 M5 M6 M7]. split; try done. by apply at_items_frame. Qed.
Lemma merging_value ti c its par : merging ti (c :: its) par → txnValue ti = val_of c ∧ txnKey ti = ci_Key c.
Proof.
  intros [M1 _ M3 _ _ _ _]. unfold txnValue, txnKey. by rewrite (at_items_Current _ _ _ M1), M3.
Qed.
Lemma removePrefix_app a b : removePrefix (a ++ b) a = b.
Proof. unfold removePrefix. by rewrite drop_app_length. Qed.

Lemma offered_delete c its par k v :
  vo_op (val_of c) = opDelete → (∀ kv, kv ∈ par → fst kv ≠ ci_Key c) →
  offered (c :: its) par k v ↔ offered its par k v.
Proof.
  intros Hd Hp. unfold offered. cbn [map]. split.
  - intros [(c' & Hin & Hk & Hs & Hv)|[Hin Hk]].
    + apply elem_of_cons in Hin as [->|Hin]; [congruence|]. left. by exists c'.
    + right. split; [done|]. set_solver.
  - intros [(c' & Hin & Hk & Hs & Hv)|[Hin Hk]].
    + left. exists c'. split; [set_solver|done].
    + right. split; [done|]. apply not_elem_of_cons. split; [|done]. by apply (Hp (k, v)).
Qed.
Lemma offered_delete_both c its kv par k v :
  vo_op (val_of c) = opDelete → fst kv = ci_Key c →
  (∀ kv', kv' ∈ par → fst kv' ≠ ci_Key c) →
  offered (c :: its) (kv :: par) k v ↔ offered its par k v.
Proof.
  intros Hd Hk Hp. rewrite <- (offered_delete c its par) by done. unfold offered. split.
  - intros [?|[Hin Hn]]; [by left|]. right. split; [|done]. apply elem_of_cons in Hin as [<-|?]; [|done].
    cbn in *. set_solver.
  - intros [?|[Hin Hn]]; [by left|]. right. split; [set_solver|done].
Qed.
Lemma offered_keys_txn c its par k v :
  offered (c :: its) par k v → StronglySorted (λ a b, before r (ci_Key a) (ci_Key b) = true) (c :: its) →
  (∀ kv, kv ∈ par → before r (ci_Key c) (fst kv) = true ∨ fst kv = ci_Key c) → k = ci_Key c ∨ before r (ci_Key c) k = true.
Proof.
  intros Ho Hs Hp. apply StronglySorted_inv in Hs as [_ Hf]. rewrite Forall_forall in Hf.
  destruct Ho as [(c' & Hin & <- & _)|[Hin _]].
  - apply elem_of_cons in Hin as [->|Hin]; [by left|right; by apply Hf].
  - destruct (Hp _ Hin); auto.
Qed.

Lemma Next_run ti its par :
  merging ti its par →
  Next ti = match par, its with
            | [], _ => txnNext ti
            | _ :: _, [] => parentNext (checked ti)
            | kv :: _, c :: _ =>
                match compare r (ci_Key c) (fst kv) with
                | Gt => parentNext (checked ti)
                | Eq => txnNext (parentNext (checked ti))
                | Lt => txnNext (checked ti)
                end
            end.
Proof.
  intros Hm. pose proof Hm as [_ M2 _ M4 M5 _ _]. unfold Next. rewrite M2. destruct par as [|[pk pv] par]; [done|].
  cbn [map fst snd]. destruct (merging_checked _ _ _ Hm) as [Hm' ->]. destruct its as [|c its].
  - by rewrite bool_decide_true.
  - rewrite bool_decide_false by done. destruct (merging_value _ _ _ _ Hm') as [_ ->].
    destruct Hm' as [_ _ _ -> -> _ _]. by rewrite removePrefix_app.
Qed.

(** What the iterator does from a state [ti] with these items and pairs left:
    it stands at the least pair offered, or there is none. *)
Definition stands_at (its : list CacheItem) (par : list (bytes * value)) (ti : TxnIterator) : Prop :=
  ∃ its2 par2, merging (Next ti) its2 par2 ∧ (length its2 + length par2 < length its + length par)%nat ∧
    (∀ k v, offered its par k v ↔ (k = Key ti ∧ v = Value ti) ∨ offered its2 par2 k v) ∧
    (∀ k v, offered its2 par2 k v → before r (Key ti) k = true).

(** The head pair is the parent's. *)
Lemma stands_parent ti its pk pv par :
  merging ti its ((pk, pv) :: par) →
  (∀ c, head its = Some c → compare r (ci_Key c) pk = Gt) →
  stands_at its ((pk, pv) :: par) (set_useTxn false (checked ti)).
Proof.
  intros Hm Hc. destruct (merging_checked _ _ _ Hm) as [Hm' _]. apply merging_useTxn with (b := false) in Hm'.
  pose proof (Next_run _ _ _ Hm') as Hn. pose proof Hm as [_ M2 _ M4 _ M6 M7].
  assert (HK : Key (set_useTxn false (checked ti)) = pk ∧ Value (set_useTxn false (checked ti)) = pv).
  { unfold Key, Value. cbn [ti_useTxn set_useTxn set_ti ti_parent ti_parentPrefix checked]. rewrite M2, M4. cbn.
    by rewrite removePrefix_app. }
  destruct HK as [HK HV]. unfold stands_at. rewrite HK, HV.
  assert (Hnext : Next (set_useTxn false (checked ti)) = parentNext (checked (set_useTxn false (checked ti)))).
  { rewrite Hn. destruct its as [|c its]; [done|]. cbn [fst]. by rewrite (Hc c). }
  assert (Hbef : ∀ c, c ∈ its → before r pk (ci_Key c) = true).
  { intros c. destruct its as [|c0 its]; [set_solver|]. pose proof (compare_spec r (ci_Key c0) pk) as Hg.
    rewrite (Hc c0) in Hg by done. rewrite elem_of_cons. intros [->|Hin]; [done|].
    apply StronglySorted_inv in M6 as [_ Hf]. rewrite Forall_forall in Hf. by eapply before_trans; [|apply Hf]. }
  apply StronglySorted_inv in M7 as [_ Hf]. rewrite Forall_forall in Hf.
  exists its, par. split_and!.
  - rewrite Hnext. apply merging_checked in Hm' as [Hm' _]. by apply merging_parentNext in Hm'.
  - cbn. lia.
  - intros k v. unfold offered. split.
    + intros [?|[Hin Hk]]; [by right; left|]. apply elem_of_cons in Hin as [[= <- <-]|Hin]; [by left|]. right. by right.
    + intros [[-> ->]|[?|[Hin Hk]]]; [right|by left|right; set_solver].
      split; [set_solver|]. intros (c & -> & Hin)%list_elem_of_fmap. specialize (Hbef _ Hin). by rewrite before_irrefl in Hbef.
  - intros k v [(c & Hin & <- & _)|[Hin _]]; [by apply Hbef|]. by apply (Hf (k, v)).
Qed.
(** The head pair is a set operation; [par] is what is left of the parent. *)
Lemma stands_txn ti c its par0 par :
  merging ti (c :: its) par0 → merging (Next ti) its par → (length par <= length par0)%nat → ti_useTxn ti = true →
  vo_op (val_of c) = opSet →
  (par0 = par ∨ ∃ kv, par0 = kv :: par ∧ fst kv = ci_Key c) →
  (∀ kv, kv ∈ par → before r (ci_Key c) (fst kv) = true) →
  stands_at (c :: its) par0 ti.
Proof.
  intros Hm Hn Hl Hu Hs Hp Hb. destruct (merging_value _ _ _ _ Hm) as [V1 V2].
  assert (HK : Key ti = ci_Key c ∧ Value ti = vo_value (val_of c)).
  { unfold Key, Value. by rewrite Hu, V1, V2. }
  destruct HK as [HK HV]. unfold stands_at. rewrite HK, HV.
  pose proof (mg_sorted _ _ _ Hm) as Hso. apply StronglySorted_inv in Hso as [_ Hf]. rewrite Forall_forall in Hf.
  exists its, par. split_and!; [done|cbn; lia| |].
  - intros k v. unfold offered. cbn [map]. split.
    + intros [(c' & Hin & <- & Ho & <-)|[Hin Hk]].
      * apply elem_of_cons in Hin as [->|Hin]; [by left|]. right; left. by exists c'.
      * right; right. apply not_elem_of_cons in Hk as [Hk1 Hk2]. split; [|done].
        destruct Hp as [->|(kv & -> & Hkv)]; [done|]. apply elem_of_cons in Hin as [<-|?]; [|done]. by cbn in Hkv.
    + intros [[-> ->]|[(c' & Hin & <- & Ho & <-)|[Hin Hk]]].
      * left. exists c. split; [set_solver|done].
      * left. exists c'. split; [set_solver|done].
      * right. split; [destruct Hp as [->|(kv & -> & _)]; set_solver|]. apply not_elem_of_cons. split; [|done].
        intros ->. specialize (Hb _ Hin). cbn in Hb. by rewrite before_irrefl in Hb.
  - intros k v [(c' & Hin & <- & _)|[Hin _]]; [by apply Hf|]. by apply (Hb (k, v)).
Qed.

Lemma FastForward_spec fuel ti its :
  (length its <= fuel)%nat → merging ti its [] →
  ∃ ti' its', txnFastForward fuel ti = Some ti' ∧ merging ti' its' [] ∧ (length its' <= length its)%nat ∧
    (∀ k v, offered its [] k v ↔ offered its' [] k v) ∧ ∀ c, head its' = Some c → vo_op (val_of c) = opSet.
Proof.
  revert ti its. induction fuel as [|fuel IH]; intros ti its Hl Hm; cbn [txnFastForward];
    destruct (merging_checked _ _ _ Hm) as [Hm' Hi]; rewrite Hi; (destruct its as [|c its];
    [rewrite bool_decide_true by done; eexists _, []; by split_and!|]); [cbn in Hl; lia|].
  rewrite bool_decide_false by done. destruct (merging_value _ _ _ _ Hm') as [-> _].
  destruct (vo_op (val_of c)) eqn:Ho.
  - destruct (IH (txnNext (checked ti)) its) as (ti' & its' & E & M & L & O & S); [cbn in Hl; lia|by apply merging_txnNext in Hm'|].
    exists ti', its'. split_and!; [done|done|cbn; lia| |done]. intros k v. rewrite <- O. apply offered_delete; [done|set_solver].
  - exists (checked ti), (c :: its). split_and!; try done. by intros c' [= <-].
Qed.

Lemma stands_weaken its par its' par' ti :
  stands_at its' par' ti → (length its' + length par' <= length its + length par)%nat →
  (∀ k v, offered its par k v ↔ offered its' par' k v) → stands_at its par ti.
Proof.
  intros (i2 & p2 & A & B & C & D) Hl Ho. exists i2, p2. split_and!; [done|lia| |done].
  intros k v. by rewrite Ho, C.
Qed.

Lemma Valid_parent_done fuel ti its :
  (length its <= fuel)%nat → merging ti its [] →
  ∃ b ti', Valid fuel ti = Some (b, ti') ∧
    if b : bool then stands_at its [] ti' else ∀ k v, ¬ offered its [] k v.
Proof.
  intros Hl Hm. destruct (FastForward_spec fuel ti its Hl Hm) as (ti' & its' & E & M & L & O & S).
  assert (HV : Valid fuel ti = Some (negb (txnInvalid ti'), set_useTxn true ti')).
  { destruct fuel; cbn [Valid]; rewrite (mg_parent _ _ _ Hm); cbn [map];
      by rewrite E. }
  do 2 eexists. split; [exact HV|]. rewrite (at_items_invalid _ _ (mg_items _ _ _ M)).
  destruct its' as [|c its'].
  - rewrite bool_decide_true by done. cbn. intros k v Hk%O. destruct Hk as [(c & Hin & _)|[Hin _]]; set_solver.
  - rewrite bool_decide_false by done. cbn [negb]. apply (stands_weaken _ _ (c :: its') []); [|cbn in *; lia|done].
    apply merging_useTxn with (b := true) in M. apply (stands_txn _ _ _ _ []); [done| |done|done|by apply S|by left|set_solver].
    rewrite (Next_run _ _ _ M). by apply merging_txnNext in M.
Qed.

Lemma parent_after (kv : bytes * value) (par : list (bytes * value)) k :
  StronglySorted (λ a b, before r (fst a) (fst b) = true) (kv :: par) → before r k (fst kv) = true ∨ k = fst kv →
  ∀ kv', kv' ∈ par → before r k (fst kv') = true.
Proof.
  intros [_ Hf]%StronglySorted_inv Hk kv' Hin. rewrite Forall_forall in Hf. specialize (Hf _ Hin).
  destruct Hk as [Hk|Hk]; [by eapply before_trans|]. by rewrite Hk.
Qed.
Lemma before_ne k k' : before r k k' = true → k' ≠ k.
Proof. intros Hb ->. by rewrite before_irrefl in Hb. Qed.

(** [Valid] terminates and either stands at the least pair offered or finds
    that there is none. *)
Lemma Valid_spec fuel ti its par :
  (length its + length par <= fuel)%nat → merging ti its par →
  ∃ b ti', Valid fuel ti = Some (b, ti') ∧
    if b : bool then stands_at its par ti' else ∀ k v, ¬ offered its par k v.
Proof.
  revert ti its par. induction fuel as [|fuel IH]; intros ti its par Hl Hm.
  { destruct par as [|kv par]; [|cbn in Hl; lia]. apply Valid_parent_done; [lia|done]. }
  destruct par as [|[pk pv] par]; [apply Valid_parent_done; [lia|done]|].
  destruct (merging_checked _ _ _ Hm) as [Hm' Hi]. pose proof (Next_run _ _ _ Hm') as Hn.
  cbn [Valid]. rewrite (mg_parent _ _ _ Hm). cbn [map fst snd]. rewrite Hi. destruct its as [|c its].
  { rewrite bool_decide_true by done. do 2 eexists. split; [done|]. by apply stands_parent. }
  rewrite bool_decide_false by done. destruct (merging_value _ _ _ _ Hm') as [HV HK].
  rewrite HK, HV, (mg_pp _ _ _ Hm'), (mg_reverse _ _ _ Hm'), removePrefix_app.
  pose proof (compare_spec r (ci_Key c) pk) as Hc. pose proof (mg_psorted _ _ _ Hm) as Hps.
  destruct (compare r (ci_Key c) pk) eqn:Hcmp.
  - (* both *)
    pose proof (parent_after _ _ (ci_Key c) Hps ltac:(right; done)) as Haft.
    destruct (vo_op (val_of c)) eqn:Ho.
    + destruct (IH (txnNext (parentNext (checked ti))) its par) as (b & ti' & E & S); [cbn in Hl; lia| |].
      { apply merging_parentNext in Hm'. by apply merging_txnNext in Hm'. }
      assert (Hof : ∀ k v, offered (c :: its) ((pk, pv) :: par) k v ↔ offered its par k v).
      { intros k v. apply offered_delete_both; [done|done|]. intros kv' Hin. apply before_ne, Haft, Hin. }
      exists b, ti'. split; [done|]. destruct b; [|intros k v; rewrite Hof; apply S].
      apply (stands_weaken _ _ its par); [done|cbn; lia|done].
    + do 2 eexists. split; [done|]. apply merging_useTxn with (b := true) in Hm'.
      apply (stands_txn _ _ _ _ par); [done| |cbn; lia|done|done|right; by exists (pk, pv)|done].
      rewrite (Next_run _ _ _ Hm'). cbn [fst]. rewrite Hcmp.
      apply merging_checked in Hm' as [Hm' _]. apply merging_parentNext in Hm'. by apply merging_txnNext in Hm'.
  - (* the transaction first *)
    pose proof (parent_after _ _ (ci_Key c) Hps ltac:(left; done)) as Haft.
    destruct (vo_op (val_of c)) eqn:Ho.
    + destruct (IH (txnNext (checked ti)) its ((pk, pv) :: par)) as (b & ti' & E & S); [cbn in *; lia| |].
      { by apply merging_txnNext in Hm'. }
      assert (Hof : ∀ k v, offered (c :: its) ((pk, pv) :: par) k v ↔ offered its ((pk, pv) :: par) k v).
      { intros k v. apply offered_delete; [done|]. intros kv' Hin. apply before_ne.
        apply elem_of_cons in Hin as [->|Hin]; [done|by apply Haft]. }
      exists b, ti'. split; [done|]. destruct b; [|intros k v; rewrite Hof; apply S].
      apply (stands_weaken _ _ its ((pk, pv) :: par)); [done|cbn; lia|done].
    + do 2 eexists. split; [done|]. apply merging_useTxn with (b := true) in Hm'.
      apply (stands_txn _ _ _ _ ((pk, pv) :: par)); [done| |done|done|done|by left|].
      * rewrite (Next_run _ _ _ Hm'). cbn [fst]. rewrite Hcmp.
        apply merging_checked in Hm' as [Hm' _]. by apply merging_txnNext in Hm'.
      * intros kv' Hin. apply elem_of_cons in Hin as [->|Hin]; [done|by apply Haft].
  - (* the parent first *)
    do 2 eexists. split; [done|]. apply stands_parent; [done|]. by intros c' [= <-].
Qed.

Lemma drain_spec fuel ti its par :
  (length its + length par < fuel)%nat → merging ti its par →
  ∃ l, drain fuel ti = Some l ∧ StronglySorted (λ a b, before r (fst a) (fst b) = true) l ∧
    ∀ k v, (k, v) ∈ l ↔ offered its par k v.
Proof.
  revert ti its par. induction fuel as [|fuel IH]; intros ti its par Hl Hm; [lia|].
  destruct (Valid_spec (S fuel) ti its par) as (b & ti' & E & S); [lia|done|]. cbn [drain]. rewrite E. destruct b.
  - destruct S as (i2 & p2 & M & L & O & B). destruct (IH (Next ti') i2 p2) as (l & El & Sl & Cl); [lia|done|].
    rewrite El. eexists. split; [done|]. split.
    + constructor; [done|]. apply Forall_forall. intros [k v] Hin%Cl. by eapply B.
    + intros k v. rewrite elem_of_cons, O, Cl. split; [intros [[= -> ->]|?]; auto|intros [[-> ->]|?]; auto].
  - exists []. split_and!; [done|constructor|]. intros k v. split; [set_solver|]. intros Ho. by apply S in Ho.
Qed.
End merge.

(** ** Lemmas: where the iterator starts *)

(** A key the store accepts. *)
Definition valid_key (k : bytes) : Prop := k ≠ [] ∧ (length k <= maxKeyBytes)%nat.
Definition items_with (r : bool) (p : bytes) (t : btree) : list CacheItem :=
  filter (λ c, has_prefix p (ci_Key c) = true) (dir_items r t).

Lemma filter_ext_in {A} (P Q : A → Prop) `{!∀ x, Decision (P x), !∀ x, Decision (Q x)} (l : list A) :
  (∀ x, x ∈ l → (P x ↔ Q x)) → filter P l = filter Q l.
Proof.
  induction l as [|a l IH]; intros He; [done|]. rewrite !filter_cons, IH by (intros; apply He; set_solver).
  pose proof (He a ltac:(set_solver)). destruct (decide (P a)), (decide (Q a)); tauto || done.
Qed.
Lemma filter_none {A} (P : A → Prop) `{!∀ x, Decision (P x)} (l : list A) : (∀ x, x ∈ l → ¬ P x) → filter P l = [].
Proof.
  induction l as [|a l IH]; intros He; [done|]. rewrite filter_cons_False by (apply He; set_solver).
  apply IH. intros. apply He. set_solver.
Qed.
Lemma sorted_split {A} (R : A → A → Prop) (P : A → Prop) `{!∀ x, Decision (P x)} l :
  StronglySorted R l → (∀ a b, a ∈ l → b ∈ l → R a b → P b → P a) → l = filter P l ++ filter (λ x, ¬ P x) l.
Proof.
  induction 1 as [|a l Hs IH Hf]; intros Hd; [done|]. rewrite Forall_forall in Hf. rewrite !filter_cons.
  destruct (decide (P a)) as [Ha|Ha].
  - rewrite decide_False by tauto. rewrite <- app_comm_cons. f_equal. apply IH. intros x y Hx Hy. apply Hd; set_solver.
  - rewrite decide_True by done.
    assert (Hall : ∀ x, x ∈ l → ¬ P x) by (intros x Hx HP; apply Ha, (Hd a x); [set_solver|set_solver|by apply Hf|done]).
    clear -Hall. assert (filter P l = [] ∧ filter (λ x, ¬ P x) l = l) as [-> ->]; [|done].
    induction l as [|x l IH]; [done|]. rewrite filter_cons_False, filter_cons_True by (apply Hall; set_solver).
    destruct IH as [-> ->]; [intros; apply Hall; set_solver|done].
Qed.
Lemma StronglySorted_sub {A} (R : A → A → Prop) (P : A → Prop) `{!∀ x, Decision (P x)} l :
  StronglySorted R l → StronglySorted R (filter P l).
Proof. apply filter_sorted. Qed.

Section start.
Context (t : btree) (Hkeys : ∀ c, c ∈ bt_items t → valid_key (ci_Key c)).

(** The bound the iteration starts from: the prefix, or a key above all of its
    extensions. *)
Definition bound (r : bool) (p : bytes) : bytes := if r then (p ++ endBytes) ++ endBytes else p.
Definition from (r : bool) (p : bytes) : list CacheItem :=
  filter (λ y, before r (ci_Key y) (bound r p) = false) (dir_items r t).

Lemma prefixed_bound r p k : (length k <= maxKeyBytes)%nat → has_prefix p k = true → before r k (bound r p) = false.
Proof.
  intros Hl [x ->]%has_prefix_spec. rewrite length_app in Hl. destruct r; cbn.
  - apply bytes_ltb_asym. rewrite <- app_assoc, bytes_ltb_app. apply below_end. lia.
  - pose proof (bytes_le_lt p (p ++ x)) as Hb. rewrite <- (app_nil_r p) in Hb at 1. rewrite bytes_le_app in Hb.
    cbn in Hb. by destruct (bytes_ltb _ _).
Qed.
(** Beyond the bound, the keys with the prefix come first. *)
Lemma prefixed_first r p a b :
  before r a (bound r p) = false → before r a b = true → has_prefix p b = true → has_prefix p a = true.
Proof.
  intros Ha Hab [x ->]%has_prefix_spec. apply not_false_iff_true. intros Hn.
  destruct (outside_prefix _ _ Hn) as [Ho|Ho]; destruct r; cbn in *.
  - specialize (Ho x). by rewrite (bytes_ltb_asym _ _ Hab) in Ho.
  - specialize (Ho []). rewrite app_nil_r in Ho. congruence.
  - rewrite <- app_assoc in Ha. by rewrite Ho in Ha.
  - specialize (Ho x). by rewrite (bytes_ltb_asym _ _ Hab) in Ho.
Qed.

Lemma from_split r p : ∃ post, from r p = items_with r p t ++ post ∧ ∀ c, head post = Some c → has_prefix p (ci_Key c) = false.
Proof.
  set (P := λ c, has_prefix p (ci_Key c) = true).
  exists (filter (λ c, ¬ P c) (from r p)). split.
  - unfold from at 1. rewrite (sorted_split (λ a b, before r (ci_Key a) (ci_Key b) = true) P) at 1.
    + f_equal. unfold items_with. fold P. rewrite list_filter_filter. apply filter_ext_in.
      intros c Hc. unfold P. split; [tauto|]. intros HP. split; [done|]. apply prefixed_bound; [|done].
      apply Hkeys, (elem_of_dir r), Hc.
    + apply StronglySorted_sub, dir_sorted.
    + intros a b Ha _ Hab. apply list_elem_of_filter in Ha as [Ha _]. by eapply prefixed_first.
  - intros c Hc. apply not_true_iff_false.
    assert (c ∈ filter (λ c, ¬ P c) (from r p)) as [? _]%list_elem_of_filter; [|done].
    destruct (filter _ _); [done|]. injection Hc as ->. set_solver.
Qed.

Lemma standing_from bi r p :
  bi_tree bi = t → bi_reverse bi = r →
  standing (Move (MkCacheItem 0 (if r then prefixEnd p else p) false) bi) (from r p).
Proof.
  intros Ht Hr. assert (Hsuf : ∃ pre, dir_items r t = pre ++ from r p).
  { destruct (sorted_suffix r (dir_items r t) (bound r p) (dir_sorted r t)) as (pre & Hp & _). by exists pre. }
  assert (Hmiss : ∀ k, (∀ c, c ∈ bt_items t → ci_Key c ≠ k) →
      after r k t = filter (λ y, before r (ci_Key y) k = false) (dir_items r t)).
  { intros k Hk. apply filter_ext_in. intros c Hc%elem_of_dir. specialize (Hk c Hc). split; [apply before_asym|].
    intros Hb. destruct (before_total r (ci_Key c) k Hk); congruence. }
  unfold Move. rewrite Ht, bt_Get_find, Hr. cbn [ci_Key].
  destruct (find _ (bt_items t)) as [c|] eqn:Hf.
  - apply find_some in Hf as [Hin Hc]. apply list_elem_of_In in Hin. apply bool_decide_eq_true in Hc.
    split; cbn [bi_current bi_tree bi_reverse set_current]; rewrite ?Ht, ?Hr; [|done]. destruct r.
    + exfalso. destruct (Hkeys c Hin) as [_ Hl]. rewrite Hc in Hl. unfold prefixEnd, endBytes in Hl.
      rewrite length_app, length_replicate in Hl. lia.
    + unfold from, bound, dir_items. destruct (list_elem_of_split _ _ Hin) as (l1 & l2 & Hl).
      pose proof (bt_sorted t) as Hs. rewrite Hl in Hs |- *. apply StronglySorted_app in Hs as (Hs & _).
      rewrite filter_app. assert (filter (λ y, before false (ci_Key y) p = false) l1 = []) as ->.
      { apply filter_none. intros x Hx. cbn. rewrite <- Hc, Hs by set_solver. done. }
      cbn [app]. rewrite filter_cons_True; [done|]. cbn. rewrite Hc. apply bytes_ltb_irrefl.
  - assert (Hno : ∀ c, c ∈ bt_items t → ci_Key c ≠ (if r then prefixEnd p else p)).
    { intros c Hin He. apply list_elem_of_In in Hin. pose proof (find_none _ _ Hf c Hin) as Hb.
      cbn in Hb. by apply bool_decide_eq_false in Hb. }
    destruct r; split; cbn [bi_current bi_tree bi_reverse set_current]; rewrite ?Ht, ?Hr; try done.
    + rewrite prev_after, Hmiss; [done|]. cbn [ci_Key]. intros c Hin He. destruct (Hkeys c Hin) as [_ Hl].
      rewrite He in Hl. unfold endBytes in Hl. rewrite length_app, length_replicate in Hl. lia.
    + by rewrite next_after, Hmiss.
Qed.
End start.

(** ** The overlay a transaction presents *)

(** The keys below a prefix, without it. *)
Definition strip (p : bytes) (m : gmap bytes value) : gmap bytes value :=
  list_to_map (map (λ kv, (removePrefix (fst kv) p, snd kv))
    (filter (λ kv, has_prefix p (fst kv) = true) (map_to_list m))).
(** The operations by their keys. *)
Definition op_map (x : txn) : gmap bytes valueOp :=
  list_to_map (map (λ o, (vo_key o, o)) (map snd (map_to_list (ops x)))).
Definition overlay (o : option valueOp) (v : option value) : option value :=
  match o with
  | Some o => match vo_op o with opSet => Some (vo_value o) | opDelete => None end
  | None => v
  end.
Definition view `{ReaderLaws R} (r : R) (t : Txn) : gmap bytes value :=
  merge overlay (op_map (tx_txn t)) (strip (tx_prefix t) (r_view r)).

(** The operations are stored under the hashes of their keys, and the tree of a
    sorted transaction holds exactly their keys. *)
Record wf_txn (t : Txn) : Prop := {
  wt_ops : map_Forall (λ h o, h = MemHash (vo_key o) ∧ valid_key (vo_key o)) (ops (tx_txn t));
  wt_items : ∀ c, c ∈ bt_items (sorted (tx_txn t)) ↔
    tx_sort t = true ∧ ∃ o, ops (tx_txn t) !! MemHash (vo_key o) = Some o ∧ c = MkCacheItem (MemHash (vo_key o)) (vo_key o) true;
}.
(** No other key of the transaction has the hash of [k]. *)
Definition collision_free (t : Txn) (k : bytes) : Prop :=
  ∀ o, ops (tx_txn t) !! MemHash k = Some o → vo_key o = k.

Lemma lookup_strip p m k : strip p m !! k = m !! (p ++ k).
Proof.
  unfold strip. destruct (m !! (p ++ k)) as [v|] eqn:Hm.
  - apply elem_of_list_to_map_1'.
    + intros y Hy. apply list_elem_of_fmap in Hy as ([k' v'] & [= -> ->] & Hin).
      apply list_elem_of_filter in Hin as [[x Hx]%has_prefix_spec Hin]. cbn in *. subst. rewrite removePrefix_app in Hm.
      apply elem_of_map_to_list in Hin. congruence.
    + apply list_elem_of_fmap. exists (p ++ k, v). cbn. rewrite removePrefix_app. split; [done|].
      apply list_elem_of_filter. split; [apply has_prefix_spec; eauto|by apply elem_of_map_to_list].
  - apply not_elem_of_list_to_map_1. intros Hin. apply list_elem_of_fmap in Hin as ([k' v'] & -> & Hin).
    apply list_elem_of_fmap in Hin as ([k2 v2] & [= -> ->] & Hin).
    apply list_elem_of_filter in Hin as [[x Hx]%has_prefix_spec Hin]. cbn in *. subst. rewrite removePrefix_app in Hm.
    apply elem_of_map_to_list in Hin. congruence.
Qed.
Lemma lookup_op_map t k o :
  wf_txn t → op_map (tx_txn t) !! k = Some o ↔ ops (tx_txn t) !! MemHash k = Some o ∧ vo_key o = k.
Proof.
  intros [W _]. unfold op_map. split.
  - intros Hl. apply elem_of_list_to_map_2 in Hl. apply list_elem_of_fmap in Hl as (o' & [= -> ->] & Hin).
    apply list_elem_of_fmap in Hin as ([h o''] & -> & Hin). apply elem_of_map_to_list in Hin. cbn.
    by destruct (W _ _ Hin) as [-> _].
  - intros [Ho <-]. apply elem_of_list_to_map_1'.
    + intros o' Hin. apply list_elem_of_fmap in Hin as (o2 & [= Hk ->] & Hin).
      apply list_elem_of_fmap in Hin as ([h o''] & -> & Hin). apply elem_of_map_to_list in Hin. cbn in *.
      destruct (W _ _ Hin) as [-> _]. rewrite <- Hk in Hin. congruence.
    + apply list_elem_of_fmap. exists o. split; [done|]. apply list_elem_of_fmap. exists (MemHash (vo_key o), o).
      split; [done|]. by apply elem_of_map_to_list.
Qed.
Lemma lookup_op_map_free t k :
  wf_txn t → collision_free t k → op_map (tx_txn t) !! k = ops (tx_txn t) !! MemHash k.
Proof.
  intros Hw Hc. destruct (ops (tx_txn t) !! MemHash k) as [o|] eqn:Ho.
  - apply lookup_op_map; [done|]. split; [done|by apply Hc].
  - destruct (op_map (tx_txn t) !! k) as [o|] eqn:Hk; [|done]. apply lookup_op_map in Hk as [? _]; [congruence|done].
Qed.
Lemma lookup_view `{ReaderLaws R} (r : R) t k :
  view r t !! k = overlay (op_map (tx_txn t) !! k) (r_view r !! (tx_prefix t ++ k)).
Proof. unfold view. rewrite lookup_merge, lookup_strip. by destruct (op_map _ !! k), (r_view r !! _). Qed.

(** *** Listings *)

Lemma listing_elem m p r k v : (k, v) ∈ listing m p r ↔ m !! k = Some v ∧ has_prefix p k = true.
Proof.
  unfold listing. assert (Hin : (k, v) ∈ sorted_by (λ a b, bytes_le (fst a) (fst b))
      (filter (λ kv, has_prefix p (fst kv) = true) (map_to_list m)) ↔ m !! k = Some v ∧ has_prefix p k = true).
  { rewrite elem_of_sorted_by, list_elem_of_filter, elem_of_map_to_list. tauto. }
  destruct r; [rewrite elem_of_rev|]; exact Hin.
Qed.
Lemma sorted_by_keys {A} (l : list (bytes * A)) :
  NoDup l.*1 →
  StronglySorted (λ a b, bytes_ltb (fst a) (fst b) = true) (sorted_by (λ a b, bytes_le (fst a) (fst b)) l).
Proof.
  intros Hnd. assert (Hle : StronglySorted (λ a b : bytes * A, bytes_le (fst a) (fst b) = true)
    (sorted_by (λ a b, bytes_le (fst a) (fst b)) l)).
  { apply sorted_by_Sorted; [intros; apply bytes_le_total|intros a b c; apply bytes_le_trans]. }
  rewrite <- (sorted_by_perm (λ a b, bytes_le (fst a) (fst b))) in Hnd. revert Hnd Hle.
  generalize (sorted_by (λ a b : bytes * A, bytes_le (fst a) (fst b)) l). clear l. intros l Hnd Hle.
  induction Hle as [|a l Hs IH Hf]; constructor; cbn in Hnd; apply NoDup_cons in Hnd as [Hn Hnd].
  - by apply IH.
  - rewrite Forall_forall in *. intros x Hx. apply bytes_ltb_spec.
    split; [by apply Hf|]. intros He. apply Hn. rewrite He. apply list_elem_of_fmap. eauto.
Qed.
Lemma listing_sorted m p r : StronglySorted (λ a b, before r (fst a) (fst b) = true) (listing m p r).
Proof.
  assert (Hs : StronglySorted (λ a b, bytes_ltb (fst a) (fst b) = true) (listing m p false)).
  { apply sorted_by_keys. eapply sublist_NoDup; [|apply (fmap_sublist fst), sublist_filter]. apply NoDup_fst_map_to_list. }
  destruct r; [|exact Hs]. apply (StronglySorted_rev _ _ Hs).
Qed.
(** A strictly ordered list of pairs is determined by its elements. *)
Lemma pairs_unique r (l1 l2 : list (bytes * value)) :
  StronglySorted (λ a b, before r (fst a) (fst b) = true) l1 → StronglySorted (λ a b, before r (fst a) (fst b) = true) l2 →
  (∀ x, x ∈ l1 ↔ x ∈ l2) → l1 = l2.
Proof.
  assert (Hnd : ∀ l : list (bytes * value), StronglySorted (λ a b, before r (fst a) (fst b) = true) l → NoDup l).
  { induction 1 as [|a l Hs IH Hf]; constructor; [|done]. intros Hin. rewrite Forall_forall in Hf. specialize (Hf _ Hin).
    cbn in Hf. by rewrite before_irrefl in Hf. }
  intros H1' H2' He. apply (StronglySorted_unique_strong (λ a b, before r (fst a) (fst b) = true)); [|done|done|].
  - intros x y _ _ Hxy Hyx. cbn in *. by rewrite (before_asym _ _ _ Hxy) in Hyx.
  - apply NoDup_Permutation; auto.
Qed.
Lemma listing_strip p m q r :
  listing m (p ++ q) r = map (λ kv, (p ++ fst kv, snd kv)) (listing (strip p m) q r).
Proof.
  apply (pairs_unique r); [apply listing_sorted| |].
  - pose proof (listing_sorted (strip p m) q r) as Hs. induction Hs as [|a l Hs IH Hf]; cbn; [constructor|].
    constructor; [done|]. rewrite Forall_forall in *. intros x Hx. apply list_elem_of_fmap in Hx as (y & -> & Hy).
    specialize (Hf y Hy). cbn. unfold before in *. destruct r; by rewrite bytes_ltb_app.
  - intros [k v]. rewrite listing_elem, has_prefix_spec. rewrite list_elem_of_fmap. split.
    + intros [Hk [x ->]]. exists (q ++ x, v). cbn. rewrite <- app_assoc in *. split; [done|]. apply listing_elem.
      rewrite lookup_strip. split; [done|]. apply has_prefix_spec. eauto.
    + intros ([k' v'] & [= -> ->] & Hin). apply listing_elem in Hin as [Hl [x ->]%has_prefix_spec].
      rewrite lookup_strip in Hl. split; [done|]. exists x. by rewrite app_assoc.
Qed.

(** *** Reading through a transaction *)

Lemma wf_items_keys t c : wf_txn t → c ∈ bt_items (sorted (tx_txn t)) → valid_key (ci_Key c).
Proof. intros [W1 W2] (_ & o & Ho & ->)%W2. exact (proj2 (W1 _ _ Ho)). Qed.
Lemma wf_item_op t c :
  wf_txn t → c ∈ bt_items (sorted (tx_txn t)) →
  op_map (tx_txn t) !! ci_Key c = Some (val_of (tx_txn t) c).
Proof.
  intros Hw Hc. pose proof Hw as [_ W2]. apply W2 in Hc as (_ & o & Ho & ->). apply lookup_op_map; [done|].
  unfold val_of. cbn. by rewrite Ho.
Qed.
Lemma op_item t k o :
  wf_txn t → tx_sort t = true → op_map (tx_txn t) !! k = Some o → ∃ c, c ∈ bt_items (sorted (tx_txn t)) ∧ ci_Key c = k.
Proof.
  intros Hw Hs Ho. apply lookup_op_map in Ho as [Ho <-]; [|done]. exists (MkCacheItem (MemHash (vo_key o)) (vo_key o) true).
  split; [|done]. apply (wt_items _ Hw). split; [done|]. by exists o.
Qed.
Lemma items_bound t p r : wf_txn t → (length (items_with r p (sorted (tx_txn t))) <= size (ops (tx_txn t)))%nat.
Proof.
  intros Hw. etrans; [apply length_filter|]. unfold dir_items. rewrite <- length_map_to_list.
  assert (Hl : (length (bt_items (sorted (tx_txn t))) <= length (map_to_list (ops (tx_txn t))))%nat).
  { rewrite <- (length_map HashedKey (bt_items _)), <- (length_map fst (map_to_list _)).
    apply submseteq_length, NoDup_submseteq.
    - apply NoDup_fmap_2_strong.
      + intros c1 c2 Hc1 Hc2 He. apply (wt_items _ Hw) in Hc1 as (_ & o1 & Ho1 & ->), Hc2 as (_ & o2 & Ho2 & ->).
        cbn in He. rewrite He in Ho1. congruence.
      + pose proof (bt_sorted (sorted (tx_txn t))) as Hs. induction Hs as [|a l Hs IH Hf]; constructor; [|done].
        intros Hin. rewrite Forall_forall in Hf. specialize (Hf _ Hin). by rewrite bytes_ltb_irrefl in Hf.
    - intros h Hin. apply list_elem_of_fmap in Hin as (c & -> & Hc). apply (wt_items _ Hw) in Hc as (_ & o & Ho & ->).
      apply list_elem_of_fmap. exists (MemHash (vo_key o), o). split; [done|]. by apply elem_of_map_to_list. }
  destruct r; [rewrite length_rev|]; exact Hl.
Qed.

Section reading.
Context `{ReaderLaws R}.

Lemma NewIterator_merging (r : R) t p rev :
  r_ok r → wf_txn t →
  merging (tx_txn t) (tx_prefix t) rev (NewIterator r t p rev)
    (items_with rev p (sorted (tx_txn t))) (listing (strip (tx_prefix t) (r_view r)) p rev).
Proof.
  intros Hr Hw. pose proof (wf_items_keys t) as Hk.
  assert (Hkeys : ∀ c, c ∈ bt_items (sorted (tx_txn t)) → valid_key (ci_Key c)) by (intros; by apply Hk).
  set (bi := NewBTreeIterator (sorted (tx_txn t)) (MkCacheItem 0 p false) rev).
  assert (Hbi : bi_tree bi = sorted (tx_txn t) ∧ bi_reverse bi = rev).
  { subst bi. unfold NewBTreeIterator, Move. case_bool_decide; [done|]. case_match; [done|]. by destruct rev. }
  destruct Hbi as [Hb1 Hb2]. pose proof (standing_from _ Hkeys bi rev p Hb1 Hb2) as Hst.
  destruct (from_split _ Hkeys rev p) as (post & Hfrom & Hpost). rewrite Hfrom in Hst.
  set (tree := Move (MkCacheItem 0 (if rev then prefixEnd p else p) false) bi) in Hst.
  assert (HN : NewIterator r t p rev = MkTxnIterator (r_NewIterator r (tx_prefix t ++ p) rev) tree (tx_txn t) p (tx_prefix t) rev false false)
    by done.
  assert (Htree : bi_reverse tree = rev) by (rewrite <- Hb2; subst tree; unfold Move; by repeat case_match).
  clearbody tree. rewrite HN.
  split; cbn [ti_parent ti_txn ti_parentPrefix ti_reverse]; [|rewrite r_NewIterator_view by done; apply listing_strip|done|done|done| |apply listing_sorted].
  - split; cbn [ti_tree ti_reverse ti_invalid ti_prefix]; [done|done|by exists post|].
    apply Forall_forall. intros c Hc. apply list_elem_of_filter in Hc as [Hp Hc]. split; [done|].
    apply Hkeys, (elem_of_dir rev), Hc.
  - apply filter_sorted, dir_sorted.
Qed.

Lemma offered_view (r : R) t p rev k v :
  wf_txn t → tx_sort t = true →
  offered (tx_txn t) (items_with rev p (sorted (tx_txn t))) (listing (strip (tx_prefix t) (r_view r)) p rev) k v
  ↔ view r t !! k = Some v ∧ has_prefix p k = true.
Proof.
  intros Hw Hs. rewrite lookup_view. unfold offered. rewrite listing_elem, lookup_strip.
  assert (Hin : ∀ c, c ∈ items_with rev p (sorted (tx_txn t)) ↔ has_prefix p (ci_Key c) = true ∧ c ∈ bt_items (sorted (tx_txn t))).
  { intros c. unfold items_with. by rewrite list_elem_of_filter, elem_of_dir. }
  split.
  - intros [(c & [Hp Hc]%Hin & <- & Ho & <-)|[[Hk Hp] Hn]].
    + rewrite (wf_item_op _ _ Hw Hc). cbn. by rewrite Ho.
    + split; [|done]. destruct (op_map (tx_txn t) !! k) as [o|] eqn:Ho; [|done].
      destruct (op_item _ _ _ Hw Hs Ho) as (c & Hc & <-). destruct Hn. apply list_elem_of_fmap. exists c.
      split; [done|]. by apply Hin.
  - intros [Hv Hp]. destruct (op_map (tx_txn t) !! k) as [o|] eqn:Ho.
    + left. destruct (op_item _ _ _ Hw Hs Ho) as (c & Hc & <-). rewrite (wf_item_op _ _ Hw Hc) in Ho. injection Ho as Ho.
      cbn in Hv. exists c. rewrite Ho. destruct (vo_op o) eqn:Hop; [done|]. injection Hv as Hv. split_and!; [by apply Hin|done..].
    + right. split; [done|]. intros Hm. apply list_elem_of_fmap in Hm as (c & -> & [_ Hc]%Hin).
      by rewrite (wf_item_op _ _ Hw Hc) in Ho.
Qed.

Lemma drain_view (r : R) t p rev fuel :
  r_ok r → wf_txn t → tx_sort t = true →
  (size (ops (tx_txn t)) + length (r_NewIterator r (tx_prefix t ++ p) rev) < fuel)%nat →
  drain fuel (NewIterator r t p rev) = Some (listing (view r t) p rev).
Proof.
  intros Hr Hw Hs Hf. pose proof (items_bound t p rev Hw) as Hib.
  rewrite r_NewIterator_view, listing_strip, length_map in Hf by done.
  destruct (drain_spec (tx_txn t) (tx_prefix t) rev fuel (NewIterator r t p rev) (items_with rev p (sorted (tx_txn t)))
    (listing (strip (tx_prefix t) (r_view r)) p rev)) as (l & -> & Hso & Hl); [lia|by apply NewIterator_merging|].
  f_equal. apply (pairs_unique rev); [done|apply listing_sorted|]. intros [k v].
  rewrite Hl, listing_elem. by apply offered_view.
Qed.
Lemma Get_view (r : R) t k :
  r_ok r → r_known r (tx_prefix t ++ k) → wf_txn t → collision_free t k → Get r t k = default None (view r t !! k).
Proof.
  intros Hr Hn Hw Hc. rewrite lookup_view, (lookup_op_map_free _ _ Hw Hc). unfold Get.
  destruct (ops (tx_txn t) !! MemHash k) as [o|]; cbn; [by destruct (vo_op o)|]. by apply r_Get_view.
Qed.
End reading.

(** *** Writing to a transaction *)

Lemma lookup_op_map_eq t k :
  wf_txn t → op_map (tx_txn t) !! k =
    match ops (tx_txn t) !! MemHash k with Some o => if decide (vo_key o = k) then Some o else None | None => None end.
Proof.
  intros Hw. apply option_eq. intros o. rewrite lookup_op_map by done. destruct (ops (tx_txn t) !! MemHash k) as [o'|];
    [|naive_solver]. case_decide; naive_solver.
Qed.
Lemma update_wf k v ver o t :
  wf_txn t → valid_key k → collision_free t k →
  wf_txn (update k v ver o t) ∧ op_map (tx_txn (update k v ver o t)) = <[k := MkValueOp k v ver o]> (op_map (tx_txn t)).
Proof.
  intros Hw Hk Hc. pose proof Hw as [W1 W2]. set (t' := update k v ver o t).
  assert (Hops : ops (tx_txn t') = <[MemHash k := MkValueOp k v ver o]> (ops (tx_txn t))).
  { subst t'. unfold update. cbn. by destruct (negb _ && _). }
  assert (Hw' : wf_txn t').
  { split.
    - rewrite Hops. by apply map_Forall_insert_2.
    - intros c. change (tx_sort t') with (tx_sort t). rewrite Hops.
      assert (Hit : c ∈ bt_items (sorted (tx_txn t')) ↔
          (tx_sort t = true ∧ c = MkCacheItem (MemHash k) k true) ∨ (c ∈ bt_items (sorted (tx_txn t)) ∧ ci_Key c ≠ k)).
      { subst t'. unfold update. cbn. destruct (ops (tx_txn t) !! MemHash k) as [o'|] eqn:Ho; cbn [negb andb].
        - pose proof (Hc _ Ho) as Ho'. split.
          + intros Hin. pose proof Hin as (Hs & o2 & Ho2 & ->)%W2. cbn. destruct (decide (vo_key o2 = k)) as [->|]; [by left|by right].
          + intros [[Hs ->]|[? _]]; [|done]. apply W2. split; [done|]. exists o'. by rewrite Ho'.
        - destruct (tx_sort t); cbn.
          + rewrite bt_insert. naive_solver.
          + split; [|naive_solver]. intros Hin. right. split; [done|]. by apply W2 in Hin as [? _]. }
      rewrite Hit, W2. split.
      + intros [[Hs ->]|[(Hs & o' & Ho' & ->) Hne]]; (split; [done|]).
        * exists (MkValueOp k v ver o). cbn. by rewrite lookup_insert_eq.
        * exists o'. split; [|done]. cbn in Hne. rewrite lookup_insert_ne; [done|]. intros He. apply Hne, Hc. by rewrite He.
      + intros (Hs & o' & Ho' & ->). destruct (decide (vo_key o' = k)) as [->|Hne]; [by left|right]. cbn.
        split; [|done]. split; [done|]. exists o'. split; [|done]. rewrite lookup_insert_ne in Ho'; [done|].
        intros He. rewrite He, lookup_insert_eq in Ho'. injection Ho' as <-. by cbn in Hne. }
  split; [done|]. apply map_eq. intros j. rewrite lookup_op_map_eq by done. rewrite Hops.
  destruct (decide (j = k)) as [->|Hj].
  - rewrite !lookup_insert_eq. cbn. by rewrite decide_True.
  - rewrite (lookup_insert_ne (op_map _)), lookup_op_map_eq by done. destruct (decide (MemHash k = MemHash j)) as [He|].
    + rewrite <- He, lookup_insert_eq. cbn. rewrite decide_False by done.
      destruct (ops (tx_txn t) !! MemHash k) as [o'|] eqn:Ho; [|done]. rewrite (Hc _ Ho). by rewrite decide_False.
    + by rewrite lookup_insert_ne.
Qed.

(** ** A transaction is itself a reader and a writer *)

#[export] Instance Txn_reader `{TxnReader R} : TxnReader (R * Txn) := {|
  r_Get := λ rt k, Get (fst rt) (snd rt) k;
  r_NewIterator := λ rt p rev,
    let n := length (r_NewIterator (fst rt) (tx_prefix (snd rt) ++ p) rev) in
    default [] (drain (S (size (ops (tx_txn (snd rt))) + n)) (NewIterator (fst rt) (snd rt) p rev));
|}.
#[export] Instance Txn_writer : TxnWriter Txn := {|
  w_SetAt := λ k v version t, Ok (SetAt k v version t);
  w_DeleteAt := λ k version t, Ok (DeleteAt k version t);
|}.
(** A sorted transaction over a lawful reader is a lawful reader again. *)
#[export] Program Instance Txn_reader_laws `{ReaderLaws R} : ReaderLaws (R * Txn) := {|
  r_view := λ rt, view (fst rt) (snd rt);
  r_ok := λ rt, r_ok (fst rt) ∧ wf_txn (snd rt) ∧ tx_sort (snd rt) = true;
  r_known := λ rt k, r_known (fst rt) (tx_prefix (snd rt) ++ k) ∧ collision_free (snd rt) k;
|}.
Next Obligation. intros ??? [r t] k (Hr & Hw & _) [Hn Hc]. by apply Get_view. Qed.
Next Obligation.
  intros ??? [r t] p rev (Hr & Hw & Hs). cbn [r_NewIterator Txn_reader fst snd].
  by rewrite (drain_view r t p rev) by (done || lia).
Qed.

(** *** Flushing into a parent transaction *)

Definition latest (l : list valueOp) : gmap bytes valueOp := list_to_map (map (λ o, (vo_key o, o)) l).
Lemma write_update version o (t : Txn) :
  write [] version o t = Ok (update (vo_key o) (match vo_op o with opSet => vo_value o | opDelete => None end) version (vo_op o) t).
Proof. unfold write. by destruct (vo_op o). Qed.

Lemma flush_into version l t :
  wf_txn t → Forall (λ o, valid_key (vo_key o) ∧ collision_free t (vo_key o)) l → NoDup (map (λ o, MemHash (vo_key o)) l) →
  ∃ t', flush [] version l t = Ok t' ∧ wf_txn t' ∧ tx_sort t' = tx_sort t ∧ tx_prefix t' = tx_prefix t ∧
    ∀ k v, overlay (op_map (tx_txn t') !! k) v = overlay (latest l !! k) (overlay (op_map (tx_txn t) !! k) v).
Proof.
  revert t. induction l as [|o l IH]; intros t Hw Hl Hnd; cbn [flush].
  { exists t. split_and!; try done. }
  apply Forall_cons in Hl as [[Hv Hc] Hl]. cbn [map] in Hnd. apply NoDup_cons in Hnd as [Hn Hnd].
  rewrite write_update. set (v0 := match vo_op o with opSet => _ | opDelete => None end).
  destruct (update_wf (vo_key o) v0 version (vo_op o) t Hw Hv Hc) as [Hw1 Hm1].
  set (t1 := update _ _ _ _ _) in *.
  assert (Hops : ops (tx_txn t1) = <[MemHash (vo_key o) := MkValueOp (vo_key o) v0 version (vo_op o)]> (ops (tx_txn t))).
  { subst t1. unfold update. cbn. by destruct (negb _ && _). }
  destruct (IH t1) as (t' & E & W & S & P & O); [done| |done|].
  { rewrite Forall_forall in Hl |- *. intros o' Ho'. destruct (Hl o' Ho') as [? Hc']. split; [done|].
    intros o2. rewrite Hops, lookup_insert_ne; [apply Hc'|]. intros He. apply Hn. rewrite He. apply list_elem_of_fmap. eauto. }
  exists t'. cbn. split_and!; [exact E|done|exact S|exact P|]. intros k v. rewrite O, Hm1. unfold latest. cbn [map list_to_map fst snd].
  fold (latest l). destruct (decide (k = vo_key o)) as [->|Hne].
  - rewrite !lookup_insert_eq. assert (latest l !! vo_key o = None) as ->.
    { apply not_elem_of_list_to_map_1. intros Hin. apply list_elem_of_fmap in Hin as (kv & Hk & Hin).
      apply list_elem_of_fmap in Hin as (o' & -> & Hin). cbn in Hk. apply Hn. rewrite Hk. apply list_elem_of_fmap. eauto. }
    subst v0. cbn. by destruct (vo_op o).
  - by rewrite !lookup_insert_ne.
Qed.
Lemma latest_perm t l : wf_txn t → l ≡ₚ map snd (map_to_list (ops (tx_txn t))) →
  latest l = op_map (tx_txn t) ∧ NoDup (map (λ o, MemHash (vo_key o)) l) ∧ Forall (λ o, valid_key (vo_key o)) l.
Proof.
  intros [W _] Hp.
  assert (Hh : map (λ o, MemHash (vo_key o)) (map snd (map_to_list (ops (tx_txn t)))) = map fst (map_to_list (ops (tx_txn t)))).
  { rewrite map_map. apply map_ext_in. intros [h o] Hin. apply list_elem_of_In, elem_of_map_to_list in Hin.
    destruct (W _ _ Hin) as [He _]. cbn in *. congruence. }
  assert (Hnd : NoDup (map (λ o, MemHash (vo_key o)) l)).
  { change (NoDup ((λ o, MemHash (vo_key o)) <$> l)). rewrite Hp. change (NoDup (map (λ o, MemHash (vo_key o)) (map snd (map_to_list (ops (tx_txn t)))))).
    rewrite Hh. apply NoDup_fst_map_to_list. }
  split_and!; [|done|].
  - unfold latest, op_map. apply list_to_map_proper; [|by rewrite Hp].
    rewrite <- list_fmap_compose. apply (NoDup_fmap_1 MemHash). rewrite <- list_fmap_compose. exact Hnd.
  - rewrite Hp. apply Forall_forall. intros o Hin. apply list_elem_of_fmap in Hin as ([h o'] & -> & Hin).
    apply elem_of_map_to_list in Hin. exact (proj2 (W _ _ Hin)).
Qed.

(** ** The abstract store: a finite map *)

Inductive txn_op : Type :=
  | DoSet (k : bytes) (v : value) | DoDelete (k : bytes)
  | DoSetAt (k : bytes) (v : value) (version : Z) | DoDeleteAt (k : bytes) (version : Z) | DoDiscard.
Definition run_op (t : Txn) (o : txn_op) : Txn :=
  match o with
  | DoSet k v => Set_ k v t | DoDelete k => Delete k t
  | DoSetAt k v version => SetAt k v version t | DoDeleteAt k version => DeleteAt k version t
  | DoDiscard => Discard t
  end.
Definition spec_op (base m : gmap bytes value) (o : txn_op) : gmap bytes value :=
  match o with
  | DoSet k v | DoSetAt k v _ => <[k := v]> m
  | DoDelete k | DoDeleteAt k _ => delete k m
  | DoDiscard => base
  end.
Definition op_keys (o : txn_op) : list bytes :=
  match o with DoSet k _ | DoDelete k | DoSetAt k _ _ | DoDeleteAt k _ => [k] | DoDiscard => [] end.
(** No two of the keys share their hash. *)
Definition hash_free (ks : list bytes) : Prop := ∀ k1 k2, k1 ∈ ks → k2 ∈ ks → MemHash k1 = MemHash k2 → k1 = k2.
Definition over (base : gmap bytes value) (t : Txn) : gmap bytes value := merge overlay (op_map (tx_txn t)) base.
(** A transaction whose operations are on some of the keys shows the map [m]. *)
Record shows (base : gmap bytes value) (ks : list bytes) (p : bytes) (sort : bool) (t : Txn) (m : gmap bytes value) : Prop := {
  sh_wf : wf_txn t;
  sh_keys : map_Forall (λ _ o, vo_key o ∈ ks) (ops (tx_txn t));
  sh_prefix : tx_prefix t = p;
  sh_sort : tx_sort t = sort;
  sh_map : over base t = m;
}.

Lemma lookup_over base t k : over base t !! k = overlay (op_map (tx_txn t) !! k) (base !! k).
Proof. unfold over. rewrite lookup_merge. by destruct (op_map _ !! k), (base !! k). Qed.
Lemma ops_update k v ver o t :
  ops (tx_txn (update k v ver o t)) = <[MemHash k := MkValueOp k v ver o]> (ops (tx_txn t)).
Proof. unfold update. cbn. by destruct (negb _ && _). Qed.
Lemma shows_collision base ks p b t m k : shows base ks p b t m → hash_free ks → k ∈ ks → collision_free t k.
Proof.
  intros [[W _] Hks _ _ _] Hf Hin o Ho. apply Hf; [by apply (Hks _ _ Ho)|done|]. by destruct (W _ _ Ho) as [<- _].
Qed.
Lemma shows_empty base ks p b st ver : shows base ks p b (MkTxn p st b ver (MkTxn_ ∅ NewG)) base.
Proof.
  split; cbn; [|by apply map_Forall_empty|done|done|].
  - split; cbn; [by apply map_Forall_empty|]. intros c. rewrite bt_NewG. split; [by intros ?%elem_of_nil|].
    intros (_ & o & Ho & _). by rewrite lookup_empty in Ho.
  - apply map_eq. intros k. rewrite lookup_over. cbn. unfold op_map. cbn. by rewrite map_to_list_empty.
Qed.
Lemma shows_update base ks p b t m k v ver o :
  shows base ks p b t m → hash_free ks → k ∈ ks → valid_key k →
  shows base ks p b (update k v ver o t) (match o with opSet => <[k := v]> m | opDelete => delete k m end).
Proof.
  intros Hsh Hf Hin Hv. pose proof (shows_collision _ _ _ _ _ _ _ Hsh Hf Hin) as Hc.
  destruct Hsh as [Hw Hks <- <- <-]. destruct (update_wf k v ver o t Hw Hv Hc) as [Hw' Hm]. split; [done| |done|done|].
  - rewrite ops_update. by apply map_Forall_insert_2.
  - apply map_eq. intros k'. rewrite lookup_over, Hm. destruct (decide (k = k')) as [<-|Hne].
    + rewrite lookup_insert_eq. cbn. destruct o; [by rewrite lookup_delete_eq|by rewrite lookup_insert_eq].
    + rewrite lookup_insert_ne by done.
      destruct o; [rewrite lookup_delete_ne by done|rewrite lookup_insert_ne by done]; by rewrite lookup_over.
Qed.
(** Forward simulation: every operation acts on the map it shows. *)
Lemma shows_step base ks p b t m o :
  hash_free ks → Forall (λ k, k ∈ ks ∧ valid_key k) (op_keys o) → shows base ks p b t m →
  shows base ks p b (run_op t o) (spec_op base m o).
Proof.
  intros Hf Hk Hsh. destruct o; cbn [op_keys] in Hk; try (apply Forall_singleton in Hk as [Hin Hv]);
    cbn [run_op spec_op]; unfold Set_, Delete, SetAt, DeleteAt.
  1, 3: by apply (shows_update _ _ _ _ _ _ _ _ _ opSet).
  1, 2: by apply (shows_update _ _ _ _ _ _ _ _ _ opDelete).
  destruct Hsh as [_ _ <- <- _]. apply shows_empty.
Qed.
Lemma shows_run base ks p b l t m :
  hash_free ks → Forall (λ o, Forall (λ k, k ∈ ks ∧ valid_key k) (op_keys o)) l → shows base ks p b t m →
  shows base ks p b (fold_left run_op l t) (fold_left (spec_op base) l m).
Proof.
  intros Hf Hl. revert t m. induction Hl as [|o l Ho _ IH]; intros t m Hsh; [done|]. cbn. apply IH. by apply shows_step.
Qed.

(** C29. A sorted transaction over a reader implements a finite map: after any
    sequence of [Set], [Delete], [SetAt], [DeleteAt] and [Discard] on non-empty
    keys of at most [maxKeyBytes] bytes whose memory hashes do not collide,
    [Get] answers from the map that the same operations make of the reader's
    contents under the transaction's prefix, and an iterator over any prefix, in
    either direction, terminates and offers exactly that map's pairs in key
    order, the merged walk of operations and parent notwithstanding. *)
Theorem Txn_refines_overlay `{ReaderLaws R} (r : R) prefix state version (l : list txn_op) (ks : list bytes) :
  r_ok r → hash_free ks → Forall (λ o, Forall (λ k, k ∈ ks ∧ valid_key k) (op_keys o)) l →
  let t := fold_left run_op l (NewTxn prefix state true version) in
  let base := strip prefix (r_view r) in
  let m := fold_left (spec_op base) l base in
  (∀ k, k ∈ ks → r_known r (prefix ++ k) → Get r t k = default None (m !! k)) ∧
  (∀ q reverse fuel, (size (ops (tx_txn t)) + length (r_NewIterator r (prefix ++ q) reverse) < fuel)%nat →
    drain fuel (NewIterator r t q reverse) = Some (listing m q reverse)).
Proof.
  intros Hr Hf Hl t base m.
  assert (Hsh : shows base ks prefix true t m) by (apply shows_run; [done..|apply shows_empty]).
  pose proof Hsh as [Hw _ Hp Hs Hm]. assert (Hv : view r t = m) by (unfold view; rewrite Hp; exact Hm). split.
  - intros k Hk Hn. rewrite <- Hv. apply Get_view; [done|by rewrite Hp|done|by eapply shows_collision].
  - intros q reverse fuel Hfuel. rewrite <- Hv. apply drain_view; [done..|by rewrite Hp].
Qed.

End iter.

(** ** Parameters that can be computed with *)

(** A tree kept as a finite map, a hash that is the key read as a number, and a
    reader that is a finite map. *)
Definition to_item (kv : bytes * (Z * bool)) : CacheItem := MkCacheItem (fst (snd kv)) (fst kv) (snd (snd kv)).
Definition map_items (t : gmap bytes (Z * bool)) : list CacheItem :=
  map to_item (sorted_by (λ a b, bytes_le (fst a) (fst b)) (map_to_list t)).
#[export] Instance map_btree : BTree := {|
  btree := gmap bytes (Z * bool);
  NewG := ∅;
  ReplaceOrInsert c t := <[ci_Key c := (HashedKey c, Exists_ c)]> t;
  bt_Get t x := find (λ y, bool_decide (ci_Key y = ci_Key x)) (map_items t);
  bt_Min t := head (map_items t);
  bt_Max t := last (map_items t);
  AscendGreaterOrEqual t x := filter (λ y, bytes_le (ci_Key x) (ci_Key y) = true) (map_items t);
  DescendLessOrEqual t x := reverse (filter (λ y, bytes_le (ci_Key y) (ci_Key x) = true) (map_items t));
|}.
Lemma elem_of_map_items t y : y ∈ map_items t ↔ t !! ci_Key y = Some (HashedKey y, Exists_ y).
Proof.
  unfold map_items. rewrite list_elem_of_fmap. split.
  - intros ([k [h b]] & -> & Hin). rewrite elem_of_sorted_by, elem_of_map_to_list in Hin. done.
  - intros Hl. exists (ci_Key y, (HashedKey y, Exists_ y)). split; [by destruct y|].
    by rewrite elem_of_sorted_by, elem_of_map_to_list.
Qed.
Lemma to_item_sorted l :
  StronglySorted (λ a b, bytes_ltb (fst a) (fst b) = true) l →
  StronglySorted (λ a b, bytes_ltb (ci_Key a) (ci_Key b) = true) (map to_item l).
Proof.
  induction 1 as [|a l Hs IH Hf]; cbn; constructor; [done|]. apply Forall_forall. intros y Hy.
  apply list_elem_of_fmap in Hy as (x & -> & Hx). rewrite Forall_forall in Hf. exact (Hf x Hx).
Qed.
#[export] Program Instance map_btree_laws : BTreeLaws := {| bt_items := map_items |}.
Next Obligation. intros t. apply to_item_sorted, sorted_by_keys, NoDup_fst_map_to_list. Qed.
Next Obligation. done. Qed.
Next Obligation.
  intros x t y. rewrite !elem_of_map_items. cbn. destruct (decide (ci_Key y = ci_Key x)) as [He|He].
  - rewrite He, lookup_insert_eq. split; [intros [= ? ?]; left; destruct x, y; cbn in *; congruence|].
    intros [->|[_ ?]]; done.
  - rewrite lookup_insert_ne by congruence. split; [by right|]. intros [->|[? _]]; done.
Qed.
Solve All Obligations with done.

#[export] Instance number_hash : MemHasher := {| MemHash k := fold_left (λ n b, n * 257 + byte_to_Z b + 1) k 0 |}.
#[export] Instance map_reader : TxnReader (gmap bytes value) := {|
  r_Get m k := default None (m !! k);
  r_NewIterator m p rev := listing m p rev;
|}.
#[export] Instance map_reader_laws : ReaderLaws (gmap bytes value) :=
  {| r_view m := m; r_ok _ := True; r_known _ _ := True; r_Get_view _ _ _ _ := eq_refl; r_NewIterator_view _ _ _ _ := eq_refl |}.

(** ** Concrete runs *)

(** Contents [o/a], [o/c], [x]; under the prefix [o/] one key is written, one
    deleted, one written and deleted again. *)
Definition wkey (l : list byte) : bytes := [x6f; x2f] ++ l.
Definition demo_base : gmap bytes value := {[wkey [x61] := Some [x01]; wkey [x63] := Some [x03]; [x78] := Some [x09]]}.
Definition demo_ops : list txn_op :=
  [DoSet [x62] (Some [x02]); DoDelete [x63]; DoSetAt [x64] (Some [x04]) 7; DoDeleteAt [x64] 8; DoSet [x65; x66] None].
Definition demo_keys : list bytes := [[x61]; [x62]; [x63]; [x64]; [x65; x66]].
Definition demo_txn : Txn := fold_left run_op demo_ops (NewTxn [x6f; x2f] false true 7).

Example demo_iterates :
  drain 20 (NewIterator demo_base demo_txn [] true) =
    Some [([x65; x66], None); ([x62], Some [x02]); ([x61], Some [x01])].
Proof. vm_compute. reflexivity. Qed.
Lemma valid_key_dec k : bool_decide (k ≠ [] ∧ (length k <= maxKeyBytes)%nat) = true → valid_key k.
Proof. apply bool_decide_eq_true. Qed.
#[local] Ltac demo_keys_tac :=
  repeat constructor; first [by apply bool_decide_eq_true; vm_compute|by apply valid_key_dec; vm_compute].

Lemma Txn_refines_overlay_witness :
  Get demo_base demo_txn [x61] = Some [x01] ∧ Get demo_base demo_txn [x63] = None ∧
  drain 9 (NewIterator demo_base demo_txn [] false) =
    Some [([x61], Some [x01]); ([x62], Some [x02]); ([x65; x66], None)].
Proof.
  destruct (Txn_refines_overlay demo_base [x6f; x2f] false 7 demo_ops demo_keys) as [HG HI].
  - exact I.
  - intros k1 k2 H1 H2.
    assert (Hall : Forall (λ k1, Forall (λ k2, MemHash k1 = MemHash k2 → k1 = k2) demo_keys) demo_keys) by
      (repeat constructor; vm_compute; congruence).
    rewrite Forall_forall in Hall. specialize (Hall _ H1). rewrite Forall_forall in Hall. by apply Hall.
  - demo_keys_tac.
  - split_and!.
    + etrans; [apply (HG [x61]); [apply (bool_decide_unpack _); vm_compute; exact I|exact I]|vm_compute; reflexivity].
    + etrans; [apply (HG [x63]); [apply (bool_decide_unpack _); vm_compute; exact I|exact I]|vm_compute; reflexivity].
    + etrans; [apply (HI [] false 9%nat); apply Nat.ltb_lt; vm_compute; reflexivity|vm_compute; reflexivity].
Defined.

(** A child over [demo_txn] rewrites [a] and deletes [b]. *)
Definition demo_child : Txn := fold_left run_op [DoSet [x61] (Some [x07]); DoDelete [x62]] (NewTxn [] false true 9).
Lemma demo_distinct (ks : list bytes) :
  forallb (λ k1, forallb (λ k2, negb (MemHash k1 =? MemHash k2) || bool_decide (k1 = k2)) ks) ks = true →
  ∀ k1 k2, k1 ∈ ks → k2 ∈ ks → MemHash k1 = MemHash k2 → k1 = k2.
Proof.
  intros Hf k1 k2 H1 H2 He. rewrite forallb_forall in Hf. apply list_elem_of_In in H1, H2.
  specialize (Hf _ H1). rewrite forallb_forall in Hf. specialize (Hf _ H2). rewrite He, Z.eqb_refl in Hf.
  by apply bool_decide_eq_true in Hf.
Qed.
Lemma demo_hashes : hash_free demo_keys.
Proof. refine (demo_distinct demo_keys _). vm_compute. reflexivity. Qed.
Lemma demo_shows l p v :
  Forall (λ o, Forall (λ k, k ∈ demo_keys ∧ valid_key k) (op_keys o)) l →
  shows ∅ demo_keys p true (fold_left run_op l (NewTxn p false true v)) (fold_left (spec_op ∅) l ∅).
Proof. intros Hl. apply shows_run; [exact demo_hashes|done|apply shows_empty]. Qed.

