(* ===== verification/SmtKey.v ===== *)
(** * Keys of the sparse Merkle tree ([store/smt.go], node keys)

    A node key is a bit string, stored as its bytes and one byte that counts the
    leading zeros of the last of them.  The model computes the bit count that
    [key] caches.  [enc] is the specification: the encoding of a list of bits;
    the operations on bytes are shown to be the operations on bits. *)
From S2P Require Import Prelude LibUtil State.
#[local] Open Scope Z_scope.

(** Go's [k.key[i]], a panic out of range. *)
Definition at_byte (k : bytes) (i : nat) : result ErrorI Z :=
  match k !! i with Some b => Ok (byte_to_Z b) | None => Err ErrPanic end.
(** [bits.Len8], [bits.LeadingZeros8] *)
Definition Len8 (b : Z) : Z := if b =? 0 then 0 else Z.log2 b + 1.
Definition LeadingZeros8 (b : Z) : Z := 8 - Len8 b.

Definition bitAtIndex (b : Z) (index : Z) : bool := Z.testbit b index.
Definition totalBits (k : bytes) : result ErrorI Z :=
  match k with
  | [] => Ok 0
  | _ =>
      let size := length k in
      leadingZeroes ← at_byte k (size - 1);
      last ← (if (size <? 2)%nat then Err ErrPanic else at_byte k (size - 2));
      let bitLen := Len8 last in
      let bitLen := if bitLen =? 0 then 1 else bitLen in
      Ok ((Z.of_nat size - 2) * 8 + leadingZeroes + bitLen)
  end.
Definition bitAt (k : bytes) (bitPos : nat) : result ErrorI bool :=
  let byteIndex := (bitPos / 8)%nat in
  byt ← at_byte k byteIndex;
  let size := length k in
  let pos := Z.of_nat (bitPos mod 8) in
  if negb (Z.of_nat byteIndex =? Z.of_nat size - 2) then Ok (bitAtIndex byt (7 - pos)) else
  leftPadding ← at_byte k (size - 1);
  if ((leftPadding =? 0) && (byt =? 0)) || (pos <? leftPadding) then Ok false else
  total ← totalBits k;
  let lastByteBitsCount := (total - 1) mod 8 + 1 in
  let shift := lastByteBitsCount - pos - 1 in
  if shift <? 0 then Err ErrPanic else Ok (bitAtIndex byt shift).
Definition bit_Z (b : bool) : Z := if b then 1 else 0.
Definition addBit (k : bytes) (bit : bool) : result ErrorI bytes :=
  bitCount ← totalBits k;
  let k := match k with [] => [x00; x00] | _ => k end in
  let bitPos := bitCount mod 8 in
  let bitPos := if (bitPos =? 0) && negb (bitCount =? 0) then 8 else bitPos in
  let size := length k in
  lastByte ← at_byte k (size - 2);
  leftPadding ← at_byte k (size - 1);
  let leftPadding := if negb (bitCount =? 0) && (lastByte =? 0) then leftPadding + 1 else leftPadding in
  let '(k, size, lastByte, leftPadding) :=
    if bitPos =? 8 then (k ++ [x00], S size, 0, 0) else (k, size, lastByte, leftPadding) in
  Ok (<[(size - 1)%nat := byte_of_Z leftPadding]>
       (<[(size - 2)%nat := byte_of_Z (Z.lor (Z.shiftl lastByte 1) (bit_Z bit))]> k)).
Definition newNodeKey (data : bytes) (bitCount : nat) : result ErrorI bytes :=
  let numBytes := ((bitCount + 7) / 8)%nat in
  let k := take numBytes (data ++ replicate numBytes x00) in
  let lastByteBits := Z.of_nat (bitCount mod 8) in
  let lastByteBits := if (lastByteBits =? 0) && (0 <? bitCount)%nat then 8 else lastByteBits in
  if (numBytes =? 0)%nat then Err ErrPanic else
  last ← at_byte k (numBytes - 1);
  let last := Z.shiftr last (8 - lastByteBits) in
  let leftPadding := LeadingZeros8 last - (8 - lastByteBits) in
  let leftPadding := if last =? 0 then leftPadding - 1 else leftPadding in
  Ok (<[(numBytes - 1)%nat := byte_of_Z last]> k ++ [byte_of_Z leftPadding]).

(** [greatestCommonPrefix]: the position and the prefix it leaves behind; at most
    [fuel] bits are compared, which is enough from [totalBits] on. *)
Fixpoint gcp_loop (fuel : nat) (k : bytes) (total : Z) (current : bytes) (bitPos : nat) (gcp : bytes)
    : result ErrorI (nat * bytes) :=
  match fuel with
  | O => Ok (bitPos, gcp)
  | S fuel =>
      if Z.of_nat bitPos <? total then
        bit1 ← bitAt k bitPos;
        bit2 ← bitAt current bitPos;
        if negb (Bool.eqb bit1 bit2) then Ok (bitPos, gcp) else
        gcp ← addBit gcp bit1;
        gcp_loop fuel k total current (S bitPos) gcp
      else Ok (bitPos, gcp)
  end.
Definition greatestCommonPrefix (k : bytes) (bitPos : nat) (gcp current : bytes) : result ErrorI (nat * bytes) :=
  total ← totalBits current;
  gcp_loop (Z.to_nat total) k total current bitPos gcp.

(** [bytes.Compare] *)
Fixpoint bytes_compare (a b : bytes) : comparison :=
  match a, b with
  | [], [] => Eq
  | [], _ :: _ => Lt
  | _ :: _, [] => Gt
  | x :: a, y :: b => match byte_to_Z x ?= byte_to_Z y with Eq => bytes_compare a b | c => c end
  end.
(** The bit by bit comparison from [i] on, of the first [total] bits. *)
Fixpoint cmp_loop (fuel : nat) (k k2 : bytes) (total : Z) (i : nat) : result ErrorI comparison :=
  match fuel with
  | O => Ok Eq
  | S fuel =>
      if Z.of_nat i <? total then
        b1 ← bitAt k i;
        b2 ← bitAt k2 i;
        match b1, b2 with
        | false, true => Ok Lt
        | true, false => Ok Gt
        | _, _ => cmp_loop fuel k k2 total (S i)
        end
      else Ok Eq
  end.
Definition cmp (k k2 : bytes) : result ErrorI comparison :=
  k2TotalBits ← totalBits k2;
  let fullBytes := Z.to_nat (k2TotalBits / 8) in
  if (0 <? fullBytes)%nat && (length k <? fullBytes)%nat then Err ErrPanic else
  match bytes_compare (take fullBytes k) (take fullBytes k2) with
  | Eq => cmp_loop 8 k k2 k2TotalBits (8 * fullBytes)
  | c => Ok c
  end.

(** ** Bit strings *)

Abbreviation bits := (list bool).

(** The number a chunk of at most 8 bits stands for, and its leading zeros: of
    an all-zero chunk the last bit does not count. *)
Definition val (c : bits) : Z := fold_left (λ n (b : bool), 2 * n + bit_Z b) c 0.
Fixpoint pad (c : bits) : Z :=
  match c with
  | [] | [_] => 0
  | b :: c => if b then 0 else 1 + pad c
  end.
Definition last_chunk (c : bits) : bytes := [byte_of_Z (val c); byte_of_Z (pad c)].
(** The encoding: eight bits to a byte, then the last chunk. *)
Fixpoint enc (bs : bits) : bytes :=
  match bs with
  | [] => []
  | b0 :: b1 :: b2 :: b3 :: b4 :: b5 :: b6 :: b7 :: (_ :: _) as rest =>
      byte_of_Z (val [b0; b1; b2; b3; b4; b5; b6; b7]) :: enc rest
  | c => last_chunk c
  end.
Definition byte_bits (b : byte) : bits := map (λ i, Z.testbit (byte_to_Z b) i) [7; 6; 5; 4; 3; 2; 1; 0].
Definition data_bits (data : bytes) : bits := concat (map byte_bits data).

(** Bit lists by chunks of eight. *)
Lemma enc_app c r : length c = 8%nat → r ≠ [] → enc (c ++ r) = byte_of_Z (val c) :: enc r.
Proof.
  intros Hc Hr. do 8 (destruct c as [|? c]; [done|]). destruct c; [|done]. by destruct r.
Qed.
Lemma enc_last c : (1 <= length c <= 8)%nat → enc c = last_chunk c.
Proof. intros [H1 H8]. do 9 (destruct c as [|? c]; [done || (cbn in H1; lia)|]). cbn in H8. lia. Qed.
Lemma chunk_ind (P : bits → Prop) :
  (∀ c, (1 <= length c <= 8)%nat → P c) →
  (∀ c r, length c = 8%nat → r ≠ [] → P r → P (c ++ r)) →
  ∀ bs, bs ≠ [] → P bs.
Proof.
  intros Hl Hc bs. remember (length bs) as n eqn:Hn. revert bs Hn.
  induction (lt_wf n) as [n _ IH]. intros bs -> Hne. destruct (decide (length bs <= 8)%nat) as [Hle|Hgt].
  - apply Hl. destruct bs; [done|]. cbn in *. lia.
  - rewrite <- (take_drop 8 bs). assert (Hd : length (drop 8 bs) = (length bs - 8)%nat) by apply length_drop.
    assert (Hdne : drop 8 bs ≠ []) by (intros He; rewrite He in Hd; cbn in Hd; lia).
    apply Hc; [rewrite length_take; lia|done|]. eapply IH; [|reflexivity|done]. lia.
Qed.

(** Facts about chunks are checked on all of them. *)
Fixpoint chunks (n : nat) : list bits :=
  match n with O => [[]] | S n => chunks n ++ concat (map (λ c, [true :: c; false :: c]) (filter (λ c, length c = n) (chunks n))) end.
Lemma elem_of_chunks n c : (length c <= n)%nat → c ∈ chunks n.
Proof.
  revert c. induction n as [|n IH]; intros c Hc; cbn.
  - destruct c; [set_solver|cbn in Hc; lia].
  - apply elem_of_app. destruct (decide (length c <= n)%nat); [left; auto|right].
    destruct c as [|b c]; [cbn in *; lia|]. cbn in *. apply list_elem_of_In, in_concat. exists [true :: c; false :: c].
    split; [|apply list_elem_of_In; destruct b; set_solver]. apply list_elem_of_In, list_elem_of_fmap. exists c. split; [done|].
    apply list_elem_of_filter. split; [lia|]. apply IH. lia.
Qed.
Lemma all_chunks (P : bits → bool) : forallb P (chunks 8) = true → ∀ c, (length c <= 8)%nat → P c = true.
Proof. intros Hall c Hc. rewrite forallb_forall in Hall. by apply Hall, list_elem_of_In, elem_of_chunks. Qed.
Lemma all_bytes (P : byte → bool) : forallb (λ n, P (byte_of_Z (Z.of_nat n))) (seq 0 256) = true → ∀ b, P b = true.
Proof.
  intros Hall b. rewrite forallb_forall in Hall. pose proof (byte_to_Z_range b).
  specialize (Hall (Z.to_nat (byte_to_Z b))). rewrite Z2Nat.id, byte_of_to_Z in Hall by lia. apply Hall, in_seq. lia.
Qed.


Lemma length_enc bs : bs ≠ [] → (2 <= length (enc bs))%nat.
Proof.
  revert bs. apply chunk_ind; intros c; [intros Hc; by rewrite enc_last|].
  intros r Hc Hr IH. rewrite enc_app by done. cbn. lia.
Qed.
Lemma enc_ne bs : bs ≠ [] → enc bs ≠ [].
Proof. intros Hb%length_enc He. rewrite He in Hb. cbn in Hb. lia. Qed.

(** The operations look at a longer key through its tail. *)
Lemma at_byte_cons x k i : at_byte (x :: k) (S i) = at_byte k i.
Proof. done. Qed.
Lemma at_byte_last x k n : (n < length k)%nat → at_byte (x :: k) (length (x :: k) - 1 - n) = at_byte k (length k - 1 - n).
Proof. intros Hn. cbn [length]. replace (S (length k) - 1 - n)%nat with (S (length k - 1 - n)) by lia. done. Qed.
Lemma totalBits_cons x k : (2 <= length k)%nat → totalBits (x :: k) = (n ← totalBits k; Ok (n + 8)).
Proof.
  intros Hk. unfold totalBits. destruct k as [|y k]; [cbn in Hk; lia|]. set (k' := y :: k) in *.
  assert (H1 : at_byte (x :: k') (length (x :: k') - 1) = at_byte k' (length k' - 1)).
  { rewrite <- (Nat.sub_0_r (length (x :: k') - 1)), at_byte_last by lia. by rewrite Nat.sub_0_r. }
  assert (H2 : at_byte (x :: k') (length (x :: k') - 2) = at_byte k' (length k' - 2)).
  { replace (length (x :: k') - 2)%nat with (length (x :: k') - 1 - 1)%nat by lia. rewrite at_byte_last by lia. f_equal. lia. }
  rewrite H1, H2. rewrite !(proj2 (Nat.ltb_ge _ _)) by (cbn [length]; lia).
  destruct (at_byte k' (length k' - 1)) as [a|]; [|done]. destruct (at_byte k' (length k' - 2)) as [b'|]; [|done]. cbn [mbind result_bind].
  f_equal. cbn [length]. lia.
Qed.
Lemma bitAt_cons x k i : (2 <= length k)%nat → bitAt (x :: k) (8 + i) = bitAt k i.
Proof.
  intros Hk. unfold bitAt. replace ((8 + i) / 8)%nat with (S (i / 8)) by (change 8%nat with (1 * 8)%nat at 2; rewrite Nat.div_add_l by done; lia).
  replace ((8 + i) mod 8)%nat with (i mod 8)%nat by (change (8 + i)%nat with (1 * 8 + i)%nat; by rewrite Nat.add_comm, Nat.Div0.mod_add).
  rewrite at_byte_cons. destruct (at_byte k (i / 8)) as [byt|]; [|done]. cbn [mbind result_bind].
  rewrite totalBits_cons by done.
  assert (H1 : at_byte (x :: k) (length (x :: k) - 1) = at_byte k (length k - 1)).
  { rewrite <- (Nat.sub_0_r (length (x :: k) - 1)), at_byte_last by lia. by rewrite Nat.sub_0_r. }
  rewrite H1. replace (Z.of_nat (S (i / 8)) =? Z.of_nat (length (x :: k)) - 2) with (Z.of_nat (i / 8) =? Z.of_nat (length k) - 2).
  2:{ cbn [length]. apply eq_true_iff_eq. rewrite !Z.eqb_eq. lia. }
  destruct (negb _); [done|]. destruct (at_byte k (length k - 1)) as [lp|]; [|done]. cbn [mbind result_bind].
  destruct (_ || _); [done|]. destruct (totalBits k) as [n|]; [|done]. cbn [mbind result_bind].
  replace ((n + 8 - 1) mod 8) with ((n - 1) mod 8); [done|]. replace (n + 8 - 1) with (n - 1 + 1 * 8) by lia. by rewrite Z.mod_add.
Qed.
Lemma bitAt_first x k i : (2 <= length k)%nat → (i < 8)%nat → bitAt (x :: k) i = Ok (bitAtIndex (byte_to_Z x) (7 - Z.of_nat i)).
Proof.
  intros Hk Hi. unfold bitAt. rewrite (Nat.div_small i 8), (Nat.mod_small i 8) by done. cbn [at_byte].
  unfold at_byte. cbn [lookup list_lookup mbind result_bind]. cbn [length].
  replace (negb (Z.of_nat 0 =? Z.of_nat (S (length k)) - 2)) with true; [done|].
  symmetry. apply negb_true_iff, Z.eqb_neq. lia.
Qed.
Definition ok_is {A} `{EqDecision A} (r : result ErrorI A) (a : A) : bool := match r with Ok x => bool_decide (x = a) | Err _ => false end.
Lemma ok_is_true {A} `{EqDecision A} (r : result ErrorI A) a : ok_is r a = true → r = Ok a.
Proof. destruct r; cbn; [|done]. by intros ->%bool_decide_eq_true. Qed.

(** *** [totalBits] *)
Lemma totalBits_chunk c : (1 <= length c <= 8)%nat → totalBits (last_chunk c) = Ok (Z.of_nat (length c)).
Proof.
  intros [H1 H8]. apply (all_chunks (λ c, bool_decide (length c = 0%nat) || ok_is (totalBits (last_chunk c)) (Z.of_nat (length c))))
    in H8; [|vm_compute; reflexivity].
  apply orb_true_iff in H8 as [H8%bool_decide_eq_true|H8%ok_is_true]; [lia|done].
Qed.
Lemma totalBits_enc bs : totalBits (enc bs) = Ok (Z.of_nat (length bs)).
Proof.
  destruct (decide (bs = [])) as [->|Hne]; [done|]. revert bs Hne. apply chunk_ind.
  - intros c Hc. rewrite enc_last by done. by apply totalBits_chunk.
  - intros c r Hc Hr IH. rewrite enc_app, totalBits_cons, IH by (done || by apply length_enc). cbn. rewrite length_app, Hc. f_equal. lia.
Qed.

(** *** [bitAt] *)
Lemma bitAt_chunk c i b : (1 <= length c <= 8)%nat → c !! i = Some b → bitAt (last_chunk c) i = Ok b.
Proof.
  intros [H1 H8] Hi. apply (all_chunks (λ c, forallb (λ i, match c !! i with Some b => ok_is (bitAt (last_chunk c) i) b | None => false end) (seq 0 (length c))))
    in H8; [|vm_compute; reflexivity].
  rewrite forallb_forall in H8. specialize (H8 i). rewrite Hi in H8. apply ok_is_true, H8, in_seq.
  apply lookup_lt_Some in Hi. lia.
Qed.
Lemma byte_chunk c i b : length c = 8%nat → c !! i = Some b → bitAtIndex (byte_to_Z (byte_of_Z (val c))) (7 - Z.of_nat i) = b.
Proof.
  intros Hc Hi. assert (H8 : (length c <= 8)%nat) by lia.
  apply (all_chunks (λ c, negb (bool_decide (length c = 8%nat)) || forallb (λ i, bool_decide (Some (bitAtIndex (byte_to_Z (byte_of_Z (val c))) (7 - Z.of_nat i)) = c !! i)) (seq 0 8)))
    in H8; [|vm_compute; reflexivity].
  rewrite bool_decide_true in H8 by done. cbn [negb orb] in H8. rewrite forallb_forall in H8. specialize (H8 i). rewrite Hi in H8.
  apply lookup_lt_Some in Hi. rewrite in_seq in H8. specialize (H8 ltac:(lia)). apply bool_decide_eq_true in H8. congruence.
Qed.
Lemma bitAt_enc bs i b : bs !! i = Some b → bitAt (enc bs) i = Ok b.
Proof.
  intros Hi. assert (Hne : bs ≠ []) by (by intros ->). revert i b Hi. pattern bs. revert bs Hne. apply chunk_ind.
  - intros c Hc i b Hi. rewrite enc_last by done. by apply bitAt_chunk.
  - intros c r Hc Hr IH i b Hi. rewrite enc_app by done. destruct (decide (i < 8)%nat) as [Hlt|Hge].
    + rewrite bitAt_first by (done || by apply length_enc). f_equal. apply byte_chunk; [done|]. by rewrite lookup_app_l in Hi by lia.
    + replace i with (8 + (i - 8))%nat by lia. rewrite bitAt_cons by (by apply length_enc). apply IH. rewrite lookup_app_r in Hi by lia. by rewrite <- Hc.
Qed.

(** The encoding determines the bits. *)
Lemma enc_inj a b : enc a = enc b → a = b.
Proof.
  intros He. assert (Hl : length a = length b).
  { pose proof (totalBits_enc a) as Ha. rewrite He, totalBits_enc in Ha. injection Ha. lia. }
  apply list_eq_same_length with (length b); [done|done|]. intros i x y Hi Hx Hy.
  apply bitAt_enc in Hx, Hy. rewrite He in Hx. congruence.
Qed.

(** *** [addBit] *)
Lemma addBit_chunk c b : (length c <= 8)%nat → addBit (enc c) b = Ok (enc (c ++ [b])).
Proof.
  intros H8. apply (all_chunks (λ c, forallb (λ b, ok_is (addBit (enc c) b) (enc (c ++ [b]))) [true; false]))
    in H8; [|vm_compute; reflexivity].
  rewrite forallb_forall in H8. apply ok_is_true, H8. destruct b; cbn; auto.
Qed.
Lemma addBit_cons x k b : (2 <= length k)%nat → addBit (x :: k) b = (k' ← addBit k b; Ok (x :: k')).
Proof.
  intros Hk. unfold addBit. rewrite totalBits_cons by done. destruct (totalBits k) as [n|] eqn:Ht; [|done]. cbn [mbind result_bind].
  assert (Hpos : 0 < n).
  { unfold totalBits in Ht. destruct k as [|y k]; [cbn in Hk; lia|]. set (k' := y :: k) in *. rewrite (proj2 (Nat.ltb_ge _ _)) in Ht by lia.
    apply result_bind_Ok in Ht as (p & Hp & Ht). apply result_bind_Ok in Ht as (q & _ & Ht). injection Ht as <-.
    unfold at_byte in Hp. destruct (k' !! _) as [p'|]; [|done]. injection Hp as <-. pose proof (byte_to_Z_range p').
    unfold Len8. pose proof (Z.log2_nonneg q). change (2 <= S (length k))%nat in Hk. repeat case_match; zify_bools; lia. }
  destruct k as [|y k]; [cbn in Hk; lia|]. set (k' := y :: k) in *.
  assert (H1 : at_byte (x :: k') (length (x :: k') - 1) = at_byte k' (length k' - 1)).
  { rewrite <- (Nat.sub_0_r (length (x :: k') - 1)), at_byte_last by lia. by rewrite Nat.sub_0_r. }
  assert (H2 : at_byte (x :: k') (length (x :: k') - 2) = at_byte k' (length k' - 2)).
  { replace (length (x :: k') - 2)%nat with (length (x :: k') - 1 - 1)%nat by lia. rewrite at_byte_last by lia. f_equal. lia. }
  rewrite H1, H2. destruct (at_byte k' (length k' - 2)) as [lb|]; [|done]. cbn [mbind result_bind].
  destruct (at_byte k' (length k' - 1)) as [lp|]; [|done]. cbn [mbind result_bind].
  replace ((n + 8) mod 8) with (n mod 8) by (replace (n + 8) with (n + 1 * 8) by lia; by rewrite Z.mod_add).
  replace (n + 8 =? 0) with false by (symmetry; apply Z.eqb_neq; lia). replace (n =? 0) with false by (symmetry; apply Z.eqb_neq; lia). cbn [negb andb].
  clear H1 H2. subst k'. destruct k as [|z k]; [cbn in Hk; lia|]. destruct (_ =? 8); [reflexivity|]. cbn [length Nat.sub mbind result_bind]. by rewrite !Nat.sub_0_r.
Qed.
Lemma addBit_enc bs b : addBit (enc bs) b = Ok (enc (bs ++ [b])).
Proof.
  destruct (decide (bs = [])) as [->|Hne]; [apply (addBit_chunk []); cbn; lia|]. revert bs Hne. apply chunk_ind.
  - intros c Hc. apply addBit_chunk. lia.
  - intros c r Hc Hr IH. rewrite enc_app, addBit_cons, IH by (done || by apply length_enc). cbn [mbind result_bind].
    rewrite <- app_assoc, (enc_app c); [done|done|]. by destruct r.
Qed.

(** *** [newNodeKey] *)
Definition newNodeKey_test (x : byte) : bool :=
  forallb (λ n, ok_is (newNodeKey [x] n) (enc (take n (byte_bits x)))) (seq 1 8).
Lemma newNodeKey_byte x n : (1 <= n <= 8)%nat → newNodeKey [x] n = Ok (enc (take n (byte_bits x))).
Proof.
  intros Hn. assert (Hall : newNodeKey_test x = true) by (revert x; apply all_bytes; vm_compute; reflexivity).
  unfold newNodeKey_test in Hall. rewrite forallb_forall in Hall. apply ok_is_true, Hall, in_seq. lia.
Qed.
Lemma newNodeKey_cons x data n : (1 <= n)%nat →
  newNodeKey (x :: data) (8 + n) = (k ← newNodeKey data n; Ok (x :: k)).
Proof.
  intros Hn. unfold newNodeKey.
  replace ((8 + n + 7) / 8)%nat with (S ((n + 7) / 8)) by (replace (8 + n + 7)%nat with (n + 7 + 1 * 8)%nat by lia; rewrite Nat.div_add by done; lia).
  replace ((8 + n) mod 8)%nat with (n mod 8)%nat by (replace (8 + n)%nat with (n + 1 * 8)%nat by lia; by rewrite Nat.Div0.mod_add).
  pose proof (Nat.div_str_pos (n + 7) 8 ltac:(lia)) as Hpos. set (m := ((n + 7) / 8)%nat) in *. destruct m as [|m]; [lia|].
  rewrite (proj2 (Nat.ltb_lt 0 n)), (proj2 (Nat.ltb_lt 0 (8 + n))) by lia. cbn [Nat.eqb].
  rewrite replicate_S. cbn [app take].
  assert (Ht : take (S m) (data ++ x00 :: replicate (S m) x00) = take (S m) (data ++ replicate (S m) x00)).
  { change (x00 :: replicate (S m) x00) with (replicate (S (S m)) x00). rewrite replicate_S_end, app_assoc, take_app_le; [done|].
    rewrite length_app, length_replicate. lia. }
  rewrite Ht. set (k := take (S m) (data ++ replicate (S m) x00)). replace (S (S m) - 1)%nat with (S (S m - 1)) by lia.
  rewrite at_byte_cons. destruct (at_byte k (S m - 1)) as [l|]; [|done]. reflexivity.
Qed.
Lemma length_byte_bits x : length (byte_bits x) = 8%nat.
Proof. done. Qed.
Lemma length_data_bits data : length (data_bits data) = (8 * length data)%nat.
Proof. unfold data_bits. induction data as [|x data IH]; [done|]. cbn [map concat]. rewrite length_app, IH, length_byte_bits. cbn. lia. Qed.
Lemma val_byte_bits x : byte_of_Z (val (byte_bits x)) = x.
Proof.
  apply (proj1 (bool_decide_eq_true _)). revert x. apply (all_bytes (λ x, bool_decide (byte_of_Z (val (byte_bits x)) = x))). vm_compute. reflexivity.
Qed.
Lemma newNodeKey_enc data n : (1 <= n <= 8 * length data)%nat → newNodeKey data n = Ok (enc (take n (data_bits data))).
Proof.
  revert n. induction data as [|x data IH]; intros n Hn; [cbn in Hn; lia|].
  change (data_bits (x :: data)) with (byte_bits x ++ data_bits data).
  destruct (decide (n <= 8)%nat) as [Hle|Hgt].
  - rewrite take_app_le by (rewrite length_byte_bits; lia). rewrite <- newNodeKey_byte by lia. unfold newNodeKey.
    assert (Hd : ((n + 7) / 8 = 1)%nat) by (symmetry; apply Nat.div_unique with (n - 1)%nat; lia). rewrite Hd. done.
  - replace n with (8 + (n - 8))%nat at 1 by lia. rewrite newNodeKey_cons by lia. cbn [length] in Hn.
    rewrite IH by lia. cbn [mbind result_bind]. rewrite take_app_ge by (rewrite length_byte_bits; lia). rewrite length_byte_bits.
    rewrite enc_app, val_byte_bits; [done|done|]. intros He. apply (f_equal length) in He.
    rewrite length_take, length_data_bits in He. cbn [length] in He. lia.
Qed.

(** *** [greatestCommonPrefix] *)
Fixpoint common (a b : bits) : bits :=
  match a, b with
  | x :: a, y :: b => if Bool.eqb x y then x :: common a b else []
  | _, _ => []
  end.
Lemma common_comm a b : common a b = common b a.
Proof. revert b. induction a as [|x a IH]; intros [|y b]; cbn; [done..|]. destruct x, y; cbn; f_equal; auto. Qed.
Lemma common_prefix_l a b : common a b `prefix_of` a.
Proof.
  revert b. induction a as [|x a IH]; intros [|y b]; cbn; [done|apply prefix_nil..|].
  destruct (Bool.eqb x y); [by apply prefix_cons|apply prefix_nil].
Qed.
Lemma common_prefix_r a b : common a b `prefix_of` b.
Proof. rewrite common_comm. apply common_prefix_l. Qed.
Lemma common_full a b : b `prefix_of` a → common a b = b.
Proof. intros [k ->]. induction b as [|x b IH]; cbn; [by destruct k|]. by rewrite eqb_reflx, IH. Qed.
Lemma common_app p a b : common (p ++ a) (p ++ b) = p ++ common a b.
Proof. induction p as [|x p IH]; cbn; [done|]. by rewrite eqb_reflx, IH. Qed.
Lemma common_cons_ne x y a b : x ≠ y → common (x :: a) (y :: b) = [].
Proof. intros Hxy. cbn. by destruct x, y. Qed.
(** Two strings of which neither is a prefix of the other part after [common]. *)
Lemma common_split a b : ¬ b `prefix_of` a → ¬ a `prefix_of` b →
  ∃ x r s, a = common a b ++ x :: r ∧ b = common a b ++ negb x :: s.
Proof.
  revert b. induction a as [|x a IH]; intros b Hb Ha; [by destruct Ha; apply prefix_nil|].
  destruct b as [|y b]; [by destruct Hb; apply prefix_nil|]. cbn. destruct (Bool.eqb x y) eqn:E.
  - apply eqb_prop in E as ->. destruct (IH b) as (z & r & s & H1 & H2).
    + intros Hp. apply Hb. by apply prefix_cons.
    + intros Hp. apply Ha. by apply prefix_cons.
    + exists z, r, s. cbn. split; f_equal; done.
  - exists x, a, b. split; [done|]. cbn. by destruct x, y.
Qed.
Lemma prefix_take {A} (p a : list A) : p `prefix_of` a → take (length p) a = p.
Proof. intros [k ->]. apply take_app_length. Qed.
Lemma take_S_snoc {A} (a : list A) i x : a !! i = Some x → take (S i) a = take i a ++ [x].
Proof. apply take_S_r. Qed.

Lemma gcp_loop_spec fuel a b pos :
  (length b <= length a)%nat → (pos <= length (common a b))%nat → (length b <= pos + fuel)%nat →
  gcp_loop fuel (enc a) (Z.of_nat (length b)) (enc b) pos (enc (take pos a)) = Ok (length (common a b), enc (common a b)).
Proof.
  intros Hl Hp Hf. pose proof (prefix_length _ _ (common_prefix_r a b)) as Hcb.
  assert (Hend : pos = length (common a b) → Ok (pos, enc (take pos a)) = Ok (length (common a b), enc (common a b)) :> result ErrorI (nat * bytes)).
  { intros ->. by rewrite prefix_take by apply common_prefix_l. }
  revert pos Hp Hf Hend. induction fuel as [|fuel IH]; intros pos Hp Hf Hend; cbn [gcp_loop].
  { apply Hend. lia. }
  destruct (Z.ltb_spec (Z.of_nat pos) (Z.of_nat (length b))) as [Hlt|Hge]; [|apply Hend; lia].
  destruct (lookup_lt_is_Some_2 a pos ltac:(lia)) as [x Hx], (lookup_lt_is_Some_2 b pos ltac:(lia)) as [y Hy].
  rewrite (bitAt_enc a pos x Hx), (bitAt_enc b pos y Hy). cbn [mbind result_bind].
  assert (Hcommon : Bool.eqb x y = true ↔ (pos < length (common a b))%nat).
  { clear -Hp Hx Hy. revert b pos x y Hp Hx Hy. induction a as [|x0 a IH]; intros [|y0 b] [|pos] x y Hp Hx Hy; try done; cbn in *.
    - injection Hx as <-. injection Hy as <-. destruct (Bool.eqb x0 y0); cbn; split; intros; try done; lia.
    - destruct (Bool.eqb x0 y0); cbn in *; [|lia]. rewrite (IH b pos x y) by (done || lia). lia. }
  destruct (Bool.eqb x y) eqn:E; cbn [negb].
  - rewrite addBit_enc. cbn [mbind result_bind]. rewrite <- take_S_snoc by done. assert (pos < length (common a b))%nat by (by apply Hcommon).
    apply IH; [lia|lia|]. intros ->. by rewrite prefix_take by apply common_prefix_l.
  - apply Hend. destruct (decide (pos < length (common a b))%nat) as [Hc|]; [|lia]. by apply Hcommon in Hc.
Qed.
Lemma gcp_enc a b pos :
  (length b <= length a)%nat → (pos <= length (common a b))%nat →
  greatestCommonPrefix (enc a) pos (enc (take pos a)) (enc b) = Ok (length (common a b), enc (common a b)).
Proof.
  intros Hl Hp. unfold greatestCommonPrefix. rewrite totalBits_enc. cbn [mbind result_bind]. rewrite Nat2Z.id.
  apply gcp_loop_spec; [done|done|lia].
Qed.

(** *** [cmp] *)
Fixpoint bits_compare (a b : bits) : comparison :=
  match a, b with
  | [], [] => Eq
  | [], _ :: _ => Lt
  | _ :: _, [] => Gt
  | false :: _, true :: _ => Lt
  | true :: _, false :: _ => Gt
  | _ :: a, _ :: b => bits_compare a b
  end.
Lemma bits_compare_app a a' b b' : length a = length a' →
  bits_compare (a ++ b) (a' ++ b') = match bits_compare a a' with Eq => bits_compare b b' | c => c end.
Proof. revert a'. induction a as [|x a IH]; intros [|y a'] Hl; cbn in *; try lia; [done|]. destruct x, y; cbn; auto. Qed.
Lemma bits_compare_refl a : bits_compare a a = Eq.
Proof. induction a as [|[] a IH]; done. Qed.
Lemma bits_compare_Eq a b : bits_compare a b = Eq → a = b.
Proof. revert b. induction a as [|[] a IH]; intros [|[] b]; cbn; intros; try done; f_equal; auto. Qed.
Lemma bits_compare_antisym a b : bits_compare b a = CompOpp (bits_compare a b).
Proof. revert b. induction a as [|[] a IH]; intros [|[] b]; cbn; auto. Qed.

Lemma val_snoc_acc c : ∀ n, fold_left (λ n (b : bool), 2 * n + bit_Z b) c n = n * 2 ^ Z.of_nat (length c) + val c.
Proof.
  unfold val. induction c as [|b c IH]; intros n; cbn [fold_left length]; [change (2 ^ Z.of_nat 0) with 1; lia|].
  rewrite (IH (2 * n + bit_Z b)), (IH (2 * 0 + bit_Z b)), Nat2Z.inj_succ, Z.pow_succ_r by lia. lia.
Qed.
Lemma val_cons b c : val (b :: c) = bit_Z b * 2 ^ Z.of_nat (length c) + val c.
Proof. unfold val at 1. cbn [fold_left]. rewrite val_snoc_acc. f_equal. Qed.
Lemma val_range c : 0 <= val c < 2 ^ Z.of_nat (length c).
Proof.
  induction c as [|b c IH]; [done|]. rewrite val_cons. cbn [length]. rewrite Nat2Z.inj_succ, Z.pow_succ_r by lia. destruct b; cbn [bit_Z]; lia.
Qed.
Lemma val_compare c c' : length c = length c' → (val c ?= val c') = bits_compare c c'.
Proof.
  revert c'. induction c as [|x c IH]; intros [|y c'] Hl; cbn [length] in *; try lia; [done|]. injection Hl as Hl.
  rewrite !val_cons, Hl. pose proof (val_range c) as R1. pose proof (val_range c') as R2. rewrite Hl in R1.
  destruct x, y; cbn [bit_Z bits_compare].
  - by rewrite <- (IH c' Hl), Z.add_compare_mono_l.
  - apply Z.compare_gt_iff. lia.
  - apply Z.compare_lt_iff. lia.
  - by rewrite <- (IH c' Hl), Z.add_compare_mono_l.
Qed.
Lemma enc_head a : (8 <= length a)%nat →
  ∃ k, enc a = byte_of_Z (val (take 8 a)) :: k ∧ (drop 8 a ≠ [] → k = enc (drop 8 a)).
Proof.
  intros Hl. assert (Ht : length (take 8 a) = 8%nat) by (rewrite length_take; lia).
  destruct (decide (drop 8 a = [])) as [He|Hne].
  - assert (Ha : take 8 a = a). { rewrite <- (take_drop 8 a) at 2. by rewrite He, app_nil_r. }
    rewrite Ha. rewrite enc_last by (rewrite Ha in Ht; lia). eexists. split; [reflexivity|done].
  - exists (enc (drop 8 a)). split; [|done]. rewrite <- (take_drop 8 a) at 1. by rewrite enc_app.
Qed.
Lemma bytes_compare_enc m a b :
  (8 * m <= length a)%nat → (8 * m <= length b)%nat →
  bytes_compare (take m (enc a)) (take m (enc b)) = bits_compare (take (8 * m) a) (take (8 * m) b).
Proof.
  revert a b. induction m as [|m IH]; intros a b Ha Hb; [done|].
  destruct (enc_head a ltac:(lia)) as (ka & -> & Hka), (enc_head b ltac:(lia)) as (kb & -> & Hkb). cbn [take bytes_compare].
  replace (8 * S m)%nat with (8 + 8 * m)%nat by lia. rewrite <- !take_take_drop.
  assert (Hlen : ∀ c : bits, (8 * S m <= length c)%nat → length (take 8 c) = 8%nat) by (intros c Hc; rewrite length_take; lia).
  rewrite bits_compare_app by (rewrite !Hlen; done).
  assert (Hr : ∀ c : bits, length (take 8 c) = 8%nat → byte_to_Z (byte_of_Z (val (take 8 c))) = val (take 8 c)).
  { intros c Hc. apply byte_to_of_Z. pose proof (val_range (take 8 c)) as R. rewrite Hc in R. exact R. }
  rewrite !Hr, val_compare by (rewrite ?Hlen; done). destruct (bits_compare (take 8 a) (take 8 b)); [|done..].
  destruct m as [|m]; [done|]. assert (Hdrop : ∀ c : bits, (8 * S (S m) <= length c)%nat → drop 8 c ≠ []).
  { intros c Hc He. apply (f_equal length) in He. rewrite length_drop in He. cbn [length] in He. lia. }
  rewrite Hka, Hkb by auto. apply IH; rewrite length_drop; lia.
Qed.
Lemma cmp_loop_spec fuel a b i :
  (length b <= length a)%nat → (i <= length b)%nat → (length b <= i + fuel)%nat →
  cmp_loop fuel (enc a) (enc b) (Z.of_nat (length b)) i = Ok (bits_compare (take (length b - i) (drop i a)) (drop i b)).
Proof.
  intros Hl. revert i. induction fuel as [|fuel IH]; intros i Hi Hf; cbn [cmp_loop].
  { replace (length b - i)%nat with 0%nat by lia. by rewrite (drop_ge b) by lia. }
  destruct (Z.ltb_spec (Z.of_nat i) (Z.of_nat (length b))) as [Hlt|Hge].
  2:{ replace (length b - i)%nat with 0%nat by lia. by rewrite (drop_ge b) by lia. }
  destruct (lookup_lt_is_Some_2 a i ltac:(lia)) as [x Hx], (lookup_lt_is_Some_2 b i ltac:(lia)) as [y Hy].
  rewrite (bitAt_enc a i x Hx), (bitAt_enc b i y Hy). cbn [mbind result_bind].
  rewrite (drop_S a x i Hx), (drop_S b y i Hy). replace (length b - i)%nat with (S (length b - S i)) by lia. cbn [take bits_compare].
  rewrite IH by lia. by destruct x, y.
Qed.
Lemma cmp_enc a b : (length b <= length a)%nat → cmp (enc a) (enc b) = Ok (bits_compare (take (length b) a) b).
Proof.
  intros Hl. unfold cmp. rewrite totalBits_enc. cbn [mbind result_bind].
  set (m := Z.to_nat (Z.of_nat (length b) / 8)).
  assert (Hm : (8 * m <= length b < 8 * m + 8)%nat).
  { pose proof (Z.div_mod (Z.of_nat (length b)) 8 ltac:(done)). pose proof (Z.mod_pos_bound (Z.of_nat (length b)) 8 ltac:(done)).
    pose proof (Z.div_pos (Z.of_nat (length b)) 8). lia. }
  assert (Hpanic : (0 <? m)%nat && (length (enc a) <? m)%nat = false).
  { apply andb_false_iff. right. apply Nat.ltb_ge.
    assert (Hbytes : ∀ m (c : bits), (8 * m <= length c)%nat → (m <= length (enc c))%nat).
    { clear. induction m as [|m IH]; intros c Hc; [lia|]. destruct (enc_head c ltac:(lia)) as (k & -> & Hk). cbn [length].
      destruct m as [|m]; [lia|]. rewrite Hk; [|intros He; apply (f_equal length) in He; rewrite length_drop in He; cbn [length] in He; lia].
      specialize (IH (drop 8 c)). rewrite length_drop in IH. specialize (IH ltac:(lia)). lia. }
    apply Hbytes. lia. }
  rewrite Hpanic, bytes_compare_enc, cmp_loop_spec by lia.
  assert (Hsplit : take (length b) a = take (8 * m) a ++ take (length b - 8 * m) (drop (8 * m) a)).
  { rewrite take_take_drop. f_equal. lia. }
  rewrite Hsplit. rewrite <- (take_drop (8 * m) b) at 5. rewrite bits_compare_app by (rewrite !length_take; lia). by destruct (bits_compare (take _ _) _).
Qed.
