(* ===== verification/Smt.v ===== *)
(** * The sparse Merkle tree of the state commitment ([store/smt.go])

    The nodes in their store and cache, the traversal variables of an operation
    and the operations on them: [Commit] with its deferred hashing, proofs and
    their verification.  The code's [copy] of a node is the node itself: a parent
    changed in place is written back by the [rehash] that pops it, before it is
    read again, so nodes are values here. *)
From S2P Require Import Prelude LibUtil State Crypto TxnStore SmtKey.
#[local] Open Scope Z_scope.

(** [lib.Node], and a node with its key. *)
Record lib_Node : Type := MkLibNode {
  Value : bytes; LeftChildKey : bytes; RightChildKey : bytes; pn_Key : bytes; Bitmask : Z }.
Record node : Type := MkNode { n_Key : bytes; n_Node : lib_Node; n_delete : bool }.
Definition empty_lib_Node : lib_Node := MkLibNode [] [] [] [] 0.
Definition newNode : node := MkNode [] empty_lib_Node false.
Definition leaf_Node (value : bytes) : lib_Node := MkLibNode value [] [] [] 0.
Definition n_Value (n : node) : bytes := Value (n_Node n).
Definition n_Left (n : node) : bytes := LeftChildKey (n_Node n).
Definition n_Right (n : node) : bytes := RightChildKey (n_Node n).
Definition set_n_Key (k : bytes) (n : node) : node := MkNode k (n_Node n) (n_delete n).
Definition set_n_Value (v : bytes) (n : node) : node :=
  MkNode (n_Key n) (MkLibNode v (n_Left n) (n_Right n) (pn_Key (n_Node n)) (Bitmask (n_Node n))) (n_delete n).
Definition setChildren (leftKey rightKey : bytes) (n : node) : node :=
  MkNode (n_Key n) (MkLibNode (n_Value n) leftKey rightKey (pn_Key (n_Node n)) (Bitmask (n_Node n))) (n_delete n).
(** The sibling, and which child it is: [true] for the right one. *)
Definition getOtherChild (n : node) (childKey : bytes) : result ErrorI (bytes * bool) :=
  if bool_decide (n_Left n = childKey) then Ok (n_Right n, true)
  else if bool_decide (n_Right n = childKey) then Ok (n_Left n, false)
  else Err ErrPanic.
Definition replaceChild (oldKey newKey : bytes) (n : node) : result ErrorI node :=
  if bool_decide (n_Left n = oldKey) then Ok (setChildren newKey (n_Right n) n)
  else if bool_decide (n_Right n = oldKey) then Ok (setChildren (n_Left n) newKey n)
  else Err ErrPanic.

(** Protobuf serialization of nodes. *)
Class NodeCodec : Type := {
  MarshalNode : lib_Node → bytes;
  UnmarshalNode : bytes → option lib_Node;
}.

Definition MaxKeyBitLength : nat := 160.
Definition MaxCacheSize : nat := Z.to_nat 1000000.
Definition RootKey : bytes := x7f :: replicate 31 xff.

(** The store holds bytes under length prefixed keys. *)
Record SMT : Type := MkSMT {
  store : gmap bytes bytes;
  root : node;
  keyBitLength : nat;
  nodeCache : gmap bytes node;
  operations : list node;
  gcp : bytes;
  bitPos : nat;
  pathBit : bool;
  target : node;
  current : node;
  traversed : list node;
  minKey : bytes;
  maxKey : bytes;
}.
Definition set_store v s := MkSMT v (root s) (keyBitLength s) (nodeCache s) (operations s) (gcp s) (bitPos s) (pathBit s) (target s) (current s) (traversed s) (minKey s) (maxKey s).
Definition set_root v s := MkSMT (store s) v (keyBitLength s) (nodeCache s) (operations s) (gcp s) (bitPos s) (pathBit s) (target s) (current s) (traversed s) (minKey s) (maxKey s).
Definition set_nodeCache v s := MkSMT (store s) (root s) (keyBitLength s) v (operations s) (gcp s) (bitPos s) (pathBit s) (target s) (current s) (traversed s) (minKey s) (maxKey s).
Definition set_operations v s := MkSMT (store s) (root s) (keyBitLength s) (nodeCache s) v (gcp s) (bitPos s) (pathBit s) (target s) (current s) (traversed s) (minKey s) (maxKey s).
Definition set_path g p s := MkSMT (store s) (root s) (keyBitLength s) (nodeCache s) (operations s) g p (pathBit s) (target s) (current s) (traversed s) (minKey s) (maxKey s).
Definition set_pathBit v s := MkSMT (store s) (root s) (keyBitLength s) (nodeCache s) (operations s) (gcp s) (bitPos s) v (target s) (current s) (traversed s) (minKey s) (maxKey s).
Definition set_target v s := MkSMT (store s) (root s) (keyBitLength s) (nodeCache s) (operations s) (gcp s) (bitPos s) (pathBit s) v (current s) (traversed s) (minKey s) (maxKey s).
Definition set_current v s := MkSMT (store s) (root s) (keyBitLength s) (nodeCache s) (operations s) (gcp s) (bitPos s) (pathBit s) (target s) v (traversed s) (minKey s) (maxKey s).
Definition set_traversed v s := MkSMT (store s) (root s) (keyBitLength s) (nodeCache s) (operations s) (gcp s) (bitPos s) (pathBit s) (target s) (current s) v (minKey s) (maxKey s).

Section smt.
Context `{Crypto, NodeCodec}.
Notation T := (M SMT ErrorI).

Definition get_smt : T SMT := gets id.
Definition lift {A} (r : result ErrorI A) : T A := match r with Ok a => mret a | Err e => throw e end.

(** ** Nodes in the store *)

(** [JoinLenPrefix(key)]: a nil key is skipped. *)
Definition store_key (key : bytes) : bytes := JoinLenPrefix [match key with [] => None | _ => Some key end].
Definition setNode (n : node) : T unit :=
  s ← get_smt;
  let cache := if (MaxCacheSize <=? size (nodeCache s))%nat then ∅ else nodeCache s in
  modify (set_nodeCache (<[n_Key n := n]> cache));;
  modify (set_store (<[store_key (n_Key n) := MarshalNode (n_Node n)]> (store s))).
Definition delNode (key : bytes) : T unit :=
  modify (λ s, set_nodeCache (delete key (nodeCache s)) s);;
  modify (λ s, set_store (delete (store_key key) (store s)) s).
Definition getNode (key : bytes) : T node :=
  s ← get_smt;
  match nodeCache s !! key with
  | Some n => mret n
  | None =>
      match store s !! store_key key with
      | None => mret newNode
      | Some nodeBytes =>
          match UnmarshalNode nodeBytes with
          | None => throw ErrUnmarshal
          | Some n => mret (MkNode key n false)
          end
      end
  end.

(** [updateParentValue]: the parent with its new value. *)
Definition updateParentValue (parent : node) : T node :=
  lChild ← getNode (n_Left parent);
  rChild ← getNode (n_Right parent);
  let parent := set_n_Value (Hash (n_Key lChild ++ n_Value lChild ++ n_Key rChild ++ n_Value rChild)) parent in
  s ← get_smt;
  when (bool_decide (n_Key parent = n_Key (root s))) (modify (set_root parent));;
  mret parent.

(** ** One operation *)

Definition resetGCP : T unit := modify (set_path [] 0);; modify (set_pathBit false).
Definition reset : T unit :=
  s ← get_smt; modify (set_current (root s));; modify (set_traversed []);; resetGCP.

(** Counting the bits of an empty key makes it [0, 0]. *)
Definition counted (k : bytes) : bytes := match k with [] => [x00; x00] | _ => k end.
(** The body of the loop of [traverse], and whether the loop ends. *)
Definition traverse_step : T bool :=
  s ← get_smt;
  modify (set_traversed (traversed s ++ [current s]));;
  pathBit ← lift (bitAt (n_Key (target s)) (bitPos s));
  modify (set_pathBit pathBit);;
  let currentKey := if (pathBit : bool) then n_Right (current s) else n_Left (current s) in
  n ← getNode currentKey;
  '(bitPos, gcp) ← lift (greatestCommonPrefix (n_Key (target s)) (bitPos s) (gcp s) currentKey);
  modify (set_current (set_n_Key (counted currentKey) n));;
  modify (set_path gcp bitPos);;
  mret (negb (bool_decide (counted currentKey = gcp)) || bool_decide (n_Key (target s) = gcp)).
(** In a well formed tree every round but the last reaches a longer key. *)
Fixpoint traverse_loop (fuel : nat) : T unit :=
  match fuel with
  | O => throw ErrPanic
  | S fuel => stop ← traverse_step; if (stop : bool) then mret () else traverse_loop fuel
  end.
Definition traverse : T unit := s ← get_smt; traverse_loop (S (8 * length (n_Key (target s)))).

Definition Parent (nodes : list node) : result ErrorI node := match last nodes with Some n => Ok n | None => Err ErrPanic end.
Definition Pop (nodes : list node) : list node := removelast nodes.
Definition GrandParent (nodes : list node) : result ErrorI node := Parent (Pop nodes).
(** The parent, or the grandparent, changed in place. *)
Definition put_Parent (n : node) (nodes : list node) : list node := Pop nodes ++ [n].

(** [set] *)
Definition set_op : T unit :=
  s ← get_smt;
  when (negb (bool_decide (n_Key (target s) = gcp s)))
    (let currentBytes := n_Key (current s) in
     let targetBytes := n_Key (target s) in
     oldParent ← lift (Parent (traversed s));
     oldParent ← lift (replaceChild currentBytes (gcp s) oldParent);
     pathBit ← lift (bitAt targetBytes (bitPos s));
     modify (set_pathBit pathBit);;
     let newParent := MkNode (gcp s) empty_lib_Node false in
     let newParent := if (pathBit : bool) then setChildren currentBytes targetBytes newParent
                      else setChildren targetBytes currentBytes newParent in
     modify (set_traversed (put_Parent oldParent (traversed s) ++ [newParent])));;
  setNode (target s).
(** [delete] *)
Definition delete_op : T unit :=
  s ← get_smt;
  if negb (bool_decide (n_Key (target s) = gcp s)) then mret () else
  let targetBytes := n_Key (target s) in
  parent ← lift (Parent (traversed s));
  grandparent ← lift (GrandParent (traversed s));
  '(sibling, _) ← lift (getOtherChild parent targetBytes);
  grandparent ← lift (replaceChild (n_Key parent) sibling grandparent);
  delNode (n_Key parent);;
  modify (set_traversed (put_Parent grandparent (Pop (traversed s))));;
  delNode targetBytes.

(** [rehash]: upwards until the next operation is below the parent that was popped. *)
Fixpoint rehash_loop (fuel : nat) : T unit :=
  match fuel with
  | O => mret ()
  | S fuel =>
      s ← get_smt;
      match last (traversed s) with
      | None => mret ()
      | Some parent =>
          modify (set_current parent);;
          modify (set_traversed (Pop (traversed s)));;
          exit ← match operations s with
                 | [] => mret false
                 | op :: _ => c ← lift (cmp (n_Key op) (n_Right parent)); mret (match c with Gt => false | _ => true end)
                 end;
          if (exit : bool) then mret () else
          parent ← updateParentValue parent;
          modify (set_current parent);;
          setNode parent;;
          rehash_loop fuel
      end
  end.
Definition rehash : T unit := s ← get_smt; rehash_loop (length (traversed s)).

(** [commit]: [ops] are the operations left. *)
Fixpoint commit_loop (subTree : bool) (ops : list node) : T unit :=
  match ops with
  | [] => s ← get_smt; if bool_decide (length (traversed s) = 0%nat) then mret () else throw ErrPanic
  | op :: ops =>
      modify (set_target op);;
      modify (set_operations ops);;
      resetGCP;;
      s ← get_smt;
      when (subTree || negb (bool_decide (length (traversed s) = 0%nat)))
        ('(bitPos, gcp) ← lift (greatestCommonPrefix (n_Key op) (bitPos s) (gcp s) (n_Key (current s)));
         modify (set_path gcp bitPos));;
      traverse;;
      (if n_delete op then delete_op else set_op);;
      rehash;;
      commit_loop subTree ops
  end.
Definition commit (subTree : bool) : T unit := s ← get_smt; commit_loop subTree (operations s).

(** ** The tree *)

Definition valueOpToSMTNode (keyBits : nat) (operation : valueOp) : result ErrorI node :=
  k ← newNodeKey (Hash (vo_key operation)) keyBits;
  Ok (match vo_op operation with
      | opDelete => MkNode k empty_lib_Node true
      | opSet => MkNode k (leaf_Node (Hash (default [] (vo_value operation)))) false
      end).
Definition op_le (a b : node) : bool := match cmp (n_Key a) (n_Key b) with Ok Gt => false | _ => true end.
(** [Commit], on the operations in the order in which Go ranges over their map. *)
Definition Commit (unsortedOps : list valueOp) : T unit :=
  s ← get_smt;
  ops ← lift (mapM (valueOpToSMTNode (keyBitLength s)) unsortedOps);
  modify (set_operations (sorted_by op_le ops));;
  commit false.

Definition initializeTree (rootKey : bytes) : T unit :=
  s ← get_smt;
  minKey ← lift (newNodeKey (replicate 20 x00) (keyBitLength s));
  maxKey ← lift (newNodeKey (replicate 20 xff) (keyBitLength s));
  setNode (MkNode minKey (leaf_Node (replicate 20 x00)) false);;
  setNode (MkNode maxKey (leaf_Node (replicate 20 xff)) false);;
  let root := MkNode rootKey (MkLibNode [] minKey maxKey [] 0) false in
  modify (set_root root);;
  root ← updateParentValue root;
  setNode root.
Definition NewSMT (rootKey : bytes) (keyBitLen : nat) (st : gmap bytes bytes) : result ErrorI SMT :=
  minKey ← newNodeKey (replicate 20 x00) keyBitLen;
  maxKey ← newNodeKey (replicate 20 xff) keyBitLen;
  rKey ← newNodeKey rootKey keyBitLen;
  let smt := MkSMT st newNode keyBitLen ∅ [] [] 0 false newNode newNode [] minKey maxKey in
  match (root ← getNode rKey;
         modify (set_root root);;
         when (bool_decide (n_Left root = [])) (initializeTree rKey);;
         reset) smt with
  | (Ok _, smt) => Ok smt
  | (Err e, _) => Err e
  end.
Definition NewDefaultSMT (st : gmap bytes bytes) : result ErrorI SMT := NewSMT RootKey MaxKeyBitLength st.
Definition Root (s : SMT) : bytes := n_Value (root s).

(** ** Proofs *)

Definition validateTarget (n : node) : T unit :=
  s ← get_smt;
  fail_if (bool_decide (n_Key (root s) = n_Key n) || bool_decide (minKey s = n_Key n) || bool_decide (maxKey s = n_Key n)) ErrReserveKeyWrite.
(** The siblings on the way up, from the last traversed node. *)
Fixpoint sibling_nodes (fuel : nat) (nodes : list node) : T (list lib_Node) :=
  match fuel with
  | O => mret []
  | S fuel =>
      match last nodes, last (Pop nodes) with
      | Some node, Some parent =>
          '(siblingKey, order) ← lift (getOtherChild parent (n_Key node));
          siblingNode ← getNode siblingKey;
          rest ← sibling_nodes fuel (Pop nodes);
          mret (MkLibNode (n_Value siblingNode) [] [] siblingKey (bit_Z order) :: rest)
      | _, _ => mret []
      end
  end.
Definition GetMerkleProof (k : bytes) : T (list lib_Node) :=
  s ← get_smt;
  key ← lift (newNodeKey (Hash k) (keyBitLength s));
  modify (set_target (MkNode key empty_lib_Node false));;
  validateTarget (MkNode key empty_lib_Node false);;
  reset;;
  traverse;;
  s ← get_smt;
  modify (set_traversed (traversed s ++ [current s]));;
  siblings ← sibling_nodes (length (traversed s)) (traversed s ++ [current s]);
  mret (MkLibNode (n_Value (current s)) [] [] (n_Key (current s)) 0 :: siblings).

(** One round of the reconstruction: the key and hash of the parent.  The test
    that chooses which key is asked for its bits compares the current key with
    itself: it only differs on an empty key, which counting fills in. *)
Definition proof_step (last : bool) (sibling : lib_Node) (currentKey hash : bytes) : T (bytes * bytes) :=
  let '(hash, links) :=
    if Bitmask sibling =? 0
    then (Hash (pn_Key sibling ++ Value sibling ++ currentKey ++ hash), (pn_Key sibling, currentKey))
    else (Hash (currentKey ++ hash ++ pn_Key sibling ++ Value sibling), (currentKey, pn_Key sibling)) in
  '(_, gcp) ← lift (match currentKey with
                    | [] => greatestCommonPrefix (counted currentKey) 0 [] (pn_Key sibling)
                    | _ => greatestCommonPrefix (pn_Key sibling) 0 [] currentKey
                    end);
  let parentNode := MkNode gcp (MkLibNode hash (fst links) (snd links) [] 0) false in
  setNode parentNode;;
  when last (modify (set_root parentNode));;
  mret (gcp, hash).
Fixpoint proof_steps (siblings : list lib_Node) (currentKey hash : bytes) : T bytes :=
  match siblings with
  | [] => mret hash
  | sibling :: rest =>
      '(currentKey, hash) ← proof_step (bool_decide (rest = [])) sibling currentKey hash;
      proof_steps rest currentKey hash
  end.
(** What is checked in the tree rebuilt from the proof. *)
Definition verify_in (k v root : bytes) (validateMembership : bool) (leaf : lib_Node) (siblings : list lib_Node) : T bool :=
  setNode (MkNode (pn_Key leaf) (MkLibNode (Value leaf) [] [] (pn_Key leaf) 0) false);;
  hash ← proof_steps siblings (pn_Key leaf) (Value leaf);
  if negb (bool_decide (hash = root)) then mret false else
  s ← get_smt;
  key ← lift (newNodeKey (Hash k) (keyBitLength s));
  modify (set_target (MkNode key empty_lib_Node false));;
  validateTarget (MkNode key empty_lib_Node false);;
  reset;;
  traverse;;
  s ← get_smt;
  let nodeExists := bool_decide (n_Key (target s) = gcp s) in
  if (negb nodeExists && validateMembership) || (nodeExists && negb validateMembership) then mret false
  else if negb nodeExists && negb validateMembership then mret true
  else mret (bool_decide (Value leaf = Hash v)).
Definition VerifyProof (keyBits : nat) (k v : bytes) (validateMembership : bool) (root : bytes) (proof : list lib_Node) : result ErrorI bool :=
  match proof with
  | leaf :: (_ :: _) as siblings =>
      smt ← NewSMT RootKey keyBits ∅;
      fst (verify_in k v root validateMembership leaf siblings smt)
  | _ => Err ErrInvalidMerkleTreeProof
  end.
End smt.
