(* ===== verification/SmtTree.v ===== *)
(** * Compressed binary tries, the specification of the sparse Merkle tree

    A tree of leaves under bit string keys, each inner node labelled with the
    longest common prefix of its leaves; what insertion and removal are, and that
    a well formed tree is determined by its leaves. *)
From S2P Require Import Prelude LibUtil State Crypto SmtKey.
#[local] Open Scope nat_scope.

Inductive tree : Type :=
| Leaf (k : bits) (v : bytes)
| Inner (p : bits) (l r : tree).
Definition label (t : tree) : bits := match t with Leaf k _ => k | Inner p _ _ => p end.
Fixpoint labels (t : tree) : list bits :=
  match t with Leaf k _ => [k] | Inner p l r => p :: labels l ++ labels r end.
(** The leaves, as a map. *)
Fixpoint leaves (t : tree) : gmap bits bytes :=
  match t with Leaf k v => {[ k := v ]} | Inner _ l r => leaves l ∪ leaves r end.
(** Keys have [n] bits; the children of a node extend its label by 0 and by 1. *)
Fixpoint wf_tree (n : nat) (t : tree) : Prop :=
  match t with
  | Leaf k _ => length k = n
  | Inner p l r => wf_tree n l ∧ wf_tree n r ∧ p ++ [false] `prefix_of` label l ∧ p ++ [true] `prefix_of` label r
  end.

(** The new parent of a subtree and a leaf outside of it. *)
Definition join (k : bits) (v : bytes) (t : tree) : tree :=
  let c := common k (label t) in
  match k !! length c with
  | Some true => Inner c t (Leaf k v)
  | _ => Inner c (Leaf k v) t
  end.
(** The child on the path of a key. *)
Definition goes_right (p k : bits) : bool := default false (k !! length p).
Fixpoint put (k : bits) (v : bytes) (t : tree) : tree :=
  match t with
  | Leaf k' _ => if decide (k = k') then Leaf k v else join k v t
  | Inner p l r =>
      if decide (p `prefix_of` k) then
        if goes_right p k then Inner p l (put k v r) else Inner p (put k v l) r
      else join k v t
  end.
Fixpoint del (k : bits) (t : tree) : option tree :=
  match t with
  | Leaf k' _ => if decide (k = k') then None else Some t
  | Inner p l r =>
      if decide (p `prefix_of` k) then
        if goes_right p k then Some (match del k r with None => l | Some r' => Inner p l r' end)
        else Some (match del k l with None => r | Some l' => Inner p l' r end)
      else Some t
  end.

(** ** Well formed trees *)

Section wf.
Context (n : nat).

Lemma wf_label t : wf_tree n t → length (label t) ≤ n.
Proof.
  induction t as [k v|p l IHl r IHr]; cbn; [lia|]. intros (Hl & _ & Hp%prefix_length & _). rewrite length_app in Hp. cbn in Hp.
  specialize (IHl Hl). lia.
Qed.
Lemma wf_inner_label p l r : wf_tree n (Inner p l r) → length p < n.
Proof. cbn. intros (Hl & _ & Hp%prefix_length & _). rewrite length_app in Hp. cbn in Hp. apply wf_label in Hl. lia. Qed.
Lemma labels_prefix t q : wf_tree n t → q ∈ labels t → label t `prefix_of` q.
Proof.
  induction t as [k v|p l IHl r IHr]; cbn; [intros _ ->%list_elem_of_singleton; done|].
  intros (Hl & Hr & Pl & Pr) [->|[Hq|Hq]%elem_of_app]%elem_of_cons; [done| |].
  - etrans; [|by apply IHl]. etrans; [|exact Pl]. by apply prefix_app_r.
  - etrans; [|by apply IHr]. etrans; [|exact Pr]. by apply prefix_app_r.
Qed.
Lemma prefix_ne (p k1 k2 : bits) b : p ++ [b] `prefix_of` k1 → p ++ [negb b] `prefix_of` k2 → k1 ≠ k2.
Proof. intros [x ->] [y Hy] He. rewrite <- !app_assoc in He, Hy. rewrite Hy in He. apply app_inv_head in He. by destruct b. Qed.
Lemma labels_NoDup t : wf_tree n t → NoDup (labels t).
Proof.
  induction t as [k v|p l IHl r IHr]; cbn; [intros; apply NoDup_singleton|]. intros (Hl & Hr & Pl & Pr).
  apply NoDup_cons. split.
  - intros [Hq|Hq]%elem_of_app; apply labels_prefix in Hq; try done.
    + pose proof (prefix_length _ _ (transitivity Pl Hq)) as Hlen. rewrite length_app in Hlen. cbn in Hlen. lia.
    + pose proof (prefix_length _ _ (transitivity Pr Hq)) as Hlen. rewrite length_app in Hlen. cbn in Hlen. lia.
  - apply NoDup_app. split_and!; [auto| |auto]. intros q Hq1 Hq2. apply labels_prefix in Hq1, Hq2; [|done..].
    by apply (prefix_ne p q q false); [etrans; [exact Pl|]|etrans; [exact Pr|]|].
Qed.
Lemma leaves_labels t k v : leaves t !! k = Some v → k ∈ labels t.
Proof.
  induction t as [k' v'|p l IHl r IHr]; cbn; [intros [<- _]%lookup_singleton_Some; set_solver|].
  intros [Hk|[_ Hk]]%lookup_union_Some_raw; set_solver.
Qed.
Lemma leaves_prefix t k v : wf_tree n t → leaves t !! k = Some v → label t `prefix_of` k ∧ length k = n.
Proof.
  intros Hw Hk. split; [by eapply labels_prefix, leaves_labels|]. revert Hw Hk.
  induction t as [k' v'|p l IHl r IHr]; cbn; [intros Hn [<- _]%lookup_singleton_Some; done|].
  intros (Hl & Hr & _ & _) [Hk|[_ Hk]]%lookup_union_Some_raw; auto.
Qed.
Lemma leaves_disjoint p l r : wf_tree n (Inner p l r) → leaves l ##ₘ leaves r.
Proof.
  intros (Hl & Hr & Pl & Pr). apply map_disjoint_spec. intros k v w Hv Hw.
  apply leaves_prefix in Hv as [Hv _], Hw as [Hw _]; [|done..].
  by apply (prefix_ne p k k false); [etrans; [exact Pl|]|etrans; [exact Pr|]|].
Qed.
Lemma leaves_inhabited t : ∃ k v, leaves t !! k = Some v.
Proof.
  induction t as [k v|p l [k [v Hk]] r _]; cbn; [exists k, v; apply lookup_singleton_eq|].
  exists k, v. apply lookup_union_Some_raw. by left.
Qed.

(** A well formed tree is determined by its leaves. *)
Lemma prefix_snoc_inv (p k : bits) : p `prefix_of` k → length p < length k → p ++ [goes_right p k] `prefix_of` k.
Proof.
  intros [s ->] Hl. destruct s as [|b s]; [rewrite app_nil_r in Hl; lia|]. exists s. unfold goes_right.
  rewrite lookup_app_r, Nat.sub_diag by done. cbn. by rewrite <- app_assoc.
Qed.
Lemma goes_right_snoc p k b : p ++ [b] `prefix_of` k → goes_right p k = b.
Proof. intros [s ->]. unfold goes_right. by rewrite <- app_assoc, lookup_app_r, Nat.sub_diag. Qed.
Lemma snoc_prefix (p k : bits) b : p ++ [b] `prefix_of` k → p `prefix_of` k.
Proof. intros Hp. etrans; [|exact Hp]. by apply prefix_app_r. Qed.

(** The label is the longest prefix of all leaves. *)
Lemma label_common t q : wf_tree n t → (∀ k v, leaves t !! k = Some v → q `prefix_of` k) → q `prefix_of` label t.
Proof.
  intros Hw Hq. destruct t as [k v|p l r]; cbn in *.
  - apply (Hq k v). apply lookup_singleton_eq.
  - destruct Hw as (Hl & Hr & Pl & Pr).
    destruct (leaves_inhabited l) as (k1 & v1 & H1), (leaves_inhabited r) as (k2 & v2 & H2).
    assert (Q1 : q `prefix_of` k1) by (apply (Hq k1 v1), lookup_union_Some_raw; by left).
    assert (Q2 : q `prefix_of` k2).
    { apply (Hq k2 v2). apply lookup_union_Some; [by apply (leaves_disjoint p)|by right]. }
    apply leaves_prefix in H1 as [H1 _], H2 as [H2 _]; [|done..].
    assert (P1 : p ++ [false] `prefix_of` k1) by (by etrans). assert (P2 : p ++ [true] `prefix_of` k2) by (by etrans).
    destruct (prefix_weak_total q (p ++ [false]) k1 Q1 P1) as [Hs|Hs].
    + destruct (decide (length q ≤ length p)) as [Hle|Hgt].
      * destruct Hs as [s Hs]. destruct s as [|b s _] using rev_ind; [|].
        -- rewrite app_nil_r in Hs. rewrite <- Hs, length_app in Hle. cbn in Hle. lia.
        -- rewrite app_assoc in Hs. apply app_inj_tail in Hs as [-> _]. by apply prefix_app_r.
      * exfalso. assert (Hq2 : q = p ++ [false]).
        { apply prefix_length_eq; [done|]. rewrite length_app. cbn. lia. }
        rewrite Hq2 in Q2. by apply (prefix_ne p k2 k2 false).
    + exfalso. assert (p ++ [false] `prefix_of` k2) by (by etrans). by apply (prefix_ne p k2 k2 false).
Qed.
Theorem tree_unique t1 t2 : wf_tree n t1 → wf_tree n t2 → leaves t1 = leaves t2 → t1 = t2.
Proof.
  revert t2. induction t1 as [k v|p l IHl r IHr]; intros t2 W1 W2 He.
  - destruct t2 as [k2 v2|p2 l2 r2].
    + cbn in He. assert (Hk : ({[k2 := v2]} : gmap bits bytes) !! k = Some v) by (rewrite <- He; apply lookup_singleton_eq).
      by apply lookup_singleton_Some in Hk as [-> ->].
    + exfalso. destruct (leaves_inhabited l2) as (k3 & v3 & H3), (leaves_inhabited r2) as (k4 & v4 & H4).
      assert (E3 : leaves (Inner p2 l2 r2) !! k3 = Some v3) by (apply lookup_union_Some_raw; by left).
      assert (E4 : leaves (Inner p2 l2 r2) !! k4 = Some v4).
      { apply lookup_union_Some; [by apply (leaves_disjoint p2)|by right]. }
      rewrite <- He in E3, E4. cbn in E3, E4. apply lookup_singleton_Some in E3 as [<- _], E4 as [<- _].
      pose proof (leaves_disjoint p2 _ _ W2) as Hd. by eapply map_disjoint_spec.
  - pose proof W1 as (Wl & Wr & Pl & Pr).
    assert (Hlab : label (Inner p l r) = label t2).
    { apply (anti_symm prefix).
      - apply label_common; [done|]. intros k v Hk. rewrite <- He in Hk. by apply leaves_prefix in Hk as [? _].
      - apply label_common; [done|]. intros k v Hk. rewrite He in Hk. by apply leaves_prefix in Hk as [? _]. }
    destruct t2 as [k2 v2|p2 l2 r2]; cbn in Hlab; subst.
    + exfalso. apply wf_inner_label in W1. cbn in W2. lia.
    + destruct W2 as (Wl2 & Wr2 & Pl2 & Pr2).
      assert (Hside : ∀ (a b a2 b2 : tree) c, wf_tree n a → wf_tree n b → wf_tree n a2 → wf_tree n b2 →
        p2 ++ [c] `prefix_of` label a → p2 ++ [c] `prefix_of` label a2 → p2 ++ [negb c] `prefix_of` label b → p2 ++ [negb c] `prefix_of` label b2 →
        (∀ k v, leaves a !! k = Some v ∨ leaves b !! k = Some v ↔ leaves a2 !! k = Some v ∨ leaves b2 !! k = Some v) →
        leaves a = leaves a2).
      { intros a b a2 b2 c Wa Wb Wa2 Wb2 Pa Pa2 Pb Pb2 Hiff. apply map_eq. intros k. apply option_eq. intros v.
        split; intros Hk; pose proof Hk as Hk0; apply leaves_prefix in Hk0 as [Hk0 _]; try done.
        - destruct (proj1 (Hiff k v) (or_introl Hk)) as [?|Hb]; [done|]. apply leaves_prefix in Hb as [Hb _]; [|done].
          exfalso. by apply (prefix_ne p2 k k c); [etrans; [exact Pa|]|etrans; [exact Pb2|]|].
        - destruct (proj2 (Hiff k v) (or_introl Hk)) as [?|Hb]; [done|]. apply leaves_prefix in Hb as [Hb _]; [|done].
          exfalso. by apply (prefix_ne p2 k k c); [etrans; [exact Pa2|]|etrans; [exact Pb|]|]. }
      assert (Hiff : ∀ k v, leaves l !! k = Some v ∨ leaves r !! k = Some v ↔ leaves l2 !! k = Some v ∨ leaves r2 !! k = Some v).
      { intros k v. rewrite <- !lookup_union_Some by (by apply (leaves_disjoint p2)). cbn in He. by rewrite He. }
      rewrite (IHl l2 Wl Wl2), (IHr r2 Wr Wr2); [done| |].
      * apply (Hside r l r2 l2 true); try done. intros k v. rewrite !(or_comm (leaves r !! k = _)), !(or_comm (leaves r2 !! k = _)). apply Hiff.
      * by apply (Hside l r l2 r2 false).
Qed.

(** ** Insertion and removal *)

Lemma not_label_prefix t k : wf_tree n t → length k = n → ¬ label t `prefix_of` k → ¬ k `prefix_of` label t.
Proof.
  intros Hw Hk Hn Hp. apply Hn. assert (He : k = label t); [|by rewrite <- He].
  apply prefix_length_eq; [done|]. rewrite Hk. by apply wf_label.
Qed.
Lemma join_cases t k v : wf_tree n t → length k = n → ¬ label t `prefix_of` k →
  ∃ x r s, k = common k (label t) ++ x :: r ∧ label t = common k (label t) ++ negb x :: s ∧
    join k v t = if x then Inner (common k (label t)) t (Leaf k v) else Inner (common k (label t)) (Leaf k v) t.
Proof.
  intros Hw Hk Hn. destruct (common_split k (label t)) as (x & r & s & H1 & H2); [done|by apply not_label_prefix|].
  exists x, r, s. split_and!; [done..|]. unfold join.
  assert (Hx : k !! length (common k (label t)) = Some x).
  { generalize dependent (common k (label t)). intros c -> _. by rewrite lookup_app_r, Nat.sub_diag. }
  rewrite Hx. by destruct x.
Qed.
Lemma wf_join t k v : wf_tree n t → length k = n → ¬ label t `prefix_of` k → wf_tree n (join k v t).
Proof.
  intros Hw Hk Hn. destruct (join_cases t k v Hw Hk Hn) as (x & r & s & H1 & H2 & ->).
  assert (P1 : common k (label t) ++ [x] `prefix_of` k) by (exists r; rewrite <- app_assoc; exact H1).
  assert (P2 : common k (label t) ++ [negb x] `prefix_of` label t) by (exists s; rewrite <- app_assoc; exact H2).
  destruct x; cbn; split_and!; done.
Qed.
Lemma leaves_outside t k : wf_tree n t → ¬ label t `prefix_of` k → leaves t !! k = None.
Proof. intros Hw Hn. destruct (leaves t !! k) as [v|] eqn:E; [|done]. by apply leaves_prefix in E as [? _]. Qed.
Lemma leaves_join t k v : wf_tree n t → length k = n → ¬ label t `prefix_of` k → leaves (join k v t) = <[k := v]> (leaves t).
Proof.
  intros Hw Hk Hn. destruct (join_cases t k v Hw Hk Hn) as (x & r & s & _ & _ & ->).
  pose proof (leaves_outside t k Hw Hn) as Ho. rewrite insert_union_singleton_l.
  destruct x; cbn; [|done]. apply map_union_comm. by apply map_disjoint_singleton_r.
Qed.
Lemma common_prefix_both q a b : q `prefix_of` a → q `prefix_of` b → q `prefix_of` common a b.
Proof. intros [x ->] [y ->]. rewrite common_app. by apply prefix_app_r. Qed.

Lemma put_spec t k v : wf_tree n t → length k = n →
  wf_tree n (put k v t) ∧ leaves (put k v t) = <[k := v]> (leaves t) ∧
  (∀ q, q `prefix_of` label t → q `prefix_of` k → q `prefix_of` label (put k v t)).
Proof.
  intros Hw Hk. assert (Hjoin : ¬ label t `prefix_of` k →
    wf_tree n (join k v t) ∧ leaves (join k v t) = <[k := v]> (leaves t) ∧
    (∀ q, q `prefix_of` label t → q `prefix_of` k → q `prefix_of` label (join k v t))).
  { intros Hn. split_and!; [by apply wf_join|by apply leaves_join|]. intros q Q1 Q2.
    destruct (join_cases t k v Hw Hk Hn) as (x & r & s & _ & _ & ->). destruct x; cbn; by apply common_prefix_both. }
  revert Hw Hjoin. induction t as [k' v'|p l IHl r IHr]; intros Hw Hjoin; cbn [put].
  { case_decide as E; [subst; cbn; split_and!; [done|by rewrite insert_singleton_eq|done]|].
    apply Hjoin. cbn. intros Hp. apply E. symmetry. apply prefix_length_eq; [done|]. cbn in Hw. lia. }
  case_decide as E; [|by apply Hjoin]. clear Hjoin. pose proof (wf_inner_label _ _ _ Hw) as Hlp.
  pose proof (prefix_snoc_inv p k E ltac:(lia)) as Hb. pose proof (leaves_disjoint p l r Hw) as Hd. destruct Hw as (Hl & Hr & Pl & Pr).
  assert (Hj : ∀ t : tree, wf_tree n t → ¬ label t `prefix_of` k →
    wf_tree n (join k v t) ∧ leaves (join k v t) = <[k := v]> (leaves t) ∧
    (∀ q, q `prefix_of` label t → q `prefix_of` k → q `prefix_of` label (join k v t))).
  { intros t Hw Hn. split_and!; [by apply wf_join|by apply leaves_join|]. intros q Q1 Q2.
    destruct (join_cases t k v Hw Hk Hn) as (x & r' & s & _ & _ & ->). destruct x; cbn; by apply common_prefix_both. }
  destruct (goes_right p k) eqn:G.
  - destruct (IHr Hr (Hj r Hr)) as (W & L & Q). cbn. split_and!; auto. rewrite L.
    rewrite insert_union_r; [done|]. apply leaves_outside; [done|]. intros Hp.
    by apply (prefix_ne p k k false); [etrans|..].
  - destruct (IHl Hl (Hj l Hl)) as (W & L & Q). cbn. split_and!; auto. by rewrite L, insert_union_l.
Qed.

Lemma del_spec t k : wf_tree n t → length k = n →
  match del k t with
  | None => ∃ v, t = Leaf k v
  | Some t' => wf_tree n t' ∧ leaves t' = delete k (leaves t) ∧ label t `prefix_of` label t'
  end.
Proof.
  intros Hw Hk. induction t as [k' v'|p l IHl r IHr]; cbn [del].
  { case_decide as E; [subst; eauto|]. split_and!; [done| |done]. cbn. by rewrite delete_singleton_ne. }
  case_decide as E.
  2:{ split_and!; [done| |done]. symmetry. apply delete_id. by apply leaves_outside. }
  pose proof (wf_inner_label _ _ _ Hw) as Hlp. pose proof (prefix_snoc_inv p k E ltac:(lia)) as Hb.
  pose proof (leaves_disjoint p l r Hw) as Hd. destruct Hw as (Hl & Hr & Pl & Pr).
  destruct (goes_right p k) eqn:G.
  - assert (Hout : leaves l !! k = None).
    { apply leaves_outside; [done|]. intros Hp. by apply (prefix_ne p k k false); [etrans|..]. }
    specialize (IHr Hr). destruct (del k r) as [r'|].
    + destruct IHr as (W & L & Q). cbn. split; [split_and!; first [done|exact (transitivity Pr Q)]|]. split; [|done].
      rewrite L, delete_union, (delete_id (leaves l)) by done. done.
    + destruct IHr as [v ->]. split_and!; [done| |cbn; by eapply snoc_prefix]. cbn.
      rewrite delete_union, (delete_id (leaves l)), delete_singleton_eq by done. by rewrite map_union_empty.
  - assert (Hout : leaves r !! k = None).
    { apply leaves_outside; [done|]. intros Hp. by apply (prefix_ne p k k false); [|etrans|]. }
    specialize (IHl Hl). destruct (del k l) as [l'|].
    + destruct IHl as (W & L & Q). cbn. split; [split_and!; first [done|exact (transitivity Pl Q)]|]. split; [|done].
      rewrite L, delete_union, (delete_id (leaves r)) by done. done.
    + destruct IHl as [v ->]. split_and!; [done| |cbn; by eapply snoc_prefix]. cbn.
      rewrite delete_union, (delete_id (leaves r)), delete_singleton_eq by done. by rewrite map_empty_union.
Qed.

(** ** Paths: the frames from a subtree up, innermost first *)

Record frame : Type := MkFrame { f_p : bits; f_dir : bool; f_sib : tree }.
Definition fill (f : frame) (t : tree) : tree :=
  if f_dir f then Inner (f_p f) (f_sib f) t else Inner (f_p f) t (f_sib f).
Fixpoint plug (fs : list frame) (t : tree) : tree := match fs with [] => t | f :: fs => plug fs (fill f t) end.
Definition on_path (k : bits) (f : frame) : Prop := f_p f ++ [f_dir f] `prefix_of` k.

Lemma plug_app fs gs t : plug (fs ++ gs) t = plug gs (plug fs t).
Proof. revert t. induction fs as [|f fs IH]; intros t; cbn; auto. Qed.
Lemma fill_wf f t : wf_tree n (fill f t) ↔
  wf_tree n t ∧ wf_tree n (f_sib f) ∧ f_p f ++ [f_dir f] `prefix_of` label t ∧ f_p f ++ [negb (f_dir f)] `prefix_of` label (f_sib f).
Proof. unfold fill. destruct (f_dir f); cbn; naive_solver. Qed.
Lemma fill_labels f t : labels (fill f t) ≡ₚ labels t ++ f_p f :: labels (f_sib f).
Proof. unfold fill. destruct (f_dir f); cbn; solve_Permutation. Qed.
Lemma plug_wf fs t : wf_tree n (plug fs t) → wf_tree n t.
Proof. revert t. induction fs as [|f fs IH]; intros t; cbn; [done|]. by intros [Hw _]%IH%fill_wf. Qed.
Lemma plug_labels fs t : labels (plug fs t) ≡ₚ labels t ++ concat (map (λ f, f_p f :: labels (f_sib f)) fs).
Proof.
  revert t. induction fs as [|f fs IH]; intros t; cbn [plug map concat]; [by rewrite app_nil_r|].
  rewrite IH, fill_labels. by rewrite <- app_assoc.
Qed.
Lemma fill_put f k v t : on_path k f → put k v (fill f t) = fill f (put k v t).
Proof.
  intros Hp. pose proof (goes_right_snoc _ _ _ Hp) as G. apply snoc_prefix in Hp. unfold fill.
  destruct (f_dir f); cbn; by rewrite decide_True, G.
Qed.
Lemma plug_put fs k v t : Forall (on_path k) fs → put k v (plug fs t) = plug fs (put k v t).
Proof. intros Hp. revert t. induction Hp as [|f fs Hf _ IH]; intros t; cbn; [done|]. by rewrite IH, fill_put. Qed.
Lemma fill_del f k t : on_path k f →
  del k (fill f t) = Some (match del k t with None => f_sib f | Some t' => fill f t' end).
Proof.
  intros Hp. pose proof (goes_right_snoc _ _ _ Hp) as G. apply snoc_prefix in Hp. unfold fill.
  destruct (f_dir f); cbn; by rewrite decide_True, G.
Qed.
Lemma plug_del fs k t t' : Forall (on_path k) fs → del k t = Some t' → del k (plug fs t) = Some (plug fs t').
Proof. intros Hp. revert t t'. induction Hp as [|f fs Hf _ IH]; intros t t' Ht; cbn; [done|]. apply IH. by rewrite fill_del, Ht. Qed.
End wf.
