(* ===== verification/SmtRefine.v ===== *)
(** * The sparse Merkle tree refines its tree of leaves

    A store represents a tree when every subtree is stored under its label as
    the node the tree prescribes.  [Commit], with its cache, its deferred hashing
    and its parents changed in memory, takes the representation of a tree to the
    representation of the tree with the operations applied. *)
From S2P Require Import Prelude LibUtil State Crypto TxnStore SmtKey Smt SmtTree.
#[local] Open Scope nat_scope.

Lemma length_enc_bounds bs : length bs <= 8 * length (enc bs) ∧ length (enc bs) <= S (length bs).
Proof.
  destruct (decide (bs = [])) as [->|Hne]; [cbn; lia|]. revert bs Hne. apply chunk_ind.
  - intros c Hc. rewrite enc_last by done. cbn. lia.
  - intros c r Hc Hr IH. rewrite enc_app by done. cbn [length]. rewrite length_app. lia.
Qed.

(** Running the elementary operations. *)
Section run.
Context {A B : Type}.
Lemma run_get (f : SMT → M SMT ErrorI B) s : (get_smt ≫= f) s = f s s.
Proof. done. Qed.
Lemma run_modify g (f : () → M SMT ErrorI B) s : (modify g ≫= f) s = f () (g s).
Proof. done. Qed.
Lemma run_lift r (a : A) (f : A → M SMT ErrorI B) s : r = Ok a → (lift r ≫= f) s = f a s.
Proof. by intros ->. Qed.
Lemma run_ret (a : A) (f : A → M SMT ErrorI B) s : (mret a ≫= f) s = f a s.
Proof. done. Qed.
End run.
(** The projections of an updated state. *)
Ltac smt_proj := cbn [store root keyBitLength nodeCache operations gcp bitPos pathBit target current traversed minKey maxKey
  set_store set_root set_nodeCache set_operations set_path set_pathBit set_target set_current set_traversed].
Ltac run := rewrite ?run_get, ?run_modify, ?run_ret; cbv beta.

(** ** Stored nodes *)

Definition ok_key (k : bytes) : Prop := k ≠ [] ∧ length k < 256.
Lemma store_key_inj k1 k2 : ok_key k1 → ok_key k2 → store_key k1 = store_key k2 → k1 = k2.
Proof.
  intros [N1 L1] [N2 L2] He. destruct k1 as [|x k1]; [done|]. destruct k2 as [|y k2]; [done|].
  apply (JoinLenPrefix_inj [x :: k1] [y :: k2]) in He; [by injection He as -> ->|by apply Forall_singleton..].
Qed.

(** What the code relies on of the serialization of nodes. *)
Class NodeCodecLaws `{NodeCodec} : Prop := Unmarshal_Marshal : ∀ n, UnmarshalNode (MarshalNode n) = Some n.

Section stored.
Context `{Crypto} `{NodeCodec} `{!NodeCodecLaws}.

Definition look (st : gmap bytes bytes) (k : bytes) : option lib_Node := st !! store_key k ≫= UnmarshalNode.
Arguments look : simpl never.
Lemma look_insert st k n : look (<[store_key k := MarshalNode n]> st) k = Some n.
Proof. unfold look. rewrite lookup_insert_eq. cbn. apply Unmarshal_Marshal. Qed.
Lemma look_insert_ne st k k' bz : ok_key k → ok_key k' → k ≠ k' → look (<[store_key k := bz]> st) k' = look st k'.
Proof. intros Ha Hb Hne. unfold look. rewrite lookup_insert_ne; [done|]. intros He. by apply Hne, store_key_inj. Qed.
Lemma look_delete_ne st k k' : ok_key k → ok_key k' → k ≠ k' → look (delete (store_key k) st) k' = look st k'.
Proof. intros Ha Hb Hne. unfold look. rewrite lookup_delete_ne; [done|]. intros He. by apply Hne, store_key_inj. Qed.

(** The cache holds what the store holds. *)
Definition coherent (s : SMT) : Prop :=
  ∀ k n, nodeCache s !! k = Some n → ok_key k ∧ n_Key n = k ∧ look (store s) k = Some (n_Node n).
Lemma getNode_spec s k N : coherent s → look (store s) k = Some N →
  ∃ n, getNode k s = (Ok n, s) ∧ n_Key n = k ∧ n_Node n = N.
Proof.
  intros Hc Hk. unfold getNode, get_smt, gets, mbind, M_bind, id.
  destruct (nodeCache s !! k) as [n|] eqn:E.
  - apply Hc in E as (_ & E1 & E2). exists n. split_and!; [done..|]. congruence.
  - unfold look in Hk. destruct (store s !! store_key k) as [bz|]; [|done]. cbn in Hk. rewrite Hk. by eexists.
Qed.
(** The effect of [setNode] and of [delNode] on the store and the cache. *)
Lemma setNode_spec s n : coherent s → ok_key (n_Key n) →
  ∃ c, setNode n s = (Ok tt, set_store (<[store_key (n_Key n) := MarshalNode (n_Node n)]> (store s)) (set_nodeCache c s)) ∧
    coherent (set_store (<[store_key (n_Key n) := MarshalNode (n_Node n)]> (store s)) (set_nodeCache c s)).
Proof.
  intros Hc Hk. exists (<[n_Key n := n]> (if (MaxCacheSize <=? size (nodeCache s))%nat then ∅ else nodeCache s)).
  split; [reflexivity|]. intros k m. cbn [nodeCache store set_store set_nodeCache].
  assert (Hcase : ∀ c : gmap bytes node, c ⊆ nodeCache s → <[n_Key n := n]> c !! k = Some m →
    ok_key k ∧ n_Key m = k ∧ look (<[store_key (n_Key n) := MarshalNode (n_Node n)]> (store s)) k = Some (n_Node m)).
  { intros c Hsub [[<- <-]|[Hne Hm]]%lookup_insert_Some; [by rewrite look_insert|].
    apply (lookup_weaken _ _ _ _ Hm) in Hsub. apply Hc in Hsub as (O & K & L). split_and!; [done..|].
    by rewrite look_insert_ne. }
  apply Hcase. case_match; [apply map_empty_subseteq|done].
Qed.
Lemma delNode_spec s k : coherent s → ok_key k →
  delNode k s = (Ok tt, set_store (delete (store_key k) (store s)) (set_nodeCache (delete k (nodeCache s)) s)) ∧
  coherent (set_store (delete (store_key k) (store s)) (set_nodeCache (delete k (nodeCache s)) s)).
Proof.
  intros Hc Hk. split; [reflexivity|]. intros k' m. cbn [nodeCache store set_store set_nodeCache]. intros [Hne Hm]%lookup_delete_Some.
  apply Hc in Hm as (O & K & L). split_and!; [done..|]. by rewrite look_delete_ne.
Qed.
End stored.

(** ** Representations *)

Section rep.
Context `{Crypto} `{NodeCodec} `{!NodeCodecLaws}.
(** Keys have [n] bits; the root is stored under the bits [rkb]. *)
Context (n : nat) (rkb : bits) (Hn : 1 <= n <= 200) (Hrkb : length rkb = n).

Definition name (p : bits) : bytes := enc (match p with [] => rkb | _ => p end).
Arguments name : simpl never.
Lemma name_ne p : p ≠ [] → name p = enc p.
Proof. by destruct p. Qed.
Lemma ok_enc p : p ≠ [] → length p <= n → ok_key (enc p).
Proof. intros Hp Hl. split; [by apply enc_ne|]. destruct (length_enc_bounds p). lia. Qed.
Lemma ok_name p : length p <= n → ok_key (name p).
Proof. intros Hp. unfold name. destruct p as [|b p]; apply ok_enc; try done; [|lia]. intros ->. cbn in Hrkb. lia. Qed.
Lemma name_inj p q : p ≠ rkb → q ≠ rkb → name p = name q → p = q.
Proof. intros Hp Hq He. apply enc_inj in He. destruct p, q; congruence. Qed.
Lemma rkb_ne p : length p < n → p ≠ rkb.
Proof. intros Hp ->. lia. Qed.

(** The value of a subtree: the Merkle hash. *)
Fixpoint merkle (t : tree) : bytes :=
  match t with
  | Leaf _ v => v
  | Inner _ l r => Hash (enc (label l) ++ merkle l ++ enc (label r) ++ merkle r)
  end.
Definition node_of (t : tree) : lib_Node :=
  match t with
  | Leaf _ v => leaf_Node v
  | Inner _ l r => MkLibNode (merkle t) (enc (label l)) (enc (label r)) [] 0
  end.
Lemma node_of_Value t : Value (node_of t) = merkle t.
Proof. by destruct t. Qed.
Fixpoint rep (st : gmap bytes bytes) (t : tree) : Prop :=
  look st (name (label t)) = Some (node_of t) ∧ match t with Leaf _ _ => True | Inner _ l r => rep st l ∧ rep st r end.
Definition kids_rep (st : gmap bytes bytes) (t : tree) : Prop :=
  match t with Leaf _ _ => False | Inner _ l r => rep st l ∧ rep st r end.
Lemma rep_look st t : rep st t → look st (name (label t)) = Some (node_of t).
Proof. by destruct t; intros [? _]. Qed.

(** A write outside of a subtree's labels leaves its representation alone. *)
Lemma rep_other st st' t : (∀ q, q ∈ labels t → look st' (name q) = look st (name q)) → rep st t → rep st' t.
Proof.
  induction t as [k v|p l IHl r IHr]; cbn; intros Ho; [intros [Hk _]; split; [|done]; rewrite Ho; [done|set_solver]|].
  intros (Hk & Hl & Hr). split_and!; [rewrite Ho; [done|set_solver]| |]; [apply IHl|apply IHr]; try done; intros q Hq; apply Ho; set_solver.
Qed.
Lemma wf_labels_length t q : wf_tree n t → q ∈ labels t → length q <= n.
Proof.
  induction t as [k v|p l IHl r IHr]; [cbn; intros Hk ->%list_elem_of_singleton; lia|].
  intros Hw Hq. cbn in Hq. apply elem_of_cons in Hq as [->|[Hq|Hq]%elem_of_app].
  - by apply (wf_label n (Inner p l r)).
  - apply IHl; [apply Hw|done].
  - apply IHr; [apply Hw|done].
Qed.
Lemma rep_set st t p bz : wf_tree n t → rkb ∉ labels t → p ∉ labels t → p ≠ rkb → length p <= n →
  rep st t → rep (<[store_key (name p) := bz]> st) t.
Proof.
  intros Hw Hr Hp Hpr Hl. apply rep_other. intros q Hq. pose proof (wf_labels_length t q Hw Hq).
  apply look_insert_ne; [by apply ok_name..|]. intros He%name_inj; set_solver.
Qed.
Lemma rep_del st t p : wf_tree n t → rkb ∉ labels t → p ∉ labels t → p ≠ rkb → length p <= n →
  rep st t → rep (delete (store_key (name p)) st) t.
Proof.
  intros Hw Hr Hp Hpr Hl. apply rep_other. intros q Hq. pose proof (wf_labels_length t q Hw Hq).
  apply look_delete_ne; [by apply ok_name..|]. intros He%name_inj; set_solver.
Qed.

(** A node in memory whose children are up to date; its value may not be. *)
Definition inner_node (nd : node) (t : tree) : Prop :=
  match t with
  | Leaf _ _ => False
  | Inner p l r => n_Key nd = name p ∧ n_Node nd = MkLibNode (n_Value nd) (enc (label l)) (enc (label r)) [] 0
  end.
(** The nodes on the path to a subtree, innermost first. *)
Fixpoint mem_path (ns : list node) (fs : list frame) (t : tree) : Prop :=
  match ns, fs with
  | [], [] => True
  | nd :: ns, f :: fs => inner_node nd (fill f t) ∧ mem_path ns fs (fill f t)
  | _, _ => False
  end.
Lemma inner_node_label nd f t t' : label t = label t' → inner_node nd (fill f t) → inner_node nd (fill f t').
Proof. unfold fill. destruct (f_dir f); cbn; intros ->; done. Qed.
Lemma label_fill f t : label (fill f t) = f_p f.
Proof. unfold fill. by destruct (f_dir f). Qed.
Lemma mem_path_label ns fs t t' : label t = label t' → mem_path ns fs t → mem_path ns fs t'.
Proof.
  destruct ns as [|nd ns], fs as [|f fs]; cbn; try done. intros Hl [Hi Hm]. split; [by eapply inner_node_label|].
  assert (Hf : label (fill f t) = label (fill f t')) by (by rewrite !label_fill).
  clear Hi. revert fs Hf Hm. generalize (fill f t) (fill f t'). clear. induction ns as [|nd ns IH]; intros u u' [|f fs] Hl; cbn; try done.
  intros [Hi Hm]. split; [by eapply inner_node_label|]. eapply IH; [|exact Hm]. by rewrite !label_fill.
Qed.

(** The state of a commit that works on the subtree [u] of [plug fs u]: [nd] is
    its node, [ns] are the nodes above it; everything outside of the path is
    stored. *)
Record focus (s : SMT) (nd : node) (ns : list node) (fs : list frame) (u : tree) : Prop := MkFocus {
  fo_wf : wf_tree n (plug fs u);
  fo_rkb : rkb ∉ labels (plug fs u);
  fo_top : label (plug fs u) = [];
  fo_node : inner_node nd u;
  fo_kids : kids_rep (store s) u;
  fo_mem : mem_path ns fs u;
  fo_sibs : Forall (λ f, rep (store s) (f_sib f)) fs;
  fo_coh : coherent s;
  fo_root : n_Key (root s) = enc rkb;
}.
(** Only the variables of the traversal change. *)
Definition quiet (s s' : SMT) : Prop :=
  store s' = store s ∧ nodeCache s' = nodeCache s ∧ root s' = root s ∧ keyBitLength s' = keyBitLength s ∧
  operations s' = operations s ∧ target s' = target s.
#[export] Instance quiet_po : PreOrder quiet.
Proof. unfold quiet. split; [by intros s|]. intros a b c (-> & -> & -> & -> & -> & ->). done. Qed.
Lemma quiet_focus s s' nd ns fs u : quiet s s' → focus s nd ns fs u → focus s' nd ns fs u.
Proof.
  intros (E1 & E2 & E3 & _) []. split; try done; rewrite ?E1, ?E3; try done. unfold coherent. by rewrite E1, E2.
Qed.

(** ** Well formed paths *)

Lemma plug_wf_frames fs t : wf_tree n (plug fs t) →
  Forall (λ f, wf_tree n (f_sib f) ∧ f_p f ++ [negb (f_dir f)] `prefix_of` label (f_sib f)) fs ∧ Forall (on_path (label t)) fs.
Proof.
  revert t. induction fs as [|f fs IH]; intros t; cbn [plug]; [done|]. intros Hw. pose proof (plug_wf n _ _ Hw) as Hf.
  apply fill_wf in Hf as (Ht & Hs & P1 & P2). apply IH in Hw as [F1 F2]. split; [by constructor|]. constructor; [done|].
  eapply Forall_impl; [exact F2|]. intros g Hg. unfold on_path in *. rewrite label_fill in Hg.
  etrans; [exact Hg|]. by eapply snoc_prefix.
Qed.
Lemma not_in_sib f q : wf_tree n (f_sib f) → f_p f ++ [negb (f_dir f)] `prefix_of` label (f_sib f) → on_path q f → q ∉ labels (f_sib f).
Proof.
  intros Hw Hp Ho Hq. eapply labels_prefix in Hq; [|done]. apply (prefix_ne (f_p f) q q (f_dir f)); [done| |done]. by etrans.
Qed.
Lemma plug_labels_sub fs t q : q ∈ labels t → q ∈ labels (plug fs t).
Proof. intros Hq. rewrite plug_labels. set_solver. Qed.
Lemma plug_labels_sib fs t f q : f ∈ fs → q ∈ labels (f_sib f) → q ∈ labels (plug fs t).
Proof.
  intros Hf Hq. rewrite plug_labels. apply elem_of_app. right. apply list_elem_of_In, in_concat.
  exists (f_p f :: labels (f_sib f)). split; [|apply list_elem_of_In; set_solver]. apply list_elem_of_In, list_elem_of_fmap. eauto.
Qed.
(** A write to a key on the path keeps the siblings. *)
Lemma sibs_set st fs t p bz : wf_tree n (plug fs t) → rkb ∉ labels (plug fs t) → Forall (on_path p) fs → p ≠ rkb → length p <= n →
  Forall (λ f, rep st (f_sib f)) fs → Forall (λ f, rep (<[store_key (name p) := bz]> st) (f_sib f)) fs.
Proof.
  intros Hw Hr Ho Hp Hl Hs. apply plug_wf_frames in Hw as [Hw _]. rewrite Forall_forall in *. intros f Hf.
  apply rep_set; [by apply Hw| | |done..|by apply Hs].
  - intros Hq. by eapply Hr, plug_labels_sib.
  - destruct (Hw f Hf). apply not_in_sib; auto.
Qed.
Lemma sibs_del st fs t p : wf_tree n (plug fs t) → rkb ∉ labels (plug fs t) → Forall (on_path p) fs → p ≠ rkb → length p <= n →
  Forall (λ f, rep st (f_sib f)) fs → Forall (λ f, rep (delete (store_key (name p)) st) (f_sib f)) fs.
Proof.
  intros Hw Hr Ho Hp Hl Hs. apply plug_wf_frames in Hw as [Hw _]. rewrite Forall_forall in *. intros f Hf.
  apply rep_del; [by apply Hw| | |done..|by apply Hs].
  - intros Hq. by eapply Hr, plug_labels_sib.
  - destruct (Hw f Hf). apply not_in_sib; auto.
Qed.
Lemma label_nonroot f fs u : wf_tree n (plug (f :: fs) u) → label u ≠ [].
Proof. intros Hw. cbn in Hw. apply plug_wf, fill_wf in Hw as (_ & _ & Hp & _). intros He. rewrite He in Hp. apply prefix_nil_inv in Hp. by destruct (f_p f). Qed.

(** ** The descent *)

(** The child on the path of a key, and the frame above it. *)
Definition step_child (k : bits) (t : tree) : tree :=
  match t with Leaf _ _ => t | Inner p l r => if goes_right p k then r else l end.
Definition step_frame (k : bits) (t : tree) : frame :=
  match t with
  | Leaf _ _ => MkFrame [] false t
  | Inner p l r => if goes_right p k then MkFrame p true l else MkFrame p false r
  end.
Lemma step_fill k p l r : fill (step_frame k (Inner p l r)) (step_child k (Inner p l r)) = Inner p l r.
Proof. cbn. by destruct (goes_right p k). Qed.

(** Where a descent for the key [k] has got to. *)
Record reached (s : SMT) (k : bits) (nd : node) (ns : list node) (f : frame) (fs : list frame) (w : tree) : Prop := MkReached {
  re_focus : focus s nd ns fs (fill f w);
  re_rep : rep (store s) w;
  re_sib : rep (store s) (f_sib f);
  re_path : Forall (on_path k) (f :: fs);
  re_traversed : traversed s = rev ns ++ [nd];
  re_key : n_Key (current s) = enc (label w);
  re_node : n_Node (current s) = node_of w;
  re_pos : bitPos s = length (common k (label w));
  re_gcp : gcp s = enc (common k (label w));
  re_target : n_Key (target s) = enc k;
}.
Lemma kids_frame st k u nd ns fs w : kids_rep st u → inner_node nd u → w = step_child k u →
  fill (step_frame k u) w = u ∧ rep st w ∧ rep st (f_sib (step_frame k u)) ∧ f_p (step_frame k u) = label u ∧
  mem_path ns fs u = mem_path ns fs (fill (step_frame k u) w).
Proof.
  destruct u as [|p l r]; [done|]. intros [Hl Hr] Hn1 ->. rewrite step_fill. cbn. by destruct (goes_right p k).
Qed.
Lemma enc_eq a b : bool_decide (enc a = enc b) = bool_decide (a = b).
Proof. apply bool_decide_ext. split; [apply enc_inj|by intros ->]. Qed.
Lemma counted_ne k : k ≠ [] → counted k = k.
Proof. by destruct k. Qed.

Lemma traverse_step_spec s k nd ns fs u :
  focus s nd ns fs u → current s = nd → traversed s = rev ns → n_Key (target s) = enc k → length k = n →
  Forall (on_path k) fs → label u `prefix_of` k → bitPos s = length (label u) → gcp s = enc (label u) →
  ∃ stop s', traverse_step s = (Ok stop, s') ∧ quiet s s' ∧
    fill (step_frame k u) (step_child k u) = u ∧ reached s' k nd ns (step_frame k u) fs (step_child k u) ∧
    stop = negb (bool_decide (label (step_child k u) = common k (label (step_child k u)))) || bool_decide (k = common k (label (step_child k u))).
Proof.
  intros Hf Hcur Htr Htg Hk Hfs Hp Hpos Hgcp. destruct u as [|p l r]; [by destruct (fo_node _ _ _ _ _ Hf)|].
  set (u := Inner p l r) in *. pose proof (step_fill k p l r) as Hfill. fold u in Hfill. set (w := step_child k u) in *.
  pose proof (plug_wf n _ _ (fo_wf _ _ _ _ _ Hf)) as Hw. pose proof (wf_inner_label _ _ _ _ Hw) as Hlp.
  pose proof (prefix_snoc_inv p k Hp ltac:(lia)) as Hb. pose proof Hw as (Wl & Wr & Pl & Pr).
  assert (Hww : wf_tree n w) by (unfold w; cbn; by destruct (goes_right p k)).
  assert (Hwp : p ++ [goes_right p k] `prefix_of` label w) by (unfold w; cbn; by destruct (goes_right p k)).
  assert (Hcom : p `prefix_of` common k (label w)).
  { apply common_prefix_both; [done|]. by eapply snoc_prefix. }
  pose proof (wf_label n w Hww) as Hlw.
  assert (Hwne : label w ≠ []) by (intros He; rewrite He in Hwp; apply prefix_nil_inv in Hwp; by destruct p).
  assert (Hbit : bitAt (enc k) (length p) = Ok (goes_right p k)).
  { apply bitAt_enc. destruct (lookup_lt_is_Some_2 k (length p) ltac:(lia)) as [x Hx]. unfold goes_right. by rewrite Hx. }
  assert (Hchild : (if goes_right p k then n_Right nd else n_Left nd) = enc (label w)).
  { destruct (fo_node _ _ _ _ _ Hf) as [_ Hnd]. unfold n_Right, n_Left. rewrite Hnd. unfold w. cbn. by destruct (goes_right p k). }
  assert (Hrw : rep (store s) w) by (destruct (fo_kids _ _ _ _ _ Hf); unfold w; cbn; by destruct (goes_right p k)).
  assert (Hrs : rep (store s) (f_sib (step_frame k u))) by (destruct (fo_kids _ _ _ _ _ Hf); cbn; by destruct (goes_right p k)).
  assert (Hgcp2 : greatestCommonPrefix (enc k) (length p) (enc p) (enc (label w)) = Ok (length (common k (label w)), enc (common k (label w)))).
  { rewrite <- (prefix_take p k Hp) at 2. apply gcp_enc; [lia|]. by apply prefix_length. }
  set (s1 := set_pathBit (goes_right p k) (set_traversed (traversed s ++ [nd]) s)).
  destruct (getNode_spec s1 (enc (label w)) (node_of w)) as (nc & Hget & Hnk & Hnn).
  { exact (fo_coh _ _ _ _ _ Hf). }
  { change (store s1) with (store s). rewrite <- name_ne by done. by apply rep_look. }
  eexists _, _. split.
  { unfold traverse_step. run. rewrite Htg, Hpos, Hgcp, Hcur. rewrite (run_lift _ _ _ _ Hbit). cbv beta. rewrite Hchild. run.
    fold s1. rewrite (bind_run_Ok _ _ _ _ _ Hget). cbv beta. rewrite (run_lift _ _ _ _ Hgcp2). cbv beta iota. run. smt_proj.
    rewrite counted_ne, !enc_eq by (by apply enc_ne). reflexivity. }
  assert (Hons : Forall (on_path k) (step_frame k u :: fs)).
  { constructor; [|done]. unfold on_path. cbn. by destruct (goes_right p k) eqn:G; cbn. }
  split_and!; [done..| |done]. split; smt_proj; rewrite ?Hfill; try done.
  - by apply (quiet_focus s).
  - change (traversed s1) with (traversed s ++ [nd]). by rewrite Htr.
Qed.

Lemma traverse_loop_spec fuel s k nd ns fs u :
  focus s nd ns fs u → current s = nd → traversed s = rev ns → n_Key (target s) = enc k → length k = n →
  Forall (on_path k) fs → label u `prefix_of` k → bitPos s = length (label u) → gcp s = enc (label u) → n - length (label u) < fuel →
  ∃ s' nd' ns' f fs' w, traverse_loop fuel s = (Ok (), s') ∧ quiet s s' ∧ plug (f :: fs') w = plug fs u ∧
    reached s' k nd' ns' f fs' w ∧ (¬ label w `prefix_of` k ∨ ∃ v, w = Leaf k v).
Proof.
  revert s nd ns fs u. induction fuel as [|fuel IH]; intros s nd ns fs u Hf Hcur Htr Htg Hk Hfs Hp Hpos Hgcp Hfuel; [lia|].
  cbn [traverse_loop]. destruct (traverse_step_spec s k nd ns fs u) as (stop & s' & Hrun & Hq & Hfill & Hre & ->); [done..|].
  rewrite (bind_run_Ok _ _ _ _ _ Hrun). cbv beta. set (w := step_child k u) in *. set (f := step_frame k u) in *. clearbody w f.
  assert (Hplug : plug (f :: fs) w = plug fs u) by (cbn; by rewrite Hfill).
  pose proof (plug_wf n (f :: fs) w) as Hw. rewrite Hplug in Hw. specialize (Hw (fo_wf _ _ _ _ _ Hf)).
  destruct (bool_decide (label w = common k (label w))) eqn:E1; zify_bools; cbn [negb orb].
  2:{ exists s', nd, ns, f, fs, w. split_and!; try done. left. intros Hpw. apply E1. by rewrite common_full. }
  assert (Hpw : label w `prefix_of` k) by (rewrite E1; apply common_prefix_l).
  case_bool_decide as E2.
  { exists s', nd, ns, f, fs, w. split_and!; try done. right. rewrite <- E1 in E2. destruct w as [k' v|p' l' r']; cbn in E2.
    - subst. eauto.
    - apply wf_inner_label in Hw. subst. lia. }
  destruct w as [k' v|p' l' r'].
  { exfalso. apply E2. rewrite <- E1. cbn in *. symmetry. apply prefix_length_eq; [done|lia]. }
  set (w := Inner p' l' r') in *.
  assert (Hlt : length (label u) < length (label w)).
  { rewrite <- Hfill, label_fill. rewrite <- Hfill in Hf. apply fo_wf, plug_wf, fill_wf in Hf as (_ & _ & Hlen%prefix_length & _).
    rewrite length_app in Hlen. cbn [length] in Hlen. lia. }
  assert (Hne : label w ≠ []) by (intros He; rewrite He in Hlt; cbn in Hlt; lia).
  destruct (IH s' (current s') (nd :: ns) (f :: fs) w) as (s2 & nd' & ns' & f' & fs' & w' & Hrun2 & Hq2 & Hplug2 & Hre2 & Hend).
  - destruct Hre as [Hf1 R1 R2 R3 R4 R5 R6 R7 R8 R9]. destruct Hf1. split; try done.
    + unfold w. cbn. rewrite R5. split; [by rewrite name_ne|]. destruct (n_Node (current s')) as [x1 x2 x3 x4 x5] eqn:En. unfold n_Value. rewrite En.
      cbn in R6 |- *. congruence.
    + cbn in R1 |- *. tauto.
    + by constructor.
  - done.
  - rewrite (re_traversed _ _ _ _ _ _ _ Hre). done.
  - apply (re_target _ _ _ _ _ _ _ Hre).
  - done.
  - apply (re_path _ _ _ _ _ _ _ Hre).
  - done.
  - rewrite (re_pos _ _ _ _ _ _ _ Hre). by rewrite <- E1.
  - rewrite (re_gcp _ _ _ _ _ _ _ Hre). by rewrite <- E1.
  - pose proof (wf_label n w Hw). lia.
  - exists s2, nd', ns', f', fs', w'. split_and!; try done; [by etrans|]. by rewrite Hplug2.
Qed.

(** ** One operation *)

Lemma label_leaf t q : wf_tree n t → q ∈ labels t → length q = n → ∃ v, leaves t !! q = Some v.
Proof.
  induction t as [k v|p l IHl r IHr]; intros Hw Hq Hl.
  - apply list_elem_of_singleton in Hq as ->. exists v. apply lookup_singleton_eq.
  - pose proof (wf_inner_label _ _ _ _ Hw) as Hp. pose proof (leaves_disjoint n p l r Hw) as Hd. destruct Hw as (Wl & Wr & _).
    cbn in Hq. apply elem_of_cons in Hq as [->|[Hq|Hq]%elem_of_app]; [lia| |].
    + destruct (IHl Wl Hq Hl) as [v Hv]. exists v. apply lookup_union_Some_raw. by left.
    + destruct (IHr Wr Hq Hl) as [v Hv]. exists v. apply lookup_union_Some; [done|by right].
Qed.
Lemma rkb_notin t : wf_tree n t → rkb ∉ labels t ↔ leaves t !! rkb = None.
Proof.
  intros Hw. split; intros Hr.
  - destruct (leaves t !! rkb) as [v|] eqn:E; [|done]. by apply leaves_labels in E.
  - intros Hq. apply label_leaf in Hq as [v Hv]; [|done..]. congruence.
Qed.
Lemma label_plug fs t t' : label t = label t' → label (plug fs t) = label (plug fs t').
Proof. revert t t'. induction fs as [|f fs IH]; intros t t' Hl; cbn; [done|]. apply IH. by rewrite !label_fill. Qed.

(** After the operation: the last traversed node is up to date in memory. *)
Record pending (s : SMT) (k : bits) (nd : node) (ns : list node) (fs : list frame) (u : tree) : Prop := MkPending {
  pe_focus : focus s nd ns fs u;
  pe_traversed : traversed s = rev ns ++ [nd];
  pe_path : Forall (on_path k) fs;
  pe_label : label u `prefix_of` k;
}.
Lemma Parent_snoc ns (nd : node) : Parent (ns ++ [nd]) = Ok nd.
Proof. unfold Parent. by rewrite last_snoc. Qed.
Lemma Pop_snoc (ns : list node) nd : Pop (ns ++ [nd]) = ns.
Proof. apply removelast_last. Qed.
Lemma frame_ne f t : wf_tree n (fill f t) → enc (label t) ≠ enc (label (f_sib f)).
Proof. intros (_ & _ & P1 & P2)%fill_wf He%enc_inj. by apply (prefix_ne (f_p f) (label t) (label (f_sib f)) (f_dir f)). Qed.
Lemma inner_fill nd f t : inner_node nd (fill f t) ↔
  n_Key nd = name (f_p f) ∧ n_Node nd = MkLibNode (n_Value nd) (enc (label (if f_dir f then f_sib f else t))) (enc (label (if f_dir f then t else f_sib f))) [] 0.
Proof. unfold fill. by destruct (f_dir f). Qed.
Lemma replaceChild_spec nd f t t' : wf_tree n (fill f t) → inner_node nd (fill f t) →
  ∃ nd', replaceChild (enc (label t)) (enc (label t')) nd = Ok nd' ∧ inner_node nd' (fill f t').
Proof.
  intros Hne%frame_ne [Hk Hnd]%inner_fill. unfold replaceChild. destruct nd as [k [v l r pk bm] d]. cbn in Hk, Hnd. injection Hnd as -> -> -> ->.
  unfold n_Left, n_Right. cbn. destruct (f_dir f) eqn:Ed; cbn.
  - rewrite bool_decide_false by done. rewrite bool_decide_true by done. eexists. split; [reflexivity|]. rewrite inner_fill, Ed. done.
  - rewrite bool_decide_true by done. eexists. split; [reflexivity|]. rewrite inner_fill, Ed. done.
Qed.
Lemma on_path_ne k f q : on_path k f → f_p f ++ [negb (f_dir f)] `prefix_of` q → q ≠ k.
Proof. intros Ho Hq ->. by apply (prefix_ne (f_p f) k k (f_dir f)). Qed.

Lemma put_outside k v w : ¬ label w `prefix_of` k → put k v w = join k v w.
Proof. destruct w as [k' v'|p l r]; cbn; intros Hnp; [|by rewrite decide_False]. rewrite decide_False; [done|]. by intros ->. Qed.

(** What both cases of [set] share: the leaf is written and nothing else of the tree is touched. *)
Lemma set_leaf s s1 k v nd ns f fs w c :
  reached s k nd ns f fs w → length k = n → k ≠ rkb → store s1 = store s → root s1 = root s →
  coherent (set_store (<[store_key (name k) := MarshalNode (leaf_Node v)]> (store s1)) (set_nodeCache c s1)) →
  let s' := set_store (<[store_key (name k) := MarshalNode (leaf_Node v)]> (store s1)) (set_nodeCache c s1) in
  let t' := plug (f :: fs) (put k v w) in
  wf_tree n t' ∧ rkb ∉ labels t' ∧ plug (f :: fs) (put k v w) = put k v (plug (f :: fs) w) ∧ label t' = [] ∧
  Forall (λ f, rep (store s') (f_sib f)) (f :: fs) ∧ rep (store s') (Leaf k v) ∧ coherent s' ∧ n_Key (root s') = enc rkb.
Proof.
  intros Hre Hk Hkr Hs1 Hr1 Hcoh. cbv zeta. pose proof Hre as [[Fwf Frk Ftop _ _ _ Fsibs _ Froot] _ Rs Hons _ _ _ _ _ _].
  destruct (put_spec n (plug (f :: fs) w) k v Fwf Hk) as (PW & PL & _). rewrite plug_put in PW, PL by done.
  assert (Hkne : k ≠ []) by (intros ->; cbn in Hk; lia). smt_proj. rewrite Hs1, Hr1.
  split_and!; try done.
  - apply rkb_notin; [done|]. rewrite PL, lookup_insert_ne by done. by apply rkb_notin in Frk.
  - by rewrite plug_put.
  - rewrite <- Ftop. cbn. apply label_plug. by rewrite !label_fill.
  - apply (sibs_set _ (f :: fs) w); try done; [lia|]. by constructor.
  - split; [|done]. cbn [label]. apply look_insert.
  - by rewrite Hs1 in Hcoh.
Qed.
Lemma set_target_node s s1 k v : coherent s1 → n_Key (target s) = enc k → n_Node (target s) = leaf_Node v → length k = n →
  ∃ c, setNode (target s) s1 = (Ok tt, set_store (<[store_key (name k) := MarshalNode (leaf_Node v)]> (store s1)) (set_nodeCache c s1)) ∧
    coherent (set_store (<[store_key (name k) := MarshalNode (leaf_Node v)]> (store s1)) (set_nodeCache c s1)).
Proof.
  intros Hc Htg Hleaf Hk. assert (Hkne : k ≠ []) by (intros ->; cbn in Hk; lia).
  destruct (setNode_spec s1 (target s) Hc) as (c & Hrun & Hcoh); [rewrite Htg; apply ok_enc; [done|lia]|].
  rewrite Htg, Hleaf in Hrun, Hcoh. rewrite name_ne by done. eauto.
Qed.

Definition set_result (s s' : SMT) (k : bits) (v : bytes) (t : tree) : Prop :=
  ∃ nd ns fs u, pending s' k nd ns fs u ∧ plug fs u = put k v t ∧ operations s' = operations s ∧ keyBitLength s' = keyBitLength s.
Lemma set_op_found s k v v0 nd ns f fs :
  reached s k nd ns f fs (Leaf k v0) → length k = n → k ≠ rkb → n_Node (target s) = leaf_Node v →
  ∃ s', set_op s = (Ok (), s') ∧ set_result s s' k v (plug (f :: fs) (Leaf k v0)).
Proof.
  intros Hre Hk Hkr Hleaf. pose proof Hre as [[_ _ _ Fnode Fkids Fmem _ Fcoh _] _ _ Hons Htr _ _ _ Hgcp Htg].
  destruct (set_target_node s s k v Fcoh Htg Hleaf Hk) as (c & Hrun & Hcoh).
  destruct (set_leaf s s k v nd ns f fs _ c Hre Hk Hkr eq_refl eq_refl Hcoh) as (PW & PR & PP & PT & Hsibs & Hnew & _ & Hroot).
  unfold set_op. run. rewrite Htg, Hgcp, enc_eq. cbn [label]. rewrite common_full, bool_decide_true by done. cbn [negb when]. run.
  cbn [put] in PW, PR, PP, PT. rewrite decide_True in PW, PR, PP, PT by done. apply Forall_cons in Hsibs as [Hsf Hsfs]. apply Forall_cons in Hons as [Hof Hofs].
  eexists. split; [exact Hrun|]. exists nd, ns, fs, (fill f (Leaf k v)). split_and!; [|done..].
  split; [|done..|]. 2:{ rewrite label_fill. by eapply snoc_prefix. }
  split; try done.
  - by apply inner_node_label with (Leaf k v0).
  - unfold fill in *. destruct (f_dir f); cbn in *; tauto.
  - eapply mem_path_label; [|exact Fmem]. by rewrite !label_fill.
Qed.
Lemma set_op_insert s k v nd ns f fs w :
  reached s k nd ns f fs w → ¬ label w `prefix_of` k → length k = n → k ≠ rkb → n_Node (target s) = leaf_Node v →
  ∃ s', set_op s = (Ok (), s') ∧ set_result s s' k v (plug (f :: fs) w).
Proof.
  intros Hre Hnot Hk Hkr Hleaf. pose proof Hre as [[Fwf Frk _ Fnode Fkids Fmem _ Fcoh _] Rw _ Hons Htr Hkey _ Hpos Hgcp Htg].
  pose proof (plug_wf n _ _ Fwf) as Hfw. pose proof Hfw as (Ww & Wsib & P1 & P2)%fill_wf.
  destruct (join_cases n w k v Ww Hk Hnot) as (x & r & t & Hs1 & Hs2 & Hjoin).
  set (c := common k (label w)) in *.
  assert (Hcne : c ≠ []).
  { apply Forall_cons in Hons as [Ho _]. intros He. pose proof (common_prefix_both _ _ _ Ho P1) as Hc. fold c in Hc. rewrite He in Hc.
    apply prefix_nil_inv in Hc. by destruct (f_p f). }
  assert (Hbit : bitAt (enc k) (length c) = Ok x).
  { apply bitAt_enc. rewrite Hs1. clear. by rewrite lookup_app_r, Nat.sub_diag. }
  assert (Hkc : k ≠ c).
  { intros He. apply (not_label_prefix n w k Ww Hk Hnot). rewrite He. apply common_prefix_r. }
  destruct (replaceChild_spec nd f w (join k v w) Hfw Fnode) as (nd' & Hrep & Hnd').
  assert (Hjl : label (join k v w) = c) by (rewrite Hjoin; by destruct x). rewrite Hjl in Hrep.
  set (new := MkNode (enc c) (MkLibNode [] (if x then enc (label w) else enc k) (if x then enc k else enc (label w)) [] 0) false).
  set (s1 := set_traversed ((rev ns ++ [nd']) ++ [new]) (set_pathBit x s)).
  destruct (set_target_node s s1 k v Fcoh Htg Hleaf Hk) as (c' & Hrun & Hcoh).
  destruct (set_leaf s s1 k v nd ns f fs w c' Hre Hk Hkr eq_refl eq_refl Hcoh) as (PW & PR & PP & PT & Hsibs & Hnew & _ & Hroot).
  rewrite put_outside in PW, PR, PP, PT by done.
  eexists. split.
  { unfold set_op. run. rewrite Htg, Hgcp, enc_eq. fold c. rewrite bool_decide_false by done. cbn [negb when].
    rewrite (bind_run_Ok _ _ s () s1); [exact Hrun|]. rewrite Hkey, Htr, Hpos, Parent_snoc. fold c.
    rewrite (run_lift _ _ _ _ eq_refl). cbv beta. rewrite (run_lift _ _ _ _ Hrep). cbv beta. rewrite (run_lift _ _ _ _ Hbit). cbv beta. run.
    unfold put_Parent. rewrite Pop_snoc. unfold s1, new. by destruct x. }
  assert (Hkw : k ∉ labels w) by (intros Hq; by eapply Hnot, labels_prefix).
  assert (Hrw : rkb ∉ labels w) by (intros Hq; apply Frk; by apply (plug_labels_sub (f :: fs) w)).
  assert (Hw' : rep (<[store_key (name k) := MarshalNode (leaf_Node v)]> (store s1)) w).
  { apply rep_set; try done. lia. }
  exists new, (nd' :: ns), (f :: fs), (join k v w). split_and!; [|done..]. split; [|done..|].
  2:{ rewrite Hjl. apply common_prefix_l. }
  split; try done.
  - rewrite Hjoin. unfold new. destruct x; cbn; by rewrite name_ne.
  - rewrite Hjoin. destruct x; by split.
  - cbn. split; [done|]. eapply mem_path_label; [|exact Fmem]. by rewrite !label_fill.
Qed.

Lemma getOtherChild_spec nd f t : wf_tree n (fill f t) → inner_node nd (fill f t) →
  ∃ o, getOtherChild nd (enc (label t)) = Ok (enc (label (f_sib f)), o).
Proof.
  intros Hne%frame_ne [_ Hnd]%inner_fill. unfold getOtherChild, n_Left, n_Right. rewrite Hnd. cbn [LeftChildKey RightChildKey]. destruct (f_dir f).
  - rewrite bool_decide_false by done. rewrite bool_decide_true by done. eauto.
  - rewrite bool_decide_true by done. eauto.
Qed.
(** The tree without a leaf: its parent is replaced by the sibling. *)
Lemma cut_leaf f g gs k v : wf_tree n (plug (f :: g :: gs) (Leaf k v)) → length k = n → Forall (on_path k) (f :: g :: gs) →
  del k (plug (f :: g :: gs) (Leaf k v)) = Some (plug gs (fill g (f_sib f))).
Proof.
  intros Hw Hk Hons. apply Forall_cons in Hons as [Hf Hons]. pose proof Hons as [Hg Hgs]%Forall_cons. cbn [plug].
  apply plug_del; [done|..]. rewrite fill_del, fill_del by done. cbn [del]. by rewrite decide_True.
Qed.
Definition del_result (s s' : SMT) (k : bits) (t : tree) : Prop :=
  ∃ nd ns fs u, pending s' k nd ns fs u ∧ del k t = Some (plug fs u) ∧ operations s' = operations s ∧ keyBitLength s' = keyBitLength s.
Lemma del_outside k w : ¬ label w `prefix_of` k → del k w = Some w.
Proof. destruct w as [k' v'|p l r]; cbn; intros Hnp; [|by rewrite decide_False]. rewrite decide_False; [done|]. by intros ->. Qed.

Lemma delete_op_absent s k nd ns f fs w :
  reached s k nd ns f fs w → ¬ label w `prefix_of` k → length k = n →
  delete_op s = (Ok (), s) ∧ del_result s s k (plug (f :: fs) w).
Proof.
  intros Hre Hnot Hk. pose proof Hre as [Hf _ _ Hons Htr _ _ _ Hgcp Htg].
  pose proof (plug_wf n _ _ (fo_wf _ _ _ _ _ Hf)) as Hfw. pose proof Hfw as (Ww & Wsib & P1 & P2)%fill_wf.
  split.
  - unfold delete_op. run. rewrite Htg, Hgcp, enc_eq, bool_decide_false; [done|]. intros He.
    apply (not_label_prefix n w k Ww Hk Hnot). rewrite He. apply common_prefix_r.
  - exists nd, ns, fs, (fill f w). apply Forall_cons in Hons as [Ho Hons]. split_and!; [|by rewrite (plug_del (f :: fs) k w w) by (by constructor || by apply del_outside)|done..].
    split; try done. rewrite label_fill. by eapply snoc_prefix.
Qed.
(** The siblings survive the deletion of the leaf and of its parent. *)
Lemma cut_rep st f g fs k v : wf_tree n (plug (f :: g :: fs) (Leaf k v)) → rkb ∉ labels (plug (f :: g :: fs) (Leaf k v)) →
  length k = n → k ≠ rkb → Forall (on_path k) (f :: g :: fs) → Forall (λ h, rep st (f_sib h)) (f :: g :: fs) →
  Forall (λ h, rep (delete (store_key (name k)) (delete (store_key (name (f_p f))) st)) (f_sib h)) (f :: g :: fs).
Proof.
  intros Fwf Frk Hk Hkr Hons Hs. pose proof (plug_wf n (g :: fs) (fill f (Leaf k v)) Fwf) as Hfw. apply fill_wf in Hfw as (_ & Wsib & P1 & P2).
  assert (Hpl : length (f_p f) < n).
  { pose proof (prefix_length _ _ P1) as Hl. rewrite length_app in Hl. cbn in Hl. lia. }
  pose proof (plug_wf_frames (g :: fs) _ Fwf) as [_ Hons1]. rewrite label_fill in Hons1.
  apply (sibs_del _ (f :: g :: fs) (Leaf k v)); try done; [lia|]. apply Forall_cons in Hs as [Hsf Hs]. constructor.
  - apply rep_del; try done; [| |by apply rkb_ne|lia].
    + intros Hq. apply Frk. apply (plug_labels_sib (f :: g :: fs) _ f); [set_solver|done].
    + intros Hq. apply (labels_prefix n) in Hq; [|done]. pose proof (transitivity P2 Hq) as Hl%prefix_length. rewrite length_app in Hl. cbn in Hl. lia.
  - apply (sibs_del _ (g :: fs) (fill f (Leaf k v))); try done; [by apply rkb_ne|lia].
Qed.
Lemma delete_op_found s k v nd ns f g fs :
  reached s k nd ns f (g :: fs) (Leaf k v) → length k = n → k ≠ rkb →
  ∃ s', delete_op s = (Ok (), s') ∧ del_result s s' k (plug (f :: g :: fs) (Leaf k v)).
Proof.
  intros Hre Hk Hkr. pose proof Hre as [[Fwf Frk Ftop Fnode Fkids Fmem Fsibs Fcoh Froot] _ Rs Hons Htr _ _ _ Hgcp Htg].
  destruct ns as [|gp ns]; [done|]. destruct Fmem as [Hgp Fmem].
  pose proof (cut_leaf _ _ _ _ _ Fwf Hk Hons) as Hcut. pose proof (del_spec n _ k Fwf Hk) as Hdel. cbn [plug] in Hdel, Hcut. rewrite Hcut in Hdel.
  destruct Hdel as (DW & DL & _).
  pose proof (plug_wf n _ _ Fwf) as Hfw. pose proof (plug_wf n (g :: fs) _ Fwf) as Hgw. cbn [plug] in Hgw.
  pose proof (plug_wf n fs _ Fwf) as Hgw'. cbn [plug] in Hgw'.
  pose proof Hfw as (_ & Wsib & P1 & P2)%fill_wf.
  assert (Hpne : f_p f ≠ []) by (rewrite <- (label_fill f (Leaf k v)); by eapply label_nonroot).
  assert (Hpl : length (f_p f) < n).
  { pose proof (prefix_length _ _ P1) as Hl. rewrite length_app in Hl. cbn in Hl. lia. }
  pose proof (fo_node _ _ _ _ _ (re_focus _ _ _ _ _ _ _ Hre)) as [Hnk _]%inner_fill.
  destruct (getOtherChild_spec nd f (Leaf k v) Hfw Fnode) as [o Hother]. cbn [label] in Hother.
  destruct (replaceChild_spec gp g (fill f (Leaf k v)) (f_sib f) Hgw' Hgp) as (gp' & Hrep & Hgp').
  rewrite label_fill, <- name_ne, <- Hnk in Hrep by done.
  assert (Hkne : k ≠ []) by (intros ->; cbn in Hk; lia).
  destruct (delNode_spec s (n_Key nd) Fcoh) as [Hrun1 Hcoh1]; [rewrite Hnk; apply ok_name; lia|].
  set (s1 := set_store _ _) in Hrun1, Hcoh1.
  set (s2 := set_traversed (rev ns ++ [gp']) s1).
  destruct (delNode_spec s2 (enc k) Hcoh1) as [Hrun2 Hcoh2]; [apply ok_enc; [done|lia]|].
  set (s3 := set_store _ _) in Hrun2, Hcoh2.
  assert (Hst : store s3 = delete (store_key (name k)) (delete (store_key (name (f_p f))) (store s))).
  { rewrite <- Hnk, name_ne by done. reflexivity. }
  exists s3. split.
  { unfold delete_op. run. rewrite Htg, Hgcp, enc_eq. cbn [label]. rewrite common_full, bool_decide_true by done. cbn [negb].
    rewrite Htr. unfold GrandParent. rewrite Pop_snoc, Parent_snoc. cbn [rev]. rewrite Parent_snoc.
    rewrite !(run_lift _ _ _ _ eq_refl). cbv beta. rewrite (run_lift _ _ _ _ Hother). cbv beta iota. rewrite (run_lift _ _ _ _ Hrep). cbv beta.
    rewrite (bind_run_Ok _ _ _ _ _ Hrun1). cbv beta. run. unfold put_Parent. rewrite !Pop_snoc. exact Hrun2. }
  assert (Hsib : Forall (λ h, rep (store s3) (f_sib h)) (f :: g :: fs)) by (rewrite Hst; apply (cut_rep _ _ _ _ k v); try done; by constructor).
  exists gp', ns, fs, (fill g (f_sib f)). split_and!; [|done..].
  apply Forall_cons in Hons as [Hof Hons]. apply Forall_cons in Hons as [Hog Hons].
  split; [|done..|rewrite label_fill; by eapply snoc_prefix].
  assert (Hlab : label (fill g (fill f (Leaf k v))) = label (fill g (f_sib f))) by (by rewrite !label_fill).
  split; try done.
  - apply rkb_notin; [done|]. rewrite DL. apply lookup_delete_None. right. by apply rkb_notin in Frk.
  - rewrite <- Ftop. cbn [plug]. symmetry. by apply label_plug.
  - apply Forall_cons in Hsib as [? [? _]%Forall_cons]. unfold fill. by destruct (f_dir g).
  - by eapply mem_path_label.
  - by apply Forall_cons in Hsib as [_ [_ ?]%Forall_cons].
Qed.

(** ** Rehashing *)

Lemma updateParentValue_spec s nd p l r :
  coherent s → inner_node nd (Inner p l r) → wf_tree n (Inner p l r) → rep (store s) l → rep (store s) r →
  ∃ nd', updateParentValue nd s = (Ok nd', if bool_decide (name p = n_Key (root s)) then set_root nd' s else s) ∧
    n_Key nd' = name p ∧ n_Node nd' = node_of (Inner p l r).
Proof.
  intros Hc [Hk Hnd] (_ & _ & Pl & Pr) Hl Hr. assert (Hne : ∀ b q, p ++ [b] `prefix_of` q → q ≠ []).
  { intros b q Hp ->. apply prefix_nil_inv in Hp. by destruct p. }
  destruct (getNode_spec s (enc (label l)) (node_of l) Hc) as (n1 & Hg1 & K1 & N1); [rewrite <- name_ne by (by eapply Hne); by apply rep_look|].
  destruct (getNode_spec s (enc (label r)) (node_of r) Hc) as (n2 & Hg2 & K2 & N2); [rewrite <- name_ne by (by eapply Hne); by apply rep_look|].
  set (nd' := set_n_Value (merkle (Inner p l r)) nd).
  assert (Hval : set_n_Value (Hash (n_Key n1 ++ n_Value n1 ++ n_Key n2 ++ n_Value n2)) nd = nd').
  { unfold n_Value. by rewrite K1, K2, N1, N2, !node_of_Value. }
  exists nd'. split_and!; [|done|].
  - unfold updateParentValue. unfold n_Left, n_Right. rewrite Hnd. cbn [LeftChildKey RightChildKey].
    rewrite (bind_run_Ok _ _ _ _ _ Hg1). cbv beta. rewrite (bind_run_Ok _ _ _ _ _ Hg2). cbv beta. rewrite Hval. run.
    change (n_Key nd') with (n_Key nd). rewrite Hk. by case_bool_decide.
  - unfold nd', set_n_Value, n_Left, n_Right. rewrite Hnd. done.
Qed.
(** A later key below the right child is below the node. *)
Lemma below k k' p q : p `prefix_of` k → bits_compare k k' ≠ Gt → length k = length k' → p ++ [true] `prefix_of` q → length q <= length k' →
  bits_compare (take (length q) k') q ≠ Gt → p `prefix_of` k'.
Proof.
  intros [x ->] Hkk Hl [y ->] Hq Hc. rewrite !length_app in *. rewrite <- app_assoc in Hc.
  assert (Hlp : length (take (length p) k') = length p) by (rewrite length_take; lia).
  rewrite <- (take_drop (length p) k') in Hkk. rewrite bits_compare_app in Hkk by done.
  rewrite <- (take_drop (length p) (take _ k')) in Hc. rewrite take_take, Nat.min_l in Hc by (cbn; lia).
  rewrite bits_compare_app, bits_compare_antisym in Hc by done.
  destruct (bits_compare p (take (length p) k')) eqn:E; [|done..].
  apply bits_compare_Eq in E. rewrite E. exists (drop (length p) k'). by rewrite take_drop.
Qed.

(** The state between two operations, on the way to the next one. *)
Record between (s : SMT) (nd : node) (ns : list node) (fs : list frame) (u : tree) : Prop := MkBetween {
  be_focus : focus s nd ns fs u;
  be_current : current s = nd;
  be_traversed : traversed s = rev ns;
  be_next : ∀ op ops k', operations s = op :: ops → n_Key op = enc k' → Forall (on_path k') fs ∧ label u `prefix_of` k';
  be_done : operations s = [] → fs = [] ∧ root s = nd ∧ n_Node nd = node_of u ∧ rep (store s) u;
}.
Definition next_above (s : SMT) (k : bits) : Prop :=
  ∀ op ops, operations s = op :: ops → ∃ k', n_Key op = enc k' ∧ length k' = n ∧ bits_compare k k' ≠ Gt.

(** The node is written with its value: its tree is stored. *)
Lemma store_node s nd ns fs p l r :
  focus s nd ns fs (Inner p l r) →
  ∃ nd' s', (parent ← updateParentValue nd; modify (set_current parent);; setNode parent) s = (Ok (), s') ∧
    current s' = nd' ∧ traversed s' = traversed s ∧ operations s' = operations s ∧ keyBitLength s' = keyBitLength s ∧
    inner_node nd' (Inner p l r) ∧ n_Node nd' = node_of (Inner p l r) ∧ rep (store s') (Inner p l r) ∧
    Forall (λ f, rep (store s') (f_sib f)) fs ∧ coherent s' ∧ n_Key (root s') = enc rkb ∧ (p = [] → root s' = nd').
Proof.
  intros [Fwf Frk Ftop Fnode [Hl Hr] Fmem Fsibs Fcoh Froot].
  pose proof (plug_wf n _ _ Fwf) as Hw. pose proof (wf_inner_label _ _ _ _ Hw) as Hlp. pose proof Hw as (Wl & Wr & Pl & Pr).
  destruct (updateParentValue_spec s nd p l r) as (nd' & Hrun & Hk' & Hn'); [done..|].
  set (s1 := if bool_decide (name p = n_Key (root s)) then set_root nd' s else s) in Hrun.
  assert (Hs1 : store s1 = store s ∧ nodeCache s1 = nodeCache s ∧ traversed s1 = traversed s ∧ operations s1 = operations s ∧
    keyBitLength s1 = keyBitLength s ∧ n_Key (root s1) = enc rkb ∧ (p = [] → root s1 = nd')).
  { unfold s1. case_bool_decide as E; split_and!; try done; [by rewrite <- Froot, <- E|]. intros ->. by rewrite Froot in E. }
  clearbody s1. destruct Hs1 as (S1 & S2 & S3 & S4 & S5 & S6 & S7).
  destruct (setNode_spec (set_current nd' s1) nd') as (c & Hrun2 & Hcoh2).
  { unfold coherent. smt_proj. by rewrite S1, S2. }
  { rewrite Hk'. apply ok_name. lia. }
  set (s' := set_store _ _) in Hrun2, Hcoh2. assert (Hst : store s' = <[store_key (name p) := MarshalNode (node_of (Inner p l r))]> (store s)).
  { unfold s'. smt_proj. by rewrite S1, Hk', Hn'. }
  assert (Hkid : ∀ b t, wf_tree n t → p ++ [b] `prefix_of` label t → (∀ q, q ∈ labels t → q ∈ labels (Inner p l r)) → rep (store s) t → rep (store s') t).
  { intros b t Wt Pt Ht Hrt. rewrite Hst. apply rep_set; try done; [| |by apply rkb_ne|lia].
    - intros Hq. by apply Frk, plug_labels_sub, Ht.
    - intros Hq. eapply labels_prefix in Hq; [|done]. pose proof (transitivity Pt Hq) as Hlen%prefix_length. rewrite length_app in Hlen. cbn in Hlen. lia. }
  exists nd', s'. split_and!; try done.
  - rewrite (bind_run_Ok _ _ _ _ _ Hrun). cbv beta. run. exact Hrun2.
  - split; [done|]. unfold n_Value. by rewrite Hn'.
  - split; [rewrite Hst; apply look_insert|]. split; [apply (Hkid false)|apply (Hkid true)]; try done; cbn; set_solver.
  - rewrite Hst. pose proof (plug_wf_frames _ _ Fwf) as [_ Hons]. apply (sibs_set _ fs (Inner p l r)); try done; [by apply rkb_ne|lia].
Qed.

Lemma rehash_loop_spec fuel s k nd ns fs u :
  pending s k nd ns fs u → length ns < fuel → length k = n → next_above s k →
  ∃ s' nd' ns' fs' u', rehash_loop fuel s = (Ok (), s') ∧ between s' nd' ns' fs' u' ∧ plug fs' u' = plug fs u ∧
    operations s' = operations s ∧ keyBitLength s' = keyBitLength s.
Proof.
  revert s nd ns fs u. induction fuel as [|fuel IH]; intros s nd ns fs u [Hf Htr Hons Hlab] Hfuel Hk Hnext; [lia|].
  cbn [rehash_loop]. run. rewrite Htr, last_snoc, Pop_snoc. run. smt_proj.
  set (s1 := set_traversed (rev ns) (set_current nd s)).
  assert (Hf1 : focus s1 nd ns fs u) by (by apply (quiet_focus s)).
  destruct u as [|p l r]; [by destruct (fo_node _ _ _ _ _ Hf)|].
  pose proof (plug_wf n _ _ (fo_wf _ _ _ _ _ Hf)) as Hw. pose proof Hw as (Wl & Wr & Pl & Pr). pose proof (wf_label _ _ Wr) as Hlr.
  pose proof (plug_wf_frames _ _ (fo_wf _ _ _ _ _ Hf)) as [_ Honsp].
  assert (Hright : n_Right nd = enc (label r)).
  { destruct (fo_node _ _ _ _ _ Hf) as [_ Hnd]. unfold n_Right. by rewrite Hnd. }
  assert (Hexit : ∃ exit, (match operations s with
      | [] => mret false
      | op :: _ => c ← lift (cmp (n_Key op) (n_Right nd)); mret (match c with Gt => false | _ => true end)
      end : M SMT ErrorI bool) s1 = (Ok exit, s1) ∧
      (exit = true → between s1 nd ns fs (Inner p l r))).
  { destruct (operations s) as [|op ops] eqn:E; [by eexists|]. destruct (Hnext op ops E) as (k' & Hk' & Hl' & Hcmp).
    rewrite Hk', Hright. rewrite (run_lift _ _ _ _ (cmp_enc k' (label r) ltac:(lia))). eexists. split; [reflexivity|]. intros Hex.
    assert (Hpk : p `prefix_of` k').
    { eapply (below k k' p (label r)); try done; [congruence|lia|]. intros Hg. by rewrite Hg in Hex. }
    split; try done; change (operations s1) with (operations s); rewrite E; [|done].
    intros op0 ops0 k0 [= <- <-] Hk0. rewrite Hk' in Hk0. apply enc_inj in Hk0 as <-. split; [|done].
    eapply Forall_impl; [exact Honsp|]. intros f Hfp. unfold on_path in *. by etrans. }
  destruct Hexit as (exit & Hrun & Hexit). rewrite (bind_run_Ok _ _ _ _ _ Hrun). cbv beta. destruct exit.
  { exists s1, nd, ns, fs, (Inner p l r). split_and!; try done. by apply Hexit. }
  clear Hexit Hrun. destruct (store_node s1 nd ns fs p l r Hf1) as (nd' & s2 & Hrun & C1 & C2 & C3 & C4 & C5 & C6 & C7 & C8 & C9 & C10 & C11).
  apply bind_Ok in Hrun as (nd1 & s3 & Hrun1 & Hrun2). cbv beta in Hrun2. rewrite run_modify in Hrun2.
  rewrite (bind_run_Ok _ _ _ _ _ Hrun1). cbv beta. run. rewrite (bind_run_Ok _ _ _ _ _ Hrun2). cbv beta. clear Hrun1 Hrun2.
  destruct Hf1 as [Fwf Frk Ftop Fnode Fkids Fmem _ _ _]. destruct fs as [|f fs], ns as [|nd2 ns]; try done.
  - assert (Hp : p = []) by exact Ftop. exists s2, nd', [], [], (Inner p l r). split_and!; try done.
    + destruct fuel; [done|]. cbn [rehash_loop]. run. by rewrite C2.
    + split; try done.
      * split; try done. by destruct C7.
      * intros op ops k' _ _. split; [done|]. cbn. rewrite Hp. apply prefix_nil.
      * intros _. split_and!; auto.
  - destruct Fmem as [Hi Fmem]. apply Forall_cons in C8 as [Cs C8]. apply Forall_cons in Hons as [Hof Hons].
    destruct (IH s2 nd2 ns fs (fill f (Inner p l r))) as (s4 & nd4 & ns4 & fs4 & u4 & Hrun & Hb & Hplug & Ho & Hkb).
    + split; [split; try done|..|done|].
      * unfold fill. by destruct (f_dir f).
      * by rewrite C2.
      * rewrite label_fill. by eapply snoc_prefix.
    + cbn in Hfuel. lia.
    + done.
    + unfold next_above in *. by rewrite C3.
    + exists s4, nd4, ns4, fs4, u4. split_and!; try done; [by rewrite Ho, C3|by rewrite Hkb, C4].
Qed.

(** ** The commit *)

(** The leaves that are always there. *)
Context (kmin kmax : bits) (Hmin : [false] `prefix_of` kmin) (Hmax : [true] `prefix_of` kmax).
Definition anchored (t : tree) : Prop := is_Some (leaves t !! kmin) ∧ is_Some (leaves t !! kmax).
(** An operation on the bits of a key: a value to set, or a deletion. *)
Definition bit_op : Type := bits * option bytes.
Definition op_is (o : node) (a : bit_op) : Prop :=
  n_Key o = enc (fst a) ∧ length (fst a) = n ∧ fst a ≠ rkb ∧
  match snd a with
  | Some v => n_delete o = false ∧ n_Node o = leaf_Node v
  | None => n_delete o = true ∧ fst a ≠ kmin ∧ fst a ≠ kmax
  end.
Definition apply_op (t : tree) (a : bit_op) : tree :=
  match snd a with Some v => put (fst a) v t | None => default t (del (fst a) t) end.
Definition apply_leaf (m : gmap bits bytes) (a : bit_op) : gmap bits bytes :=
  match snd a with Some v => <[fst a := v]> m | None => delete (fst a) m end.

Lemma root_leaf f k v : wf_tree n (fill f (Leaf k v)) → anchored (fill f (Leaf k v)) → f_p f = [] → k = kmin ∨ k = kmax.
Proof.
  intros Hw [[v1 H1'] [v2 H2']] Hp. pose proof Hw as (_ & Ws & P1 & P2)%fill_wf. rewrite Hp in P1, P2. cbn in P1, P2.
  assert (Hin : ∀ kx vx, leaves (fill f (Leaf k v)) !! kx = Some vx → [f_dir f] `prefix_of` kx → k = kx).
  { intros kx vx Hx Hpx. assert (Hx' : leaves (Leaf k v) !! kx = Some vx ∨ leaves (f_sib f) !! kx = Some vx).
    { unfold fill in Hx. destruct (f_dir f); cbn [leaves] in Hx; apply lookup_union_Some_raw in Hx as [Hx|[_ Hx]]; auto. }
    destruct Hx' as [Hx'|Hx']; [cbn [leaves] in Hx'; by apply lookup_singleton_Some in Hx' as [-> _]|]. apply (leaves_prefix n) in Hx' as [Hx' _]; [|done].
    exfalso. by apply (prefix_ne [] kx kx (f_dir f)); [|etrans|]. }
  destruct (f_dir f) eqn:E; [right|left]; eapply Hin; [exact H2'|done|exact H1'|done].
Qed.
Lemma operation_spec s a nd ns f fs w :
  reached s (fst a) nd ns f fs w → (¬ label w `prefix_of` fst a ∨ ∃ v, w = Leaf (fst a) v) → op_is (target s) a → anchored (plug (f :: fs) w) →
  ∃ s' nd' ns' fs' u', (if n_delete (target s) then delete_op else set_op) s = (Ok (), s') ∧ pending s' (fst a) nd' ns' fs' u' ∧
    plug fs' u' = apply_op (plug (f :: fs) w) a ∧ operations s' = operations s ∧ keyBitLength s' = keyBitLength s.
Proof.
  destruct a as [k [v|]]; cbn [fst]; intros Hre Hend (Hkey & Hlen & Hkr & Hop) Han; cbn [fst snd] in *; unfold apply_op; cbn [fst snd].
  - destruct Hop as [-> Hv]. destruct Hend as [Hnot|[v0 ->]].
    + destruct (set_op_insert s k v nd ns f fs w) as (s' & Hrun & nd' & ns' & fs' & u' & Hr); [done..|]. exists s', nd', ns', fs', u'. tauto.
    + destruct (set_op_found s k v v0 nd ns f fs) as (s' & Hrun & nd' & ns' & fs' & u' & Hr); [done..|]. exists s', nd', ns', fs', u'. tauto.
  - destruct Hop as (-> & Hk1 & Hk2). destruct Hend as [Hnot|[v0 ->]].
    + destruct (delete_op_absent s k nd ns f fs w) as (Hrun & nd' & ns' & fs' & u' & Hp & -> & Hr); [done..|].
      exists s, nd', ns', fs', u'. split_and!; try done.
    + destruct fs as [|g fs].
      { exfalso. pose proof (re_focus _ _ _ _ _ _ _ Hre) as Hf. destruct (root_leaf f k v0); try done; [apply (fo_wf _ _ _ _ _ Hf)|].
        rewrite <- (label_fill f (Leaf k v0)). apply (fo_top _ _ _ _ _ Hf). }
      destruct (delete_op_found s k v0 nd ns f g fs) as (s' & Hrun & nd' & ns' & fs' & u' & Hp & -> & Hr1 & Hr2); [done..|].
      exists s', nd', ns', fs', u'. done.
Qed.
Lemma apply_op_spec t a o : wf_tree n t → op_is o a → anchored t → label t = [] →
  leaves (apply_op t a) = apply_leaf (leaves t) a ∧ anchored (apply_op t a).
Proof.
  intros Hw (_ & Hlen & _ & Hop) [Ha1 Ha2] Hl. unfold apply_op, apply_leaf, anchored. destruct a as [k [v|]]; cbn [fst snd] in *.
  - destruct (put_spec n t k v Hw Hlen) as (_ & -> & _). split; [done|]. rewrite !lookup_insert_is_Some'. auto.
  - pose proof (del_spec n t k Hw Hlen) as Hd. destruct (del k t) as [t'|]; cbn [default from_option id].
    + destruct Hd as (_ & -> & _). split; [done|]. rewrite !lookup_delete_ne by tauto. done.
    + destruct Hd as [v ->]. cbn in Hl. subst k. cbn in Hlen. lia.
Qed.

(** The state before and after a commit. *)
Record at_rest (s : SMT) (t : tree) : Prop := MkAtRest {
  ar_focus : focus s (current s) [] [] t;
  ar_root : root s = current s;
  ar_node : n_Node (current s) = node_of t;
  ar_rep : rep (store s) t;
  ar_traversed : traversed s = [];
  ar_anchored : anchored t;
}.
Definition op_before (a b : bit_op) : Prop := bits_compare (fst a) (fst b) ≠ Gt.

(** The position of the next operation, from the node it starts at. *)
Lemma commit_start s nd ns fs u k : focus s nd ns fs u → current s = nd → traversed s = rev ns → n_Key (target s) = enc k → length k = n →
  label u `prefix_of` k →
  when (false || negb (bool_decide (length (traversed s) = 0)))
    ('(bitPos, gcp) ← lift (greatestCommonPrefix (enc k) 0 [] (n_Key (current s))); modify (set_path gcp bitPos)) (set_path [] 0 s)
  = (Ok (), set_path (enc (label u)) (length (label u)) s).
Proof.
  intros Hf Hcur Htr Htg Hk Hp. rewrite Htr, Hcur, length_rev. pose proof (fo_mem _ _ _ _ _ Hf) as Hm. destruct ns as [|nd2 ns], fs as [|f fs]; try done.
  - assert (Hu : label u = []) by apply (fo_top _ _ _ _ _ Hf). by rewrite Hu.
  - cbn [length negb orb Nat.eqb]. rewrite bool_decide_false by done. cbn [negb orb when].
    pose proof (label_nonroot _ _ _ (fo_wf _ _ _ _ _ Hf)) as Hne. pose proof (wf_label n u (plug_wf n _ _ (fo_wf _ _ _ _ _ Hf))) as Hlu.
    pose proof (fo_node _ _ _ _ _ Hf) as Hn1. destruct u as [|p l r]; [done|]. destruct Hn1 as [-> _]. cbn [label] in *. rewrite name_ne by done.
    pose proof (gcp_enc k p 0 ltac:(lia) ltac:(lia)) as Hg. cbn [take enc] in Hg. rewrite common_full in Hg by done.
    rewrite (run_lift _ _ _ _ Hg). done.
Qed.
Lemma commit_loop_spec ops acts s nd ns fs u :
  Forall2 op_is ops acts → Sorted op_before acts → between s nd ns fs u → operations s = ops → anchored (plug fs u) →
  ∃ s', commit_loop false ops s = (Ok (), s') ∧ at_rest s' (foldl apply_op (plug fs u) acts) ∧ keyBitLength s' = keyBitLength s ∧
    leaves (foldl apply_op (plug fs u) acts) = foldl apply_leaf (leaves (plug fs u)) acts.
Proof.
  intros Hops. revert s nd ns fs u. induction Hops as [|op a ops acts Hop Hops IH]; intros s nd ns fs u Hsort Hb Hopsq Han.
  - destruct (be_done _ _ _ _ _ Hb Hopsq) as (-> & Hroot & Hnode & Hrep). destruct Hb as [Hf Hcur Htr _ _].
    pose proof (fo_mem _ _ _ _ _ Hf) as Hm. destruct ns; [|done]. cbn [rev] in Htr.
    exists s. cbn [commit_loop foldl plug]. run. rewrite Htr. split_and!; try done. split; try done; congruence.
  - destruct Hb as [Hf Hcur Htr Hnext _]. pose proof Hop as (Hkey & Hlen & Hkr & _).
    destruct (Hnext op ops (fst a) Hopsq Hkey) as [Hons Hpre]. set (k := fst a) in *.
    cbn [commit_loop]. run.
    set (s0 := set_pathBit false (set_operations ops (set_target op s))).
    rewrite (bind_run_Ok resetGCP _ _ () (set_path [] 0 s0)) by done. cbv beta. run.
    assert (Hf0 : focus s0 nd ns fs u) by (destruct Hf; by split).
    rewrite Hkey. rewrite (bind_run_Ok _ _ _ _ _ (commit_start s0 nd ns fs u k Hf0 Hcur Htr Hkey Hlen Hpre)). cbv beta.
    set (s1 := set_path _ _ s0). destruct (length_enc_bounds k) as [Hfuel _].
    destruct (traverse_loop_spec (S (8 * length (n_Key (target s1)))) s1 k nd ns fs u) as (s2 & nd2 & ns2 & f2 & fs2 & w2 & Hrun & Hq & Hplug & Hre & Hend);
      [by destruct Hf0|done..|change (n_Key (target s1)) with (n_Key op); rewrite Hkey; lia|].
    rewrite (bind_run_Ok traverse _ s1 () s2) by exact Hrun. cbv beta.
    destruct Hq as (_ & _ & _ & Q1 & Q2 & Q3). rewrite <- Hplug in Han.
    destruct (operation_spec s2 a nd2 ns2 f2 fs2 w2) as (s3 & nd3 & ns3 & fs3 & u3 & Hrun3 & Hpend & Hplug3 & Ho3 & Hkb3); [done|done|by rewrite Q3|done|].
    rewrite Q3 in Hrun3. change (target s1) with op in Hrun3. rewrite (bind_run_Ok _ _ _ _ _ Hrun3). cbv beta.
    assert (Hops3 : operations s3 = ops) by (by rewrite Ho3, Q2). apply Sorted_inv in Hsort as [Hsort Hhd].
    destruct (rehash_loop_spec (length (traversed s3)) s3 k nd3 ns3 fs3 u3 Hpend) as (s4 & nd4 & ns4 & fs4 & u4 & Hrun4 & Hb4 & Hplug4 & Ho4 & Hkb4).
    { rewrite (pe_traversed _ _ _ _ _ _ Hpend), length_app, length_rev. cbn. lia. }
    { done. }
    { intros op1 ops1 E. rewrite Hops3 in E. rewrite E in Hops. apply Forall2_cons_inv_l in Hops as (a1 & acts1 & Hop1 & _ & ->). destruct Hop1 as (K1 & K2 & _).
      exists (fst a1). split_and!; try done. by inversion Hhd. }
    rewrite (bind_run_Ok rehash _ s3 () s4) by exact Hrun4. cbv beta.
    pose proof (apply_op_spec (plug (f2 :: fs2) w2) a op) as Happ. rewrite Hplug in Happ, Han, Hplug3.
    destruct Happ as [Hleaf Han4]; [apply (fo_wf _ _ _ _ _ Hf)|done|done|apply (fo_top _ _ _ _ _ Hf)|].
    rewrite <- Hplug3, <- Hplug4 in Hleaf, Han4. destruct (IH s4 nd4 ns4 fs4 u4) as (s5 & Hrun5 & Hrest & Hkb5 & Hleaves); [done|done|congruence|done|].
    exists s5. cbn [foldl]. rewrite <- Hplug3, <- Hplug4, <- Hleaf. split_and!; try done. rewrite Hkb5, Hkb4, Hkb3, Q1. done.
Qed.
End rep.
