(* ===== verification/SmtCommit.v ===== *)
(** * Commits to the sparse Merkle tree, against the map of its leaves

    [NewSMT] and [Commit] maintain the tree of the leaves of the operations
    committed so far: the root hash is a function of that map, whatever the
    batches, their order and the times the tree was reopened. *)
From S2P Require Import Prelude LibUtil State Crypto TxnStore SmtKey Smt SmtTree SmtRefine.
#[local] Open Scope nat_scope.

(** Sorting commutes with a map. *)
Section sort_map.
Context {A B : Type} (f : A → B) (R : relation B) `{!∀ x y, Decision (R x y)}.
Let R' : relation A := λ x y, R (f x) (f y).

Lemma list_merge_map l1 l2 : list_merge R (map f l1) (map f l2) = map f (list_merge R' l1 l2).
Proof.
  revert l2. induction l1 as [|x l1 IH]; intros l2; [by destruct l2|].
  induction l2 as [|y l2 IH2]; [done|]. cbn. unfold R'. case_decide; cbn; f_equal; [apply (IH (y :: l2))|apply IH2].
Qed.
Lemma merge_sort_map l : merge_sort R (map f l) = map f (merge_sort R' l).
Proof.
  unfold merge_sort. change (@nil (option (list B))) with (map (option_map (map f)) []).
  generalize (@nil (option (list A))). induction l as [|x l IH]; intros st; cbn.
  - induction st as [|[l|] st IH]; cbn; [done|rewrite IH; apply list_merge_map|done].
  - rewrite <- IH. f_equal. change [f x] with (map f [x]). generalize [x]. clear. induction st as [|[l'|] st IH]; intros l; cbn; try done.
    f_equal. rewrite <- IH. f_equal. apply list_merge_map.
Qed.
End sort_map.
Lemma sorted_by_map {A B} (f : A → B) le l : sorted_by le (map f l) = map f (sorted_by (λ x y, le (f x) (f y)) l).
Proof. apply merge_sort_map. Qed.
Lemma Sorted_sorted_by {A} (le : A → A → bool) l : (∀ x y, le x y = true ∨ le y x = true) → Sorted (λ x y, le x y = true) (sorted_by le l).
Proof.
  intros Ht. assert (HT : base.Total (λ a b, Is_true (le a b))) by (intros a b; rewrite !Is_true_true; apply Ht).
  pose proof (Sorted_merge_sort (λ a b, Is_true (le a b)) l) as Hs. fold (sorted_by le l) in Hs.
  induction Hs as [|x l' Hs IH Hhd]; constructor; [done|]. destruct Hhd as [|y l'' Hy]; constructor. by apply Is_true_true.
Qed.

(** The final map of operations on different keys does not depend on their order. *)
Lemma apply_leaf_comm m a b : fst a ≠ fst b → apply_leaf (apply_leaf m a) b = apply_leaf (apply_leaf m b) a.
Proof.
  intros Hne. unfold apply_leaf. destruct (snd a), (snd b).
  - by apply insert_insert_ne.
  - symmetry. by apply insert_delete_ne.
  - by apply insert_delete_ne.
  - apply delete_delete.
Qed.
Lemma apply_leaf_perm acts acts' : acts ≡ₚ acts' → NoDup (map fst acts) → ∀ m, foldl apply_leaf m acts = foldl apply_leaf m acts'.
Proof.
  induction 1 as [|a l l' Hp IH|a b l|l l' l'' Hp1 IH1 Hp2 IH2]; cbn [map foldl].
  - done.
  - intros [_ Hnd]%NoDup_cons m. by apply IH.
  - intros [Hab _]%NoDup_cons m. f_equal. apply apply_leaf_comm. set_solver.
  - intros Hnd m. rewrite IH1 by done. apply IH2. by rewrite <- Hp1.
Qed.

Section commit.
Context `{Crypto} `{NodeCodec} `{!NodeCodecLaws}.
Context (rootKey : bytes) (n : nat).
Definition rkb : bits := take n (data_bits rootKey).
Definition kmin : bits := take n (data_bits (replicate 20 x00)).
Definition kmax : bits := take n (data_bits (replicate 20 xff)).
(** The bits of the key of an operation, and what it does to them. *)
Definition key_bits (k : bytes) : bits := take n (data_bits (Hash k)).
Definition act_of (o : valueOp) : bit_op :=
  (key_bits (vo_key o), match vo_op o with opSet => Some (Hash (default [] (vo_value o))) | opDelete => None end).
Definition op_node (a : bit_op) : node :=
  match snd a with Some v => MkNode (enc (fst a)) (leaf_Node v) false | None => MkNode (enc (fst a)) empty_lib_Node true end.

(** A tree configuration: the hash is long enough, the reserved keys differ. *)
Class SmtConfig : Prop := {
  cf_n : 1 <= n <= 160;
  cf_root : n <= 8 * length rootKey;
  cf_min : rkb ≠ kmin;
  cf_max : rkb ≠ kmax;
  cf_hash : ∀ bz, n <= 8 * length (Hash bz);
}.
(** An operation on a key whose hash is none of the reserved ones. *)
Definition op_ok (o : valueOp) : Prop :=
  key_bits (vo_key o) ≠ rkb ∧ (vo_op o = opDelete → key_bits (vo_key o) ≠ kmin ∧ key_bits (vo_key o) ≠ kmax).
(** The operations of a batch: none on a reserved key, no two on the same. *)
Definition batch_ok (os : list valueOp) : Prop := Forall op_ok os ∧ NoDup (map (λ o, key_bits (vo_key o)) os).

Context `{!SmtConfig}.
Notation rest := (at_rest n rkb kmin kmax).
Notation leaf0 := (replicate 20 x00).
Notation leaf1 := (replicate 20 xff).

Lemma key_bits_length k : length (key_bits k) = n.
Proof. unfold key_bits. rewrite length_take, length_data_bits. pose proof (cf_hash (Hash k)). pose proof (cf_hash k). lia. Qed.
Lemma rkb_length : length rkb = n.
Proof. unfold rkb. rewrite length_take, length_data_bits. pose proof cf_root. lia. Qed.
Lemma const_bits b k : (∀ c, c ∈ byte_bits b → c = k) → 0 < n → n <= 160 → length (take n (data_bits (replicate 20 b))) = n ∧ [k] `prefix_of` take n (data_bits (replicate 20 b)).
Proof.
  intros Hb Hn Hn2. split; [rewrite length_take, length_data_bits, length_replicate; lia|].
  destruct n as [|m]; [lia|]. cbn [replicate]. change (data_bits (b :: ?l)) with (byte_bits b ++ data_bits l).
  assert (H7 : Z.testbit (byte_to_Z b) 7 = k) by (apply Hb; apply list_elem_of_here). unfold byte_bits. cbn [map app take]. rewrite H7.
  apply prefix_cons, prefix_nil.
Qed.
Lemma kmin_spec : length kmin = n ∧ [false] `prefix_of` kmin.
Proof. pose proof cf_n. apply const_bits; [|lia..]. intros c Hc. repeat (apply elem_of_cons in Hc as [->|Hc]; [done|]). by apply elem_of_nil in Hc. Qed.
Lemma kmax_spec : length kmax = n ∧ [true] `prefix_of` kmax.
Proof. pose proof cf_n. apply const_bits; [|lia..]. intros c Hc. repeat (apply elem_of_cons in Hc as [->|Hc]; [done|]). by apply elem_of_nil in Hc. Qed.
Lemma n_bound : 1 <= n <= 200.
Proof. pose proof cf_n. lia. Qed.

Lemma valueOpToSMTNode_spec o : valueOpToSMTNode n o = Ok (op_node (act_of o)).
Proof.
  unfold valueOpToSMTNode. rewrite newNodeKey_enc by (pose proof cf_n; pose proof (cf_hash (vo_key o)); lia). cbn [mbind result_bind].
  unfold op_node, act_of. cbn [fst snd]. by destruct (vo_op o).
Qed.
Lemma mapM_nodes os : mapM (valueOpToSMTNode n) os = Ok (map op_node (map act_of os)).
Proof. induction os as [|o os IH]; [done|]. cbn [mapM map]. rewrite valueOpToSMTNode_spec. cbn [mbind result_bind]. by rewrite IH. Qed.
Lemma act_of_is o : op_ok o → op_is n rkb kmin kmax (op_node (act_of o)) (act_of o).
Proof.
  intros [Hr Hd]. pose proof (key_bits_length (vo_key o)). unfold op_is, op_node, act_of. cbn [fst snd]. destruct (vo_op o); cbn; split_and!; try done; by apply Hd.
Qed.
(** The sorted operations. *)
Lemma sorted_acts acts : Forall (λ a, length (fst a) = n) acts →
  ∃ acts', sorted_by op_le (map op_node acts) = map op_node acts' ∧ acts' ≡ₚ acts ∧ Sorted op_before acts'.
Proof.
  intros Hl. assert (Hsig : ∃ l : list {a : bit_op | length (fst a) = n}, map proj1_sig l = acts).
  { induction Hl as [|a acts Ha _ [l <-]]; [by exists []|by exists (exist _ a Ha :: l)]. }
  destruct Hsig as [l <-]. rewrite map_map, sorted_by_map. set (le := λ x y, _).
  assert (Hle : ∀ x y, le x y = true ↔ op_before (`x) (`y)).
  { intros [[k1 v1] H1'] [[k2 v2] H2']. unfold le, op_le, op_before. cbn [proj1_sig fst] in *.
    assert (Hk : ∀ a : bit_op, n_Key (op_node a) = enc (fst a)) by (intros [k [v|]]; done). rewrite !Hk. cbn [fst].
    rewrite cmp_enc by lia. rewrite take_ge by lia. by destruct (bits_compare k1 k2). }
  exists (map proj1_sig (sorted_by le l)). split_and!; [by rewrite map_map|by rewrite sorted_by_perm|].
  assert (Hs : Sorted (λ x y, le x y = true) (sorted_by le l)).
  { apply Sorted_sorted_by. intros x y. rewrite !Hle. unfold op_before. rewrite (bits_compare_antisym (fst (`x)) (fst (`y))).
    destruct (bits_compare _ _); auto. }
  induction Hs as [|x l' Hs IH Hhd]; constructor; [done|]. destruct Hhd as [|y l'' Hy]; constructor. by apply Hle.
Qed.

(** *** [Commit] *)
Theorem Commit_refines s t os : rest s t → keyBitLength s = n → batch_ok os →
  ∃ s' t', Commit os s = (Ok (), s') ∧ rest s' t' ∧ keyBitLength s' = n ∧ leaves t' = foldl apply_leaf (leaves t) (map act_of os).
Proof.
  intros [Hf Hroot Hnode Hrep Htr Han] Hkb [Hok Hnd]. destruct kmin_spec as [_ Hmin], kmax_spec as [_ Hmax].
  destruct (sorted_acts (map act_of os)) as (acts & Hsort & Hperm & Hsorted).
  { apply Forall_map, Forall_forall. intros o _. apply key_bits_length. }
  set (s1 := set_operations (map op_node acts) s).
  assert (Hf1 : focus n rkb s1 (current s) [] [] t) by (destruct Hf; by split).
  destruct (commit_loop_spec n rkb n_bound rkb_length kmin kmax Hmin Hmax (map op_node acts) acts s1 (current s) [] [] t) as (s' & Hrun & Hrest & Hkb' & Hl).
  - apply Forall2_fmap_l. assert (Hall : Forall (λ a, op_is n rkb kmin kmax (op_node a) a) acts).
    { rewrite Hperm. apply Forall_map. eapply Forall_impl; [exact Hok|]. apply act_of_is. }
    clear -Hall. induction Hall; constructor; done.
  - done.
  - split; try done. intros op ops k' _ _. split; [done|]. change (label t) with (label (plug [] t)). rewrite (fo_top _ _ _ _ _ _ _ Hf). apply prefix_nil.
  - done.
  - done.
  - exists s', (foldl apply_op t acts). split_and!; [|done|by rewrite Hkb'|].
    + unfold Commit. run. rewrite Hkb. rewrite (run_lift _ _ _ _ (mapM_nodes os)). cbv beta. rewrite Hsort. run. exact Hrun.
    + cbn [plug] in Hl. rewrite Hl. apply apply_leaf_perm; [done|]. rewrite Hperm. unfold act_of. by rewrite map_map.
Qed.

(** *** [NewSMT] *)
Definition empty_tree : tree := Inner [] (Leaf kmin leaf0) (Leaf kmax leaf1).
Lemma empty_tree_wf : wf_tree n empty_tree ∧ rkb ∉ labels empty_tree ∧ anchored kmin kmax empty_tree.
Proof.
  destruct kmin_spec as [L1 P1], kmax_spec as [L2 P2]. pose proof cf_min. pose proof cf_max. pose proof cf_n.
  assert (Hne : kmin ≠ kmax) by (by apply (prefix_ne [] kmin kmax false)). split_and!; [done..| |].
  - cbn. rewrite !elem_of_cons, elem_of_nil. intros [Hr|[?|[?|[]]]]; [|done..]. pose proof rkb_length as Hl. rewrite Hr in Hl. cbn in Hl. lia.
  - unfold anchored. cbn [leaves empty_tree]. rewrite lookup_union_l, lookup_union_r by (by apply lookup_singleton_None).
    rewrite !lookup_singleton_eq. eauto.
Qed.
Lemma rest_intro s t : wf_tree n t → rkb ∉ labels t → label t = [] → anchored kmin kmax t → rep rkb (store s) t → coherent s →
  traversed s = [] → current s = root s → n_Key (root s) = enc rkb → n_Node (root s) = node_of t → rest s t.
Proof.
  intros Hw Hr Hl Ha Hrep Hc Htr Hcur Hk Hnd. destruct t as [k v|p l r].
  { exfalso. pose proof cf_n. cbn in Hw, Hl. subst k. cbn in Hw. lia. }
  cbn in Hl. subst p. split; try done; [|by rewrite Hcur]. split; try done; [|by destruct Hrep].
  rewrite Hcur. split; [done|]. unfold n_Value. by rewrite Hnd.
Qed.
Lemma newNodeKeys : newNodeKey leaf0 n = Ok (enc kmin) ∧ newNodeKey leaf1 n = Ok (enc kmax) ∧ newNodeKey rootKey n = Ok (enc rkb).
Proof. pose proof cf_n. pose proof cf_root. split_and!; apply newNodeKey_enc; rewrite ?length_replicate; lia. Qed.
Definition opened (st : gmap bytes bytes) : SMT := MkSMT st newNode n ∅ [] [] 0 false newNode newNode [] (enc kmin) (enc kmax).
Lemma NewSMT_run st s : (root ← getNode (enc rkb); modify (set_root root);; when (bool_decide (n_Left root = [])) (initializeTree (enc rkb));; reset) (opened st) = (Ok (), s) →
  NewSMT rootKey n st = Ok s.
Proof. intros Hrun. unfold NewSMT. destruct newNodeKeys as (-> & -> & ->). cbn [mbind result_bind]. fold (opened st). by rewrite Hrun. Qed.

(** A tree that is opened again is where it was left. *)
Theorem NewSMT_reopen s t : rest s t → ∃ s', NewSMT rootKey n (store s) = Ok s' ∧ rest s' t ∧ store s' = store s ∧ keyBitLength s' = n.
Proof.
  intros [[Fwf Frk Ftop Fnode Fkids _ _ Fcoh Froot] Hroot Hnode Hrep Htr Han]. cbn [plug] in Fwf, Frk, Ftop.
  assert (Hc0 : coherent (opened (store s))) by (intros k nd Hk; cbn in Hk; by rewrite lookup_empty in Hk).
  destruct (getNode_spec (opened (store s)) (enc rkb) (node_of t) Hc0) as (nd & Hget & Hk & Hn).
  { apply rep_look in Hrep. by rewrite Ftop in Hrep. }
  eexists. split; [|split; [|split]].
  - apply NewSMT_run. rewrite (bind_run_Ok _ _ _ _ _ Hget). cbv beta. run. rewrite bool_decide_false.
    2:{ unfold n_Left. rewrite Hn. destruct t as [k v|p l r]; [done|]. cbn. apply enc_ne. destruct Fwf as (_ & _ & P & _). intros He.
        rewrite He in P. apply prefix_nil_inv in P. by destruct p. }
    cbn [when]. run. unfold reset. run. reflexivity.
  - apply rest_intro; try done.
  - done.
  - done.
Qed.
Lemma setNode_current nd c s : setNode nd (set_current c s) = (fst (setNode nd s), set_current c (snd (setNode nd s))).
Proof. reflexivity. Qed.
Theorem NewSMT_empty : ∃ s, NewSMT rootKey n ∅ = Ok s ∧ rest s empty_tree ∧ keyBitLength s = n.
Proof.
  destruct empty_tree_wf as (Hw & Hr & Ha). destruct kmin_spec as [L1 P1], kmax_spec as [L2 P2]. pose proof cf_n.
  assert (N1 : kmin ≠ []) by (intros He; rewrite He in P1; by apply prefix_nil_inv in P1). assert (N2 : kmax ≠ []) by (intros He; rewrite He in P2; by apply prefix_nil_inv in P2).
  set (s0 := set_root newNode (opened ∅)).
  assert (Hc0 : coherent s0) by (intros k nd Hk; cbn in Hk; by rewrite lookup_empty in Hk).
  destruct (setNode_spec s0 (MkNode (enc kmin) (leaf_Node leaf0) false) Hc0) as (c1 & Hrun1 & Hcoh1); [apply (ok_enc n rkb n_bound rkb_length kmin); [done|lia]|].
  set (s1 := set_store _ _) in Hrun1, Hcoh1.
  destruct (setNode_spec s1 (MkNode (enc kmax) (leaf_Node leaf1) false) Hcoh1) as (c2 & Hrun2 & Hcoh2); [apply (ok_enc n rkb n_bound rkb_length kmax); [done|lia]|].
  set (s2 := set_store _ _) in Hrun2, Hcoh2. cbn [n_Key n_Node] in *.
  set (nd := MkNode (enc rkb) (MkLibNode [] (enc kmin) (enc kmax) [] 0) false). set (s3 := set_root nd s2).
  assert (Hf : focus n rkb s3 nd [] [] empty_tree).
  { assert (Hst : store s3 = <[store_key (name rkb kmax) := MarshalNode (leaf_Node leaf1)]> (<[store_key (name rkb kmin) := MarshalNode (leaf_Node leaf0)]> ∅)).
    { rewrite !name_ne by done. reflexivity. }
    split; try done. rewrite Hst. split; [|split; [apply look_insert|done]].
    apply (rep_set n rkb n_bound rkb_length); try done; [| |by apply not_eq_sym, cf_max|lia|].
    - cbn. intros Hr1%list_elem_of_singleton. by apply cf_min.
    - cbn. intros He%list_elem_of_singleton. apply (prefix_ne [] kmax kmin true); [done..|]. by rewrite He.
    - split; [apply look_insert|done]. }
  destruct (store_node n rkb n_bound rkb_length s3 nd [] [] [] (Leaf kmin leaf0) (Leaf kmax leaf1) Hf)
    as (nd' & s4 & Hrun & C1 & C2 & C3 & C4 & C5 & C6 & C7 & C8 & C9 & C10 & C11).
  apply bind_Ok in Hrun as (nd1 & s5 & Hu & Hrun). rewrite run_modify in Hrun.
  destruct (setNode nd1 s5) as [o s6] eqn:Hset.
  rewrite setNode_current, Hset in Hrun. cbn [fst snd] in Hrun. apply pair_equal_spec in Hrun as [-> Hs4].
  assert (Hinit : initializeTree (enc rkb) s0 = (Ok (), s6)).
  { destruct newNodeKeys as (K1 & K2 & _). unfold initializeTree. run. rewrite (run_lift _ _ _ _ K1), (run_lift _ _ _ _ K2). cbv beta.
    rewrite (bind_run_Ok _ _ _ _ _ Hrun1), (bind_run_Ok _ _ _ _ _ Hrun2). cbv beta zeta. fold nd. run. fold s3.
    rewrite (bind_run_Ok _ _ _ _ _ Hu). exact Hset. }
  eexists. split; [|split].
  - apply NewSMT_run. rewrite (bind_run_Ok _ _ (opened ∅) newNode (opened ∅)) by done. cbv beta. run. rewrite bool_decide_true by done. cbn [when].
    fold s0. rewrite (bind_run_Ok _ _ _ _ _ Hinit). cbv beta. unfold reset. run. reflexivity.
  - assert (E : store s4 = store s6 ∧ root s4 = root s6 ∧ nodeCache s4 = nodeCache s6) by (by rewrite <- Hs4). destruct E as (E1 & E2 & E3).
    apply rest_intro; try done; smt_proj; rewrite <- ?E1, <- ?E2; try done.
    + unfold coherent in *. smt_proj. by rewrite <- E1, <- E3.
    + rewrite C11 by done. exact C6.
  - change (keyBitLength (set_current nd1 s6) = n). rewrite Hs4. exact C4.
Qed.

(** ** Histories *)

(** The life of a tree: commits, and openings of what is stored. *)
Inductive step : Type :=
| SCommit (os : list valueOp)
| SReopen.
Definition do_step (s : SMT) (x : step) : result ErrorI SMT :=
  match x with
  | SCommit os => match Commit os s with (Ok _, s') => Ok s' | (Err e, _) => Err e end
  | SReopen => NewSMT rootKey n (store s)
  end.
Fixpoint run_steps (s : SMT) (l : list step) : result ErrorI SMT :=
  match l with [] => Ok s | x :: l => s' ← do_step s x; run_steps s' l end.
Definition history (l : list step) : result ErrorI SMT := s ← NewSMT rootKey n ∅; run_steps s l.
Definition step_acts (x : step) : list bit_op := match x with SCommit os => map act_of os | SReopen => [] end.
Definition step_ok (x : step) : Prop := match x with SCommit os => batch_ok os | SReopen => True end.
(** What a history leaves in the tree: the reserved leaves and what was set last. *)
Definition final_leaves (l : list step) : gmap bits bytes := foldl apply_leaf (leaves empty_tree) (concat (map step_acts l)).

Lemma run_steps_rest l s t : Forall step_ok l → rest s t → keyBitLength s = n →
  ∃ s' t', run_steps s l = Ok s' ∧ rest s' t' ∧ leaves t' = foldl apply_leaf (leaves t) (concat (map step_acts l)).
Proof.
  intros Hok. revert s t. induction Hok as [|[os|] l Hx _ IH]; intros s t Hr Hkb; cbn [run_steps map concat]; [by exists s, t|..].
  - destruct (Commit_refines s t os Hr Hkb Hx) as (s1 & t1 & Hrun & Hr1 & Hkb1 & Hl1). cbn [do_step]. rewrite Hrun. cbn [mbind result_bind].
    destruct (IH s1 t1 Hr1 Hkb1) as (s2 & t2 & Hrun2 & Hr2 & Hl2). exists s2, t2. split_and!; [done..|].
    rewrite foldl_app. cbn [step_acts]. by rewrite <- Hl1.
  - destruct (NewSMT_reopen s t Hr) as (s1 & Hrun & Hr1 & _ & Hkb1). cbn [do_step]. rewrite Hrun. cbn [mbind result_bind]. by apply IH.
Qed.
Lemma history_rest l : Forall step_ok l → ∃ s t, history l = Ok s ∧ rest s t ∧ leaves t = final_leaves l.
Proof.
  intros Hok. destruct NewSMT_empty as (s & Hrun & Hr & Hkb). unfold history. rewrite Hrun. cbn [mbind result_bind].
  by apply run_steps_rest.
Qed.
Lemma rest_Root s t : rest s t → Root s = merkle t.
Proof. intros Hr. unfold Root, n_Value. by rewrite (ar_root _ _ _ _ _ _ Hr), (ar_node _ _ _ _ _ _ Hr), node_of_Value. Qed.
Lemma rest_wf s t : rest s t → wf_tree n t.
Proof. intros [Hf _ _ _ _ _]. apply (fo_wf _ _ _ _ _ _ _ Hf). Qed.
End commit.
