(* ===== verification/SmtDemo.v ===== *)
(** * Sparse Merkle tree properties, and a small tree to run them on *)
From stdpp Require Import countable.
From S2P Require Import Prelude LibUtil State Crypto TxnStore SmtKey Smt SmtTree SmtRefine SmtCommit.
#[local] Open Scope Z_scope.

(** A toy hash and a serialization of nodes that is a bijection. *)
Definition demo_hash (bz : bytes) : bytes :=
  let z := fold_left (λ z b, (z * 31 + byte_to_Z b + 7) mod 4294967296) bz 17 in
  map (λ i, byte_of_Z (Z.shiftr z (8 * i))) [0; 1; 2; 3].
#[export] Instance demo_crypto : Crypto := {| NewPublicKeyFromBytes := λ _, None; Hash := demo_hash |}.
Fixpoint pos_bytes (p : positive) : bytes :=
  match p with xH => [] | xO p => x00 :: pos_bytes p | xI p => x01 :: pos_bytes p end.
Fixpoint bytes_pos (bz : bytes) : positive :=
  match bz with [] => xH | x00 :: bz => xO (bytes_pos bz) | _ :: bz => xI (bytes_pos bz) end.
Lemma bytes_pos_bytes p : bytes_pos (pos_bytes p) = p.
Proof. induction p; cbn; congruence. Qed.
Definition node_tuple (n : lib_Node) : bytes * bytes * bytes * bytes * Z := (Value n, LeftChildKey n, RightChildKey n, pn_Key n, Bitmask n).
#[export] Instance demo_codec : NodeCodec := {|
  MarshalNode := λ n, pos_bytes (encode (node_tuple n));
  UnmarshalNode := λ bz, (λ '(a, b, c, d, e), MkLibNode a b c d e) <$> decode (bytes_pos bz);
|}.
#[export] Instance demo_codec_laws : NodeCodecLaws.
Proof. intros [a b c d e]. cbn [MarshalNode UnmarshalNode demo_codec]. by rewrite bytes_pos_bytes, decode_encode. Qed.
Definition vop (k v : byte) : valueOp := MkValueOp [k] (Some [v]) 0 opSet.
Definition dop (k : byte) : valueOp := MkValueOp [k] None 0 opDelete.
#[export] Instance demo_config : SmtConfig RootKey 8.
Proof.
  split; [lia|cbn; lia|vm_compute; discriminate..|]. intros bz. cbn [Hash demo_crypto]. unfold demo_hash. rewrite length_map. cbn. lia.
Qed.
#[export] Instance op_ok_dec rk n o : Decision (op_ok rk n o).
Proof. unfold op_ok. apply _. Defined.
#[export] Instance batch_ok_dec rk n os : Decision (batch_ok rk n os).
Proof. unfold batch_ok. apply _. Defined.
#[export] Instance step_ok_dec rk n x : Decision (step_ok rk n x).
Proof. destruct x; cbn; apply _. Defined.
(** Two histories of the same final map: in one commit, and with detours. *)
Definition direct : list step := [SCommit [vop x01 x01; vop x02 x05; vop x03 x07]].
Definition detour : list step :=
  [SCommit [vop x03 x07; vop x09 x01]; SReopen; SCommit [dop x09; vop x01 x01; vop x02 x05; dop x55]].

(** ** Properties *)

(** C11. The sparse Merkle tree refines the map of its leaves.  Whatever batches
    of operations are committed, in whatever order Go ranges over them, and
    however often the tree is opened again from its store, every step succeeds
    and the store holds, node by node, a well formed compressed trie whose leaves
    are the reserved ones and what the operations leave in the map; the root is
    the Merkle hash of that trie, although only the parents above changed leaves
    are hashed again, once for a run of operations below them.  The operations of
    a batch are on different keys, none hashes to the key of the root and no
    deletion to one of the two reserved leaves. *)
Theorem smt_history_refines `{Crypto, !NodeCodec, !NodeCodecLaws} rootKey n `{!SmtConfig rootKey n} (l : list step) :
  Forall (step_ok rootKey n) l →
  ∃ s t, history rootKey n l = Ok s ∧ wf_tree n t ∧ leaves t = final_leaves n l ∧ rep (rkb rootKey n) (store s) t ∧ Root s = merkle t.
Proof.
  intros Hl. destruct (history_rest rootKey n l Hl) as (s & t & Hrun & Hr & Hleaves). exists s, t.
  split_and!; [done|by apply (rest_wf rootKey n s)|done|apply (ar_rep _ _ _ _ _ _ Hr)|by apply (rest_Root rootKey n)].
Qed.
Lemma smt_history_refines_witness :
  ∃ s t, history RootKey 8 detour = Ok s ∧ wf_tree 8 t ∧ leaves t = final_leaves 8 detour ∧ rep (rkb RootKey 8) (store s) t ∧ Root s = merkle t.
Proof. apply (smt_history_refines RootKey 8 detour). apply (bool_decide_unpack _). vm_compute. exact I. Defined.

(** C12. The state root is a function of the committed state.  Two histories that
    leave the same map - other batches, another order inside them, writes that
    are later overwritten or deleted, a tree kept in memory or opened again - end
    with the same root, and with the same node under every label of the tree. *)
Theorem smt_root_history_independent `{Crypto, !NodeCodec, !NodeCodecLaws} rootKey n `{!SmtConfig rootKey n} (l1 l2 : list step) :
  Forall (step_ok rootKey n) l1 → Forall (step_ok rootKey n) l2 → final_leaves n l1 = final_leaves n l2 →
  ∃ s1 s2 t, history rootKey n l1 = Ok s1 ∧ history rootKey n l2 = Ok s2 ∧ Root s1 = Root s2 ∧
    rep (rkb rootKey n) (store s1) t ∧ rep (rkb rootKey n) (store s2) t.
Proof.
  intros Hl1 Hl2 He. destruct (history_rest rootKey n l1 Hl1) as (s1 & t1 & Hrun1 & Hr1 & L1), (history_rest rootKey n l2 Hl2) as (s2 & t2 & Hrun2 & Hr2 & L2).
  assert (t1 = t2) as -> by (apply (tree_unique n); [by eapply rest_wf..|congruence]). exists s1, s2, t2.
  rewrite (rest_Root rootKey n s1 t2), (rest_Root rootKey n s2 t2) by done. split_and!; try done; [apply (ar_rep _ _ _ _ _ _ Hr1)|apply (ar_rep _ _ _ _ _ _ Hr2)].
Qed.
Lemma smt_root_history_independent_witness :
  ∃ s1 s2 t, history RootKey 8 direct = Ok s1 ∧ history RootKey 8 detour = Ok s2 ∧ Root s1 = Root s2 ∧
    rep (rkb RootKey 8) (store s1) t ∧ rep (rkb RootKey 8) (store s2) t.
Proof.
  apply (smt_root_history_independent RootKey 8 direct detour); [apply (bool_decide_unpack _); vm_compute; exact I..|vm_compute; reflexivity].
Defined.

(** C31. The keys of the tree are well formed bit strings and their operations are
    those of bit strings.  A key made of data has the asked number of leading bits
    of it, adding a bit or taking the common prefix gives a well formed key again,
    reading a bit in range does not panic and is the bit, two well formed keys are
    equal as bytes only if they are equal as bits, and a comparison truncates the
    longer key to the shorter and orders the bits lexicographically. *)
Theorem smt_keys_well_formed (data : bytes) (n : nat) (a b : bits) (i : nat) (x y : bool) :
  (1 <= n <= 8 * length data)%nat → a !! i = Some x → (length b <= length a)%nat →
  newNodeKey data n = Ok (enc (take n (data_bits data))) ∧
  totalBits (enc a) = Ok (Z.of_nat (length a)) ∧
  bitAt (enc a) i = Ok x ∧
  addBit (enc a) y = Ok (enc (a ++ [y])) ∧
  greatestCommonPrefix (enc a) 0 [] (enc b) = Ok (length (common a b), enc (common a b)) ∧
  cmp (enc a) (enc b) = Ok (bits_compare (take (length b) a) b) ∧
  (enc a = enc b → a = b).
Proof.
  intros Hn Hi Hl. split_and!; [by apply newNodeKey_enc|apply totalBits_enc|by apply bitAt_enc|apply addBit_enc| |by apply cmp_enc|apply enc_inj].
  apply (gcp_enc a b 0); [done|lia].
Qed.
Lemma smt_keys_well_formed_witness :
  newNodeKey [xa5; x3c] 11 = Ok (enc (take 11 (data_bits [xa5; x3c]))) ∧
  totalBits (enc [true; false; false]) = Ok 3 ∧
  bitAt (enc [true; false; false]) 1 = Ok false ∧
  addBit (enc [true; false; false]) true = Ok (enc [true; false; false; true]) ∧
  greatestCommonPrefix (enc [true; false; false]) 0 [] (enc [true; true]) = Ok (1%nat, enc [true]) ∧
  cmp (enc [true; false; false]) (enc [true; true]) = Ok Lt ∧
  (enc [true; false; false] = enc [true; true] → [true; false; false] = [true; true]).
Proof. apply (smt_keys_well_formed [xa5; x3c] 11 [true; false; false] [true; true] 1 false true); [cbn; lia|reflexivity|cbn; lia]. Defined.
