(* ===== verification/Bft.v ===== *)
(** * The consensus instance of a node ([bft/bft.go], [vote.go], [prop.go], [msg.go])

    The state of one node, its messages and what it uses of its controller; the
    checks on incoming messages; votes, proposals and evidence; and the phases a
    timer steps it through.  Handlers run in the state-and-error monad of the
    prelude, where the only error a phase ends with is a Go panic; what a node
    sends is recorded in order. *)
From stdpp Require Import pretty.
From Stdlib Require String.
From S2P Require Import Prelude LibUtil State Crypto Wire Tx Account Quorum Byzantine Swap Certificate.
#[local] Open Scope Z_scope.

(** ** Messages *)

Record VDF : Type := MkVDF { vdf_Proof : bytes; vdf_Output : bytes; Iterations : Z }.
Record DoubleSignEvidence : Type := MkDoubleSignEvidence {
  VoteA : option QuorumCertificate; VoteB : option QuorumCertificate }.
Record Message : Type := MkMessage {
  m_Header : option View;
  m_Vrf : option Tx.Signature;
  m_Qc : option QuorumCertificate;
  m_HighQc : option QuorumCertificate;
  m_LastDoubleSignEvidence : list DoubleSignEvidence;
  m_Vdf : option VDF;
  m_Signature : option Tx.Signature;
  m_Timestamp : Z;
  m_RcBuildHeight : Z;
}.
Definition empty_message : Message := MkMessage None None None None [] None None 0 0.
Definition empty_qc : QuorumCertificate := MkQuorumCertificate None None [] [] [] [] None.
Definition sig_key (s : option Tx.Signature) : bytes :=
  match s with Some s => default [] (sig_PublicKey s) | None => [] end.
Definition sig_bytes (s : option Tx.Signature) : bytes :=
  match s with Some s => default [] (sig_Signature s) | None => [] end.

(** Serialization, single-key signatures, the mask and the aggregation of BLS
    signatures, and the delay function are third-party code.  [below_cutoff] is
    the comparison of big floats in [IsCandidate]. *)
Class BftExternals : Type := {
  MarshalMessage : Message → bytes;
  MarshalEvidence : DoubleSignEvidence → bytes;
  Verify : bytes → bytes → bytes → bool;
  NewMask : nat → bytes;
  SetBit : nat → bytes → nat → option bytes;
  AggregateSignatures : list bytes → bytes → list bytes → option bytes;
  VerifyVDF_ : bytes → VDF → bool;
  below_cutoff : Z → Z → Z → bytes → bool;
  BlockResult : Type;
}.
(** The node's configuration and its key. *)
Class Node : Type := {
  self_PublicKey : bytes;
  self_Sign : bytes → bytes;
  RunVDF_enabled : bool;
  ElectionTimeoutMS : Z; ElectionVoteTimeoutMS : Z; ProposeTimeoutMS : Z; ProposeVoteTimeoutMS : Z;
  PrecommitTimeoutMS : Z; PrecommitVoteTimeoutMS : Z; CommitTimeoutMS : Z;
}.

Section messages.
Context `{Crypto, Multisig, Codec, BftExternals}.

Definition phase_of (v : option View) : Phase := match v with Some v => view_Phase v | None => UNKNOWN end.
Definition qc_header (m : Message) : option View := match m_Qc m with Some qc => Header qc | None => None end.
Definition is_some {A} (x : option A) : bool := negb (is_nil x).

Definition IsReplicaMessage (x : Message) : bool :=
  if is_nil (qc_header x) || is_some (m_Header x) then false
  else match phase_of (qc_header x) with ELECTION_VOTE | PROPOSE_VOTE | PRECOMMIT_VOTE => true | _ => false end.
Definition IsProposerMessage (x : Message) : bool :=
  match m_Header x with
  | None => false
  | Some h => match view_Phase h with ELECTION | PROPOSE | PRECOMMIT | COMMIT => true | _ => false end
  end.
Definition IsPacemakerMessage (x : Message) : bool :=
  if is_nil (qc_header x) then false
  else match phase_of (qc_header x) with ROUND_INTERRUPT => true | _ => false end.

(** [Message.SignBytes] *)
Definition strip_qc (qc : QuorumCertificate) : QuorumCertificate :=
  MkQuorumCertificate (Header qc) None (ResultsHash qc) [] (BlockHash qc) (ProposerKey qc) (Signature qc).
Definition Message_SignBytes (x : Message) : bytes :=
  if IsProposerMessage x then
    MarshalMessage (MkMessage (m_Header x) (m_Vrf x) (strip_qc <$> m_Qc x) (m_HighQc x)
      (m_LastDoubleSignEvidence x) None None 0 0)
  else if IsReplicaMessage x then
    match m_Qc x with
    | None => []
    | Some qc => SignBytes (MkQuorumCertificate (Header qc) None (ResultsHash qc) [] (BlockHash qc) (ProposerKey qc) None)
    end
  else if IsPacemakerMessage x then
    MarshalMessage (MkMessage (m_Header x) None None None [] None None 0 0)
  else [].

Definition checkSignatureBasic (s : option Tx.Signature) : result ErrorI unit :=
  check_not (is_nil s || bool_decide (sig_key s = []) || bool_decide (sig_bytes s = [])) ErrPartialSignatureEmpty;;
  check_not (negb (len (sig_key s) =? BLS12381PubKeySize)) ErrInvalidPublicKey;;
  check_not (negb (len (sig_bytes s) =? BLS12381SignatureSize)) ErrInvalidSignatureLength.
Definition checkSignature (s : option Tx.Signature) (signBytes : bytes) : result ErrorI unit :=
  checkSignatureBasic s;;
  match NewPublicKeyFromBytes (sig_key s) with
  | None => Err ErrPubKeyFromBytes
  | Some pk => check_not (negb (Verify (pk_Bytes pk) signBytes (sig_bytes s))) ErrInvalidPartialSignature
  end.
Definition checkBasic (x : Message) (view : View) : result ErrorI unit :=
  View_Check (m_Header x) view false;;
  checkSignature (m_Signature x) (Message_SignBytes x).
End messages.

(** ** State *)

Record SortitionData : Type := MkSortitionData {
  LastProposerAddresses : list bytes; sd_RootHeight : Z; sd_Height : Z; sd_Round : Z;
  TotalValidators : Z; sd_TotalPower : Z; sd_VotingPower : Z }.
(** A multi key: its keys, a signature per key (empty where there is none), its mask. *)
Record MultiPublicKey : Type := MkMultiPublicKey { Publics : list bytes; mk_signatures : list bytes; mk_mask : bytes }.
Record VoteSet : Type := MkVoteSet { Vote : Message; TotalVotedPower : Z; multiKey : MultiPublicKey }.
Record DoubleSignEvidences : Type := MkDoubleSignEvidences {
  Evidence : list DoubleSignEvidence; DeDuplicator : gset bytes }.
Definition no_evidence : DoubleSignEvidences := MkDoubleSignEvidences [] ∅.
(** A stored proposal.  Certificates of stored proposals are shared with the
    node's lock and are written through it: they live in the store [b_qcs]. *)
Record Proposal : Type := MkProposal { p_Message : Message; p_Qc : option nat }.

Inductive Action : Type :=
| SendToReplicas (m : Message)
| SendToProposer (proposerKey : bytes) (m : Message)
| SelfSendBlock (qc : QuorumCertificate) (timestamp : Z)
| GossipBlock (qc : QuorumCertificate) (timestamp : Z)
| VDFServiceRun (seed : bytes)
| ResetFSM
| StopTimer
| ResetTimer (ns : Z).

Section bft.
Context `{Crypto, Multisig, Codec, BftExternals, Node}.

Record BFT : Type := MkBFT {
  b_View_ : View;
  b_Votes : gmap Z (gmap Z (gmap bytes VoteSet));
  b_Proposals : gmap Z (gmap Z (list Proposal));
  b_ProposerKey : bytes;
  b_ValidatorSet : ValidatorSet;
  b_CommitteeData : option CommitteeData;
  b_HighQC : option nat;
  b_RCBuildHeight : Z;
  b_Block : bytes;
  b_BlockHash : bytes;
  b_Results : option CertificateResult;
  b_BlockResult : option BlockResult;
  b_SortitionData : option SortitionData;
  b_HighVDF : option VDF;
  b_VDFCache : list Message;
  b_ByzantineEvidence : DoubleSignEvidences;
  b_PartialQCs : gmap bytes QuorumCertificate;
  b_PacemakerMessages : gmap bytes Message;
  b_RoundInterruptTimeoutMS : Z;
  b_qcs : gmap nat QuorumCertificate;
  b_sent : list Action;
}.
Definition set_b_View_ (v : View) (b : BFT) : BFT :=
  MkBFT v (b_Votes b) (b_Proposals b) (b_ProposerKey b) (b_ValidatorSet b) (b_CommitteeData b) (b_HighQC b) (b_RCBuildHeight b) (b_Block b) (b_BlockHash b) (b_Results b) (b_BlockResult b) (b_SortitionData b) (b_HighVDF b) (b_VDFCache b) (b_ByzantineEvidence b) (b_PartialQCs b) (b_PacemakerMessages b) (b_RoundInterruptTimeoutMS b) (b_qcs b) (b_sent b).
Definition set_b_Votes (v : gmap Z (gmap Z (gmap bytes VoteSet))) (b : BFT) : BFT :=
  MkBFT (b_View_ b) v (b_Proposals b) (b_ProposerKey b) (b_ValidatorSet b) (b_CommitteeData b) (b_HighQC b) (b_RCBuildHeight b) (b_Block b) (b_BlockHash b) (b_Results b) (b_BlockResult b) (b_SortitionData b) (b_HighVDF b) (b_VDFCache b) (b_ByzantineEvidence b) (b_PartialQCs b) (b_PacemakerMessages b) (b_RoundInterruptTimeoutMS b) (b_qcs b) (b_sent b).
Definition set_b_Proposals (v : gmap Z (gmap Z (list Proposal))) (b : BFT) : BFT :=
  MkBFT (b_View_ b) (b_Votes b) v (b_ProposerKey b) (b_ValidatorSet b) (b_CommitteeData b) (b_HighQC b) (b_RCBuildHeight b) (b_Block b) (b_BlockHash b) (b_Results b) (b_BlockResult b) (b_SortitionData b) (b_HighVDF b) (b_VDFCache b) (b_ByzantineEvidence b) (b_PartialQCs b) (b_PacemakerMessages b) (b_RoundInterruptTimeoutMS b) (b_qcs b) (b_sent b).
Definition set_b_ProposerKey (v : bytes) (b : BFT) : BFT :=
  MkBFT (b_View_ b) (b_Votes b) (b_Proposals b) v (b_ValidatorSet b) (b_CommitteeData b) (b_HighQC b) (b_RCBuildHeight b) (b_Block b) (b_BlockHash b) (b_Results b) (b_BlockResult b) (b_SortitionData b) (b_HighVDF b) (b_VDFCache b) (b_ByzantineEvidence b) (b_PartialQCs b) (b_PacemakerMessages b) (b_RoundInterruptTimeoutMS b) (b_qcs b) (b_sent b).
Definition set_b_ValidatorSet (v : ValidatorSet) (b : BFT) : BFT :=
  MkBFT (b_View_ b) (b_Votes b) (b_Proposals b) (b_ProposerKey b) v (b_CommitteeData b) (b_HighQC b) (b_RCBuildHeight b) (b_Block b) (b_BlockHash b) (b_Results b) (b_BlockResult b) (b_SortitionData b) (b_HighVDF b) (b_VDFCache b) (b_ByzantineEvidence b) (b_PartialQCs b) (b_PacemakerMessages b) (b_RoundInterruptTimeoutMS b) (b_qcs b) (b_sent b).
Definition set_b_CommitteeData (v : option CommitteeData) (b : BFT) : BFT :=
  MkBFT (b_View_ b) (b_Votes b) (b_Proposals b) (b_ProposerKey b) (b_ValidatorSet b) v (b_HighQC b) (b_RCBuildHeight b) (b_Block b) (b_BlockHash b) (b_Results b) (b_BlockResult b) (b_SortitionData b) (b_HighVDF b) (b_VDFCache b) (b_ByzantineEvidence b) (b_PartialQCs b) (b_PacemakerMessages b) (b_RoundInterruptTimeoutMS b) (b_qcs b) (b_sent b).
Definition set_b_HighQC (v : option nat) (b : BFT) : BFT :=
  MkBFT (b_View_ b) (b_Votes b) (b_Proposals b) (b_ProposerKey b) (b_ValidatorSet b) (b_CommitteeData b) v (b_RCBuildHeight b) (b_Block b) (b_BlockHash b) (b_Results b) (b_BlockResult b) (b_SortitionData b) (b_HighVDF b) (b_VDFCache b) (b_ByzantineEvidence b) (b_PartialQCs b) (b_PacemakerMessages b) (b_RoundInterruptTimeoutMS b) (b_qcs b) (b_sent b).
Definition set_b_RCBuildHeight (v : Z) (b : BFT) : BFT :=
  MkBFT (b_View_ b) (b_Votes b) (b_Proposals b) (b_ProposerKey b) (b_ValidatorSet b) (b_CommitteeData b) (b_HighQC b) v (b_Block b) (b_BlockHash b) (b_Results b) (b_BlockResult b) (b_SortitionData b) (b_HighVDF b) (b_VDFCache b) (b_ByzantineEvidence b) (b_PartialQCs b) (b_PacemakerMessages b) (b_RoundInterruptTimeoutMS b) (b_qcs b) (b_sent b).
Definition set_b_Block (v : bytes) (b : BFT) : BFT :=
  MkBFT (b_View_ b) (b_Votes b) (b_Proposals b) (b_ProposerKey b) (b_ValidatorSet b) (b_CommitteeData b) (b_HighQC b) (b_RCBuildHeight b) v (b_BlockHash b) (b_Results b) (b_BlockResult b) (b_SortitionData b) (b_HighVDF b) (b_VDFCache b) (b_ByzantineEvidence b) (b_PartialQCs b) (b_PacemakerMessages b) (b_RoundInterruptTimeoutMS b) (b_qcs b) (b_sent b).
Definition set_b_BlockHash (v : bytes) (b : BFT) : BFT :=
  MkBFT (b_View_ b) (b_Votes b) (b_Proposals b) (b_ProposerKey b) (b_ValidatorSet b) (b_CommitteeData b) (b_HighQC b) (b_RCBuildHeight b) (b_Block b) v (b_Results b) (b_BlockResult b) (b_SortitionData b) (b_HighVDF b) (b_VDFCache b) (b_ByzantineEvidence b) (b_PartialQCs b) (b_PacemakerMessages b) (b_RoundInterruptTimeoutMS b) (b_qcs b) (b_sent b).
Definition set_b_Results (v : option CertificateResult) (b : BFT) : BFT :=
  MkBFT (b_View_ b) (b_Votes b) (b_Proposals b) (b_ProposerKey b) (b_ValidatorSet b) (b_CommitteeData b) (b_HighQC b) (b_RCBuildHeight b) (b_Block b) (b_BlockHash b) v (b_BlockResult b) (b_SortitionData b) (b_HighVDF b) (b_VDFCache b) (b_ByzantineEvidence b) (b_PartialQCs b) (b_PacemakerMessages b) (b_RoundInterruptTimeoutMS b) (b_qcs b) (b_sent b).
Definition set_b_BlockResult (v : option BlockResult) (b : BFT) : BFT :=
  MkBFT (b_View_ b) (b_Votes b) (b_Proposals b) (b_ProposerKey b) (b_ValidatorSet b) (b_CommitteeData b) (b_HighQC b) (b_RCBuildHeight b) (b_Block b) (b_BlockHash b) (b_Results b) v (b_SortitionData b) (b_HighVDF b) (b_VDFCache b) (b_ByzantineEvidence b) (b_PartialQCs b) (b_PacemakerMessages b) (b_RoundInterruptTimeoutMS b) (b_qcs b) (b_sent b).
Definition set_b_SortitionData (v : option SortitionData) (b : BFT) : BFT :=
  MkBFT (b_View_ b) (b_Votes b) (b_Proposals b) (b_ProposerKey b) (b_ValidatorSet b) (b_CommitteeData b) (b_HighQC b) (b_RCBuildHeight b) (b_Block b) (b_BlockHash b) (b_Results b) (b_BlockResult b) v (b_HighVDF b) (b_VDFCache b) (b_ByzantineEvidence b) (b_PartialQCs b) (b_PacemakerMessages b) (b_RoundInterruptTimeoutMS b) (b_qcs b) (b_sent b).
Definition set_b_HighVDF (v : option VDF) (b : BFT) : BFT :=
  MkBFT (b_View_ b) (b_Votes b) (b_Proposals b) (b_ProposerKey b) (b_ValidatorSet b) (b_CommitteeData b) (b_HighQC b) (b_RCBuildHeight b) (b_Block b) (b_BlockHash b) (b_Results b) (b_BlockResult b) (b_SortitionData b) v (b_VDFCache b) (b_ByzantineEvidence b) (b_PartialQCs b) (b_PacemakerMessages b) (b_RoundInterruptTimeoutMS b) (b_qcs b) (b_sent b).
Definition set_b_VDFCache (v : list Message) (b : BFT) : BFT :=
  MkBFT (b_View_ b) (b_Votes b) (b_Proposals b) (b_ProposerKey b) (b_ValidatorSet b) (b_CommitteeData b) (b_HighQC b) (b_RCBuildHeight b) (b_Block b) (b_BlockHash b) (b_Results b) (b_BlockResult b) (b_SortitionData b) (b_HighVDF b) v (b_ByzantineEvidence b) (b_PartialQCs b) (b_PacemakerMessages b) (b_RoundInterruptTimeoutMS b) (b_qcs b) (b_sent b).
Definition set_b_ByzantineEvidence (v : DoubleSignEvidences) (b : BFT) : BFT :=
  MkBFT (b_View_ b) (b_Votes b) (b_Proposals b) (b_ProposerKey b) (b_ValidatorSet b) (b_CommitteeData b) (b_HighQC b) (b_RCBuildHeight b) (b_Block b) (b_BlockHash b) (b_Results b) (b_BlockResult b) (b_SortitionData b) (b_HighVDF b) (b_VDFCache b) v (b_PartialQCs b) (b_PacemakerMessages b) (b_RoundInterruptTimeoutMS b) (b_qcs b) (b_sent b).
Definition set_b_PartialQCs (v : gmap bytes QuorumCertificate) (b : BFT) : BFT :=
  MkBFT (b_View_ b) (b_Votes b) (b_Proposals b) (b_ProposerKey b) (b_ValidatorSet b) (b_CommitteeData b) (b_HighQC b) (b_RCBuildHeight b) (b_Block b) (b_BlockHash b) (b_Results b) (b_BlockResult b) (b_SortitionData b) (b_HighVDF b) (b_VDFCache b) (b_ByzantineEvidence b) v (b_PacemakerMessages b) (b_RoundInterruptTimeoutMS b) (b_qcs b) (b_sent b).
Definition set_b_PacemakerMessages (v : gmap bytes Message) (b : BFT) : BFT :=
  MkBFT (b_View_ b) (b_Votes b) (b_Proposals b) (b_ProposerKey b) (b_ValidatorSet b) (b_CommitteeData b) (b_HighQC b) (b_RCBuildHeight b) (b_Block b) (b_BlockHash b) (b_Results b) (b_BlockResult b) (b_SortitionData b) (b_HighVDF b) (b_VDFCache b) (b_ByzantineEvidence b) (b_PartialQCs b) v (b_RoundInterruptTimeoutMS b) (b_qcs b) (b_sent b).
Definition set_b_RoundInterruptTimeoutMS (v : Z) (b : BFT) : BFT :=
  MkBFT (b_View_ b) (b_Votes b) (b_Proposals b) (b_ProposerKey b) (b_ValidatorSet b) (b_CommitteeData b) (b_HighQC b) (b_RCBuildHeight b) (b_Block b) (b_BlockHash b) (b_Results b) (b_BlockResult b) (b_SortitionData b) (b_HighVDF b) (b_VDFCache b) (b_ByzantineEvidence b) (b_PartialQCs b) (b_PacemakerMessages b) v (b_qcs b) (b_sent b).
Definition set_b_qcs (v : gmap nat QuorumCertificate) (b : BFT) : BFT :=
  MkBFT (b_View_ b) (b_Votes b) (b_Proposals b) (b_ProposerKey b) (b_ValidatorSet b) (b_CommitteeData b) (b_HighQC b) (b_RCBuildHeight b) (b_Block b) (b_BlockHash b) (b_Results b) (b_BlockResult b) (b_SortitionData b) (b_HighVDF b) (b_VDFCache b) (b_ByzantineEvidence b) (b_PartialQCs b) (b_PacemakerMessages b) (b_RoundInterruptTimeoutMS b) v (b_sent b).
Definition set_b_sent (v : list Action) (b : BFT) : BFT :=
  MkBFT (b_View_ b) (b_Votes b) (b_Proposals b) (b_ProposerKey b) (b_ValidatorSet b) (b_CommitteeData b) (b_HighQC b) (b_RCBuildHeight b) (b_Block b) (b_BlockHash b) (b_Results b) (b_BlockResult b) (b_SortitionData b) (b_HighVDF b) (b_VDFCache b) (b_ByzantineEvidence b) (b_PartialQCs b) (b_PacemakerMessages b) (b_RoundInterruptTimeoutMS b) (b_qcs b) v.

(** The controller's answers during one call, the clock and the time since the
    handler began (nanoseconds), the delay function's output and the order in
    which Go ranges over maps. *)
Record Controller : Type := MkController {
  ChainHeight : Z;
  RootChainHeight : Z;
  LoadRootChainId : Z → Z;
  LoadCommittee : Z → Z → ValidatorSet * option ErrorI;
  LoadCommitteeData : option CommitteeData * option ErrorI;
  LoadLastProposers : Z → result ErrorI (list bytes);
  LoadMinimumEvidenceHeight : Z → Z → result ErrorI Z;
  IsValidDoubleSigner : Z → Z → bytes → bool;
  LoadCertificate : Z → result ErrorI (option QuorumCertificate);
  LoadMaxBlockSize : Z;
  Syncing : bool;
  ProduceProposal : DoubleSignEvidences → option VDF → Z * bytes * option CertificateResult * option ErrorI;
  ValidateProposal : Z → QuorumCertificate → DoubleSignEvidences → result ErrorI BlockResult;
  VDFService_Finish : option VDF;
  Now : Z;
  Since : Z;
  range : ∀ {A : Type}, list A → list A;
}.
Implicit Types (c : Controller) (b : BFT).
Notation B := (M BFT ErrorI).

Definition b_Height b : Z := view_Height (b_View_ b).
Definition b_RootHeight b : Z := RootHeight (b_View_ b).
Definition b_Round b : Z := Round (b_View_ b).
Definition b_Phase b : Phase := view_Phase (b_View_ b).
Definition set_Phase (p : Phase) (v : View) : View :=
  MkView (NetworkId v) (view_ChainId v) (view_Height v) (RootHeight v) (Round v) p.
Definition set_Round (r : Z) (v : View) : View :=
  MkView (NetworkId v) (view_ChainId v) (view_Height v) (RootHeight v) r (view_Phase v).
Definition set_Heights (h rh : Z) (v : View) : View :=
  MkView (NetworkId v) (view_ChainId v) h rh (Round v) (view_Phase v).

Definition get : B BFT := gets id.
Definition act (a : Action) : B unit := modify (λ b, set_b_sent (b_sent b ++ [a]) b).
Definition panic {A} : B A := throw ErrPanic.
Definition deref b (l : nat) : QuorumCertificate := default empty_qc (b_qcs b !! l).
Definition alloc b : nat := S (foldr max 0%nat (elements (dom (b_qcs b)))).
Definition b_high b : option QuorumCertificate := deref b <$> b_HighQC b.
Definition committee b : B CommitteeData := match b_CommitteeData b with Some d => mret d | None => panic end.

(** [results.Hash()], of a nil pointer too *)
Definition results_hash (r : option CertificateResult) : bytes :=
  Hash (match r with Some r => MarshalCertificateResult r | None => [] end).
Definition BlockToHash (blk : bytes) : bytes :=
  if bool_decide (blk = []) then [] else match BytesToBlockHash blk with Ok h => h | Err _ => [] end.
Definition block_hash b : bytes := if bool_decide (b_BlockHash b = []) then BlockToHash (b_Block b) else b_BlockHash b.
Definition GetBlockHash : B bytes :=
  b ← get; modify (set_b_BlockHash (block_hash b));; mret (block_hash b).
Definition GetValidator (vs : ValidatorSet) (publicKey : bytes) : option ConsensusValidator :=
  match GetValidatorAndIdx vs publicKey with Ok (v, _) => Some v | Err _ => None end.
Definition IsProposer b (id : bytes) : bool := bool_decide (id = b_ProposerKey b).
Definition SelfIsProposer b : bool := IsProposer b self_PublicKey.

(** ** Checks on incoming messages *)

Record validateMessageParams : Type := MkParams {
  p_view : View; p_vals : ValidatorSet; p_rootHeight : Z; p_height : Z; p_cHeightUpdated : Z;
  p_blockHash : bytes; p_resultsHash : bytes }.

Definition GetValidateMessageParams (msg : Message) : B validateMessageParams :=
  match checkSignatureBasic (m_Signature msg) with
  | Err e => throw e
  | Ok _ =>
      b ← get;
      match GetValidatorAndIdx (b_ValidatorSet b) (sig_key (m_Signature msg)) with
      | Err e => throw e
      | Ok _ =>
          '(blockHash, resultsHash) ←
            (if bool_decide (b_Block b = []) then mret ([], [])
             else h ← GetBlockHash; mret (h, results_hash (b_Results b)));
          d ← committee b;
          mret (MkParams (b_View_ b) (b_ValidatorSet b) (b_RootHeight b) (b_Height b) (LastChainHeightUpdated d)
                  blockHash resultsHash)
      end
  end.

(** The part of [CheckProposerMessage] for PROPOSE, PRECOMMIT and COMMIT. *)
Definition check_justification c (x : Message) (h : View) (qc : QuorumCertificate) (p : validateMessageParams)
    : result ErrorI bool :=
  QuorumCertificate_CheckBasic qc;;
  match Header qc with
  | None => Err ErrEmptyView
  | Some qh =>
      let foreign := negb (RootHeight qh =? p_rootHeight p) in
      vals ← (if foreign then
                match LoadCommittee c (LoadRootChainId c (view_Height qh)) (RootHeight qh) with
                | (_, Some e) => Err e
                | (vs, None) => Ok vs
                end
              else Ok (p_vals p));
      isPartialQC ← QuorumCertificate_Check qc vals (LoadMaxBlockSize c) (p_view p) false;
      if (isPartialQC : bool) then Ok true else
      check_not foreign ErrWrongRootHeight;;
      check_not (negb (view_Height h =? p_height p)) ErrWrongCertHeight;;
      check_not (view_Height qh <? p_cHeightUpdated p) ErrInvalidQCCommitteeHeight;;
      match view_Phase h with
      | PROPOSE =>
          check_not (negb (bool_decide (ProposerKey qc = sig_key (m_Signature x)))) ErrInvalidSigner;;
          check_not (bool_decide (qc_Block qc = [])) ErrNilBlock;;
          check_not (is_nil (Certificate.Results qc)) ErrNilCertResults;;
          Ok false
      | _ =>
          check_not (bool_decide (p_blockHash p = []) || bool_decide (p_resultsHash p = [])) ErrNoSavedBlockOrResults;;
          check_not (negb (bool_decide (Certificate.BlockHash qc = p_blockHash p))) ErrMismatchConsBlockHash;;
          check_not (negb (bool_decide (ResultsHash qc = p_resultsHash p))) ErrMismatchResultsHash;;
          Ok false
      end
  end.
Definition CheckProposerMessage c (x : Message) (p : validateMessageParams) : result ErrorI bool :=
  checkBasic x (p_view p);;
  match m_Header x with
  | None => Err ErrEmptyView
  | Some h =>
      if bool_decide (view_Phase h = ELECTION) then
        check_not (negb (view_Height h =? p_height p)) ErrWrongCertHeight;;
        checkSignatureBasic (m_Vrf x);;
        check_not (negb (bool_decide (sig_key (m_Signature x) = sig_key (m_Vrf x)))) ErrMismatchPublicKeys;;
        Ok false
      else match m_Qc x with
           | None => Err ErrEmptyQuorumCertificate
           | Some qc => check_justification c x h qc p
           end
  end.

Definition CheckReplicaMessage (x : Message) (params : validateMessageParams) : result ErrorI unit :=
  match m_Qc x with
  | None => Err ErrEmptyQuorumCertificate
  | Some qc =>
      checkSignature (m_Signature x) (Message_SignBytes x);;
      View_Check (Header qc) (p_view params) true;;
      if IsPacemakerMessage x then Ok () else
      if bool_decide (phase_of (Header qc) = ELECTION_VOTE) then
        check_not (negb (len (ProposerKey qc) =? BLS12381PubKeySize)) ErrInvalidSigner
      else
        (if bool_decide (p_blockHash params = [])
         then check_not (negb (bool_decide (Certificate.BlockHash qc = BlockToHash (qc_Block qc)))) ErrMismatchQCBlockHash
         else check_not (negb (bool_decide (Certificate.BlockHash qc = p_blockHash params))) ErrMismatchConsBlockHash);;
        check_not (negb (bool_decide (ResultsHash qc = p_resultsHash params))) ErrMismatchResultsHash
  end.

(** ** Evidence of double signing *)

Definition null_payload (qc : QuorumCertificate) : QuorumCertificate :=
  MkQuorumCertificate (Header qc) None (ResultsHash qc) [] (Certificate.BlockHash qc) (ProposerKey qc) (Signature qc).

Definition DSE_CheckBasic (x : DoubleSignEvidence) : result ErrorI unit :=
  match VoteA x, VoteB x with
  | Some a, Some b' =>
      check_not (is_nil (Header a) || is_nil (Header b')) ErrEmptyQuorumCertificate;;
      check_not (negb (View_Equals (Header a) (Header b'))) ErrMismatchEvidenceAndHeader
  | _, _ => Err ErrEmptyQuorumCertificate
  end.
Definition header_root (qc : QuorumCertificate) : Z := match Header qc with Some h => RootHeight h | None => 0 end.
Definition DSE_Check (a b' : QuorumCertificate) (vs : ValidatorSet) (view : View) (minimumEvidenceHeight : Z)
    : result ErrorI unit :=
  check_not (header_root a <? minimumEvidenceHeight) ErrEvidenceTooOld;;
  check_not (negb (bool_decide (qc_Block a = [])) || negb (bool_decide (qc_Block b' = []))) ErrNonNilBlock;;
  check_not (is_some (Certificate.Results a) || is_some (Certificate.Results b')) ErrNonNilCertResults;;
  QuorumCertificate_Check a vs 0 view false;;
  QuorumCertificate_Check b' vs 0 view false;;
  check_not (negb (View_Equals (Header a) (Header b'))) ErrInvalidEvidenceHeights;;
  check_not (bool_decide (SignBytes b' = SignBytes a)) ErrNonEquivocatingVote;;
  check_not (phase_num (phase_of (Header a)) <=? phase_num PROPOSE) ErrWrongPhase.

(** [AddHeight], and its use on the first entry of a signer. *)
Definition AddHeight (height : Z) (x : DoubleSigner) : DoubleSigner :=
  if bool_decide (height ∈ Heights x) then x else MkDoubleSigner (ds_Id x) (Heights x ++ [height]).
Fixpoint add_signer (pubKey : bytes) (height : Z) (results : list DoubleSigner) : list DoubleSigner :=
  match results with
  | [] => [MkDoubleSigner pubKey [height]]
  | d :: l => if bool_decide (ds_Id d = pubKey) then AddHeight height d :: l else d :: add_signer pubKey height l
  end.
(** The loop over the double signers of one piece of evidence. *)
Fixpoint collect_signers_at c (rootChainId committeeHeight : Z) (keys : list bytes) (results : list DoubleSigner)
    : result ErrorI (list DoubleSigner) :=
  match keys with
  | [] => Ok results
  | pubKey :: keys =>
      match NewPublicKeyFromBytes pubKey with
      | None => Err ErrPubKeyFromBytes
      | Some pk =>
          collect_signers_at c rootChainId committeeHeight keys
            (if IsValidDoubleSigner c rootChainId committeeHeight (pk_Address pk)
             then add_signer pubKey committeeHeight results else results)
      end
  end.
Definition process_one c (view : View) (x : DoubleSignEvidence) (results : list DoubleSigner)
    : result ErrorI (list DoubleSigner) :=
  DSE_CheckBasic x;;
  match VoteA x, VoteB x with
  | Some a, Some b' =>
      let committeeHeight := header_root a in
      let rootChainId := LoadRootChainId c (u64_sub committeeHeight 1) in
      match LoadCommittee c rootChainId committeeHeight with
      | (_, Some e) => Err e
      | (vs, None) =>
          minEvidenceHeight ← LoadMinimumEvidenceHeight c rootChainId committeeHeight;
          DSE_Check a b' vs view minEvidenceHeight;;
          check_not (bool_decide (SignBytes b' = SignBytes a)) ErrNonEquivocatingVote;;
          match Signature a, Signature b' with
          | Some sig1, Some sig2 =>
              doubleSigners ← GetDoubleSigners sig1 sig2 vs;
              collect_signers_at c rootChainId committeeHeight doubleSigners results
          | _, _ => Err ErrEmptyAggregateSignature
          end
      end
  | _, _ => Err ErrEmptyQuorumCertificate
  end.
Fixpoint process_all c (view : View) (dse : list DoubleSignEvidence) (results : list DoubleSigner)
    : result ErrorI (list DoubleSigner) :=
  match dse with
  | [] => Ok results
  | x :: dse => results ← process_one c view x results; process_all c view dse results
  end.
Definition ProcessDSE c (view : View) (dse : list DoubleSignEvidence) : result ErrorI (list DoubleSigner) :=
  process_all c view dse [].

Definition NewDSE (dse : list DoubleSignEvidence) : DoubleSignEvidences := MkDoubleSignEvidences dse ∅.
Definition null_evidence (ev : DoubleSignEvidence) : DoubleSignEvidence :=
  MkDoubleSignEvidence (null_payload <$> VoteA ev) (null_payload <$> VoteB ev).
(** [AddDSE]: the evidence list, whether or not it grew, and the error.  The two
    certificates lose their payloads as soon as [CheckBasic] passes. *)
Definition AddDSE c (view : View) (e : DoubleSignEvidences) (ev : DoubleSignEvidence)
    : DoubleSignEvidences * DoubleSignEvidence * option ErrorI :=
  match DSE_CheckBasic ev with
  | Err err => (e, ev, Some err)
  | Ok _ =>
      let ev := null_evidence ev in
      match ProcessDSE c view [ev] with
      | Err err => (e, ev, Some err)
      | Ok badSigners =>
          if bool_decide (badSigners = []) then (e, ev, Some ErrInvalidEvidence) else
          let key1 := MarshalEvidence ev in
          if bool_decide (key1 ∈ DeDuplicator e) then (e, ev, None)
          else (MkDoubleSignEvidences (Evidence e ++ [ev]) ({[key1]} ∪ DeDuplicator e), ev, None)
      end
  end.

(** [addDSEByPartialQC], for one partial certificate.  [AddDSE] writes through
    the pointers it is given: to the stored proposal's certificate, which may be
    the node's lock, and to the partial certificate. *)
Definition write_qc (l : nat) (f : QuorumCertificate → QuorumCertificate) : B unit :=
  modify (λ b, set_b_qcs (alter f l (b_qcs b)) b).
Definition write_evidence (l : option nat) (key : bytes) (ev : DoubleSignEvidence) : B unit :=
  match l, VoteA ev with Some l, Some qc => write_qc l (λ _, qc) | _, _ => mret () end;;
  match VoteB ev with
  | Some qc => modify (λ b, set_b_PartialQCs (<[key := qc]> (b_PartialQCs b)) b)
  | None => mret ()
  end.
Definition partial_evidence c (key : bytes) (dse : DoubleSignEvidences) : B DoubleSignEvidences :=
  b ← get;
  match b_PartialQCs b !! key with
  | None => mret dse
  | Some pQC =>
      match Header pQC with
      | None => panic
      | Some h =>
          if view_Height h =? b_Height b then
            match b_Proposals b !! Round h with
            | None => mret dse
            | Some roundProposal =>
                match roundProposal !! (phase_num (view_Phase h) + 1) with
                | None => mret dse
                | Some [] => panic
                | Some (p :: _) =>
                    let ev := MkDoubleSignEvidence (deref b <$> p_Qc p) (Some pQC) in
                    let '(dse, ev', _) := AddDSE c (b_View_ b) dse ev in
                    write_evidence (p_Qc p) key ev';;
                    mret dse
                end
            end
          else if negb (bool_decide (view_Phase h = PRECOMMIT_VOTE)) then mret dse
          else
            match LoadCertificate c (view_Height h) with
            | Err _ => mret dse
            | Ok certificate =>
                let '(dse, ev', _) := AddDSE c (b_View_ b) dse (MkDoubleSignEvidence certificate (Some pQC)) in
                write_evidence None key ev';;
                mret dse
            end
      end
  end.
Definition addDSEByPartialQC c (dse : DoubleSignEvidences) : B DoubleSignEvidences :=
  b ← get; fold_m (λ dse key, partial_evidence c key dse) dse (range c (elements (dom (b_PartialQCs b)))).
Definition GetLocalDSE c : B DoubleSignEvidences := addDSEByPartialQC c (NewDSE []).
Definition AddPartialQC (qc : QuorumCertificate) : B unit :=
  modify (λ b, set_b_PartialQCs (<[MarshalQC qc := qc]> (b_PartialQCs b)) b).

(** [ValidateByzantineEvidence] *)
Definition justified (doubleSigners : list DoubleSigner) (ds : DoubleSigner) : bool :=
  existsb (λ signer, bool_decide (ds_Id ds = ds_Id signer)
    && forallb (λ height, bool_decide (height ∈ Heights signer)) (Heights ds)) doubleSigners.
Definition ValidateByzantineEvidence c (view : View) (slashRecipients : option (list DoubleSigner))
    (be : DoubleSignEvidences) : result ErrorI unit :=
  match slashRecipients with
  | None | Some [] => Ok ()
  | Some claimed =>
      doubleSigners ← ProcessDSE c view (Evidence be);
      check_all (λ ds, check_not (negb (justified doubleSigners ds)) ErrMismatchEvidenceAndHeader) claimed
  end.

(** ** Votes *)

(** [BLS12381MultiPublicKey]: [Copy] of a fresh key, [AddSigner]. *)
Definition Copy (keys : list bytes) : MultiPublicKey :=
  MkMultiPublicKey keys (replicate (length keys) []) (NewMask (length keys)).
Definition AddSigner (signature : bytes) (index : nat) (k : MultiPublicKey) : result ErrorI MultiPublicKey * MultiPublicKey :=
  if (length (mk_signatures k) <=? index)%nat then (Err ErrPanic, k) else
  let k := MkMultiPublicKey (Publics k) (<[index := signature]> (mk_signatures k)) (mk_mask k) in
  match SetBit (length (Publics k)) (mk_mask k) index with
  | None => (Err ErrUnableToAddSigner, k)
  | Some m => let k := MkMultiPublicKey (Publics k) (mk_signatures k) m in (Ok k, k)
  end.
Definition aggregate (k : MultiPublicKey) : option bytes :=
  AggregateSignatures (Publics k) (mk_mask k) (filter (λ s, s ≠ []) (mk_signatures k)).

Definition vote_sets b (round phase : Z) : gmap bytes VoteSet :=
  default ∅ (default ∅ (b_Votes b !! round) !! phase).
Definition put_vote_set (round phase : Z) (payload : bytes) (v : VoteSet) b : BFT :=
  set_b_Votes (<[round := <[phase := <[payload := v]> (vote_sets b round phase)]> (default ∅ (b_Votes b !! round))]>
    (b_Votes b)) b.
(** The round, phase and payload of a vote. *)
Definition vote_at (vote : Message) : Z * Z * bytes :=
  (match qc_header vote with Some h => Round h | None => 0 end, phase_num (phase_of (qc_header vote)),
   HashString (Message_SignBytes vote)).
Definition getVoteSet (vote : Message) : B VoteSet :=
  let '(round, phase, payload) := vote_at vote in
  b ← get;
  match vote_sets b round phase !! payload with
  | Some v => mret v
  | None =>
      match MultiKey (b_ValidatorSet b) with
      | None => panic
      | Some keys =>
          let v := MkVoteSet vote 0 (Copy keys) in
          modify (put_vote_set round phase payload v);; mret v
      end
  end.

(** [addSigToVoteSet]: the vote set it leaves behind, and the error. *)
Definition addSigToVoteSet (vs : ValidatorSet) (vote : Message) (v : VoteSet) : VoteSet * result ErrorI unit :=
  match GetValidatorAndIdx vs (sig_key (m_Signature vote)) with
  | Err e => (v, Err e)
  | Ok (val, idx) =>
      match SignerEnabledAt (mk_mask (multiKey v)) (length (Publics (multiKey v))) idx with
      | Err ErrPanic => (v, Err ErrPanic)
      | Err _ => (v, Err ErrInvalidValidatorIndex)
      | Ok true => (v, Err ErrDuplicateVote)
      | Ok false =>
          let power := u64_add (TotalVotedPower v) (VotingPower val) in
          let '(r, k) := AddSigner (sig_bytes (m_Signature vote)) idx (multiKey v) in
          (MkVoteSet (Vote v) power k, match r with Ok _ => Ok () | Err e => Err e end)
      end
  end.

Definition set_high_qc (qc : QuorumCertificate) : B nat :=
  b ← get;
  let l := alloc b in
  modify (λ b, set_b_HighQC (Some l) (set_b_qcs (<[l := qc]> (b_qcs b)) b));; mret l.
Definition qc_block (m : Message) : bytes := match m_Qc m with Some qc => qc_Block qc | None => [] end.
Definition qc_results (m : Message) : option CertificateResult :=
  match m_Qc m with Some qc => Certificate.Results qc | None => None end.
(** The highQC of an election vote. *)
Definition handle_high_qc c (vote : Message) (high : QuorumCertificate) : B unit :=
  b ← get;
  match View_Check (Header high) (MkView (NetworkId (b_View_ b)) (view_ChainId (b_View_ b)) 0 0 0 PRECOMMIT_VOTE) false with
  | Err e => throw e
  | Ok h =>
      match LoadCommittee c (LoadRootChainId c (view_Height h)) (RootHeight h) with
      | (_, Some e) => throw e
      | (vs, None) =>
          d ← committee b;
          match CheckHighQC high GlobalMaxBlockSize (b_View_ b) (LastRootHeightUpdated d) vs with
          | Err e => throw e
          | Ok _ =>
              when (match b_high b with None => true | Some q => View_Less (Header q) (Header high) end)
                (set_high_qc high;;
                 modify (set_b_Block (qc_block vote));; modify (set_b_Results (qc_results vote));;
                 modify (set_b_RCBuildHeight (m_RcBuildHeight vote)))
          end
      end
  end.
Definition handleHighQCVDFAndEvidence c (vote : Message) : B unit :=
  if negb (bool_decide (phase_of (qc_header vote) = ELECTION_VOTE)) then mret () else
  match m_HighQc vote with None => mret () | Some high => handle_high_qc c vote high end;;
  when (RunVDF_enabled && match m_Vdf vote with Some v => negb (Iterations v =? 0) | None => false end)
    (modify (λ b, set_b_VDFCache (b_VDFCache b ++ [vote]) b));;
  for_each (m_LastDoubleSignEvidence vote) (λ evidence,
    modify (λ b, set_b_ByzantineEvidence (fst (fst (AddDSE c (b_View_ b) (b_ByzantineEvidence b) evidence))) b)).

Definition AddVote c (vote : Message) : B unit :=
  let '(round, phase, payload) := vote_at vote in
  getVoteSet vote;;
  handleHighQCVDFAndEvidence c vote;;
  b ← get;
  match vote_sets b round phase !! payload with
  | None => panic
  | Some v =>
      let '(v, r) := addSigToVoteSet (b_ValidatorSet b) vote v in
      modify (put_vote_set round phase payload v);;
      match r with Ok _ => mret () | Err e => throw e end
  end.

(** [GetMajorityVote]: the first vote set in the order of the range that holds a majority. *)
Definition current_sets c b : list VoteSet :=
  range c (map snd (map_to_list (vote_sets b (b_Round b) (phase_num (b_Phase b) - 1)))).
Definition GetMajorityVote c b : result ErrorI (Message * AggregateSignature) :=
  match find (λ v, MinimumMaj23 (b_ValidatorSet b) <=? TotalVotedPower v) (current_sets c b) with
  | None => Err ErrNoMaj23
  | Some v =>
      match aggregate (multiKey v) with
      | None => Err ErrAggregateSignature
      | Some signature => Ok (Vote v, MkAggregateSignature signature (mk_mask (multiKey v)))
      end
  end.
(** [GetLeadingVote]: the vote, its percentage and its power. *)
Definition GetLeadingVote c b : option Message * Z * Z :=
  foldl (λ '(m, percent, votes) v,
    if votes <=? TotalVotedPower v
    then (Some (Vote v), Uint64PercentageDiv (TotalVotedPower v) (TotalPower (b_ValidatorSet b)), TotalVotedPower v)
    else (m, percent, votes)) (None, 0, 0) (current_sets c b).

(** ** Proposals *)

Definition phase_proposals b (round : Z) (phase : Z) : option (list Proposal) :=
  match b_Proposals b !! round with Some m => m !! phase | None => None end.
(** A stored proposal as the code reads it, with its certificate. *)
Definition read_proposal b (p : Proposal) : Message :=
  let m := p_Message p in
  MkMessage (m_Header m) (m_Vrf m) (deref b <$> p_Qc p) (m_HighQc m) (m_LastDoubleSignEvidence m) (m_Vdf m)
    (m_Signature m) (m_Timestamp m) (m_RcBuildHeight m).
Definition same_candidate b (m : Message) (p : Proposal) : bool :=
  match deref b <$> p_Qc p, m_Qc m with
  | Some q, Some q' => bool_decide (ProposerKey q' = ProposerKey q)
  | _, _ => false
  end.
(** The received message brings its certificate into the store. *)
Definition store_proposal (m : Message) : B Proposal :=
  b ← get;
  match m_Qc m with
  | None => mret (MkProposal m None)
  | Some qc => let l := alloc b in modify (set_b_qcs (<[l := qc]> (b_qcs b)));; mret (MkProposal m (Some l))
  end.
Definition AddProposal (m : Message) : B unit :=
  match m_Header m with
  | None => panic
  | Some h =>
      p ← store_proposal m;
      b ← get;
      let phase := phase_num (view_Phase h) in
      let roundProposal := default ∅ (b_Proposals b !! Round h) in
      let phaseProposal := default [] (roundProposal !! phase) in
      let roundProposal :=
        if bool_decide (view_Phase h = ELECTION) then
          if existsb (same_candidate b m) phaseProposal then roundProposal
          else <[phase := phaseProposal ++ [p]]> roundProposal
        else <[phase := [p]]> roundProposal in
      modify (set_b_Proposals (<[Round h := roundProposal]> (b_Proposals b)))
  end.
Definition ProposalsResetForNewCommittee b : BFT :=
  set_b_Proposals {[0 := {[phase_num ELECTION := default [] (phase_proposals b 0 (phase_num ELECTION))]}]} b.
Definition GetProposal b : result ErrorI (option Proposal) :=
  match phase_proposals b (b_Round b) (phase_num (b_Phase b) - 1) with
  | None => Ok None
  | Some [] => Err ErrPanic
  | Some (p :: _) => Ok (Some p)
  end.

(** ** [HandleMessage] *)

Definition AddPacemakerMessage (msg : Message) : B unit :=
  modify (λ b, set_b_PacemakerMessages (<[sig_key (m_Signature msg) := msg]> (b_PacemakerMessages b)) b).
(** Between the reading of the parameters and the rest the lock is released:
    [deliver] runs with parameters read in an earlier state. *)
Definition deliver c (params : validateMessageParams) (msg : Message) : B unit :=
  if IsReplicaMessage msg || IsPacemakerMessage msg then
    match CheckReplicaMessage msg params with
    | Err e => throw e
    | Ok _ => if IsPacemakerMessage msg then AddPacemakerMessage msg else AddVote c msg
    end
  else if IsProposerMessage msg then
    match CheckProposerMessage c msg params with
    | Err e => throw e
    | Ok true => match m_Qc msg with Some qc => AddPartialQC qc | None => panic end
    | Ok false => AddProposal msg
    end
  else throw ErrUnknownConsensusMsg.
Definition HandleMessage c (msg : Message) : B unit := params ← GetValidateMessageParams msg; deliver c params msg.

(** ** Leader election ([bft/election.go], [lib/consensus.go]) *)

Definition dec (n : Z) : bytes := String.list_byte_of_string (pretty n).
Definition FormatInputIntoSeed (lastProposerAddresses : list bytes) (rootHeight height round : Z) : bytes :=
  Hash (concat (map (λ address, EncodeToString address ++ [x2f]) lastProposerAddresses)
    ++ dec rootHeight ++ [x2f] ++ dec height ++ [x2f] ++ dec round).
(** [new(big.Int).SetBytes], [binary.BigEndian.Uint64] *)
Definition big_endian (bz : bytes) : Z := fold_left (λ n x, n * 256 + byte_to_Z x) bz 0.
(** The loop of [WeightedPseudorandom]. *)
Fixpoint pick_power (powerIndex powerCount : Z) (l : list ConsensusValidator) : option ConsensusValidator :=
  match l with
  | [] => None
  | v :: l =>
      let powerCount := u64_add powerCount (VotingPower v) in
      if powerIndex <? powerCount then Some v else pick_power powerIndex powerCount l
  end.
Definition WeightedPseudorandom (p : SortitionData) (vals : list ConsensusValidator) : result ErrorI PublicKey :=
  let seed := FormatInputIntoSeed (LastProposerAddresses p) (sd_RootHeight p) (sd_Height p) (sd_Round p) in
  if sd_TotalPower p =? 0 then Err ErrPanic else
  let powerIndex := big_endian (take 8 seed) mod sd_TotalPower p in
  match (match pick_power powerIndex 0 vals with Some v => Some v | None => last vals end) with
  | None => Err ErrPanic
  | Some v => match NewPublicKeyFromBytes (cv_PublicKey v) with Some pk => Ok pk | None => Err ErrPanic end
  end.

Definition maxCandidates : Z := 10.
Definition minCandidates : Z := 1.
Definition percentOfValidatorsAsCandidates : Z := 10.
Definition expectedCandidates (totalValidators : Z) : Z :=
  let candidates := Uint64Percentage totalValidators percentOfValidatorsAsCandidates in
  if candidates <? minCandidates then minCandidates
  else if maxCandidates <? candidates then maxCandidates
  else candidates.
Definition IsCandidate (votingPower totalVotingPower expected : Z) (vrfOut : bytes) : bool :=
  if (totalVotingPower =? 0) || (expected =? 0) then false
  else below_cutoff votingPower totalVotingPower expected vrfOut.
Definition sortition (votingPower totalPower totalValidators : Z) (signature : bytes) : bytes * bool :=
  let out := Hash signature in (out, IsCandidate votingPower totalPower (expectedCandidates totalValidators) out).
Definition VRF (lastNProposers : list bytes) (rootHeight height round : Z) : Tx.Signature :=
  let vrfIn := FormatInputIntoSeed lastNProposers rootHeight height round in
  MkSignature (Some self_PublicKey) (Some (self_Sign vrfIn)).
Definition Sortition (p : SortitionData) : Tx.Signature * bool :=
  let vrf := VRF (LastProposerAddresses p) (sd_RootHeight p) (sd_Height p) (sd_Round p) in
  (vrf, snd (sortition (sd_VotingPower p) (sd_TotalPower p) (TotalValidators p) (sig_bytes (Some vrf)))).
Definition VerifyCandidate (p : SortitionData) (signature : bytes) (publicKey : PublicKey) : option bytes * bool :=
  let msg := FormatInputIntoSeed (LastProposerAddresses p) (sd_RootHeight p) (sd_Height p) (sd_Round p) in
  if negb (Verify (pk_Bytes publicKey) msg signature) then (None, false) else
  let '(out, isCandidate) := sortition (sd_VotingPower p) (sd_TotalPower p) (TotalValidators p) signature in
  (Some out, isCandidate).

(** A candidate: its key and the hash of its VRF. *)
Definition VRFCandidate : Type := PublicKey * bytes.
(** The candidate with the lowest hashed output; of equal ones the first. *)
Definition smallest_candidate (candidates : list VRFCandidate) : option (bytes * Z) :=
  foldl (λ acc '(pk, out),
    let candidate := big_endian (Hash out) in
    match acc with
    | Some (_, smallest) => if candidate <? smallest then Some (pk_Bytes pk, candidate) else acc
    | None => Some (pk_Bytes pk, candidate)
    end) None candidates.
Definition SelectProposerFromCandidates (candidates : list VRFCandidate) (data : option SortitionData)
    (v : list ConsensusValidator) : result ErrorI bytes :=
  match smallest_candidate candidates with
  | Some (proposerPubKey, _) => Ok proposerPubKey
  | None =>
      match data with
      | None => Err ErrPanic
      | Some data => pk ← WeightedPseudorandom data v; Ok (pk_Bytes pk)
      end
  end.

Definition set_VotingPower (v : Z) (p : SortitionData) : SortitionData :=
  MkSortitionData (LastProposerAddresses p) (sd_RootHeight p) (sd_Height p) (sd_Round p) (TotalValidators p)
    (sd_TotalPower p) v.
(** The candidate an election message stands for, if it is one. *)
Definition candidate_of (p : Proposal) : B (option VRFCandidate) :=
  b ← get;
  match m_Vrf (p_Message p) with
  | None => panic
  | Some vrf =>
      match GetValidator (b_ValidatorSet b) (sig_key (Some vrf)) with
      | None => mret None
      | Some v =>
          match b_SortitionData b, NewPublicKeyFromBytes (cv_PublicKey v) with
          | Some sd, Some publicKey =>
              let sd := set_VotingPower (VotingPower v) sd in
              modify (set_b_SortitionData (Some sd));;
              match VerifyCandidate sd (sig_bytes (Some vrf)) publicKey with
              | (Some out, true) => mret (Some (publicKey, out))
              | _ => mret None
              end
          | _, _ => panic
          end
      end
  end.
Definition GetElectionCandidates : B (list VRFCandidate) :=
  b ← get;
  fold_m (λ candidates p, r ← candidate_of p; mret (candidates ++ option_list r)) []
    (default [] (phase_proposals b (b_Round b) (phase_num ELECTION))).

(** ** The delay function *)

Definition VDFSeed c b : result ErrorI bytes :=
  match LoadCertificate c (u64_sub (b_Height b) 1) with
  | Err e => Err e
  | Ok None => Err ErrEmptyQuorumCertificate
  | Ok (Some qc) => Ok (Certificate.BlockHash qc)
  end.
Definition VerifyVDF c b (vdf : VDF) : result ErrorI bool := seed ← VDFSeed c b; Ok (VerifyVDF_ seed vdf).
(** The highest valid delay proof of the cache, which is emptied. *)
Definition selectHighestVDF c : B (option VDF) :=
  b ← get;
  modify (set_b_VDFCache []);;
  let vdfs := omap m_Vdf (sorted_by (λ x y, match m_Vdf x, m_Vdf y with
    | Some v, Some w => Iterations w <=? Iterations v | _, _ => true end) (b_VDFCache b)) in
  mret (find (λ v, match VerifyVDF c b v with Ok r => r | Err _ => false end) vdfs).
Definition RunVDF c (seed : bytes) : B unit :=
  if negb RunVDF_enabled then mret () else
  b ← get;
  match (if bool_decide (seed = []) then VDFSeed c b else Ok seed) with
  | Err _ => mret ()
  | Ok seed => act (VDFServiceRun seed)
  end.

(** ** Timers: durations in nanoseconds, timeouts in milliseconds *)

Definition int64 (z : Z) : Z := (z + 9223372036854775808) mod two64 - 9223372036854775808.
(** [time.Duration(uint64(ms) * (2*round+1)) * time.Millisecond], in nanoseconds *)
Definition waitTime (sleepTimeMS round : Z) : Z :=
  int64 (int64 (u64_mul sleepTimeMS (u64_add (u64_mul 2 round) 1)) * 1000000).
Definition WaitTime b (phase : Phase) (round : Z) : Z :=
  match phase with
  | ELECTION => waitTime ElectionTimeoutMS round
  | ELECTION_VOTE => waitTime ElectionVoteTimeoutMS round
  | PROPOSE => waitTime ProposeTimeoutMS round
  | PROPOSE_VOTE => waitTime ProposeVoteTimeoutMS round
  | PRECOMMIT => waitTime PrecommitTimeoutMS round
  | PRECOMMIT_VOTE => waitTime PrecommitVoteTimeoutMS round
  | COMMIT => waitTime CommitTimeoutMS round
  | COMMIT_PROCESS => waitTime 60000 round
  | ROUND_INTERRUPT => int64 (b_RoundInterruptTimeoutMS b * 1000000)
  | PACEMAKER | UNKNOWN => 0
  end.
Definition round_phases : list Phase := [ELECTION; ELECTION_VOTE; PROPOSE; PROPOSE_VOTE; PRECOMMIT; PRECOMMIT_VOTE; COMMIT].
(** The sum of the waits from the current phase to COMMIT. *)
Definition msLeftInRound b : Z :=
  if bool_decide (b_Phase b ∈ round_phases) then
    int64 (list_sum (λ p, Z.quot (WaitTime b p (b_Round b)) 1000000)
      (filter (λ p, phase_num (b_Phase b) <= phase_num p) round_phases))
  else 0.
Definition subtract (wt pt : Z) : Z := if 86400000000000 <? pt then wt else if wt <=? pt then 0 else wt - pt.
Definition SetWaitTimers (phaseWaitTime processTime : Z) : B unit := act (ResetTimer (subtract phaseWaitTime processTime)).

(** ** Rounds and heights *)

Definition RefreshRootChainInfo c b : BFT :=
  let b := set_b_View_ (set_Heights (ChainHeight c) (RootChainHeight c) (b_View_ b)) b in
  let b := set_b_ValidatorSet (fst (LoadCommittee c (LoadRootChainId c (b_Height b)) (b_RootHeight b))) b in
  set_b_CommitteeData (fst (LoadCommitteeData c)) b.
Definition NewRound c (newHeight : bool) b : BFT :=
  let b := if newHeight then set_b_View_ (set_Round 0 (b_View_ b)) b
           else set_b_ByzantineEvidence no_evidence (set_b_View_ (set_Round (u64_add (b_Round b) 1) (b_View_ b)) b) in
  let b := RefreshRootChainInfo c b in
  set_b_VDFCache [] (set_b_SortitionData None (set_b_Results None (set_b_BlockHash [] (set_b_Block []
    (set_b_ProposerKey [] b))))).
Definition NewHeight c (keepLocks : bool) b : BFT :=
  let b := set_b_PacemakerMessages ∅ (ProposalsResetForNewCommittee (set_b_Votes ∅ b)) in
  let b := NewRound c true b in
  let b := set_b_View_ (set_Phase ELECTION (b_View_ b)) b in
  if keepLocks then b
  else set_b_RCBuildHeight 0 (set_b_HighQC None (set_b_PartialQCs ∅ (set_b_Proposals ∅ b))).
(** The reset of the main loop, on a new block or a new committee. *)
Definition HandleReset c (IsRootChainUpdate : bool) (NewHeightTimeoutMs processTime : Z) : B unit :=
  modify (NewHeight c IsRootChainUpdate);; SetWaitTimers (int64 (NewHeightTimeoutMs * 1000000)) processTime.

Definition RoundInterrupt : B unit :=
  b ← get;
  modify (set_b_RoundInterruptTimeoutMS (msLeftInRound b));;
  modify (λ b, set_b_View_ (set_Phase ROUND_INTERRUPT (b_View_ b)) b);;
  modify (set_b_BlockResult None);; modify (set_b_VDFCache []);;
  act ResetFSM;;
  b ← get;
  act (SendToReplicas (MkMessage None None (Some (MkQuorumCertificate (Some (b_View_ b)) None [] [] [] [] None))
    None [] None None 0 0)).

(** [Pacemaker]: the loop over the votes from the highest round down. *)
Fixpoint pacemaker_round (vs : ValidatorSet) (totalVotedPower : Z) (votes : list Message) : Z :=
  match votes with
  | [] => 0
  | vote :: votes =>
      match GetValidator vs (sig_key (m_Signature vote)) with
      | None => pacemaker_round vs totalVotedPower votes
      | Some validator =>
          let totalVotedPower := u64_add totalVotedPower (VotingPower validator) in
          if Uint64ReducePercentage (MinimumMaj23 vs) 50 <=? totalVotedPower
          then match qc_header vote with Some h => Round h | None => 0 end
          else pacemaker_round vs totalVotedPower votes
      end
  end.
Definition vote_round (m : Message) : Z := match qc_header m with Some h => Round h | None => 0 end.
Definition sortedVotes c b : list Message :=
  sorted_by (λ x y, vote_round y <=? vote_round x) (range c (map snd (map_to_list (b_PacemakerMessages b)))).
Definition Pacemaker c : B unit :=
  modify (NewRound c false);;
  b ← get;
  let pacemakerRound := pacemaker_round (b_ValidatorSet b) 0 (sortedVotes c b) in
  when (b_Round b <? pacemakerRound) (modify (set_b_View_ (set_Round pacemakerRound (b_View_ b)))).

(** ** The phases *)

(** [SafeNode], on the lock and the proposal as they are read. *)
Definition SafeNode (lock : QuorumCertificate) (msg : Message) : result ErrorI unit :=
  match m_Qc msg, m_HighQc msg with
  | Some qc, Some high =>
      check_not (negb (bool_decide (BlockToHash (qc_Block qc) = Certificate.BlockHash high))
        && negb (bool_decide (results_hash (Certificate.Results qc) = ResultsHash high))) ErrMismatchedProposals;;
      if bool_decide (Certificate.BlockHash lock = Certificate.BlockHash high)
         && bool_decide (ResultsHash lock = ResultsHash high) then Ok () else
      match Header high, Header lock with
      | Some h, Some l => check_not (Round h <=? Round l) ErrFailedSafeNodePredicate
      | _, _ => Err ErrPanic
      end
  | _, _ => Err ErrNoSafeNodeJustification
  end.
Definition CheckProposerAndProposal (msg : Message) : B bool :=
  b ← get;
  if negb (IsProposer b (sig_key (m_Signature msg))) then mret true else
  blockHash ← GetBlockHash;
  match m_Qc msg with
  | None => panic
  | Some qc => mret (negb (bool_decide (blockHash = Certificate.BlockHash qc))
                     || negb (bool_decide (results_hash (b_Results b) = ResultsHash qc)))
  end.
(** A vote of this node: the current view with some payload. *)
Definition vote_message (v : View) (blockHash resultsHash proposerKey : bytes) : Message :=
  MkMessage None None (Some (MkQuorumCertificate (Some v) None resultsHash [] blockHash proposerKey None))
    None [] None None 0 0.
Definition send_vote : B unit :=
  blockHash ← GetBlockHash;
  b ← get;
  act (SendToProposer (b_ProposerKey b)
    (vote_message (b_View_ b) blockHash (results_hash (b_Results b)) (b_ProposerKey b))).

Definition StartElectionPhase c : B unit :=
  b ← get;
  match GetValidator (b_ValidatorSet b) self_PublicKey, LoadLastProposers c (b_RootHeight b) with
  | Some selfValidator, Ok lastProposers =>
      let sd := MkSortitionData lastProposers (b_RootHeight b) (b_Height b) (b_Round b)
        (NumValidators (b_ValidatorSet b)) (TotalPower (b_ValidatorSet b)) (VotingPower selfValidator) in
      modify (set_b_SortitionData (Some sd));;
      let '(vrf, isCandidate) := Sortition sd in
      when isCandidate
        (act (SendToReplicas (MkMessage (Some (b_View_ b)) (Some vrf) None None [] None None 0 0)))
  | _, _ => mret ()
  end.

Definition StartElectionVotePhase c : B unit :=
  candidates ← GetElectionCandidates;
  b ← get;
  match SelectProposerFromCandidates candidates (b_SortitionData b) (vs_Validators (b_ValidatorSet b)) with
  | Err e => throw e
  | Ok proposerKey =>
      modify (set_b_ProposerKey proposerKey);;
      modify (set_b_HighVDF (VDFService_Finish c));;
      b ← get;
      act (SendToProposer proposerKey (MkMessage None None
        (Some (MkQuorumCertificate (Some (b_View_ b)) None [] [] [] proposerKey None))
        (b_high b) (Evidence (b_ByzantineEvidence b)) (b_HighVDF b) None 0 (b_RCBuildHeight b)));;
      modify (set_b_ProposerKey [])
  end.

Definition StartProposePhase c : B unit :=
  b ← get;
  match GetMajorityVote c b with
  | Err _ => mret ()
  | Ok (vote, as_) =>
      highVDF ← selectHighestVDF c;
      modify (set_b_HighVDF highVDF);;
      b ← get;
      ok ← match b_high b with
           | None =>
               let '(rcBuildHeight, block, results, err) := ProduceProposal c (b_ByzantineEvidence b) (b_HighVDF b) in
               modify (set_b_RCBuildHeight rcBuildHeight);; modify (set_b_Block block);; modify (set_b_Results results);;
               mret (is_nil err)
           | Some high =>
               modify (set_b_Block (qc_Block high));; modify (set_b_Results (Certificate.Results high));; mret true
           end;
      when ok
        (blockHash ← GetBlockHash;
         b ← get;
         act (SendToReplicas (MkMessage (Some (b_View_ b)) None
           (Some (MkQuorumCertificate (qc_header vote) (b_Results b) (results_hash (b_Results b)) (b_Block b) blockHash
              (match m_Qc vote with Some qc => ProposerKey qc | None => [] end) (Some as_)))
           (b_high b) (Evidence (b_ByzantineEvidence b)) None None 0 (b_RCBuildHeight b))))
  end.

Definition StartProposeVotePhase c : B unit :=
  b ← get;
  match GetProposal b with
  | Err e => throw e
  | Ok None => RoundInterrupt
  | Ok (Some p) =>
      let msg := read_proposal b p in
      modify (set_b_ProposerKey (sig_key (m_Signature msg)));;
      match match b_high b with None => Ok () | Some lock => SafeNode lock msg end with
      | Err ErrPanic => panic
      | Err _ => RoundInterrupt
      | Ok _ =>
          d ← committee b;
          if m_RcBuildHeight msg <? LastRootHeightUpdated d then RoundInterrupt else
          match m_Qc msg with
          | None => panic
          | Some qc =>
              let byzantineEvidence := NewDSE (m_LastDoubleSignEvidence msg) in
              match ValidateProposal c (m_RcBuildHeight msg) qc byzantineEvidence with
              | Err _ => modify (set_b_BlockResult None);; RoundInterrupt
              | Ok blockResult =>
                  modify (set_b_BlockResult (Some blockResult));;
                  modify (set_b_Block (qc_Block qc));; modify (set_b_Results (Certificate.Results qc));;
                  modify (set_b_ByzantineEvidence byzantineEvidence);;
                  blockHash ← GetBlockHash;
                  RunVDF c blockHash;;
                  send_vote
              end
          end
      end
  end.

(** The message a proposer sends in PRECOMMIT and COMMIT. *)
Definition certify (vote : Message) (as_ : AggregateSignature) (timestamp rcBuildHeight : Z) : B unit :=
  blockHash ← GetBlockHash;
  b ← get;
  act (SendToReplicas (MkMessage (Some (b_View_ b)) None
    (Some (MkQuorumCertificate (qc_header vote) None (results_hash (b_Results b)) [] blockHash (b_ProposerKey b) (Some as_)))
    None [] None None timestamp rcBuildHeight)).
Definition StartPrecommitPhase c : B unit :=
  b ← get;
  if negb (SelfIsProposer b) then mret () else
  match GetMajorityVote c b with
  | Err _ => RoundInterrupt
  | Ok (vote, as_) => certify vote as_ 0 (b_RCBuildHeight b)
  end.
Definition StartPrecommitVotePhase : B unit :=
  b ← get;
  match GetProposal b with
  | Err e => throw e
  | Ok None => RoundInterrupt
  | Ok (Some p) =>
      let msg := read_proposal b p in
      interrupt ← CheckProposerAndProposal msg;
      if (interrupt : bool) then RoundInterrupt else
      match p_Qc p with
      | None => panic
      | Some l =>
          modify (set_b_HighQC (Some l));;
          modify (set_b_RCBuildHeight (m_RcBuildHeight msg));;
          b ← get;
          write_qc l (λ qc, MkQuorumCertificate (Header qc) (b_Results b) (ResultsHash qc) (b_Block b)
            (Certificate.BlockHash qc) (ProposerKey qc) (Signature qc));;
          send_vote
      end
  end.
Definition StartCommitPhase c : B unit :=
  b ← get;
  if negb (SelfIsProposer b) then mret () else
  match GetMajorityVote c b with
  | Err _ => RoundInterrupt
  | Ok (vote, as_) => certify vote as_ (wrap64 (Z.quot (Now c + WaitTime b COMMIT (b_Round b)) 1000)) 0
  end.
(** The block is sent to the node itself and, after a delay, gossiped. *)
Definition StartCommitProcessPhase c : B unit :=
  b ← get;
  match GetProposal b with
  | Err e => throw e
  | Ok None => RoundInterrupt
  | Ok (Some p) =>
      let msg := read_proposal b p in
      interrupt ← CheckProposerAndProposal msg;
      if (interrupt : bool) then RoundInterrupt else
      match p_Qc p with
      | None => panic
      | Some l =>
          b ← get;
          write_qc l (λ qc, MkQuorumCertificate (Header qc) (b_Results b) (ResultsHash qc) (b_Block b)
            (Certificate.BlockHash qc) (ProposerKey qc) (Signature qc));;
          dse ← GetLocalDSE c;
          modify (set_b_ByzantineEvidence dse);;
          b ← get;
          act (SelfSendBlock (deref b l) (m_Timestamp msg));;
          act (GossipBlock (deref b l) (m_Timestamp msg))
      end
  end.

(** ** A new node *)

Definition New (networkId chainId rootHeight height roundInterruptTimeoutMS : Z) : BFT :=
  MkBFT (MkView networkId chainId height rootHeight 0 UNKNOWN) ∅ ∅ [] (MkValidatorSet [] None 0 0 0) None None 0 [] []
    None None None (Some (MkVDF [] [] 0)) [] no_evidence ∅ ∅ roundInterruptTimeoutMS ∅ [].
(** What [Start] loads before its loop. *)
Definition Start c b : BFT :=
  set_b_CommitteeData (fst (LoadCommitteeData c))
    (set_b_ValidatorSet (fst (LoadCommittee c (LoadRootChainId c (ChainHeight c)) (RootChainHeight c))) b).

(** ** The timer *)

Definition next_phase (p : Phase) : Phase :=
  match p with
  | UNKNOWN => ELECTION | ELECTION => ELECTION_VOTE | ELECTION_VOTE => PROPOSE | PROPOSE => PROPOSE_VOTE
  | PROPOSE_VOTE => PRECOMMIT | PRECOMMIT => PRECOMMIT_VOTE | PRECOMMIT_VOTE => COMMIT | COMMIT => COMMIT_PROCESS
  | COMMIT_PROCESS => COMMIT_PROCESS | ROUND_INTERRUPT => PACEMAKER | PACEMAKER => ELECTION
  end.
Definition SetTimerForNextPhase (processTime : Z) : B unit :=
  b ← get;
  let waitTime := WaitTime b (b_Phase b) (b_Round b) in
  if bool_decide (b_Phase b = COMMIT_PROCESS) then mret () else
  modify (set_b_View_ (set_Phase (next_phase (b_Phase b)) (b_View_ b)));;
  SetWaitTimers waitTime processTime.
Definition SelfIsValidator c : B bool :=
  b ← get;
  match GetValidator (b_ValidatorSet b) self_PublicKey with
  | Some _ => mret true
  | None =>
      modify (RefreshRootChainInfo c);;
      b ← get; mret (is_some (GetValidator (b_ValidatorSet b) self_PublicKey))
  end.
Definition run_phase c (p : Phase) : B unit :=
  match p with
  | ELECTION => StartElectionPhase c
  | ELECTION_VOTE => StartElectionVotePhase c
  | PROPOSE => StartProposePhase c
  | PROPOSE_VOTE => StartProposeVotePhase c
  | PRECOMMIT => StartPrecommitPhase c
  | PRECOMMIT_VOTE => StartPrecommitVotePhase
  | COMMIT => StartCommitPhase c
  | COMMIT_PROCESS => StartCommitProcessPhase c
  | PACEMAKER => Pacemaker c
  | UNKNOWN | ROUND_INTERRUPT => mret ()
  end.
Definition HandlePhase c : B unit :=
  if Syncing c then act StopTimer else
  isValidator ← SelfIsValidator c;
  if negb isValidator then act StopTimer else
  b ← get;
  run_phase c (b_Phase b);;
  SetTimerForNextPhase (Since c).
Definition PhaseHas23Maj c b : result ErrorI bool :=
  match b_Phase b with
  | ELECTION_VOTE | PROPOSE_VOTE | PRECOMMIT_VOTE | COMMIT_PROCESS => p ← GetProposal b; Ok (is_some p)
  | PROPOSE | PRECOMMIT | COMMIT => Ok (is_ok (GetMajorityVote c b))
  | _ => Ok false
  end.
End bft.
