(* ===== verification/BftFrames.v ===== *)
(** * What the handlers of the consensus instance leave alone ([bft/])

    Framing rules for the state-and-error monad, the handlers that neither move
    the view nor vote, and what a phase can do to either. *)
From S2P Require Import Prelude LibUtil State Crypto Tx Account Quorum Byzantine Certificate Bft.
#[local] Open Scope Z_scope.

Section frames_rules.
Context `{Crypto, Multisig, Codec, BftExternals, Node}.
Implicit Types (c : Controller) (b : BFT).
Notation B := (M BFT ErrorI).

(** ** What a handler leaves alone *)

(** The views the node has voted in, in order. *)
Definition action_view (a : Action) : option View :=
  match a with SendToProposer _ m => qc_header m | _ => None end.
Definition voted b : list View := omap action_view (b_sent b).

(** A computation that leaves what [π] reads of the state as it was. *)
Definition frames {T} (π : BFT → T) {A} (m : B A) : Prop := ∀ b r b', m b = (r, b') → π b' = π b.

Section frames.
Context {T : Type} (π : BFT → T).
Lemma frames_ret {A} (x : A) : frames π (mret x).
Proof. by intros b r b' [= _ <-]. Qed.
Lemma frames_throw {A} e : frames π (throw (A := A) e).
Proof. by intros b r b' [= _ <-]. Qed.
Lemma frames_get : frames π get.
Proof. by intros b r b' [= _ <-]. Qed.
Lemma frames_modify f : (∀ b, π (f b) = π b) → frames π (modify f).
Proof. intros Hf b r b' [= _ <-]. apply Hf. Qed.
Lemma frames_bind {A C} (m : B A) (f : A → B C) : frames π m → (∀ a, frames π (f a)) → frames π (m ≫= f).
Proof.
  intros Hm Hf b r b' Hr. unfold mbind, M_bind in Hr. destruct (m b) as [[a|e] b1] eqn:E.
  - rewrite <- (Hm _ _ _ E). by apply (Hf a) in Hr.
  - injection Hr as _ <-. exact (Hm _ _ _ E).
Qed.
Lemma frames_when t (m : B unit) : frames π m → frames π (when t m).
Proof. destruct t; [done|]. intros _. apply frames_ret. Qed.
Lemma frames_for_each {A} (l : list A) (f : A → B unit) : (∀ x, frames π (f x)) → frames π (for_each l f).
Proof. intros Hf. induction l as [|x l IH]; [apply frames_ret|]. apply frames_bind; auto. Qed.
Lemma frames_fold {A C} (f : C → A → B C) acc l : (∀ acc x, frames π (f acc x)) → frames π (fold_m f acc l).
Proof. intros Hf. revert acc. induction l as [|x l IH]; intros acc; [apply frames_ret|]. apply frames_bind; auto. Qed.
End frames.

(** A computation that neither moves the view nor votes, nor changes the
    validator set. *)
Definition still b : View * list View * ValidatorSet := (b_View_ b, voted b, b_ValidatorSet b).
End frames_rules.

Notation quiet := (frames still).

Section quiet_rules.
Context `{Crypto, Multisig, Codec, BftExternals, Node}.
Implicit Types (c : Controller) (b : BFT).
Notation B := (M BFT ErrorI).

Lemma quiet_run {A} (m : B A) b r b' : quiet m → m b = (r, b') → b_View_ b' = b_View_ b ∧ voted b' = voted b.
Proof. intros Hq Hr. by injection (Hq _ _ _ Hr) as -> -> _. Qed.
Lemma quiet_act a : action_view a = None → quiet (act a).
Proof.
  intros Ha b r b' [= _ <-]. unfold still, voted. cbn. rewrite omap_app. cbn. by rewrite Ha, app_nil_r.
Qed.

End quiet_rules.

Create HintDb frames.
#[export] Hint Resolve frames_ret frames_throw frames_get : frames.
(** Walk through a computation whose leaves are framed. *)
Ltac frames_step :=
  match goal with
  | |- ∀ _, _ => intros ?
  | |- frames _ (mbind _ _) => apply frames_bind
  | |- frames _ (modify _) => apply frames_modify; intros; reflexivity
  | |- quiet (act _) => apply quiet_act; reflexivity
  | |- frames _ (when _ _) => apply frames_when
  | |- frames _ (for_each _ _) => apply frames_for_each
  | |- frames _ (fold_m _ _ _) => apply frames_fold
  | |- frames _ (match ?x with _ => _ end) => destruct x
  | |- frames _ (let '(_, _) := ?x in _) => destruct x
  | |- frames _ panic => apply frames_throw
  | |- frames _ _ => solve [auto with frames nocore]
  end.
Ltac quiet := repeat frames_step.

Section handlers.
Context `{Crypto, Multisig, Codec, BftExternals, Node}.
Implicit Types (c : Controller) (b : BFT).
Notation B := (M BFT ErrorI).


Lemma quiet_GetBlockHash : quiet GetBlockHash.
Proof. unfold GetBlockHash. quiet. Qed.
Lemma quiet_committee b : quiet (committee b).
Proof. unfold committee. quiet. Qed.
#[local] Hint Resolve quiet_GetBlockHash quiet_committee : frames.
Lemma quiet_params msg : quiet (GetValidateMessageParams msg).
Proof. unfold GetValidateMessageParams. quiet. Qed.
Lemma quiet_handle_high_qc c vote high : quiet (handle_high_qc c vote high).
Proof. unfold handle_high_qc, set_high_qc. quiet. Qed.
#[local] Hint Resolve quiet_params quiet_handle_high_qc : frames.
Lemma quiet_AddVote c vote : quiet (AddVote c vote).
Proof. unfold AddVote, getVoteSet, handleHighQCVDFAndEvidence. quiet. Qed.
Lemma quiet_AddProposal m : quiet (AddProposal m).
Proof. unfold AddProposal, store_proposal. quiet. Qed.
#[local] Hint Resolve quiet_AddVote quiet_AddProposal : frames.
(** Messages never move the view or make the node vote. *)
Lemma quiet_deliver c params msg : quiet (deliver c params msg).
Proof. unfold deliver, AddPacemakerMessage, AddPartialQC. quiet. Qed.

(** ** What a phase does to the view and the votes *)

(** From [b] on, a computation either votes at most once, in the current view,
    or interrupts the round without voting. *)
Definition steady_at b {A} (m : B A) : Prop :=
  ∀ r b', m b = (r, b') →
    (b_View_ b' = b_View_ b ∧ (voted b' = voted b ∨ voted b' = voted b ++ [b_View_ b])) ∨
    (b_View_ b' = set_Phase ROUND_INTERRUPT (b_View_ b) ∧ voted b' = voted b).
Definition steady {A} (m : B A) : Prop := ∀ b, steady_at b m.

Lemma quiet_steady {A} (m : B A) : quiet m → steady m.
Proof. intros Hq b r b' Hr. destruct (quiet_run _ _ _ _ Hq Hr) as [-> ->]. auto. Qed.
Lemma steady_after {A C} (m : B A) (f : A → B C) : quiet m → (∀ a, steady (f a)) → steady (m ≫= f).
Proof.
  intros Hm Hf b r b' Hr. unfold mbind, M_bind in Hr. destruct (m b) as [[a|e] b1] eqn:E.
  - destruct (quiet_run _ _ _ _ Hm E) as [<- <-]. by apply (Hf a) in Hr.
  - injection Hr as _ <-. left. destruct (quiet_run _ _ _ _ Hm E) as [-> ->]. auto.
Qed.
Lemma steady_before b {A C} (m : B A) (f : A → B C) : steady_at b m → (∀ a, quiet (f a)) → steady_at b (m ≫= f).
Proof.
  intros Hm Hf r b' Hr. unfold mbind, M_bind in Hr. destruct (m b) as [[a|e] b1] eqn:E.
  - destruct (quiet_run _ _ _ _ (Hf a) Hr) as [-> ->]. by apply (Hm _ _ E).
  - injection Hr as _ <-. by apply (Hm _ _ E).
Qed.
Lemma steady_get {A} (f : BFT → B A) : (∀ b, steady_at b (f b)) → steady (get ≫= f).
Proof. intros Hf b r b' Hr. exact (Hf b r b' Hr). Qed.
Lemma steady_vote b k m : qc_header m = Some (b_View_ b) → steady_at b (act (SendToProposer k m)).
Proof.
  intros Hm r b' [= _ <-]. left. split; [done|]. right. unfold voted. cbn. rewrite omap_app. cbn. by rewrite Hm.
Qed.
(** [RoundInterrupt] leaves the round for the interrupt phase and does not vote. *)
Lemma RoundInterrupt_run b r b' :
  RoundInterrupt b = (r, b') → b_View_ b' = set_Phase ROUND_INTERRUPT (b_View_ b) ∧ voted b' = voted b.
Proof.
  assert (Hrest : quiet (modify (set_b_BlockResult None);; modify (set_b_VDFCache []);; act ResetFSM;; b ← get;
    act (SendToReplicas (MkMessage None None (Some (MkQuorumCertificate (Some (b_View_ b)) None [] [] [] [] None))
      None [] None None 0 0)))) by quiet.
  intros Hr. exact (quiet_run _ (set_b_View_ (set_Phase ROUND_INTERRUPT (b_View_ b)) (set_b_RoundInterruptTimeoutMS (msLeftInRound b) b)) r b' Hrest Hr).
Qed.
Lemma steady_RoundInterrupt : steady RoundInterrupt.
Proof. intros b r b' Hr. right. by apply (RoundInterrupt_run _ _ _ Hr). Qed.
Lemma steady_send_vote : steady send_vote.
Proof. unfold send_vote. apply steady_after; [apply quiet_GetBlockHash|]. intros h. apply steady_get. intros b. by apply steady_vote. Qed.

End handlers.
#[export] Hint Resolve quiet_GetBlockHash quiet_committee quiet_params quiet_handle_high_qc quiet_AddVote quiet_AddProposal : frames.

Ltac steady_step :=
  match goal with
  | |- ∀ _, _ => intros ?
  | |- steady RoundInterrupt => apply steady_RoundInterrupt
  | |- steady send_vote => apply steady_send_vote
  | |- steady (mbind _ _) => apply steady_after; [solve [quiet]|]
  | |- steady (match ?x with _ => _ end) => destruct x
  | |- steady _ => apply quiet_steady; solve [quiet]
  end.
Ltac steady := repeat steady_step.

Section phases.
Context `{Crypto, Multisig, Codec, BftExternals, Node}.
Implicit Types (c : Controller) (b : BFT).
Notation B := (M BFT ErrorI).


Lemma quiet_candidate_of p : quiet (candidate_of p).
Proof. unfold candidate_of. quiet. Qed.
Lemma quiet_GetElectionCandidates : quiet GetElectionCandidates.
Proof. unfold GetElectionCandidates. quiet. apply quiet_candidate_of. Qed.
Lemma quiet_selectHighestVDF c : quiet (selectHighestVDF c).
Proof. unfold selectHighestVDF. quiet. Qed.
Lemma quiet_RunVDF c seed : quiet (RunVDF c seed).
Proof. unfold RunVDF. quiet. Qed.
Lemma quiet_write_qc l f : quiet (write_qc l f).
Proof. unfold write_qc. quiet. Qed.
#[local] Hint Resolve quiet_candidate_of quiet_GetElectionCandidates quiet_selectHighestVDF quiet_RunVDF quiet_write_qc : frames.
Lemma quiet_GetLocalDSE c : quiet (GetLocalDSE c).
Proof. unfold GetLocalDSE, addDSEByPartialQC, partial_evidence, write_evidence. quiet. Qed.
Lemma quiet_CheckProposerAndProposal msg : quiet (CheckProposerAndProposal msg).
Proof. unfold CheckProposerAndProposal. quiet. Qed.
Lemma quiet_certify vote as_ ts rc : quiet (certify vote as_ ts rc).
Proof. unfold certify. quiet. Qed.
#[local] Hint Resolve quiet_GetLocalDSE quiet_CheckProposerAndProposal quiet_certify : frames.

Lemma quiet_StartElectionPhase c : quiet (StartElectionPhase c).
Proof. unfold StartElectionPhase, Sortition. quiet. Qed.
Lemma steady_StartElectionVotePhase c : steady (StartElectionVotePhase c).
Proof.
  unfold StartElectionVotePhase. do 2 (apply steady_after; [solve [quiet]|intros ?]). case_match; [|steady].
  do 2 (apply steady_after; [solve [quiet]|intros ?]). apply steady_get. intros b.
  apply steady_before; [by apply steady_vote|]. quiet.
Qed.
Lemma quiet_StartProposePhase c : quiet (StartProposePhase c).
Proof. unfold StartProposePhase. quiet. Qed.
Lemma steady_StartProposeVotePhase c : steady (StartProposeVotePhase c).
Proof. unfold StartProposeVotePhase. steady. Qed.
Lemma steady_StartPrecommitPhase c : steady (StartPrecommitPhase c).
Proof. unfold StartPrecommitPhase. steady. Qed.
Lemma steady_StartPrecommitVotePhase : steady StartPrecommitVotePhase.
Proof. unfold StartPrecommitVotePhase. steady. Qed.
Lemma steady_StartCommitPhase c : steady (StartCommitPhase c).
Proof. unfold StartCommitPhase. steady. Qed.
Lemma steady_StartCommitProcessPhase c : steady (StartCommitProcessPhase c).
Proof. unfold StartCommitProcessPhase. steady. Qed.

(** A computation that does not vote. *)
Definition silent {A} (m : B A) : Prop := ∀ b r b', m b = (r, b') → voted b' = voted b.
Lemma silent_after {A C} (m : B A) (f : A → B C) : quiet m → (∀ a, silent (f a)) → silent (m ≫= f).
Proof.
  intros Hm Hf b r b' Hr. unfold mbind, M_bind in Hr. destruct (m b) as [[a|e] b1] eqn:E.
  - destruct (quiet_run _ _ _ _ Hm E) as [_ <-]. by apply (Hf a) in Hr.
  - injection Hr as _ <-. by destruct (quiet_run _ _ _ _ Hm E).
Qed.
Lemma quiet_silent {A} (m : B A) : quiet m → silent m.
Proof. intros Hq b r b' Hr. by destruct (quiet_run _ _ _ _ Hq Hr). Qed.
Lemma silent_RoundInterrupt : silent RoundInterrupt.
Proof. intros b r b' Hr. by apply (RoundInterrupt_run _ _ _ Hr). Qed.
Lemma silent_StartCommitProcessPhase c : silent (StartCommitProcessPhase c).
Proof.
  unfold StartCommitProcessPhase.
  repeat match goal with
  | |- ∀ _, _ => intros ?
  | |- silent RoundInterrupt => apply silent_RoundInterrupt
  | |- silent (mbind _ _) => apply silent_after; [solve [quiet]|]
  | |- silent (match ?x with _ => _ end) => destruct x
  | |- silent _ => apply quiet_silent; solve [quiet]
  end.
Qed.
End phases.
#[export] Hint Resolve quiet_candidate_of quiet_GetElectionCandidates quiet_selectHighestVDF quiet_RunVDF quiet_write_qc quiet_GetLocalDSE quiet_CheckProposerAndProposal quiet_certify : frames.
