(* ===== verification/BftDemo.v ===== *)
(** * Four validators and their externals, on which the consensus definitions
    can be evaluated *)
From stdpp Require Import countable.
From Stdlib Require String.
From S2P Require Import Prelude LibUtil State Crypto Wire Tx Account Quorum Byzantine Certificate Bft.
#[local] Open Scope Z_scope.

Definition key (x : byte) : bytes := replicate 48 x.
Definition pad32 (bz : bytes) : bytes := take 32 (bz ++ replicate 32 x00).
Fixpoint enc (p : positive) : bytes :=
  match p with xH => [] | xO p => x00 :: enc p | xI p => x01 :: enc p end.
Definition view_code (v : option View) : positive :=
  encode ((λ v, (NetworkId v, view_ChainId v, view_Height v, RootHeight v, Round v, phase_num (view_Phase v))) <$> v).

#[export] Instance demo_crypto : Crypto :=
  {| NewPublicKeyFromBytes := λ pk, match pk with [] => None | _ => Some (MkPublicKey pk pk true) end; Hash := pad32 |}.
(** Every aggregate of 96 bytes verifies, unless the mask names the key [banned]. *)
Definition demo_multisig_without (banned : bytes) : Multisig :=
  {| BytesToBLS12381Point := λ pk, bool_decide (pk ≠ []);
     SetMask := λ n bm, bool_decide (length bm = (n + 7) / 8)%nat;
     VerifyBytes := λ keys mask _ sig, bool_decide (length sig = 96%nat) &&
       forallb (λ '(i, k), negb (bit mask i && bool_decide (k = banned))) (imap pair keys) |}.
#[export] Instance demo_multisig : Multisig := demo_multisig_without [].
#[export] Instance demo_codec : Codec :=
  {| MarshalQC := λ qc, enc (view_code (Header qc)) ++ x02 :: Certificate.BlockHash qc;
     MarshalCertificateResult := λ _, [x12]; MarshalDexBatch := λ _, []; MarshalDexLimitOrder := λ _, [];
     BlockTransactions := λ _, Some []; MB := 1000000; Codec_wire := toy_wire |}.
#[export] Instance demo_externals : BftExternals :=
  {| MarshalMessage := λ _, [x13]; MarshalEvidence := λ _, [x14]; Verify := λ k _ sig, bool_decide (sig = k ++ k);
     NewMask := λ n, replicate ((n + 7) / 8) x00;
     SetBit := λ n m i, if (i <? n)%nat
       then Some (alter (λ b, byte_of_Z (Z.lor (byte_to_Z b) (Z.shiftl 1 (Z.of_nat (i mod 8))))) (i / 8)%nat m) else None;
     AggregateSignatures := λ _ _ _, Some (replicate 96 x00);
     VerifyVDF_ := λ _ _, true; below_cutoff := λ _ _ _ _, false; BlockResult := unit |}.
#[export] Instance demo_node : Node :=
  {| self_PublicKey := key x01; self_Sign := λ _, key x01 ++ key x01; RunVDF_enabled := false;
     ElectionTimeoutMS := 1500; ElectionVoteTimeoutMS := 1500; ProposeTimeoutMS := 2500; ProposeVoteTimeoutMS := 4000;
     PrecommitTimeoutMS := 2000; PrecommitVoteTimeoutMS := 2000; CommitTimeoutMS := 2000 |}.

Definition demo_vals : list ConsensusValidator :=
  map (λ x, MkConsensusValidator (key x) 10 String.EmptyString) [x01; x02; x03; x04].
Definition demo_set : ValidatorSet := MkValidatorSet demo_vals (Some (map cv_PublicKey demo_vals)) 40 27 4.
Lemma demo_proper (m : Multisig) : (∀ k, @BytesToBLS12381Point m k = bool_decide (k ≠ [])) → @proper_set _ m demo_vals demo_set.
Proof. intros Hm. split; [cbn; rewrite !Hm; done|repeat constructor; cbn; lia|done]. Qed.

Definition demo_committee : CommitteeData := MkCommitteeData 1 0 0 [] 0.
(** A controller at height 5 and root height 7. *)
Definition demo_ctl : Controller :=
  MkController 5 7 (λ _, 1) (λ _ _, (demo_set, None)) (Some demo_committee, None) (λ _, Ok []) (λ _ _, Ok 0) (λ _ _ _, true)
    (λ _, Ok None) 1000 false (λ _ _, (0, [], None, Some ErrNilBlock)) (λ _ _ _, Ok tt) None 0 0 (λ _ l, l).
Definition demo_start : BFT := Start demo_ctl (New 1 1 7 5 0).
Definition demo_view (round : Z) (p : Phase) : View := MkView 1 1 5 7 round p.
Definition demo_sig (x : byte) : option Tx.Signature := Some (MkSignature (Some (key x)) (Some (key x ++ key x))).
Definition demo_params : validateMessageParams := MkParams (demo_view 0 PROPOSE) demo_set 7 5 0 [] [].
(** What a reset leaves behind, in some phase and round. *)
Definition demo_at (round : Z) (p : Phase) : BFT := set_b_View_ (demo_view round p) demo_start.
Definition demo_qc (v : View) (blockHash resultsHash proposerKey : bytes) (mask : bytes) : QuorumCertificate :=
  MkQuorumCertificate (Some v) None resultsHash [] blockHash proposerKey (Some (MkAggregateSignature (replicate 96 x00) mask)).

Section timers.
Context `{Multisig}.
(** Firing the timer [n] times, and what every firing needs. *)
Fixpoint timers (n : nat) (c : Controller) (b : BFT) : BFT :=
  match n with O => b | S n => timers n c (snd (HandlePhase c b)) end.
Fixpoint timers_ok (n : nat) (c : Controller) (b : BFT) : bool :=
  match n with
  | O => true
  | S n => is_ok (fst (HandlePhase c b)) && (b_Height b =? ChainHeight c) && (b_RootHeight b =? RootChainHeight c)
      && (b_Round b <? u64_max) && timers_ok n c (snd (HandlePhase c b))
  end.
(** Seven timers after the reset the node has voted twice, in rounds 0 and 1. *)
Definition demo_run : BFT := timers 7 demo_ctl (snd (HandleReset demo_ctl false 0 0 demo_start)).
End timers.
(** Two validators that have reached rounds 5 and 3. *)
Definition demo_interrupt (x : byte) (round : Z) : Message :=
  MkMessage None None (Some (MkQuorumCertificate (Some (demo_view round ROUND_INTERRUPT)) None [] [] [] [] None))
    None [] None (demo_sig x) 0 0.
Definition demo_paced : BFT :=
  set_b_PacemakerMessages {[ key x02 := demo_interrupt x02 5; key x03 := demo_interrupt x03 3 ]} (demo_at 0 PACEMAKER).
Lemma ran (r : result ErrorI unit * BFT) : is_ok (fst r) = true → r = (Ok (), snd r).
Proof. by destruct r as [[[]|e] b]. Qed.

(** A proposal of validator 2 in round 0, justified by all four validators. *)
Definition demo_results : CertificateResult := MkCertificateResult (Some demo_rewards) None None None false None None.
(** A block with a header field of one byte. *)
Definition demo_block : bytes := [x0a; x03; x0a; x01; xb1].
Definition demo_proposed : QuorumCertificate :=
  MkQuorumCertificate (Some (demo_view 0 ELECTION_VOTE)) (Some demo_results) (results_hash (Some demo_results)) demo_block
    (BlockToHash demo_block) (key x02) (Some (MkAggregateSignature (replicate 96 x00) [x0f])).
Definition demo_proposal : Message :=
  MkMessage (Some (demo_view 0 PROPOSE)) None (Some demo_proposed) None [] None (demo_sig x02) 0 0.
(** A lock of round 0 on another block, and an unsigned certificate of round 9. *)
Definition demo_lock : QuorumCertificate := demo_qc (demo_view 0 PRECOMMIT_VOTE) (replicate 32 xaa) (replicate 32 xab) (key x03) [x0f].
Definition demo_forged : QuorumCertificate :=
  MkQuorumCertificate (Some (demo_view 9 PRECOMMIT_VOTE)) None [] [] (BlockToHash demo_block) [] None.
Definition demo_locked : BFT :=
  set_b_HighQC (Some 0%nat) (set_b_qcs {[ 0%nat := demo_lock ]} (demo_at 0 PROPOSE_VOTE)).

(** A node about to commit [demo_block], which holds one partial certificate. *)
Definition demo_decided : QuorumCertificate :=
  demo_qc (demo_view 0 PRECOMMIT_VOTE) (BlockToHash demo_block) (results_hash (Some demo_results)) (key x02) [x0f].
Definition demo_partial : QuorumCertificate :=
  demo_qc (demo_view 0 PRECOMMIT_VOTE) (BlockToHash demo_block) (results_hash (Some demo_results)) (key x02) [x08].
Definition demo_commit : Message :=
  MkMessage (Some (demo_view 0 COMMIT)) None (Some demo_decided) None [] None (demo_sig x02) 77 0.
Definition demo_committing : BFT :=
  set_b_ProposerKey (key x02) (set_b_Block demo_block (set_b_Results (Some demo_results)
    (set_b_PartialQCs {[ [x09] := demo_partial ]} (set_b_qcs {[ 0%nat := demo_decided ]}
      (set_b_Proposals {[ 0 := {[ phase_num COMMIT := [MkProposal demo_commit (Some 0%nat)] ]} ]} (demo_at 0 COMMIT_PROCESS)))))).

(** Election votes for validator 2 of three validators. *)
Definition demo_vote (x : byte) : Message :=
  MkMessage None None (Some (MkQuorumCertificate (Some (demo_view 0 ELECTION_VOTE)) None [] [] [] (key x02) None))
    None [] None (demo_sig x) 0 0.
Definition demo_votes : list (Controller * validateMessageParams * Message) :=
  map (λ x, (demo_ctl, demo_params, demo_vote x)) [x02; x03; x03; x04].
(** Evidence that validators 2, 3 and 4 certified two blocks in one view. *)
Definition demo_evidence : DoubleSignEvidence :=
  MkDoubleSignEvidence
    (Some (demo_qc (demo_view 0 PRECOMMIT_VOTE) (replicate 32 xaa) (replicate 32 xab) (key x02) [x0e]))
    (Some (demo_qc (demo_view 0 PRECOMMIT_VOTE) (replicate 32 xac) (replicate 32 xab) (key x02) [x0e])).

(** The sign bytes of the toy codec determine the view. *)
Lemma evidence_enc_inj p q s t : enc p ++ x02 :: s = enc q ++ x02 :: t → p = q.
Proof.
  revert q. induction p as [p IH|p IH|]; intros [q|q|]; cbn; intros He; try discriminate He; try done;
    injection He as He; f_equal; by apply IH.
Qed.
Lemma phase_num_inj p q : phase_num p = phase_num q → p = q.
Proof. by destruct p, q. Qed.
Lemma view_code_inj v w : view_code v = view_code w → v = w.
Proof.
  unfold view_code. intros He. apply (inj encode) in He. destruct v as [[]|], w as [[]|]; try done.
  injection He. cbn. intros ->%phase_num_inj. by intros -> -> -> -> ->.
Qed.
Lemma demo_SignBytes_inj {m : Multisig} (q q2 : QuorumCertificate) : SignBytes q = SignBytes q2 → Header q = Header q2.
Proof.
  assert (Hq : ∀ q : QuorumCertificate, ∃ s, SignBytes q = enc (view_code (Header q)) ++ x02 :: s).
  { intros [h r rh bl bh pk sg]. unfold SignBytes. cbn. destruct h as [h|]; [|by eexists].
    case_bool_decide; by eexists. }
  destruct (Hq q) as [s ->], (Hq q2) as [s2 ->]. intros He. by eapply view_code_inj, evidence_enc_inj.
Qed.
