(* ===== verification/BftRun.v ===== *)
(** * Runs of a node: one vote per view, and the pacemaker ([bft/bft.go]) *)
From S2P Require Import Prelude LibUtil State Crypto Tx Account Quorum Byzantine Certificate Bft BftFrames BftDemo.
#[local] Open Scope Z_scope.

Section runs.
Context `{Crypto, Multisig, Codec, BftExternals, Node}.
Implicit Types (c : Controller) (b : BFT).
Notation B := (M BFT ErrorI).

(** ** The order of views *)

Definition before (v w : View) : Prop := View_Less (Some v) (Some w) = true.
Lemma before_spec v w :
  before v w ↔ view_Height v < view_Height w ∨ (view_Height v = view_Height w ∧ (RootHeight v < RootHeight w ∨
    (RootHeight v = RootHeight w ∧ (Round v < Round w ∨
      (Round v = Round w ∧ phase_num (view_Phase v) < phase_num (view_Phase w)))))).
Proof. unfold before, View_Less. repeat case_match; zify_bools; split; intros; try done; lia. Qed.
Lemma views_trans u v w : before u v → before v w → before u w.
Proof. rewrite !before_spec. lia. Qed.
Lemma views_irrefl v : ¬ before v v.
Proof. rewrite before_spec. lia. Qed.
(** [w] is not before [v]. *)
Definition upto (v w : View) : Prop := v = w ∨ before v w ∨
  (view_Height v = view_Height w ∧ RootHeight v = RootHeight w ∧ Round v = Round w ∧ view_Phase v = view_Phase w).
Lemma before_upto u v w : before u v → upto v w → before u w.
Proof. intros Hu [->|[Hv|Hv]]; [done|by eapply views_trans|]. rewrite before_spec in *. destruct Hv as (?&?&?&<-). lia. Qed.

(** The controller's heights are at least those of the node. *)
Definition no_rollback c b : Prop :=
  b_Height b < ChainHeight c ∨ (b_Height b = ChainHeight c ∧ b_RootHeight b <= RootChainHeight c).
(** They are above those of a vote. *)
Definition new_heights c (v : View) : Prop :=
  view_Height v < ChainHeight c ∨ (view_Height v = ChainHeight c ∧ RootHeight v < RootChainHeight c).

(** ** Runs of a node *)

(** One step of a node that does not panic: its timer, one half of the handling
    of a message (its lock is released in between), or a reset. *)
Inductive node_step : BFT → BFT → Prop :=
| step_timer c b b' :
    no_rollback c b → (b_Phase b = PACEMAKER → b_Round b < u64_max) →
    HandlePhase c b = (Ok (), b') → node_step b b'
| step_read msg b r b' : GetValidateMessageParams msg b = (r, b') → node_step b b'
| step_deliver c params msg b r b' : deliver c params msg b = (r, b') → node_step b b'
| step_reset c keepLocks ms processTime b b' :
    (∀ v, v ∈ voted b → new_heights c v) →
    HandleReset c keepLocks ms processTime b = (Ok (), b') → node_step b b'.

Record votes_ordered b : Prop := {
  vo_round : 0 <= b_Round b;
  vo_sorted : StronglySorted before (voted b);
  vo_past : ∀ v, v ∈ voted b → before v (b_View_ b);
}.

Lemma votes_ordered_same b b' :
  votes_ordered b → 0 <= b_Round b' → voted b' = voted b → upto (b_View_ b) (b_View_ b') → votes_ordered b'.
Proof.
  intros [R S P] HR Hv Hu. split; [done|by rewrite Hv|]. rewrite Hv. intros v Hin. eapply before_upto; eauto.
Qed.
Lemma votes_ordered_vote b b' :
  votes_ordered b → 0 <= b_Round b' → voted b' = voted b ++ [b_View_ b] → before (b_View_ b) (b_View_ b') → votes_ordered b'.
Proof.
  intros [R S P] HR Hv Hu. split; [done| |]; rewrite Hv.
  - apply StronglySorted_app. split_and!; [intros x y Hx ->%list_elem_of_singleton; by apply P|done|repeat constructor].
  - intros v [Hin| ->%list_elem_of_singleton]%elem_of_app; [|done]. eapply views_trans; eauto.
Qed.
Lemma quiet_ordered {A} (m : B A) b r b' : quiet m → m b = (r, b') → votes_ordered b → votes_ordered b'.
Proof.
  intros Hq Hr Ho. destruct (quiet_run _ _ _ _ Hq Hr) as [Hv Hs]. eapply votes_ordered_same; [done| |done|left; congruence].
  unfold b_Round. rewrite Hv. apply Ho.
Qed.

(** *** The timer *)

Lemma SelfIsValidator_run c b r b' :
  no_rollback c b → SelfIsValidator c b = (r, b') →
  voted b' = voted b ∧ b_Round b' = b_Round b ∧ b_Phase b' = b_Phase b ∧ no_rollback c b' ∧ upto (b_View_ b) (b_View_ b').
Proof.
  intros Hn. unfold SelfIsValidator, mbind, M_bind, get, gets. cbn. case_match; intros [= _ <-].
  - split_and!; try done. by left.
  - split_and!; try done.
    + right. cbn. split; [done|]. reflexivity.
    + unfold no_rollback, b_Height, b_RootHeight in Hn. right. rewrite before_spec. cbn.
      destruct Hn as [?|[? ?]]; [left; lia|]. destruct (decide (RootHeight (b_View_ b) = RootChainHeight c)); [right|left; lia].
      split_and!; congruence.
Qed.
Lemma Pacemaker_run c b r b' :
  no_rollback c b → 0 <= b_Round b < u64_max → Pacemaker c b = (r, b') →
  voted b' = voted b ∧ b_Round b < b_Round b' ∧ b_Phase b' = b_Phase b ∧ b_Height b' = ChainHeight c ∧ b_RootHeight b' = RootChainHeight c.
Proof.
  intros Hn Hr. unfold Pacemaker, mbind, M_bind, get, gets, modify, when. cbn.
  assert (Hround : u64_add (b_Round b) 1 = b_Round b + 1) by (apply u64_add_small; u64). rewrite Hround.
  destruct (_ <? _) eqn:Hlt; intros [= _ <-]; cbn.
  - zify_bools. split_and!; try done. unfold b_Round in *. cbn. lia.
  - split_and!; try done. unfold b_Round in *. cbn. rewrite Hround. lia.
Qed.
Lemma SetTimer_run pt b r b' :
  SetTimerForNextPhase pt b = (r, b') →
  voted b' = voted b ∧ (b_Phase b = COMMIT_PROCESS ∧ b_View_ b' = b_View_ b ∨
    b_Phase b ≠ COMMIT_PROCESS ∧ b_View_ b' = set_Phase (next_phase (b_Phase b)) (b_View_ b)).
Proof.
  unfold SetTimerForNextPhase, mbind, M_bind, get, gets. cbn. case_bool_decide; intros [= _ <-]; cbn.
  - split; [done|]. by left.
  - split; [|by right]. unfold voted. cbn. rewrite omap_app. cbn. by rewrite app_nil_r.
Qed.
(** Every phase but the pacemaker's either stays in the view, with at most one
    vote in it, or interrupts the round; COMMIT_PROCESS does not vote. *)
Lemma run_phase_steady c p : p ≠ PACEMAKER → steady (run_phase c p).
Proof.
  intros Hp. destruct p; try done; cbn; try apply quiet_steady, frames_ret.
  - apply quiet_steady, quiet_StartElectionPhase.
  - apply steady_StartElectionVotePhase.
  - apply quiet_steady, quiet_StartProposePhase.
  - apply steady_StartProposeVotePhase.
  - apply steady_StartPrecommitPhase.
  - apply steady_StartPrecommitVotePhase.
  - apply steady_StartCommitPhase.
  - apply steady_StartCommitProcessPhase.
Qed.

Lemma run_PACEMAKER c : run_phase c PACEMAKER = Pacemaker c.
Proof. reflexivity. Qed.
Lemma run_COMMIT_PROCESS c : run_phase c COMMIT_PROCESS = StartCommitProcessPhase c.
Proof. reflexivity. Qed.
Lemma timer_ordered c b b' :
  no_rollback c b → (b_Phase b = PACEMAKER → b_Round b < u64_max) → HandlePhase c b = (Ok (), b') →
  votes_ordered b → votes_ordered b'.
Proof.
  intros Hn Hw Hrun Ho. unfold HandlePhase in Hrun. destruct (Syncing c).
  { apply (quiet_ordered _ _ _ _ (quiet_act StopTimer eq_refl) Hrun Ho). }
  apply bind_Ok in Hrun as (isval & b0 & Hv & Hrun).
  apply SelfIsValidator_run in Hv as (Hv1 & Hv2 & Hv3 & Hn0 & Hup); [|done].
  assert (Ho0 : votes_ordered b0) by (apply (votes_ordered_same _ _ Ho); [rewrite Hv2; apply Ho|done|done]).
  clear Hn Hup Hv1 Ho. destruct (negb isval). { apply (quiet_ordered _ _ _ _ (quiet_act StopTimer eq_refl) Hrun Ho0). }
  apply bind_Ok in Hrun as (? & ? & [= <- <-] & Hrun). apply bind_Ok in Hrun as ([] & b1 & Hp & Hrun).
  apply SetTimer_run in Hrun as [Ht1 Ht2]. rewrite <- Hv3, <- Hv2 in Hw. pose proof (vo_round _ Ho0) as HR.
  destruct (decide (b_Phase b0 = PACEMAKER)) as [Hpm|Hpm].
  - rewrite Hpm, run_PACEMAKER in Hp.
    destruct (Pacemaker_run c b0 _ _ Hn0 (conj HR (Hw Hpm)) Hp) as (Hp1 & Hp2 & Hp3 & Hp4 & Hp5).
    destruct Ht2 as [[? _]|[_ Hvw]]; [congruence|]. eapply votes_ordered_same; [exact Ho0| |congruence|].
    + unfold b_Round. rewrite Hvw. cbn. unfold b_Round in Hp2, HR. lia.
    + right. left. rewrite Hvw, before_spec. cbn. unfold no_rollback, b_Height, b_RootHeight, b_Round in *. lia.
  - pose proof (run_phase_steady c _ Hpm _ _ _ Hp) as Hs.
    assert (Hnext : ∀ v, view_Phase v ≠ COMMIT_PROCESS → view_Phase v ≠ PACEMAKER → before v (set_Phase (next_phase (view_Phase v)) v)).
    { intros v H1' H2'. rewrite before_spec. cbn. destruct (view_Phase v); cbn; try done; lia. }
    destruct Hs as [[Hs1 [Hs2|Hs2]]|[Hs1 Hs2]].
    + eapply votes_ordered_same; [exact Ho0| |congruence|].
      * destruct Ht2 as [[_ Hvw]|[_ Hvw]]; unfold b_Round; rewrite Hvw; cbn; rewrite Hs1; exact HR.
      * destruct Ht2 as [[_ Hvw]|[Hne Hvw]]; rewrite Hvw, Hs1; [by left|]. right. left. unfold b_Phase in *. rewrite Hs1 in *. by apply Hnext.
    + destruct (decide (b_Phase b0 = COMMIT_PROCESS)) as [Hcp|Hcp].
      { rewrite Hcp, run_COMMIT_PROCESS in Hp. apply silent_StartCommitProcessPhase in Hp. rewrite Hp in Hs2.
        apply (f_equal length) in Hs2. rewrite length_app in Hs2. cbn in Hs2. lia. }
      unfold b_Phase in *. rewrite Hs1 in *. destruct Ht2 as [[? _]|[_ Hvw]]; [done|].
      eapply votes_ordered_vote; [exact Ho0| |congruence|rewrite Hvw; by apply Hnext].
      unfold b_Round. rewrite Hvw. exact HR.
    + unfold b_Phase in *. rewrite Hs1 in *. destruct Ht2 as [[? _]|[_ Hvw]]; [done|].
      eapply votes_ordered_same; [exact Ho0| |congruence|]; [unfold b_Round; rewrite Hvw; exact HR|].
      right. left. rewrite Hvw, before_spec. cbn. destruct (view_Phase (b_View_ b0)); cbn; try done; lia.
Qed.

Lemma reset_ordered c keepLocks ms pt b b' :
  (∀ v, v ∈ voted b → new_heights c v) → HandleReset c keepLocks ms pt b = (Ok (), b') → votes_ordered b → votes_ordered b'.
Proof.
  intros Hnew Hrun [R S P].
  assert (Hb : b_View_ b' = b_View_ (NewHeight c keepLocks b) ∧ voted b' = voted b).
  { apply (quiet_run _ (NewHeight c keepLocks b) _ _ (quiet_act (ResetTimer (subtract (int64 (ms * 1000000)) pt)) eq_refl)) in Hrun as [-> ->].
    split; [done|]. unfold voted. by destruct keepLocks. }
  destruct Hb as [Hv Hs].
  assert (Hview : view_Height (b_View_ b') = ChainHeight c ∧ RootHeight (b_View_ b') = RootChainHeight c ∧ Round (b_View_ b') = 0).
  { rewrite Hv. by destruct keepLocks. }
  destruct Hview as (Hh & Hrh & Hr). split.
  - unfold b_Round. lia.
  - by rewrite Hs.
  - rewrite Hs. intros v Hin. apply before_spec. destruct (Hnew v Hin) as [?|[? ?]]; lia.
Qed.

Lemma step_ordered b b' : node_step b b' → votes_ordered b → votes_ordered b'.
Proof.
  destruct 1; intros Ho.
  - by eapply timer_ordered.
  - eapply quiet_ordered; [apply quiet_params|eassumption|done].
  - eapply quiet_ordered; [apply quiet_deliver|eassumption|done].
  - by eapply reset_ordered.
Qed.
Lemma run_ordered b b' : rtc node_step b b' → votes_ordered b → votes_ordered b'.
Proof. induction 1; eauto using step_ordered. Qed.
Lemma start_ordered c networkId chainId rootHeight height ms :
  votes_ordered (Start c (New networkId chainId rootHeight height ms)).
Proof. split; cbn; [done|constructor|by intros v ?%elem_of_nil]. Qed.


(** ** The pacemaker *)

Definition voter_power (vs : ValidatorSet) (m : Message) : Z :=
  match GetValidator vs (sig_key (m_Signature m)) with Some v => VotingPower v | None => 0 end.
(** The power behind the rounds from [r] on. *)
Definition power_from (vs : ValidatorSet) (r : Z) (votes : list Message) : Z :=
  list_sum (voter_power vs) (filter (λ m, r <= vote_round m) votes).
Definition advance_power (vs : ValidatorSet) : Z := Uint64ReducePercentage (MinimumMaj23 vs) 50.

Lemma power_from_perm vs r l1 l2 : l1 ≡ₚ l2 → power_from vs r l1 = power_from vs r l2.
Proof. intros Hp. apply list_sum_perm. by rewrite Hp. Qed.
Lemma find_validator_elem target i l v j : find_validator target i l = Ok (v, j) → v ∈ l ∧ cv_PublicKey v = target.
Proof.
  revert i. induction l as [|w l IH]; intros i; cbn; [done|].
  case_decide; [intros [= -> _]; set_solver|]. intros Hf. apply IH in Hf as [? ?]. set_solver.
Qed.
Lemma voter_power_nonneg vs m : powers_ok (vs_Validators vs) → 0 <= voter_power vs m.
Proof.
  intros Hok. unfold voter_power, GetValidator, GetValidatorAndIdx.
  destruct (find_validator _ 0 _) as [[v i]|e] eqn:Hf; [|done].
  apply find_validator_elem in Hf as [Hin _]. unfold powers_ok in Hok. rewrite Forall_forall in Hok. by apply Hok.
Qed.
Lemma power_from_nonneg vs r l : powers_ok (vs_Validators vs) → 0 <= power_from vs r l.
Proof. intros Hok. apply list_sum_nonneg. intros m _. by apply voter_power_nonneg. Qed.
Lemma power_from_none vs r l : Forall (λ m, vote_round m < r) l → power_from vs r l = 0.
Proof.
  unfold power_from. induction 1 as [|m l Hm Hl IH]; [done|]. by rewrite filter_cons_False by lia.
Qed.
Lemma power_from_cons vs r m l :
  power_from vs r (m :: l) = (if bool_decide (r <= vote_round m) then voter_power vs m else 0) + power_from vs r l.
Proof.
  unfold power_from. case_bool_decide; [by rewrite filter_cons_True, list_sum_cons|by rewrite filter_cons_False].
Qed.
(** The loop finds the highest round with enough power behind it, or 0. *)
Lemma pacemaker_round_spec vs acc votes :
  powers_ok (vs_Validators vs) → 0 <= acc < advance_power vs → acc + list_sum (voter_power vs) votes < two64 →
  StronglySorted (λ x y, vote_round y <= vote_round x) votes → (∀ m, m ∈ votes → 0 <= vote_round m) →
  let r := pacemaker_round vs acc votes in
  0 <= r ∧ (r = 0 ∨ advance_power vs <= acc + power_from vs r votes) ∧
  (∀ r', r < r' → acc + power_from vs r' votes < advance_power vs).
Proof.
  intros Hok. revert acc. induction votes as [|m votes IH]; intros acc Hacc Hsum Hs Hr; cbn [pacemaker_round].
  { split_and!; [done|by left|]. intros r' _. change (power_from vs r' []) with 0. lia. }
  apply StronglySorted_inv in Hs as [Hs Hf]. rewrite list_sum_cons in Hsum.
  assert (Hm : 0 <= vote_round m) by (apply Hr; set_solver).
  assert (Habove : ∀ r', vote_round m < r' → power_from vs r' votes = 0).
  { intros r' Hlt. apply power_from_none. eapply Forall_impl; [exact Hf|]. cbn. lia. }
  pose proof (voter_power_nonneg vs m Hok) as Hp. pose proof (list_sum_nonneg (voter_power vs) votes (λ x _, voter_power_nonneg vs x Hok)) as Hps.
  assert (Hnext : acc + voter_power vs m < advance_power vs →
    let r := pacemaker_round vs (acc + voter_power vs m) votes in
    0 <= r ∧ (r = 0 ∨ advance_power vs <= acc + power_from vs r (m :: votes)) ∧
    (∀ r', r < r' → acc + power_from vs r' (m :: votes) < advance_power vs)).
  { intros Hlt. destruct (IH (acc + voter_power vs m)) as (I1 & I2 & I3); [lia|lia|done|set_solver|]. cbv zeta.
    revert I1 I2 I3. generalize (pacemaker_round vs (acc + voter_power vs m) votes). intros r I1 I2 I3. split_and!; [done| |].
    - destruct I2 as [I2|I2]; [by left|]. right. rewrite power_from_cons. case_bool_decide; [lia|].
      rewrite Habove in I2 by lia. lia.
    - intros r' Hr'. specialize (I3 r' Hr'). rewrite power_from_cons. case_bool_decide; lia. }
  destruct (GetValidator vs (sig_key (m_Signature m))) as [v|] eqn:Hv.
  - assert (Hvp : voter_power vs m = VotingPower v) by (unfold voter_power; by rewrite Hv). rewrite <- Hvp.
    rewrite u64_add_small by u64. fold (advance_power vs). fold (vote_round m).
    destruct (Z.leb_spec (advance_power vs) (acc + voter_power vs m)) as [Hle|Hlt]; [|by apply Hnext]. split_and!; [done| |].
    + right. rewrite power_from_cons, bool_decide_true by done.
      pose proof (power_from_nonneg vs (vote_round m) votes Hok). lia.
    + intros r' Hr'. rewrite power_from_cons, bool_decide_false, Habove by lia. lia.
  - assert (Hvp : voter_power vs m = 0) by (unfold voter_power; by rewrite Hv). rewrite Hvp, Z.add_0_r in Hnext. apply Hnext. lia.
Qed.

Lemma Pacemaker_unfold c b :
  let b1 := NewRound c false b in
  Pacemaker c b = (when (b_Round b1 <? pacemaker_round (b_ValidatorSet b1) 0 (sortedVotes c b1))
    (modify (set_b_View_ (set_Round (pacemaker_round (b_ValidatorSet b1) 0 (sortedVotes c b1)) (b_View_ b1)))) : B unit) b1.
Proof. unfold Pacemaker, mbind, M_bind, modify, get, gets, id. cbv beta iota zeta. reflexivity. Qed.
(** The pacemaker moves to the next round, or beyond it to the highest round
    that validators with at least half of the +2/3 majority, more than a third
    of the power, have reached by their stored messages; no higher round has as
    much power behind it.  The order in which the messages are taken from the
    map does not matter. *)
Theorem Pacemaker_advances c b b' :
  let vs := fst (LoadCommittee c (LoadRootChainId c (ChainHeight c)) (RootChainHeight c)) in
  let votes := map snd (map_to_list (b_PacemakerMessages b)) in
  (∀ l : list Message, range c l ≡ₚ l) → 0 <= b_Round b < u64_max →
  powers_ok (vs_Validators vs) → 0 < advance_power vs → list_sum (voter_power vs) votes < two64 →
  Forall (λ m, 0 <= vote_round m) votes → Pacemaker c b = (Ok (), b') →
  b_Round b + 1 <= b_Round b' ∧
  (b_Round b + 1 < b_Round b' → advance_power vs <= power_from vs (b_Round b') votes) ∧
  (∀ r, b_Round b' < r → power_from vs r votes < advance_power vs).
Proof.
  intros vs votes Hrange Hr Hok Hthr Hsum Hpos Hrun.
  set (b1 := NewRound c false b). set (sv := sortedVotes c b1).
  assert (Hperm : sv ≡ₚ votes) by (unfold sv, sortedVotes; rewrite sorted_by_perm; apply Hrange).
  destruct (pacemaker_round_spec vs 0 sv) as (I1 & I2 & I3); [done|lia|by rewrite (list_sum_perm _ _ _ Hperm)| | |].
  { pose proof (sorted_by_Sorted (λ x y, vote_round y <=? vote_round x) (range c (map snd (map_to_list (b_PacemakerMessages b1)))))
      as Hso. eapply StronglySorted_weaken; [|apply Hso]; cbn; intros; zify_bools; try lia. }
  { intros m Hm. rewrite Forall_forall in Hpos. apply Hpos. by rewrite <- Hperm. }
  assert (Hround : b_Round b' = Z.max (b_Round b + 1) (pacemaker_round vs 0 sv)).
  { assert (Hadd : u64_add (b_Round b) 1 = b_Round b + 1) by (apply u64_add_small; u64).
    rewrite Pacemaker_unfold in Hrun. fold b1 in Hrun. cbv zeta in Hrun.
    change (b_ValidatorSet b1) with vs in Hrun. fold sv in Hrun.
    assert (Hb1 : b_Round b1 = b_Round b + 1) by exact Hadd. revert Hrun. unfold when. rewrite Hb1.
    destruct (Z.ltb_spec (b_Round b + 1) (pacemaker_round vs 0 sv)); intros [= <-].
    - unfold b_Round in *. cbn. lia.
    - fold b1. lia. }
  rewrite Hround. revert I1 I2 I3. generalize (pacemaker_round vs 0 sv). intros r I1 I2 I3. split_and!; [lia| |].
  - intros Hlt. rewrite Z.max_r by lia. destruct I2 as [->|I2]; [lia|]. by rewrite <- (power_from_perm _ _ _ _ Hperm).
  - intros r' Hlt. rewrite <- (power_from_perm _ _ _ _ Hperm). apply I3. lia.
Qed.

End runs.

(** ** At concrete inputs *)

Lemma timers_run `{Multisig} n c b : timers_ok n c b = true → rtc node_step b (timers n c b).
Proof.
  revert b. induction n as [|n IH]; intros b Hok; [apply rtc_refl|]. cbn [timers_ok] in Hok. zify_bools.
  destruct (HandlePhase c b) as [[[]|e] b'] eqn:E; [|done]. apply rtc_l with b'; [|cbn [timers]; rewrite E; by apply IH].
  apply (step_timer c); [right; lia|lia|exact E].
Qed.
Lemma demo_run_reachable `{Multisig} : rtc node_step demo_start demo_run.
Proof.
  apply rtc_l with (snd (HandleReset demo_ctl false 0 0 demo_start)).
  - apply (step_reset demo_ctl false 0 0); [by intros v ?%elem_of_nil|reflexivity].
  - unfold demo_run. apply timers_run. vm_compute. reflexivity.
Qed.

Theorem Pacemaker_advances_witness :
  let b' := snd (Pacemaker demo_ctl demo_paced) in
  b_Round b' = 3 ∧ advance_power demo_set <= power_from demo_set (b_Round b') (map snd (map_to_list (b_PacemakerMessages demo_paced))).
Proof.
  intros b'. assert (Hr : b_Round b' = 3) by (vm_compute; reflexivity). split; [exact Hr|].
  apply (Pacemaker_advances demo_ctl demo_paced b').
  - by intros l.
  - split; vm_compute; congruence.
  - repeat constructor; cbn; lia.
  - vm_compute. reflexivity.
  - vm_compute. reflexivity.
  - rewrite Forall_forall. intros m Hm. apply list_elem_of_fmap in Hm as ([k m2] & -> & Hm%elem_of_map_to_list). unfold demo_paced in Hm. cbn in Hm.
    apply lookup_insert_Some in Hm as [[_ <-]|[_ Hm]]; [done|]. by apply lookup_singleton_Some in Hm as [_ <-].
  - apply ran. vm_compute. reflexivity.
  - rewrite Hr. vm_compute. reflexivity.
Defined.

