(* ===== verification/BftLocks.v ===== *)
(** * Locks, pacemaker messages and partial certificates ([bft/])

    What [SafeNode] accepts, and how a lock, a round and a commit can be
    disturbed by messages nobody verifies. *)
From S2P Require Import Prelude LibUtil State Crypto Tx Account Quorum Byzantine Certificate Bft BftFrames BftDemo BftRun.
#[local] Open Scope Z_scope.

Section locks.
Context `{Crypto, Multisig, Codec, BftExternals, Node}.
Implicit Types (c : Controller) (b : BFT).
Notation B := (M BFT ErrorI).

(** The same pacemaker message with another round. *)
Definition with_round (r : Z) (x : Message) : Message :=
  MkMessage (m_Header x) (m_Vrf x)
    ((λ qc, MkQuorumCertificate (set_Round r <$> Header qc) (Certificate.Results qc) (ResultsHash qc) (qc_Block qc)
       (Certificate.BlockHash qc) (ProposerKey qc) (Signature qc)) <$> m_Qc x)
    (m_HighQc x) (m_LastDoubleSignEvidence x) (m_Vdf x) (m_Signature x) (m_Timestamp x) (m_RcBuildHeight x).

(** The signature of a pacemaker message does not cover its round: the
    message a node sends when it interrupts a round has no header, so its sign
    bytes are those of the empty message.  Whoever has seen one pacemaker message
    of a validator can put any round into it; every node that would accept the
    original accepts the copy and counts the validator as having reached that
    round. *)
Theorem pacemaker_round_unsigned c params b x v r b' :
  qc_header x = Some v → view_Phase v = ROUND_INTERRUPT → m_Header x = None →
  deliver c params x b = (Ok (), b') →
  Message_SignBytes (with_round r x) = Message_SignBytes x ∧
  ∃ b2, deliver c params (with_round r x) b = (Ok (), b2) ∧
    b_PacemakerMessages b2 !! sig_key (m_Signature x) = Some (with_round r x) ∧ vote_round (with_round r x) = r.
Proof.
  intros Hv Hp Hh Hd.
  assert (Hq : ∃ qc, m_Qc x = Some qc ∧ Header qc = Some v).
  { unfold qc_header in Hv. destruct (m_Qc x) as [qc|]; [|done]. by exists qc. }
  destruct Hq as (qc & Hqc & Hhd).
  assert (Hv' : qc_header (with_round r x) = Some (set_Round r v)).
  { unfold qc_header, with_round. cbn. rewrite Hqc. cbn. by rewrite Hhd. }
  assert (Hkind : ∀ y w, qc_header y = Some w → view_Phase w = ROUND_INTERRUPT → m_Header y = None →
    IsReplicaMessage y = false ∧ IsProposerMessage y = false ∧ IsPacemakerMessage y = true).
  { intros y w Hw Hpw Hhy. unfold IsReplicaMessage, IsProposerMessage, IsPacemakerMessage, phase_of. rewrite Hw, Hhy. cbn.
    by rewrite Hpw. }
  destruct (Hkind x v Hv Hp Hh) as (R1 & P1 & K1). destruct (Hkind (with_round r x) _ Hv' Hp Hh) as (R2 & P2 & K2).
  assert (Hsb : Message_SignBytes (with_round r x) = Message_SignBytes x).
  { unfold Message_SignBytes. by rewrite R1, R2, P1, P2, K1, K2. }
  split; [exact Hsb|]. unfold deliver in *. rewrite R1, K1 in Hd. rewrite R2, K2. cbn [orb] in *.
  assert (Hck : CheckReplicaMessage (with_round r x) params = CheckReplicaMessage x params).
  { unfold CheckReplicaMessage. rewrite Hsb, K1, K2. unfold with_round at 1. cbn [m_Qc]. rewrite Hqc. cbn. rewrite Hhd.
    destruct (checkSignature _ _); [|done]. unfold View_Check. cbn. by repeat (destruct (check_not _ _); cbn; [|done]). }
  rewrite Hck. destruct (CheckReplicaMessage x params); [|done]. eexists. split; [reflexivity|]. split.
  - cbn. by rewrite lookup_insert_eq.
  - unfold vote_round. by rewrite Hv'.
Qed.

(** ** The lock *)

(** The same proposal with another highQC. *)
Definition with_high (high : QuorumCertificate) (s : option Tx.Signature) (x : Message) : Message :=
  MkMessage (m_Header x) (m_Vrf x) (m_Qc x) (Some high) (m_LastDoubleSignEvidence x) (m_Vdf x) s (m_Timestamp x)
    (m_RcBuildHeight x).

(** The check of a proposal looks at its highQC through the sign bytes only. *)
Lemma CheckProposerMessage_high c x high s params r :
  CheckProposerMessage c x params = Ok r → sig_key s = sig_key (m_Signature x) →
  checkSignature s (Message_SignBytes (with_high high s x)) = Ok () →
  CheckProposerMessage c (with_high high s x) params = Ok r.
Proof.
  unfold CheckProposerMessage, checkBasic. intros Hx Hk Hs. cbn [m_Header m_Signature m_Vrf m_Qc with_high].
  apply result_bind_Ok in Hx as (u & Hb & Hx). apply result_bind_Ok in Hb as (v & Hv & _). rewrite Hv. cbn. rewrite Hs. cbn.
  unfold check_justification in *. cbn [m_Signature with_high]. by rewrite Hk.
Qed.

Lemma elements_max_ge l (ls : list nat) : l ∈ ls → (l <= foldr max 0 ls)%nat.
Proof. induction 1 as [x l|x y l _ IH]; cbn; lia. Qed.
Lemma alloc_fresh b l qc : b_qcs b !! l = Some qc → l ≠ alloc b.
Proof.
  intros Hl ->. assert (Hin : alloc b ∈ elements (dom (b_qcs b))).
  { apply elem_of_elements, elem_of_dom. eauto. }
  apply elements_max_ge in Hin. unfold alloc in Hin. lia.
Qed.

(** Casting the vote of a replica that found the proposal valid. *)
Lemma GetBlockHash_run b : GetBlockHash b = (Ok (block_hash b), set_b_BlockHash (block_hash b) b).
Proof. reflexivity. Qed.
Lemma RunVDF_run c seed b : ∃ acts, RunVDF c seed b = (Ok (), set_b_sent (b_sent b ++ acts) b).
Proof.
  assert (Hnil : (Ok (), b) = (Ok () : result ErrorI unit, set_b_sent (b_sent b ++ []) b)) by (rewrite app_nil_r; by destruct b).
  unfold RunVDF. destruct RunVDF_enabled; cbn [negb]; [|exists []; exact Hnil].
  unfold mbind, M_bind, get, gets, id. destruct (if bool_decide (seed = []) then _ else _) as [s|e]; [|exists []; exact Hnil].
  exists [VDFServiceRun s]. reflexivity.
Qed.
Lemma send_vote_run b :
  send_vote b = (Ok (), set_b_sent (b_sent b ++ [SendToProposer (b_ProposerKey b)
    (vote_message (b_View_ b) (block_hash b) (results_hash (b_Results b)) (b_ProposerKey b))]) (set_b_BlockHash (block_hash b) b)).
Proof. reflexivity. Qed.
Lemma ProposeVote_votes c b p msg qc br :
  GetProposal b = Ok (Some p) → read_proposal b p = msg → m_Qc msg = Some qc →
  match b_high b with None => True | Some lock => SafeNode lock msg = Ok () end →
  (∃ d, b_CommitteeData b = Some d ∧ LastRootHeightUpdated d <= m_RcBuildHeight msg) →
  ValidateProposal c (m_RcBuildHeight msg) qc (NewDSE (m_LastDoubleSignEvidence msg)) = Ok br →
  b_BlockHash b = [] →
  ∃ b' acts, StartProposeVotePhase c b = (Ok (), b') ∧
    b_sent b' = b_sent b ++ acts ++ [SendToProposer (sig_key (m_Signature msg))
      (vote_message (b_View_ b) (BlockToHash (qc_Block qc)) (results_hash (Certificate.Results qc)) (sig_key (m_Signature msg)))].
Proof.
  intros Hg Hm Hqc Hsafe (d & Hd & Hrc) Hval Hbh. unfold StartProposeVotePhase.
  assert (Hlock : match b_high b with None => Ok () | Some lock => SafeNode lock msg end = Ok ()) by (destruct (b_high b); auto).
  unfold mbind at 1, M_bind at 1. change (get b) with (Ok b : result ErrorI BFT, b). cbv beta iota. rewrite Hg, Hm.
  unfold mbind at 1, M_bind at 1. unfold modify at 1. cbv beta iota. rewrite Hlock.
  unfold mbind at 1, M_bind at 1, committee. rewrite Hd. unfold mret, M_ret. cbv beta iota.
  rewrite (proj2 (Z.ltb_ge _ _) Hrc), Hqc, Hval.
  unfold modify, mbind, M_bind. cbv beta iota. rewrite GetBlockHash_run. cbv beta iota.
  match goal with |- context [RunVDF c ?s ?st] => destruct (RunVDF_run c s st) as [acts ->] end. cbv beta iota.
  rewrite send_vote_run. eexists _, acts. split; [reflexivity|]. cbn. rewrite <- app_assoc. unfold block_hash. cbn. rewrite Hbh. cbn.
  by case_bool_decide.
Qed.

Lemma deliver_proposal c params x h qc b :
  m_Header x = Some h → view_Phase h = PROPOSE → IsPacemakerMessage x = false → m_Qc x = Some qc →
  CheckProposerMessage c x params = Ok false →
  ∃ b1, deliver c params x b = (Ok (), b1) ∧ b_View_ b1 = b_View_ b ∧ b_sent b1 = b_sent b ∧ b_HighQC b1 = b_HighQC b ∧
    b_CommitteeData b1 = b_CommitteeData b ∧ b_BlockHash b1 = b_BlockHash b ∧ b_qcs b1 = <[alloc b := qc]> (b_qcs b) ∧
    phase_proposals b1 (Round h) (phase_num PROPOSE) = Some [MkProposal x (Some (alloc b))].
Proof.
  intros Hh Hp Hpm Hqc Hck. unfold deliver.
  assert (IsReplicaMessage x = false) as ->.
  { unfold IsReplicaMessage. rewrite Hh. cbn. by rewrite orb_true_r. }
  assert (IsProposerMessage x = true) as -> by (unfold IsProposerMessage; rewrite Hh; cbn; by rewrite Hp).
  rewrite Hpm, Hck. cbn [orb]. unfold AddProposal. rewrite Hh. unfold store_proposal.
  unfold mbind, M_bind, get, gets, modify, id, mret, M_ret. cbv beta iota. rewrite Hqc. cbv beta iota. rewrite Hp, (bool_decide_false (PROPOSE = ELECTION)) by done.
  eexists. split; [reflexivity|]. cbn. split_and!; try done. unfold phase_proposals. cbn.
  rewrite lookup_insert_eq. by rewrite lookup_insert_eq.
Qed.

(** A highQC of a later round that names the proposed block unlocks. *)
Lemma SafeNode_unlocks lock qc high h l msg :
  m_Qc msg = Some qc → m_HighQc msg = Some high → Header high = Some h → Header lock = Some l →
  BlockToHash (qc_Block qc) = Certificate.BlockHash high → Round l < Round h → SafeNode lock msg = Ok ().
Proof.
  intros Hqc Hhi Hh Hl Hb Hr. unfold SafeNode. rewrite Hqc, Hhi, Hh, Hl, (bool_decide_true _ Hb).
  repeat case_bool_decide; cbn; (done || by rewrite (proj2 (Z.leb_gt _ _) Hr)).
Qed.

(** C8. A lock does not hold against an elected proposer.  The certificate that
    justifies an unlock is never verified on the way from the network to
    [SafeNode]: whatever a replica is locked on, and whatever it has therefore
    helped to commit, a proposal that would be accepted without a highQC is
    accepted with a made up one, unsigned, that names the proposal's own block
    and any round above the lock's, and the replica votes for it. *)
Theorem forged_high_qc_unlocks c params b l0 lock hl x h qc high hh s d br :
  b_HighQC b = Some l0 → b_qcs b !! l0 = Some lock → Header lock = Some hl →
  b_Phase b = PROPOSE_VOTE → b_BlockHash b = [] →
  m_Header x = Some h → view_Phase h = PROPOSE → Round h = b_Round b → IsPacemakerMessage x = false →
  m_Qc x = Some qc → CheckProposerMessage c x params = Ok false →
  Header high = Some hh → Round hl < Round hh → Certificate.BlockHash high = BlockToHash (qc_Block qc) →
  sig_key s = sig_key (m_Signature x) → checkSignature s (Message_SignBytes (with_high high s x)) = Ok () →
  b_CommitteeData b = Some d → LastRootHeightUpdated d <= m_RcBuildHeight x →
  ValidateProposal c (m_RcBuildHeight x) qc (NewDSE (m_LastDoubleSignEvidence x)) = Ok br →
  ∃ b1 b2 acts, deliver c params (with_high high s x) b = (Ok (), b1) ∧ StartProposeVotePhase c b1 = (Ok (), b2) ∧
    b_sent b2 = b_sent b ++ acts ++ [SendToProposer (sig_key s)
      (vote_message (b_View_ b) (BlockToHash (qc_Block qc)) (results_hash (Certificate.Results qc)) (sig_key s))].
Proof.
  intros Hl0 Hlock Hhl Hph Hbh Hh Hhp Hr Hpm Hqc Hck Hhi Hlt Hblk Hk Hsig Hd Hrc Hval.
  destruct (deliver_proposal c params (with_high high s x) h qc b) as (b1 & Hdel & Hv1 & Hs1 & Hq1 & Hd1 & Hb1 & Hqs1 & Hp1);
    [done..|by apply CheckProposerMessage_high|].
  set (p := MkProposal (with_high high s x) (Some (alloc b))) in *. set (msg := read_proposal b1 p).
  assert (Hg : GetProposal b1 = Ok (Some p)).
  { unfold GetProposal, b_Round, b_Phase. rewrite Hv1. fold (b_Round b) (b_Phase b). rewrite Hph, <- Hr. cbn [phase_num Z.sub].
    change (4 - 1) with (phase_num PROPOSE). by rewrite Hp1. }
  assert (Hmqc : m_Qc msg = Some qc).
  { unfold msg, read_proposal, p. cbn. unfold deref. by rewrite Hqs1, lookup_insert_eq. }
  assert (Hhigh1 : b_high b1 = Some lock).
  { unfold b_high. rewrite Hq1, Hl0. cbn. unfold deref. rewrite Hqs1, lookup_insert_ne, Hlock; [done|].
    intros He. by eapply (alloc_fresh b l0). }
  destruct (ProposeVote_votes c b1 p msg qc br) as (b2 & acts & Hrun & Hsent); [done|done|done| | |done|congruence|].
  - rewrite Hhigh1. assert (Hmh : m_HighQc msg = Some high) by done.
    by apply (SafeNode_unlocks lock qc high hh hl msg).
  - exists d. by rewrite Hd1.
  - exists b1, b2, acts. split_and!; [exact Hdel|exact Hrun|]. rewrite Hsent, Hs1, Hv1. done.
Qed.

(** ** Partial certificates *)

(** What one round of [addDSEByPartialQC] keeps: the view, the proposals and what
    was sent, the headers of the certificates of the store and of the partial
    ones, and the emptiness of a payload. *)
Record kept (l : nat) b b' : Prop := {
  kept_view : b_View_ b' = b_View_ b;
  kept_proposals : b_Proposals b' = b_Proposals b;
  kept_sent : b_sent b' = b_sent b;
  kept_qc : ∀ qc, b_qcs b !! l = Some qc →
    ∃ qc', b_qcs b' !! l = Some qc' ∧ Header qc' = Header qc ∧ (qc_Block qc = [] → qc_Block qc' = []);
  kept_partial : ∀ key pQC, b_PartialQCs b !! key = Some pQC → ∃ pQC', b_PartialQCs b' !! key = Some pQC' ∧ Header pQC' = Header pQC;
}.
Lemma kept_refl l b : kept l b b.
Proof. split; eauto. Qed.
Lemma kept_trans l b1 b2 b3 : kept l b1 b2 → kept l b2 b3 → kept l b1 b3.
Proof.
  intros [V1 P1 S1 Q1 K1] [V2 P2 S2 Q2 K2]. split; [congruence..| |].
  - intros qc Hqc. destruct (Q1 qc Hqc) as (q & Hq & Hh & Hb). destruct (Q2 q Hq) as (q' & Hq' & Hh' & Hb').
    exists q'. split_and!; [done|congruence|auto].
  - intros key pQC Hk. destruct (K1 key pQC Hk) as (q & Hq & Hh). destruct (K2 key q Hq) as (q' & Hq' & Hh'). exists q'. split; congruence.
Qed.
(** [AddDSE] leaves each certificate as it is or without its payload. *)
Lemma AddDSE_writes c view e ev e' ev' err :
  AddDSE c view e ev = (e', ev', err) → ev' = ev ∨ ev' = null_evidence ev.
Proof. unfold AddDSE. repeat case_match; intros [= <- <- <-]; auto. Qed.
Lemma AddDSE_nulls c view e a a2 e' ev' err h :
  AddDSE c view e (MkDoubleSignEvidence (Some a) (Some a2)) = (e', ev', err) → Header a = Some h → Header a2 = Some h →
  VoteA ev' = Some (null_payload a).
Proof.
  intros Ha Hha Hhb. unfold AddDSE in Ha.
  assert (DSE_CheckBasic (MkDoubleSignEvidence (Some a) (Some a2)) = Ok ()) as Hck.
  { unfold DSE_CheckBasic. cbn. rewrite Hha, Hhb. cbn. rewrite !Z.eqb_refl. cbn. by rewrite bool_decide_true. }
  rewrite Hck in Ha. repeat case_match; injection Ha as <- <- <-; done.
Qed.
Lemma kept_write l l2 qc b : (b_qcs b !! l2 = None ∨ qc = deref b l2 ∨ qc = null_payload (deref b l2)) → kept l b (set_b_qcs (alter (λ _, qc) l2 (b_qcs b)) b).
Proof.
  intros Hqc. split; try done; [|by eauto]. intros q Hq. cbn. destruct (decide (l = l2)) as [->|Hne].
  - rewrite lookup_alter_eq, Hq. cbn. eexists. split; [done|]. unfold deref in Hqc. rewrite Hq in Hqc. cbn in Hqc.
    destruct Hqc as [?|[->| ->]]; done.
  - rewrite lookup_alter_ne by done. eauto.
Qed.
Lemma kept_set_partial l b key pQC qc :
  b_PartialQCs b !! key = Some pQC → Header qc = Header pQC → kept l b (set_b_PartialQCs (<[key := qc]> (b_PartialQCs b)) b).
Proof.
  intros Hk Hh. split; try done; [by eauto|]. intros k q Hq. cbn. destruct (decide (key = k)) as [<-|Hne].
  - rewrite lookup_insert_eq. exists qc. split; [done|congruence].
  - rewrite lookup_insert_ne by done. eauto.
Qed.

Lemma write_evidence_kept l b l2 key ev pQC r b' :
  write_evidence l2 key ev b = (r, b') → b_PartialQCs b !! key = Some pQC →
  (∀ l' qc, l2 = Some l' → VoteA ev = Some qc → qc = deref b l' ∨ qc = null_payload (deref b l')) →
  (∀ qc, VoteB ev = Some qc → Header qc = Header pQC) → kept l b b'.
Proof.
  intros Hr Hp Ha Hb. unfold write_evidence, write_qc, mbind, M_bind, modify, mret, M_ret in Hr.
  assert (Hsnd : ∀ b1, kept l b b1 → b_PartialQCs b1 = b_PartialQCs b →
    (match VoteB ev with Some qc => λ s, (Ok (), set_b_PartialQCs (<[key := qc]> (b_PartialQCs s)) s) | None => λ s, (Ok (), s) end) b1
      = (r, b') → kept l b b').
  { intros b1 Hk1 Hpq Hrun. eapply kept_trans; [exact Hk1|]. destruct (VoteB ev) as [qc|]; injection Hrun as _ <-; [|apply kept_refl].
    eapply kept_set_partial; [by rewrite Hpq|by apply Hb]. }
  destruct l2 as [l'|]; [destruct (VoteA ev) as [qc|] eqn:Hva|]; (eapply Hsnd; [| |exact Hr]); try apply kept_refl; try done.
  apply kept_write. destruct (Ha l' qc eq_refl eq_refl) as [->| ->]; auto.
Qed.
Lemma partial_evidence_kept l c key dse b r b' : partial_evidence c key dse b = (r, b') → kept l b b'.
Proof.
  unfold partial_evidence, mbind at 1, M_bind at 1. unfold get, gets, id. cbv beta iota. intros Hr.
  destruct (b_PartialQCs b !! key) as [pQC|] eqn:Hp; [|injection Hr as _ <-; apply kept_refl].
  destruct (Header pQC) as [h|] eqn:Hh; [|injection Hr as _ <-; apply kept_refl].
  destruct (view_Height h =? b_Height b).
  - destruct (b_Proposals b !! Round h) as [rp|]; [|injection Hr as _ <-; apply kept_refl].
    destruct (rp !! _) as [[|p ps]|]; [injection Hr as _ <-; apply kept_refl| |injection Hr as _ <-; apply kept_refl].
    destruct (AddDSE _ _ _ _) as [[dse' ev'] err] eqn:Ha. unfold mbind, M_bind, mret, M_ret in Hr.
    destruct (write_evidence (p_Qc p) key ev' b) as [w b1] eqn:Hw. assert (b' = b1) as -> by (destruct w; congruence).
    eapply (write_evidence_kept l _ _ _ _ _ _ _ Hw Hp); apply AddDSE_writes in Ha as [->| ->]; cbn.
    + intros l' qc Hl Hqc. rewrite Hl in Hqc. cbn in Hqc. injection Hqc as <-. by left.
    + intros l' qc Hl Hqc. rewrite Hl in Hqc. cbn in Hqc. injection Hqc as <-. by right.
    + by intros qc [= <-].
    + by intros qc [= <-].
  - destruct (negb _); [injection Hr as _ <-; apply kept_refl|].
    destruct (LoadCertificate c (view_Height h)) as [cert|]; [|injection Hr as _ <-; apply kept_refl].
    destruct (AddDSE _ _ _ _) as [[dse' ev'] err] eqn:Ha. unfold mbind, M_bind, mret, M_ret in Hr.
    destruct (write_evidence None key ev' b) as [w b1] eqn:Hw. assert (b' = b1) as -> by (destruct w; congruence).
    eapply (write_evidence_kept l _ _ _ _ _ _ _ Hw Hp); [done|]. apply AddDSE_writes in Ha as [->| ->]; by intros qc [= <-].
Qed.
(** A partial certificate for the view of a stored one empties it. *)
Lemma partial_evidence_strips l c key dse b b' dse' pQC qc h p ps :
  partial_evidence c key dse b = (Ok dse', b') →
  b_PartialQCs b !! key = Some pQC → Header pQC = Some h → view_Height h = b_Height b →
  phase_proposals b (Round h) (phase_num (view_Phase h) + 1) = Some (p :: ps) → p_Qc p = Some l →
  b_qcs b !! l = Some qc → Header qc = Some h →
  ∃ qc', b_qcs b' !! l = Some qc' ∧ qc_Block qc' = [].
Proof.
  intros Hr Hp Hh Hht Hpp Hl Hqc Hhq. unfold partial_evidence, mbind at 1, M_bind at 1 in Hr. unfold get, gets, id in Hr.
  cbv beta iota in Hr. rewrite Hp, Hh, (proj2 (Z.eqb_eq _ _) Hht) in Hr. unfold phase_proposals in Hpp.
  destruct (b_Proposals b !! Round h) as [rp|]; [|done]. rewrite Hpp in Hr.
  destruct (AddDSE _ _ _ _) as [[dse2 ev'] err] eqn:Ha. rewrite Hl in Ha, Hr. cbn in Ha. unfold deref in Ha. rewrite Hqc in Ha.
  eapply AddDSE_nulls in Ha; [|exact Hhq|exact Hh]. unfold write_evidence in Hr. rewrite Ha in Hr.
  unfold mbind, M_bind, write_qc, modify, mret, M_ret in Hr. cbv beta iota in Hr.
  exists (null_payload qc). split; [|done].
  assert (Hb : b_qcs b' = alter (λ _, null_payload qc) l (b_qcs b)) by (destruct (VoteB ev'); by injection Hr as _ <-).
  by rewrite Hb, lookup_alter_eq, Hqc.
Qed.

(** The whole loop. *)
Lemma fold_partial_kept l c keys dse b r b' : fold_m (λ dse key, partial_evidence c key dse) dse keys b = (r, b') → kept l b b'.
Proof.
  revert dse b. induction keys as [|k keys IH]; intros dse b Hr; [injection Hr as _ <-; apply kept_refl|].
  rewrite fold_m_cons in Hr. unfold mbind, M_bind in Hr. destruct (partial_evidence c k dse b) as [[d|e] b1] eqn:E.
  - eapply kept_trans; [by eapply partial_evidence_kept|by eapply IH].
  - injection Hr as _ <-. by eapply partial_evidence_kept.
Qed.
Lemma fold_partial_strips l c keys dse b b' dse' key pQC qc h p ps :
  fold_m (λ dse key, partial_evidence c key dse) dse keys b = (Ok dse', b') → key ∈ keys →
  b_PartialQCs b !! key = Some pQC → Header pQC = Some h → view_Height h = b_Height b →
  phase_proposals b (Round h) (phase_num (view_Phase h) + 1) = Some (p :: ps) → p_Qc p = Some l →
  b_qcs b !! l = Some qc → Header qc = Some h →
  ∃ qc', b_qcs b' !! l = Some qc' ∧ qc_Block qc' = [].
Proof.
  revert dse b pQC qc. induction keys as [|k keys IH]; intros dse b pQC qc Hr Hin Hp Hh Hht Hpp Hl Hqc Hhq; [set_solver|].
  rewrite fold_m_cons in Hr. apply bind_Ok in Hr as (d & b1 & E & Hr).
  pose proof (partial_evidence_kept l _ _ _ _ _ _ E) as K. destruct (decide (key = k)) as [<-|Hne].
  - destruct (partial_evidence_strips l _ _ _ _ _ _ _ _ _ _ _ E Hp Hh Hht Hpp Hl Hqc Hhq) as (q & Hq & Hb).
    destruct (kept_qc _ _ _ (fold_partial_kept l _ _ _ _ _ _ Hr) q Hq) as (q' & Hq' & _ & Hb'). eauto.
  - destruct (kept_partial _ _ _ K key pQC Hp) as (pQ' & Hp' & Hh'). destruct (kept_qc _ _ _ K qc Hqc) as (q' & Hq' & Hhq' & _).
    eapply (IH d b1 pQ' q' Hr); [set_solver|done|congruence| | |done|done|congruence].
    + unfold b_Height. by rewrite (kept_view _ _ _ K).
    + unfold phase_proposals. by rewrite (kept_proposals _ _ _ K).
Qed.

(** C10. One partial certificate keeps a node from committing.  Collecting
    evidence before it sends the decided block, the node empties the certificate
    of every stored proposal that has a partial certificate for the same view,
    the one it is about to commit included, and before anything of the partial
    certificate is verified.  A partial certificate needs one signature, of any
    validator, on the very block that is decided: the node then sends itself and
    its peers a certificate without a block. *)
Theorem partial_qc_strips_commit c b b' p l qc h key pQC :
  (∀ keys : list bytes, range c keys ≡ₚ keys) →
  b_Phase b = COMMIT_PROCESS → GetProposal b = Ok (Some p) → p_Qc p = Some l →
  b_qcs b !! l = Some qc → Header qc = Some h →
  view_Height h = b_Height b → Round h = b_Round b → view_Phase h = PRECOMMIT_VOTE →
  sig_key (m_Signature (p_Message p)) = b_ProposerKey b →
  Certificate.BlockHash qc = block_hash b → ResultsHash qc = results_hash (b_Results b) →
  b_PartialQCs b !! key = Some pQC → Header pQC = Some h →
  StartCommitProcessPhase c b = (Ok (), b') →
  ∃ qc', b_sent b' = b_sent b ++ [SelfSendBlock qc' (m_Timestamp (p_Message p)); GossipBlock qc' (m_Timestamp (p_Message p))] ∧
    qc_Block qc' = [].
Proof.
  intros Hperm Hph Hg Hl Hqc Hh Hht Hr Hpv Hkey Hbh Hrh Hpq Hhp Hrun.
  unfold StartCommitProcessPhase in Hrun. apply bind_Ok in Hrun as (? & ? & [= <- <-] & Hrun). cbn [id] in Hrun. rewrite Hg in Hrun.
  assert (Hpp : ∃ ps, phase_proposals b (Round h) (phase_num (view_Phase h) + 1) = Some (p :: ps)).
  { unfold GetProposal in Hg. rewrite Hph, <- Hr in Hg. rewrite Hpv. change (phase_num PRECOMMIT_VOTE + 1) with (phase_num COMMIT_PROCESS - 1).
    destruct (phase_proposals b _ _) as [[|p' ps]|]; [done| |done]. injection Hg as <-. eauto. }
  destruct Hpp as [ps Hpp]. set (b1 := set_b_BlockHash (block_hash b) b).
  assert (Hck : CheckProposerAndProposal (read_proposal b p) b = (Ok false, b1)).
  { unfold CheckProposerAndProposal, mbind, M_bind. change (get b) with (Ok b : result ErrorI BFT, b). cbv beta iota.
    unfold IsProposer. cbn [m_Signature read_proposal]. rewrite Hkey, bool_decide_true by done. cbn [negb]. rewrite GetBlockHash_run. cbv beta iota.
    cbn [m_Qc read_proposal]. rewrite Hl. cbn. unfold deref. rewrite Hqc. cbn.
    rewrite !bool_decide_true by congruence. reflexivity. }
  apply bind_Ok in Hrun as (i & b2 & E & Hrun). rewrite Hck in E. injection E as <- <-. rewrite Hl in Hrun.
  apply bind_Ok in Hrun as (? & ? & [= <- <-] & Hrun). cbn [id] in Hrun.
  apply bind_Ok in Hrun as ([] & b3 & Hw & Hrun). apply bind_Ok in Hrun as (dse & b4 & Hd & Hrun).
  injection Hw as Hw.
  assert (Hqc3 : ∃ q3, b_qcs b3 !! l = Some q3 ∧ Header q3 = Some h).
  { rewrite <- Hw. cbn. rewrite lookup_alter_eq, Hqc. cbn. eexists. split; [done|]. exact Hh. }
  destruct Hqc3 as (q3 & Hq3 & Hh3).
  unfold GetLocalDSE, addDSEByPartialQC in Hd. apply bind_Ok in Hd as (? & ? & [= <- <-] & Hd). cbn [id] in Hd.
  assert (Hk : kept l b3 b4) by (by eapply fold_partial_kept).
  destruct (fold_partial_strips l _ _ _ _ _ _ key pQC q3 h p ps Hd) as (q4 & Hq4 & Hb4); try done.
  { rewrite Hperm. apply elem_of_elements, elem_of_dom. rewrite <- Hw. eexists. exact Hpq. }
  { by rewrite <- Hw. }
  { rewrite <- Hw. exact Hht. }
  { rewrite <- Hw. exact Hpp. }
  unfold mbind, M_bind, modify, get, gets, act, id in Hrun. cbv beta iota in Hrun. injection Hrun as <-. cbn.
  exists q4. unfold deref. cbn. rewrite Hq4. cbn. split; [|done].
  rewrite <- app_assoc. cbn. by rewrite (kept_sent _ _ _ Hk), <- Hw.
Qed.
End locks.

(** ** At concrete inputs *)

Theorem pacemaker_round_unsigned_witness :
  Message_SignBytes (with_round 99 (demo_interrupt x02 5)) = Message_SignBytes (demo_interrupt x02 5) ∧
  ∃ b2, deliver demo_ctl demo_params (with_round 99 (demo_interrupt x02 5)) demo_paced = (Ok (), b2) ∧
    b_PacemakerMessages b2 !! key x02 = Some (with_round 99 (demo_interrupt x02 5)) ∧
    vote_round (with_round 99 (demo_interrupt x02 5)) = 99.
Proof.
  apply (pacemaker_round_unsigned demo_ctl demo_params demo_paced (demo_interrupt x02 5) (demo_view 5 ROUND_INTERRUPT) 99
    (snd (deliver demo_ctl demo_params (demo_interrupt x02 5) demo_paced))); [reflexivity..|].
  apply ran. vm_compute. reflexivity.
Defined.


Theorem forged_high_qc_unlocks_witness :
  ∃ b1 b2 acts, deliver demo_ctl demo_params (with_high demo_forged (demo_sig x02) demo_proposal) demo_locked = (Ok (), b1) ∧
    StartProposeVotePhase demo_ctl b1 = (Ok (), b2) ∧
    b_sent b2 = b_sent demo_locked ++ acts ++ [SendToProposer (key x02)
      (vote_message (demo_view 0 PROPOSE_VOTE) (BlockToHash demo_block) (results_hash (Some demo_results)) (key x02))].
Proof.
  apply (forged_high_qc_unlocks demo_ctl demo_params demo_locked 0 demo_lock (demo_view 0 PRECOMMIT_VOTE) demo_proposal
    (demo_view 0 PROPOSE) demo_proposed demo_forged (demo_view 9 PRECOMMIT_VOTE) (demo_sig x02) demo_committee tt);
    [reflexivity..|vm_compute; reflexivity|reflexivity|done|reflexivity|reflexivity|vm_compute; reflexivity|reflexivity|done|reflexivity].
Defined.

Theorem partial_qc_strips_commit_witness :
  let b' := snd (StartCommitProcessPhase demo_ctl demo_committing) in
  ∃ qc', b_sent b' = b_sent demo_committing ++ [SelfSendBlock qc' 77; GossipBlock qc' 77] ∧ qc_Block qc' = [].
Proof.
  intros b'. apply (partial_qc_strips_commit demo_ctl demo_committing b' (MkProposal demo_commit (Some 0%nat)) 0 demo_decided
    (demo_view 0 PRECOMMIT_VOTE) [x09] demo_partial); [by intros keys|reflexivity..|].
  apply ran. vm_compute. reflexivity.
Defined.
