(* ===== verification/BftVotes.v ===== *)
(** * The votes a leader collects, and evidence of double signing ([bft/vote.go], [evidence.go]) *)
From S2P Require Import Prelude LibUtil State Crypto Tx Account Quorum Byzantine Certificate Bft BftFrames BftDemo BftRun.
#[local] Open Scope Z_scope.

Section collecting.
Context `{Crypto, Multisig, Codec, BftExternals, Node}.
Implicit Types (c : Controller) (b : BFT).
Notation B := (M BFT ErrorI).

(** ** The votes a leader collects *)

(** The documented behaviour of the mask and of the aggregation of BLS
    signatures, and of the decoding of public keys. *)
Class BlsLaws : Prop := {
  mask_new : ∀ n, length (NewMask n) = ((n + 7) / 8)%nat ∧ ∀ i, bit (NewMask n) i = false;
  mask_set : ∀ n m i, length m = ((n + 7) / 8)%nat → (i < n)%nat →
    ∃ m', SetBit n m i = Some m' ∧ length m' = length m ∧ ∀ j, bit m' j = (j =? i)%nat || bit m j;
  mask_load : ∀ n m, length m = ((n + 7) / 8)%nat → SetMask n m = true;
  aggregate_verifies : ∀ keys m sigs msg agg, length sigs = length keys →
    (∀ i k s, keys !! i = Some k → sigs !! i = Some s → bit m i = bool_decide (s ≠ []) ∧ (s ≠ [] → Verify k msg s = true)) →
    AggregateSignatures keys m (filter (λ s, s ≠ []) sigs) = Some agg →
    VerifyBytes keys m msg agg = true ∧ Z.of_nat (length agg) = BLS12381SignatureSize;
  key_bytes : ∀ k pk, NewPublicKeyFromBytes k = Some pk → pk_Bytes pk = k;
}.

Section votes.
Context `{!BlsLaws} (l : list ConsensusValidator) (vs : ValidatorSet) (Hps : proper_set l vs).

(** A vote set holds one verified signature of every validator its mask names,
    and exactly their power. *)
Record collected (sb : bytes) (v : VoteSet) : Prop := {
  col_keys : Publics (multiKey v) = map cv_PublicKey l;
  col_len : length (mk_signatures (multiKey v)) = length l;
  col_mask : length (mk_mask (multiKey v)) = ((length l + 7) / 8)%nat;
  col_sig : ∀ i val s, l !! i = Some val → mk_signatures (multiKey v) !! i = Some s →
    bit (mk_mask (multiKey v)) i = bool_decide (s ≠ []) ∧ (s ≠ [] → Verify (cv_PublicKey val) sb s = true);
  col_power : TotalVotedPower v = power (picked (bit (mk_mask (multiKey v))) 0 l);
  col_vote : Message_SignBytes (Vote v) = sb;
}.

Lemma mask_covers m n : length m = ((n + 7) / 8)%nat → ∀ j, (j < n)%nat → SignerEnabledAt m n j = Ok (bit m j).
Proof.
  intros Hm j Hj. unfold SignerEnabledAt, bit. rewrite (proj2 (Nat.ltb_ge _ _)) by lia.
  destruct (m !! (j / 8)%nat) eqn:E; [done|]. apply lookup_ge_None in E. rewrite Hm in E.
  pose proof (Nat.div_mod (n + 7) 8 ltac:(done)). pose proof (Nat.mod_upper_bound (n + 7) 8 ltac:(done)).
  pose proof (Nat.div_lt_upper_bound j 8 ((n + 7) / 8)). lia.
Qed.
Lemma find_validator_lookup target i (l' : list ConsensusValidator) v j :
  find_validator target i l' = Ok (v, j) → ∃ k, j = (i + k)%nat ∧ l' !! k = Some v ∧ cv_PublicKey v = target.
Proof.
  revert i. induction l' as [|w l' IH]; intros i; cbn; [done|].
  case_decide; [intros [= -> <-]; exists 0%nat; split_and!; [lia|done|done]|].
  intros (k & -> & Hk & Hp)%IH. exists (S k). split_and!; [lia|done|done].
Qed.
Lemma picked_none f i (l' : list ConsensusValidator) : (∀ j, f j = false) → picked f i l' = [].
Proof. intros Hf. revert i. induction l' as [|v l' IH]; intros i; cbn; [done|]. by rewrite Hf. Qed.
Lemma picked_ext f g i (l' : list ConsensusValidator) :
  (∀ j, (i <= j)%nat → f j = g j) → picked f i l' = picked g i l'.
Proof.
  revert i. induction l' as [|v l' IH]; intros i Hf; cbn; [done|]. rewrite (Hf i) by lia.
  rewrite (IH (S i)) by (intros; apply Hf; lia). done.
Qed.
Lemma picked_set f i k (l' : list ConsensusValidator) v :
  l' !! k = Some v → f (i + k)%nat = false →
  power (picked (λ j, (j =? i + k)%nat || f j) i l') = VotingPower v + power (picked f i l').
Proof.
  revert i k. induction l' as [|w l' IH]; intros i k Hk Hf; [done|]. destruct k as [|k]; cbn in Hk.
  - injection Hk as ->. cbn. rewrite Nat.add_0_r in *. rewrite Nat.eqb_refl, Hf. cbn. rewrite power_cons. f_equal. f_equal.
    apply picked_ext. intros j Hj. by rewrite (proj2 (Nat.eqb_neq _ _)) by lia.
  - cbn. rewrite (proj2 (Nat.eqb_neq i (i + S k)%nat)) by lia. cbn. rewrite Nat.add_succ_r in *.
    specialize (IH (S i) k Hk Hf). cbn in IH. destruct (f i); rewrite ?power_cons; lia.
Qed.

Lemma collected_new vote sb : Message_SignBytes vote = sb → collected sb (MkVoteSet vote 0 (Copy (map cv_PublicKey l))).
Proof.
  intros Hsb. destruct (mask_new (length l)) as [Hlen Hbit]. unfold Copy. rewrite length_map.
  split; cbn [multiKey mk_signatures mk_mask Publics TotalVotedPower Vote]; try done.
  - by rewrite length_replicate.
  - intros i val s _ Hs. apply lookup_replicate in Hs as [-> _]. by rewrite Hbit, bool_decide_false by (intros Hc; by apply Hc).
  - by rewrite picked_none.
Qed.
Lemma collected_add vote sb v :
  collected sb v → Verify (sig_key (m_Signature vote)) sb (sig_bytes (m_Signature vote)) = true →
  sig_bytes (m_Signature vote) ≠ [] → collected sb (fst (addSigToVoteSet vs vote v)).
Proof.
  intros Hc Hv Hne. pose proof (proper_set_spec _ _ Hps) as [Hvs _]. pose proof (ps_ok _ _ Hps) as Hok. pose proof (ps_range _ _ Hps) as Hrg.
  pose proof (power_nonneg _ Hok) as Hpn. unfold addSigToVoteSet, GetValidatorAndIdx. rewrite Hvs. cbn [vs_Validators].
  destruct (find_validator _ 0 l) as [[val idx]|e] eqn:Hf; [|done]. apply find_validator_lookup in Hf as (k & -> & Hk & Hkey).
  cbn [Nat.add]. destruct Hc as [C1 C2 C3 C4 C5 C6]. pose proof (lookup_lt_Some _ _ _ Hk) as Hlt.
  rewrite C1, length_map, (mask_covers _ _ C3 k Hlt).
  destruct (bit (mk_mask (multiKey v)) k) eqn:Hbit; [by split|].
  unfold AddSigner. rewrite (proj2 (Nat.leb_gt _ _)) by lia. cbn [Publics mk_signatures mk_mask]. rewrite C1, length_map.
  destruct (mask_set (length l) _ k C3 Hlt) as (m' & -> & Hlen & Hm'). cbn [fst].
  split; cbn [multiKey mk_signatures mk_mask Publics TotalVotedPower Vote]; [done|by rewrite length_insert|congruence| | |done].
  - intros i val' s Hi Hs. rewrite Hm'. destruct (Nat.eqb_spec i k) as [->|Hik].
    + rewrite list_lookup_insert_eq in Hs by lia. injection Hs as <-. cbn. rewrite Hi in Hk. injection Hk as ->.
      rewrite bool_decide_true by done. split; [done|]. intros _. by rewrite Hkey.
    + rewrite list_lookup_insert_ne in Hs by done. by eapply C4.
  - rewrite C5, (picked_ext (bit m') (λ j, (j =? 0 + k)%nat || bit (mk_mask (multiKey v)) j)) by (intros; apply Hm').
    rewrite (picked_set _ 0 k l val) by done. rewrite u64_add_small; [lia|].
    pose proof (power_nonneg _ (picked_ok (bit (mk_mask (multiKey v))) 0 l Hok)).
    pose proof (picked_split (λ j, (j =? 0 + k)%nat || bit (mk_mask (multiKey v)) j) 0 l) as Hsp.
    rewrite (picked_set _ 0 k l val) in Hsp by done.
    pose proof (power_nonneg _ (picked_ok (λ j, negb ((j =? 0 + k)%nat || bit (mk_mask (multiKey v)) j)) 0 l Hok)).
    unfold powers_ok in Hok. rewrite Forall_forall in Hok. pose proof (Hok val ltac:(by eapply list_elem_of_lookup_2)). u64.
Qed.
(** What a vote set with a majority aggregates to is a full certificate. *)
Lemma collected_certifies sb v agg :
  collected sb v → MinimumMaj23 vs <= TotalVotedPower v → aggregate (multiKey v) = Some agg →
  AggregateSignature_Check (Some (MkAggregateSignature agg (mk_mask (multiKey v)))) sb vs = Ok false.
Proof.
  intros [C1 C2 C3 C4 C5 C6] Hmaj Hagg. pose proof (proper_set_spec _ _ Hps) as [Hvs Hpos].
  pose proof (ps_ok _ _ Hps) as Hok. pose proof (ps_range _ _ Hps) as Hrg. unfold aggregate in Hagg. rewrite C1 in Hagg.
  destruct (aggregate_verifies (map cv_PublicKey l) (mk_mask (multiKey v)) (mk_signatures (multiKey v)) sb agg) as [Hver Hlen];
    [by rewrite length_map| |done|].
  { intros i k s Hk Hs. apply list_lookup_fmap_Some in Hk as (val & -> & Hval). by eapply C4. }
  assert (Hne : mk_mask (multiKey v) ≠ []).
  { intros He. rewrite He in C3. change (length []) with 0%nat in C3.
    assert (0 < length l)%nat by (clear -Hpos; destruct l; [by cbn in Hpos|cbn; lia]).
    pose proof (Nat.div_str_pos (length l + 7) 8). lia. }
  unfold AggregateSignature_Check, AggregateSignature_CheckBasic. cbn [as_Signature Bitmap].
  rewrite Hlen, Z.eqb_refl, bool_decide_false by done. cbn. unfold GetSigners, getSigners, key_with_bitmap. rewrite Hvs. cbn.
  rewrite length_map, (mask_load _ _ C3). cbn. rewrite Hver. cbn. rewrite length_map.
  rewrite collect_signers_spec; [|done|done|lia|intros j Hj; apply mask_covers; [done|lia]]. cbn. f_equal. apply Z.ltb_ge.
  rewrite Hvs, C5 in Hmaj. cbn in Hmaj. etrans; [exact Hmaj|]. apply Z.eq_le_incl. rewrite Z.add_0_l. f_equal. apply picked_ext.
  intros. by rewrite xorb_false_r.
Qed.

(** *** Vote sets of the node *)

(** Messages delivered one after the other, each with the controller's answers
    at its time and parameters read at some earlier time. *)
Definition deliver_all b (ms : list (Controller * validateMessageParams * Message)) : BFT :=
  foldl (λ b '(c, params, m), snd (deliver c params m b)) b ms.

Lemma frames_votes_handle c vote : frames b_Votes (handleHighQCVDFAndEvidence c vote).
Proof. unfold handleHighQCVDFAndEvidence, handle_high_qc, set_high_qc, committee. quiet. Qed.
Lemma frames_votes_proposal m : frames b_Votes (AddProposal m).
Proof. unfold AddProposal, store_proposal. quiet. Qed.
Lemma deliver_validators c params m b r b' : deliver c params m b = (r, b') → b_ValidatorSet b' = b_ValidatorSet b.
Proof. intros Hr. by injection (quiet_deliver c params m _ _ _ Hr) as _ _ ->. Qed.

Definition votes_collected (sbs : list bytes) b : Prop :=
  b_ValidatorSet b = vs ∧ ∀ round phase payload v, vote_sets b round phase !! payload = Some v →
    ∃ sb, sb ∈ sbs ∧ HashString sb = payload ∧ collected sb v.

Lemma lookup_put r p k v b r' p' k' :
  vote_sets (put_vote_set r p k v b) r' p' !! k' = if decide (r = r' ∧ p = p' ∧ k = k') then Some v else vote_sets b r' p' !! k'.
Proof.
  unfold vote_sets at 1, put_vote_set. cbn. destruct (decide (r = r')) as [<-|Hr].
  - rewrite lookup_insert_eq. cbn. destruct (decide (p = p')) as [<-|Hp].
    + rewrite lookup_insert_eq. cbn. destruct (decide (k = k')) as [<-|Hk].
      * rewrite lookup_insert_eq. by rewrite decide_True.
      * rewrite lookup_insert_ne by done. rewrite decide_False; [done|naive_solver].
    + rewrite lookup_insert_ne by done. rewrite decide_False; [done|naive_solver].
  - rewrite lookup_insert_ne by done. rewrite decide_False; [done|naive_solver].
Qed.
Lemma AddVote_collected c vote b r b' sbs :
  AddVote c vote b = (r, b') → votes_collected sbs b →
  Verify (sig_key (m_Signature vote)) (Message_SignBytes vote) (sig_bytes (m_Signature vote)) = true →
  sig_bytes (m_Signature vote) ≠ [] → Message_SignBytes vote ∈ sbs →
  (∀ s1 s2, s1 ∈ sbs → s2 ∈ sbs → HashString s1 = HashString s2 → s1 = s2) → votes_collected sbs b'.
Proof.
  intros Hrun Hb Hv Hne Hin Hinj. unfold AddVote, vote_at in Hrun.
  set (round := match qc_header vote with Some h => Round h | None => 0 end) in *.
  set (phase := phase_num (phase_of (qc_header vote))) in *. set (payload := HashString (Message_SignBytes vote)) in *.
  assert (Hget : ∃ r1 b1, getVoteSet vote b = (r1, b1) ∧ votes_collected sbs b1).
  { unfold getVoteSet, vote_at. fold round phase payload. unfold mbind, M_bind, get, gets, id. cbv beta iota.
    destruct (vote_sets b round phase !! payload) as [v|]; [by eexists _, _|].
    destruct Hb as [Hvs Hb]. pose proof (proper_set_spec _ _ Hps) as [Hvs2 _]. 
    assert (MultiKey (b_ValidatorSet b) = Some (map cv_PublicKey l)) as -> by (by rewrite Hvs, Hvs2).
    eexists _, _. split; [reflexivity|]. split; [exact Hvs|]. intros r' p' k' v' Hl. rewrite lookup_put in Hl.
    case_decide as Hd; [|by eapply Hb]. injection Hl as <-. destruct Hd as (_ & _ & <-).
    exists (Message_SignBytes vote). split_and!; [done|done|by apply collected_new]. }
  destruct Hget as (r1 & b1 & Hget & Hb1). unfold mbind at 1, M_bind at 1 in Hrun. rewrite Hget in Hrun.
  destruct r1 as [u|e]; [|by injection Hrun as _ <-]. unfold mbind at 1, M_bind at 1 in Hrun.
  destruct (handleHighQCVDFAndEvidence c vote b1) as [r2 b2] eqn:E2.
  assert (Hb2 : votes_collected sbs b2).
  { destruct Hb1 as [Hv1 Hs1]. split.
    - assert (Hq : quiet (handleHighQCVDFAndEvidence c vote)) by (unfold handleHighQCVDFAndEvidence, handle_high_qc, set_high_qc; quiet).
      injection (Hq _ _ _ E2) as _ _ ->. done.
    - pose proof (frames_votes_handle c vote _ _ _ E2) as Hf. unfold vote_sets in *. by rewrite Hf. }
  destruct r2 as [u2|e]; [|by injection Hrun as _ <-]. unfold mbind at 1, M_bind at 1, get, gets, id in Hrun. cbv beta iota in Hrun.
  destruct (vote_sets b2 round phase !! payload) as [v|] eqn:Hvl; [|by injection Hrun as _ <-].
  destruct (addSigToVoteSet (b_ValidatorSet b2) vote v) as [v' r'] eqn:Ha.
  assert (Hb' : b' = put_vote_set round phase payload v' b2).
  { unfold mbind, M_bind, modify in Hrun. by destruct r'; injection Hrun as _ <-. }
  destruct Hb2 as [Hv2 Hs2]. rewrite Hb'. split; [exact Hv2|]. intros rr pp kk vv Hl. rewrite lookup_put in Hl.
  case_decide as Hd; [|by eapply Hs2]. injection Hl as <-. destruct Hd as (_ & _ & <-).
  destruct (Hs2 _ _ _ _ Hvl) as (sb & Hsb & Hh & Hc). assert (sb = Message_SignBytes vote) as -> by (by apply Hinj).
  exists (Message_SignBytes vote). split_and!; [done|done|]. rewrite Hv2 in Ha.
  pose proof (collected_add vote _ v Hc Hv Hne) as Hadd. by rewrite Ha in Hadd.
Qed.
Lemma CheckReplica_verified x params :
  CheckReplicaMessage x params = Ok () →
  Verify (sig_key (m_Signature x)) (Message_SignBytes x) (sig_bytes (m_Signature x)) = true ∧ sig_bytes (m_Signature x) ≠ [].
Proof.
  unfold CheckReplicaMessage. destruct (m_Qc x) as [qc|]; [|done]. intros Hr. apply result_bind_Ok in Hr as ([] & Hs & _).
  unfold checkSignature in Hs. apply result_bind_Ok in Hs as ([] & Hb & Hs).
  unfold checkSignatureBasic in Hb. apply result_bind_Ok in Hb as (u & Hb & _). apply check_not_Ok in Hb. zify_bools.
  destruct (NewPublicKeyFromBytes _) as [pk|] eqn:Hpk; [|done]. apply key_bytes in Hpk. rewrite Hpk in Hs.
  apply check_not_Ok in Hs. zify_bools. done.
Qed.
Lemma deliver_collected c params m b r b' sbs :
  deliver c params m b = (r, b') → votes_collected sbs b → Message_SignBytes m ∈ sbs →
  (∀ s1 s2, s1 ∈ sbs → s2 ∈ sbs → HashString s1 = HashString s2 → s1 = s2) → votes_collected sbs b'.
Proof.
  intros Hr Hb Hin Hinj. pose proof (deliver_validators _ _ _ _ _ _ Hr) as Hvs.
  assert (Hsame : b_Votes b' = b_Votes b → votes_collected sbs b').
  { intros He. destruct Hb as [H1' H2']. split; [congruence|]. unfold vote_sets in *. by rewrite He. }
  unfold deliver in Hr. destruct (IsReplicaMessage m || IsPacemakerMessage m).
  - destruct (CheckReplicaMessage m params) as [[]|e] eqn:Hck; [|injection Hr as _ <-; by apply Hsame].
    destruct (IsPacemakerMessage m); [injection Hr as _ <-; by apply Hsame|].
    apply CheckReplica_verified in Hck as [Hv Hne]. by eapply AddVote_collected.
  - destruct (IsProposerMessage m); [|injection Hr as _ <-; by apply Hsame].
    destruct (CheckProposerMessage c m params) as [[|]|e].
    + destruct (m_Qc m); injection Hr as _ <-; by apply Hsame.
    + apply Hsame. exact (frames_votes_proposal m _ _ _ Hr).
    + injection Hr as _ <-. by apply Hsame.
Qed.
Lemma deliver_all_collected ms b sbs :
  votes_collected sbs b → (∀ m, m ∈ ms → Message_SignBytes (snd m) ∈ sbs) →
  (∀ s1 s2, s1 ∈ sbs → s2 ∈ sbs → HashString s1 = HashString s2 → s1 = s2) → votes_collected sbs (deliver_all b ms).
Proof.
  intros Hb Hms Hinj. unfold deliver_all. revert b Hb. induction ms as [|[[c params] m] ms IH]; intros b Hb; cbn; [done|].
  apply IH; [set_solver|]. destruct (deliver c params m b) as [r b'] eqn:E. eapply deliver_collected; [exact E|done| |done].
  apply (Hms (c, params, m)). set_solver.
Qed.
End votes.

(** C7. What a leader collects, every replica accepts.  From a state without
    votes, as a reset leaves it, whatever messages are delivered, valid or not,
    repeated or not: if some vote set reaches the majority and its signatures
    aggregate, the certificate of [GetMajorityVote] is a valid signature of more
    than two thirds of the power on the sign bytes of the vote.  No validator is
    counted twice or without a verified signature. *)
Theorem majority_vote_certifies `{!BlsLaws} l c b ms vote as_ :
  proper_set l (b_ValidatorSet b) → b_Votes b = ∅ → (∀ sets : list VoteSet, range c sets ≡ₚ sets) →
  (∀ m1 m2, m1 ∈ ms → m2 ∈ ms → HashString (Message_SignBytes (snd m1)) = HashString (Message_SignBytes (snd m2)) →
    Message_SignBytes (snd m1) = Message_SignBytes (snd m2)) →
  GetMajorityVote c (deliver_all b ms) = Ok (vote, as_) →
  AggregateSignature_Check (Some as_) (Message_SignBytes vote) (b_ValidatorSet b) = Ok false ∧
  power (picked (bit (Bitmap as_)) 0 l) * 3 > 2 * TotalPower (b_ValidatorSet b).
Proof.
  intros Hps He Hperm Hinj Hm. set (vs := b_ValidatorSet b) in *.
  assert (Hc : votes_collected l vs (map (λ m, Message_SignBytes (snd m)) ms) (deliver_all b ms)).
  { apply deliver_all_collected; [done| | |].
    - split; [done|]. intros r p k v Hl. unfold vote_sets in Hl. rewrite He, lookup_empty in Hl. cbn in Hl. by rewrite !lookup_empty in Hl.
    - intros m Hm'. apply list_elem_of_fmap. eauto.
    - intros s1 s2 Hs1 Hs2. apply list_elem_of_fmap in Hs1 as (m1 & -> & Hm1), Hs2 as (m2 & -> & Hm2). by apply Hinj. }
  destruct Hc as [Hvs Hc]. unfold GetMajorityVote in Hm. rewrite Hvs in Hm.
  destruct (find _ _) as [v|] eqn:Hf; [|done]. apply find_some in Hf as [Hin Hmaj]. apply Z.leb_le in Hmaj.
  apply list_elem_of_In in Hin. unfold current_sets in Hin. rewrite Hperm in Hin. apply list_elem_of_fmap in Hin as ([k v'] & -> & Hin).
  apply elem_of_map_to_list in Hin. cbn in *. destruct (Hc _ _ _ _ Hin) as (sb & _ & _ & Hcol).
  destruct (aggregate (multiKey v')) as [agg|] eqn:Hagg; [|done]. injection Hm as <- <-.
  pose proof (collected_certifies l vs Hps sb v' agg Hcol Hmaj Hagg) as Hck. rewrite (col_vote _ _ _ Hcol). split; [exact Hck|].
  rewrite (col_power _ _ _ Hcol) in Hmaj. pose proof (proper_set_spec _ _ Hps) as [Hvs2 _]. rewrite Hvs2 in Hmaj |- *. cbn in *.
  pose proof (Z.div_mod (2 * power l) 3 ltac:(done)). pose proof (Z.mod_pos_bound (2 * power l) 3 ltac:(done)). lia.
Qed.

(** ** Evidence *)

(** The certificates the node has voted for. *)
Definition vote_qcs b : list QuorumCertificate :=
  omap (λ a, match a with SendToProposer _ m => m_Qc m | _ => None end) (b_sent b).
Lemma voted_qcs b : voted b = omap Header (vote_qcs b).
Proof.
  unfold voted, vote_qcs. induction (b_sent b) as [|a l IH]; [done|]. cbn. unfold action_view, qc_header at 1.
  destruct a; cbn; try exact IH. destruct (m_Qc m) as [qc|]; cbn; [|exact IH]. destruct (Header qc); cbn; by rewrite <- IH.
Qed.
(** Votes in increasing views: one per view. *)
Lemma votes_per_view (qcs : list QuorumCertificate) a a2 v :
  StronglySorted before (omap Header qcs) → a ∈ qcs → a2 ∈ qcs → Header a = Some v → Header a2 = Some v → a = a2.
Proof.
  induction qcs as [|q qcs IH]; intros Hs Ha Ha2 Hv Hv2; [set_solver|]. cbn in Hs.
  assert (Hlater : ∀ x w, Header q = Some w → x ∈ qcs → Header x = Some w → False).
  { intros x w Hq Hx Hw. rewrite Hq in Hs. apply StronglySorted_inv in Hs as [_ Hf]. rewrite Forall_forall in Hf.
    apply (views_irrefl w), Hf, list_elem_of_omap. eauto. }
  apply elem_of_cons in Ha as [->|Ha], Ha2 as [->|Ha2]; [done|exfalso; eauto|exfalso; eauto|].
  apply IH; try done. destruct (Header q); [|done]. by apply StronglySorted_inv in Hs as [? _].
Qed.

Lemma add_signer_ids pubKey height results k :
  k ∈ map ds_Id (add_signer pubKey height results) → k = pubKey ∨ k ∈ map ds_Id results.
Proof.
  induction results as [|d l IH]; cbn; [set_solver|]. case_bool_decide; cbn.
  - unfold AddHeight. case_bool_decide; cbn; set_solver.
  - set_solver.
Qed.
Lemma collect_signers_at_ids c r h keys results out k :
  collect_signers_at c r h keys results = Ok out → k ∈ map ds_Id out → k ∈ keys ∨ k ∈ map ds_Id results.
Proof.
  revert results. induction keys as [|pk keys IH]; intros results; cbn; [intros [= ->]; auto|].
  destruct (NewPublicKeyFromBytes pk); [|done]. intros Hr Hk. apply (IH _ Hr) in Hk as [Hk|Hk]; [set_solver|].
  case_match; [|by right]. apply add_signer_ids in Hk as [->|Hk]; set_solver.
Qed.

(** Whoever is reported by a piece of evidence signed two different sign bytes
    of one view. *)
Lemma process_one_ids c view x results out k :
  (∀ r h vs, LoadCommittee c r h = (vs, None) → ∃ l, proper_set l vs) →
  process_one c view x results = Ok out → k ∈ map ds_Id out →
  k ∈ map ds_Id results ∨ ∃ a a2 h keys i sa s2 ma m2,
    Header a = Some h ∧ Header a2 = Some h ∧ SignBytes a2 ≠ SignBytes a ∧ keys !! i = Some k ∧
    bit ma i = true ∧ VerifyBytes keys ma (SignBytes a) sa = true ∧
    bit m2 i = true ∧ VerifyBytes keys m2 (SignBytes a2) s2 = true.
Proof.
  intros Hvals Hr Hk. unfold process_one in Hr. apply result_bind_Ok in Hr as ([] & Hcb & Hr).
  destruct (VoteA x) as [a|] eqn:Hva; [|done]. destruct (VoteB x) as [a2|] eqn:Hvb; [|done].
  destruct (LoadCommittee c _ _) as [vs [e|]] eqn:Hload; [done|]. apply Hvals in Hload as [l Hps].
  apply result_bind_Ok in Hr as (mh & _ & Hr). apply result_bind_Ok in Hr as ([] & Hck & Hr).
  apply result_bind_Ok in Hr as ([] & Hne & Hr). apply check_not_Ok in Hne. zify_bools.
  destruct (Signature a) as [sig1|] eqn:Hs1; [|done]. destruct (Signature a2) as [sig2|] eqn:Hs2; [|done].
  apply result_bind_Ok in Hr as (ds & Hds & Hr). apply (collect_signers_at_ids _ _ _ _ _ _ _ Hr) in Hk as [Hk|Hk]; [right|by left].
  unfold DSE_CheckBasic in Hcb. rewrite Hva, Hvb in Hcb. apply result_bind_Ok in Hcb as ([] & Hnil & Heq). apply check_not_Ok in Hnil, Heq.
  unfold DSE_Check in Hck. do 3 (apply result_bind_Ok in Hck as (? & _ & Hck)).
  apply result_bind_Ok in Hck as (p1 & Hq1 & Hck). apply result_bind_Ok in Hck as (p2 & Hq2 & _).
  assert (Hagg : ∀ q p sig, QuorumCertificate_Check q vs 0 view false = Ok p → Signature q = Some sig →
    AggregateSignature_Check (Some sig) (SignBytes q) vs = Ok p).
  { intros q p sig Hq Hsig. unfold QuorumCertificate_Check in Hq. do 2 (apply result_bind_Ok in Hq as (? & _ & Hq)).
    destruct (BlockTransactions _); [|done]. apply result_bind_Ok in Hq as (? & _ & Hq). by rewrite Hsig in Hq. }
  pose proof (Hagg _ _ _ Hq1 Hs1) as Ha1. pose proof (Hagg _ _ _ Hq2 Hs2) as Ha2.
  rewrite (GetDoubleSigners_run l vs sig1 sig2 _ _ _ _ Hps Ha1 Ha2) in Hds. injection Hds as <-.
  apply (AggregateSignature_Check_spec l) in Ha1 as (_ & _ & V1 & _); [|done].
  apply (AggregateSignature_Check_spec l) in Ha2 as (_ & _ & V2 & _); [|done].
  assert (Hpick : ∃ i, map cv_PublicKey l !! i = Some k ∧ bit (Bitmap sig1) i && bit (Bitmap sig2) i = true).
  { apply list_elem_of_fmap in Hk as (v & -> & Hin). clear -Hin.
    assert (Hgen : ∀ i l', v ∈ picked (λ j, bit (Bitmap sig1) j && bit (Bitmap sig2) j) i l' →
      ∃ n, l' !! n = Some v ∧ bit (Bitmap sig1) (i + n) && bit (Bitmap sig2) (i + n) = true).
    { intros i l'. revert i. induction l' as [|w l' IH]; intros i Hp; cbn in Hp; [set_solver|].
      destruct (_ && _) eqn:Hb.
      - apply elem_of_cons in Hp as [->|Hp]; [exists 0%nat; by rewrite Nat.add_0_r|].
        destruct (IH (S i) Hp) as (n & ? & ?). exists (S n). by rewrite Nat.add_succ_r.
      - destruct (IH (S i) Hp) as (n & ? & ?). exists (S n). by rewrite Nat.add_succ_r. }
    destruct (Hgen 0%nat l Hin) as (n & Hn & Hb). exists n. split; [|exact Hb]. change (map cv_PublicKey l) with (cv_PublicKey <$> l).
    by rewrite list_lookup_fmap, Hn. }
  destruct Hpick as (i & Hi & Hb). apply andb_true_iff in Hb as [Hb1 Hb2].
  destruct (Header a) as [h1|] eqn:Hh1; [|done]. destruct (Header a2) as [h2|] eqn:Hh2; [|done].
  apply negb_false_iff in Heq. assert (h1 = h2) as ->.
  { revert Heq. unfold View_Equals. repeat case_match; zify_bools; try done. intros. zify_bools. destruct h1, h2; cbn in *; congruence. }
  exists a, a2, h2, (map cv_PublicKey l), i, (as_Signature sig1), (as_Signature sig2), (Bitmap sig1), (Bitmap sig2).
  split_and!; congruence.
Qed.
Lemma process_all_ids c view dse results out k :
  (∀ r h vs, LoadCommittee c r h = (vs, None) → ∃ l, proper_set l vs) →
  process_all c view dse results = Ok out → k ∈ map ds_Id out →
  k ∈ map ds_Id results ∨ ∃ a a2 h keys i sa s2 ma m2,
    Header a = Some h ∧ Header a2 = Some h ∧ SignBytes a2 ≠ SignBytes a ∧ keys !! i = Some k ∧
    bit ma i = true ∧ VerifyBytes keys ma (SignBytes a) sa = true ∧
    bit m2 i = true ∧ VerifyBytes keys m2 (SignBytes a2) s2 = true.
Proof.
  intros Hvals. revert results. induction dse as [|x dse IH]; intros results Hr Hk; cbn in Hr; [injection Hr as ->; by left|].
  apply result_bind_Ok in Hr as (mid & Hone & Hr). destruct (IH mid Hr Hk) as [Hm|?]; [|by right].
  eapply process_one_ids; eauto.
Qed.

End collecting.

(** ** At concrete inputs *)

Lemma testbit_1_ne n : n ≠ 0 → Z.testbit 1 n = false.
Proof. intros Hn. destruct n as [|p|p]; [done|by destruct p|done]. Qed.
Lemma byte_lor x y : 0 <= x < 256 → 0 <= y < 256 → Z.lor x y < 256.
Proof.
  intros Hx Hy. assert (Hb : Z.lor x y = Z.lor x y mod 2 ^ 8).
  { apply Z.bits_inj'. intros n Hn. destruct (Z.ltb_spec n 8).
    - by rewrite Z.mod_pow2_bits_low.
    - rewrite Z.mod_pow2_bits_high, Z.lor_spec by lia.
      rewrite <- (Z.mod_small x (2 ^ 8)), <- (Z.mod_small y (2 ^ 8)) by done. by rewrite !Z.mod_pow2_bits_high by lia. }
  rewrite Hb. by apply Z.mod_pos_bound.
Qed.
Lemma demo_mask_bit m i j b :
  m !! (i / 8)%nat = Some b →
  bit (alter (λ b, byte_of_Z (Z.lor (byte_to_Z b) (Z.shiftl 1 (Z.of_nat (i mod 8))))) (i / 8)%nat m) j
  = (j =? i)%nat || bit m j.
Proof.
  intros Hb. assert (Hlt : ∀ k, (k mod 8 < 8)%nat) by (intros k; by apply Nat.mod_upper_bound).
  pose proof (Hlt i) as Hi. pose proof (Hlt j) as Hj. pose proof (byte_to_Z_range b) as Hr. unfold bit.
  destruct (decide (j / 8 = i / 8)%nat) as [Hd|Hd].
  - rewrite Hd, list_lookup_alter_eq, Hb. cbn [fmap option_fmap option_map]. rewrite byte_to_of_Z.
    + rewrite Z.lor_spec, Z.shiftl_spec by lia. rewrite orb_comm. f_equal.
      destruct (Nat.eqb_spec j i) as [->|Hne]; [by rewrite Z.sub_diag|].
      apply testbit_1_ne. intros Hz. apply Hne. assert (Hm : (j mod 8 = i mod 8)%nat) by lia.
      rewrite (Nat.div_mod i 8), (Nat.div_mod j 8) by done. by rewrite Hm, Hd.
    + split; [apply Z.lor_nonneg; split; [lia|apply Z.shiftl_nonneg; lia]|].
      apply byte_lor; [lia|]. rewrite Z.shiftl_1_l. split; [lia|]. change 256 with (2 ^ 8). apply Z.pow_lt_mono_r; lia.
  - rewrite list_lookup_alter_ne by done. destruct (Nat.eqb_spec j i) as [->|]; [done|]. done.
Qed.
#[local] Instance demo_bls : BlsLaws.
Proof.
  split.
  - intros n. split; [apply length_replicate|]. intros i. unfold bit. cbn.
    destruct (_ !! _) as [b|] eqn:Hb; [|done]. apply lookup_replicate in Hb as [-> _]. apply Z.testbit_0_l.
  - intros n m i Hm Hi. unfold SetBit, demo_externals. rewrite (proj2 (Nat.ltb_lt _ _)) by done. eexists. split; [done|]. split; [apply length_alter|].
    intros j. destruct (lookup_lt_is_Some_2 m (i / 8)) as [b Hb]; [|by eapply demo_mask_bit].
    rewrite Hm. apply Nat.div_lt_upper_bound; [done|]. pose proof (Nat.div_mod (n + 7) 8 ltac:(done)).
    pose proof (Nat.mod_upper_bound (n + 7) 8 ltac:(done)). lia.
  - intros n m Hm. cbn. by apply bool_decide_true.
  - intros keys m sigs msg agg Hlen Hall Ha. cbn in Ha. injection Ha as <-. cbn. split; [|done].
    apply forallb_forall. intros [i k] Hin%list_elem_of_In%elem_of_lookup_imap. destruct Hin as (i' & k' & [= <- <-] & Hk).
    apply negb_true_iff, andb_false_iff. destruct (lookup_lt_is_Some_2 sigs i) as [s Hs]; [rewrite Hlen; by eapply lookup_lt_Some|].
    destruct (Hall i k s Hk Hs) as [Hb Hv]. destruct (bit m i); [right|by left]. symmetry in Hb. apply bool_decide_eq_true in Hb.
    apply bool_decide_eq_false. intros ->. specialize (Hv Hb). cbn in Hv. by apply bool_decide_eq_true in Hv.
  - intros [|x k] pk; cbn; [done|]. by intros [= <-].
Qed.

Theorem majority_vote_certifies_witness :
  ∃ vote as_, GetMajorityVote demo_ctl (deliver_all (demo_at 0 PROPOSE) demo_votes) = Ok (vote, as_) ∧
  AggregateSignature_Check (Some as_) (Message_SignBytes vote) demo_set = Ok false ∧
  power (picked (bit (Bitmap as_)) 0 demo_vals) * 3 > 2 * TotalPower demo_set.
Proof.
  eexists _, _. split; [vm_compute; reflexivity|].
  apply (majority_vote_certifies demo_vals demo_ctl (demo_at 0 PROPOSE) demo_votes).
  - by apply demo_proper.
  - reflexivity.
  - by intros sets.
  - intros m1 m2 Hm1 Hm2 _. unfold demo_votes in *. apply list_elem_of_fmap in Hm1 as (x & -> & _), Hm2 as (y & -> & _). reflexivity.
  - vm_compute. reflexivity.
Defined.

