(* ===== verification/NetUrl.v ===== *)
(** * Peer addresses ([ValidNetURLInput] of [lib/util.go])

    The check is a regular expression of Go's standard library.  The expression
    is data here, matched with derivatives; the matcher is proved equivalent to
    the language the expression denotes. *)
From Stdlib Require Import String Ascii.
From S2P Require Import Prelude.
#[local] Open Scope Z_scope.

(** ** Regular expressions *)

Inductive re : Type :=
| Nothing
| Eps
| Class (p : ascii → bool)
| Cat (r1 r2 : re)
| Alt (r1 r2 : re)
| Star (r : re).

(** The strings an expression denotes. *)
Inductive lang : re → list ascii → Prop :=
| lang_eps : lang Eps []
| lang_class p c : p c = true → lang (Class p) [c]
| lang_cat r1 r2 s1 s2 : lang r1 s1 → lang r2 s2 → lang (Cat r1 r2) (s1 ++ s2)
| lang_alt_l r1 r2 s : lang r1 s → lang (Alt r1 r2) s
| lang_alt_r r1 r2 s : lang r2 s → lang (Alt r1 r2) s
| lang_star_nil r : lang (Star r) []
| lang_star_cons r s1 s2 : lang r s1 → lang (Star r) s2 → lang (Star r) (s1 ++ s2).

Fixpoint nullable (r : re) : bool :=
  match r with
  | Nothing | Class _ => false
  | Eps | Star _ => true
  | Cat r1 r2 => nullable r1 && nullable r2
  | Alt r1 r2 => nullable r1 || nullable r2
  end.
(** What may follow [c]. *)
Fixpoint deriv (c : ascii) (r : re) : re :=
  match r with
  | Nothing | Eps => Nothing
  | Class p => if p c then Eps else Nothing
  | Cat r1 r2 =>
      if nullable r1 then Alt (Cat (deriv c r1) r2) (deriv c r2) else Cat (deriv c r1) r2
  | Alt r1 r2 => Alt (deriv c r1) (deriv c r2)
  | Star r => Cat (deriv c r) (Star r)
  end.
(** [^r$] *)
Fixpoint re_match (r : re) (s : list ascii) : bool :=
  match s with [] => nullable r | c :: s' => re_match (deriv c r) s' end.

(** ** The expression of the source *)

Definition range (lo hi c : ascii) : bool :=
  (nat_of_ascii lo <=? nat_of_ascii c)%nat && (nat_of_ascii c <=? nat_of_ascii hi)%nat.
Definition lit (c : ascii) : re := Class (Ascii.eqb c).
Fixpoint word (s : string) : re :=
  match s with EmptyString => Eps | String c s' => Cat (lit c) (word s') end.
Definition opt (r : re) : re := Alt r Eps.
Definition plus (r : re) : re := Cat r (Star r).
(** [r{n}], and [r{1,n}] as [r(r(...)?)?] *)
Fixpoint times_re (n : nat) (r : re) : re := match n with O => Eps | S n' => Cat r (times_re n' r) end.
Fixpoint up_to (n : nat) (r : re) : re := match n with O => Eps | S n' => opt (Cat r (up_to n' r)) end.
Definition one_to (n : nat) (r : re) : re := Cat r (up_to (n - 1) r).

Definition digit : re := Class (range "0" "9").
Definition host_char (c : ascii) : bool :=
  range "a" "z" c || range "A" "Z" c || range "0" "9" c || Ascii.eqb "-" c.
Definition ip6_char (c : ascii) : bool :=
  range "0" "9" c || range "a" "f" c || range "A" "F" c || Ascii.eqb ":" c.
Definition localhost : re := word "localhost".
(** [(?:[a-zA-Z0-9-]+\.)*[a-zA-Z0-9-]+] *)
Definition hostname : re := Cat (Star (Cat (plus (Class host_char)) (lit "."))) (plus (Class host_char)).
(** [(?:\d{1,3}\.){3}\d{1,3}] *)
Definition ip4 : re := Cat (times_re 3 (Cat (one_to 3 digit) (lit "."))) (one_to 3 digit).
(** [\[[0-9a-fA-F:]+\]] *)
Definition ip6 : re := Cat (lit "[") (Cat (plus (Class ip6_char)) (lit "]")).
Definition host : re := Alt localhost (Alt hostname (Alt ip4 ip6)).
Definition port : re := Cat (lit ":") (one_to 5 digit).
Definition net_url : re := Cat (opt (word "tcp://")) (Cat host (opt port)).

Definition ValidNetURLInput (netURL : string) : bool := re_match net_url (list_ascii_of_string netURL).

(** ** The matcher decides the language *)

Lemma nullable_spec r : nullable r = true ↔ lang r [].
Proof.
  induction r as [| |p|r1 IH1 r2 IH2|r1 IH1 r2 IH2|r IH]; cbn.
  - split; [done|]. intros Hl. inv Hl.
  - split; [constructor|done].
  - split; [done|]. intros Hl. inv Hl.
  - rewrite andb_true_iff, IH1, IH2. split.
    + intros [? ?]. by apply (lang_cat _ _ [] []).
    + intros Hl. inv Hl. destruct s1, s2; by simplify_list_eq.
  - rewrite orb_true_iff, IH1, IH2. split.
    + intros [?|?]; [by apply lang_alt_l|by apply lang_alt_r].
    + intros Hl. inv Hl; auto.
  - split; [constructor|done].
Qed.

(** A nonempty string of a star starts with a nonempty factor. *)
Lemma lang_star_first r s : lang (Star r) s →
  ∀ c s', s = c :: s' → ∃ s1 s2, s' = s1 ++ s2 ∧ lang r (c :: s1) ∧ lang (Star r) s2.
Proof.
  remember (Star r) as q eqn:Hq. induction 1 as [| | | | | |r0 s1 s2 H1 IH1 H2 IH2]; try done.
  injection Hq as ->. intros c s' Heq. destruct s1 as [|c1 s1]; cbn in Heq.
  - by apply IH2.
  - injection Heq as -> <-. by exists s1, s2.
Qed.

Lemma deriv_spec r c s : lang (deriv c r) s ↔ lang r (c :: s).
Proof.
  revert s. induction r as [| |p|r1 IH1 r2 IH2|r1 IH1 r2 IH2|r IH]; intros s; cbn.
  - split; intros Hl; inv Hl.
  - split; intros Hl; inv Hl.
  - destruct (p c) eqn:Hp; split; intros Hl.
    + inv Hl. by apply lang_class.
    + inv Hl. apply lang_eps.
    + inv Hl.
    + inv Hl. congruence.
  - assert (HC : lang (Cat (deriv c r1) r2) s ↔ ∃ s1 s2, s = s1 ++ s2 ∧ lang r1 (c :: s1) ∧ lang r2 s2).
    { split; [intros Hl; inv Hl|intros (s1 & s2 & -> & ? & ?)].
      - eexists _, _. split_and!; [done|by apply IH1|done].
      - constructor; [by apply IH1|done]. }
    assert (HT : lang (Cat r1 r2) (c :: s) ↔ (∃ s1 s2, s = s1 ++ s2 ∧ lang r1 (c :: s1) ∧ lang r2 s2) ∨
        lang r1 [] ∧ lang r2 (c :: s)).
    { split.
      - intros Hl. inv Hl. destruct s1 as [|c1 s1]; cbn in *.
        + right. by subst.
        + left. simplify_eq. eauto.
      - intros [(s1 & s2 & -> & ? & ?)|[? ?]]; [by apply (lang_cat _ _ (c :: s1) s2)|by apply (lang_cat _ _ [])]. }
    rewrite HT. destruct (nullable r1) eqn:Hn.
    + split; [intros Hl; inv Hl; [left; by apply HC|right; split; [by apply nullable_spec|by apply IH2]]|].
      intros [?|[_ ?]]; [apply lang_alt_l; by apply HC|apply lang_alt_r; by apply IH2].
    + rewrite HC. split; [auto|]. intros [?|[?%nullable_spec _]]; [done|congruence].
  - split; intros Hl; inv Hl; [apply lang_alt_l; by apply IH1|apply lang_alt_r; by apply IH2
      |apply lang_alt_l; by apply IH1|apply lang_alt_r; by apply IH2].
  - split.
    + intros Hl. inv Hl. apply (lang_star_cons _ (c :: s1) s2); [by apply IH|done].
    + intros Hl. destruct (lang_star_first _ _ Hl c s eq_refl) as (s1 & s2 & -> & ? & ?).
      constructor; [by apply IH|done].
Qed.

Lemma re_match_spec r s : re_match r s = true ↔ lang r s.
Proof.
  revert r. induction s as [|c s IH]; intros r; cbn; [apply nullable_spec|]. by rewrite IH, deriv_spec.
Qed.

(** Every character of a string of [r] satisfies [P]. *)
Fixpoint over (P : ascii → Prop) (r : re) : Prop :=
  match r with
  | Nothing | Eps => True
  | Class p => ∀ c, p c = true → P c
  | Cat r1 r2 | Alt r1 r2 => over P r1 ∧ over P r2
  | Star r => over P r
  end.
Lemma lang_over P r s : over P r → lang r s → Forall P s.
Proof.
  intros Ho Hl. induction Hl; cbn in Ho; try (by constructor); try (by intuition).
  - apply Forall_app. intuition.
  - apply Forall_app. intuition.
Qed.

Definition not_slash (c : ascii) : Prop := c ≠ "/"%char.
Lemma not_slash_class p : p "/"%char = false → over not_slash (Class p).
Proof. intros Hp c Hc ->. congruence. Qed.
Lemma host_port_over : over not_slash (Cat host (opt port)).
Proof. cbn. repeat (split || apply not_slash_class || done). Qed.

(** Sub-paths are disallowed: behind an optional [tcp://] a valid address has no
    slash, and something is left of it. *)
Theorem ValidNetURLInput_no_path netURL :
  ValidNetURLInput netURL = true →
  ∃ rest, (netURL = rest ∨ netURL = ("tcp://" ++ rest)%string) ∧
    Forall not_slash (list_ascii_of_string rest).
Proof.
  unfold ValidNetURLInput. rewrite re_match_spec. intros Hl. inv Hl.
  match goal with Hr : lang (Cat host _) _ |- _ => pose proof (lang_over _ _ _ host_port_over Hr) as HF end.
  exists (string_of_list_ascii s2). rewrite list_ascii_of_string_of_list_ascii. split; [|done].
  match goal with Ho : lang (opt _) _ |- _ => inv Ho end.
  - right. assert (Htcp : ∀ w s, lang (word w) s → s = list_ascii_of_string w).
    { clear. induction w as [|c w IH]; intros s Hl; inv Hl; [done|].
      match goal with Hc : lang (lit _) _ |- _ => inv Hc end. cbn.
      match goal with He : Ascii.eqb _ _ = true |- _ => apply Ascii.eqb_eq in He as -> end. f_equal. auto. }
    match goal with Hw : lang _ ?x, He : ?x ++ _ = _ |- _ => apply (Htcp "tcp://"%string) in Hw as -> end.
    rewrite <- (string_of_list_ascii_of_string netURL).
    match goal with He : _ ++ _ = _ |- _ => rewrite <- He end. done.
  - left. rewrite <- (string_of_list_ascii_of_string netURL).
    match goal with Ho : lang Eps _ |- _ => inv Ho end. cbn in *. by subst.
Qed.

Example url_examples :
  map ValidNetURLInput ["tcp://node-1.example.com:9001"; "[::1]:80"; "10.0.0.1"; "host/path"; ""; "a..b"; "h:123456"]%string
    = [true; true; true; false; false; false; false].
Proof. vm_compute. reflexivity. Qed.
