(* ===== verification/Gov.v ===== *)
(** * On-chain governance ([fsm/gov.go], [fsm/gov_params.go])

    The four parameter spaces behind one interface, the approval of proposals,
    and the update of a parameter with the adjustments it forces on the state.
    The parameter spaces are a type class, as they are a Go interface; the
    update is proved against it. *)
From Stdlib Require Import String.
From stdpp Require Import strings.
From S2P Require Import Prelude LibUtil State Ledger Params Account Validator Committee Fixtures.
#[local] Open Scope Z_scope.

(** ** Parameter spaces *)

Definition ExpectedMaxBlockHeaderSize : Z := 1652.
(** [init] of [lib/certificate.go] panics unless the computed size is the expected one. *)
Definition MaxBlockHeaderSize : Z := ExpectedMaxBlockHeaderSize.

(** The [ParamSpace] interface.  A setter mutates its receiver before the check
    that may reject the new value: it returns the receiver as it leaves it. *)
Class ParamSpace (A : Type) : Type := {
  ps_Check : A → result ErrorI unit;
  ps_SetString : string → string → A → result ErrorI unit * A;
  ps_SetUint64 : string → Z → A → result ErrorI unit * A;
}.

(** A Go [switch] on a string. *)
Fixpoint switch {A} (name : string) (cases : list (string * A)) : option A :=
  match cases with
  | [] => None
  | (key, x) :: rest => if String.eqb name key then Some x else switch name rest
  end.
(** The shape of the [SetUint64] methods. *)
Definition set_uint64 {A} (check : A → result ErrorI unit) (cases : list (string * (Z → A → A)))
    (paramName : string) (value : Z) (x : A) : result ErrorI unit * A :=
  match switch paramName cases with
  | None => (Err ErrUnknownParam, x)
  | Some set => let x' := set value x in (check x', x')
  end.

Definition ConsensusParams_Check (x : ConsensusParams) : result ErrorI unit :=
  check_not (BlockSize x <? MaxBlockHeaderSize) ErrInvalidParam;;
  ParseProtocolVersion x;;
  Ok ().
Definition cons_switch : list (string * (Z → ConsensusParams → ConsensusParams)) :=
  [("blockSize", set_BlockSize); ("retired", set_cons_Retired); ("rootChainID", set_RootChainId);
   ("resetCommittee", set_ResetCommittee)]%string.
(** Upgrades are sequential, with increasing activation heights. *)
Definition ConsensusParams_SetString (paramName value : string) (x : ConsensusParams)
    : result ErrorI unit * ConsensusParams :=
  if String.eqb paramName "protocolVersion" then
    match checkProtocolVersion value with
    | Err e => (Err e, x)
    | Ok newVersion =>
        match checkProtocolVersion (ProtocolVersion x) with
        | Err e => (Err e, x)
        | Ok oldVersion =>
            if negb (ver_Version newVersion =? u64_add (ver_Version oldVersion) 1)
               || (ver_Height newVersion <=? ver_Height oldVersion)
            then (Err ErrInvalidProtocolVersion, x)
            else let x' := set_ProtocolVersion value x in (ConsensusParams_Check x', x')
        end
    end
  else (Err ErrUnknownParam, x).

Definition ValidatorParams_Check (x : ValidatorParams) : result ErrorI unit :=
  check_not (UnstakingBlocks x =? 0) ErrInvalidParam;;
  check_not (MaxPauseBlocks x =? 0) ErrInvalidParam;;
  check_not (100 <? NonSignSlashPercentage x) ErrInvalidParam;;
  check_not (NonSignWindow x =? 0) ErrInvalidParam;;
  check_not (NonSignWindow x <? MaxNonSign x) ErrInvalidParam;;
  check_not (100 <? DoubleSignSlashPercentage x) ErrInvalidParam;;
  check_not (100 <? MaxCommittees x) ErrInvalidParam;;
  check_not (MaxCommitteeSize x =? 0) ErrInvalidParam;;
  check_not (DelegateUnstakingBlocks x <? 2) ErrInvalidParam;;
  check_not (100 <? EarlyWithdrawalPenalty x) ErrInvalidParam;;
  check_not ((StakePercentForSubsidizedCommittee x =? 0) || (100 <? StakePercentForSubsidizedCommittee x))
    ErrInvalidParam;;
  check_not ((MaxSlashPerCommittee x =? 0) || (100 <? MaxSlashPerCommittee x)) ErrInvalidParam;;
  check_not (100 <? DelegateRewardPercentage x) ErrInvalidParam;;
  check_not (BuyDeadlineBlocks x =? 0) ErrInvalidParam;;
  check_not (LockOrderFeeMultiplier x =? 0) ErrInvalidParam.
Definition val_switch : list (string * (Z → ValidatorParams → ValidatorParams)) :=
  [("unstakingBlocks", λ v x,
      MkValidatorParams v (MaxPauseBlocks x) (DoubleSignSlashPercentage x) (NonSignSlashPercentage x)
      (MaxNonSign x) (NonSignWindow x) (MaxCommittees x) (MaxCommitteeSize x) (EarlyWithdrawalPenalty x)
      (DelegateUnstakingBlocks x) (MinimumOrderSize x) (StakePercentForSubsidizedCommittee x)
      (MaxSlashPerCommittee x) (DelegateRewardPercentage x) (BuyDeadlineBlocks x) (LockOrderFeeMultiplier x)
      (MinimumStakeForValidators x) (MinimumStakeForDelegates x) (MaximumDelegatesPerCommittee x));
   ("maxPauseBlocks", λ v x,
      MkValidatorParams (UnstakingBlocks x) v (DoubleSignSlashPercentage x) (NonSignSlashPercentage x)
      (MaxNonSign x) (NonSignWindow x) (MaxCommittees x) (MaxCommitteeSize x) (EarlyWithdrawalPenalty x)
      (DelegateUnstakingBlocks x) (MinimumOrderSize x) (StakePercentForSubsidizedCommittee x)
      (MaxSlashPerCommittee x) (DelegateRewardPercentage x) (BuyDeadlineBlocks x) (LockOrderFeeMultiplier x)
      (MinimumStakeForValidators x) (MinimumStakeForDelegates x) (MaximumDelegatesPerCommittee x));
   ("nonSignWindow", λ v x,
      MkValidatorParams (UnstakingBlocks x) (MaxPauseBlocks x) (DoubleSignSlashPercentage x)
      (NonSignSlashPercentage x) (MaxNonSign x) v (MaxCommittees x) (MaxCommitteeSize x)
      (EarlyWithdrawalPenalty x) (DelegateUnstakingBlocks x) (MinimumOrderSize x)
      (StakePercentForSubsidizedCommittee x) (MaxSlashPerCommittee x) (DelegateRewardPercentage x)
      (BuyDeadlineBlocks x) (LockOrderFeeMultiplier x) (MinimumStakeForValidators x) (MinimumStakeForDelegates
      x) (MaximumDelegatesPerCommittee x));
   ("maxNonSign", λ v x,
      MkValidatorParams (UnstakingBlocks x) (MaxPauseBlocks x) (DoubleSignSlashPercentage x)
      (NonSignSlashPercentage x) v (NonSignWindow x) (MaxCommittees x) (MaxCommitteeSize x)
      (EarlyWithdrawalPenalty x) (DelegateUnstakingBlocks x) (MinimumOrderSize x)
      (StakePercentForSubsidizedCommittee x) (MaxSlashPerCommittee x) (DelegateRewardPercentage x)
      (BuyDeadlineBlocks x) (LockOrderFeeMultiplier x) (MinimumStakeForValidators x) (MinimumStakeForDelegates
      x) (MaximumDelegatesPerCommittee x));
   ("nonSignSlashPercentage", λ v x,
      MkValidatorParams (UnstakingBlocks x) (MaxPauseBlocks x) (DoubleSignSlashPercentage x) v (MaxNonSign x)
      (NonSignWindow x) (MaxCommittees x) (MaxCommitteeSize x) (EarlyWithdrawalPenalty x)
      (DelegateUnstakingBlocks x) (MinimumOrderSize x) (StakePercentForSubsidizedCommittee x)
      (MaxSlashPerCommittee x) (DelegateRewardPercentage x) (BuyDeadlineBlocks x) (LockOrderFeeMultiplier x)
      (MinimumStakeForValidators x) (MinimumStakeForDelegates x) (MaximumDelegatesPerCommittee x));
   ("doubleSignSlashPercentage", λ v x,
      MkValidatorParams (UnstakingBlocks x) (MaxPauseBlocks x) v (NonSignSlashPercentage x) (MaxNonSign x)
      (NonSignWindow x) (MaxCommittees x) (MaxCommitteeSize x) (EarlyWithdrawalPenalty x)
      (DelegateUnstakingBlocks x) (MinimumOrderSize x) (StakePercentForSubsidizedCommittee x)
      (MaxSlashPerCommittee x) (DelegateRewardPercentage x) (BuyDeadlineBlocks x) (LockOrderFeeMultiplier x)
      (MinimumStakeForValidators x) (MinimumStakeForDelegates x) (MaximumDelegatesPerCommittee x));
   ("maxCommittees", λ v x,
      MkValidatorParams (UnstakingBlocks x) (MaxPauseBlocks x) (DoubleSignSlashPercentage x)
      (NonSignSlashPercentage x) (MaxNonSign x) (NonSignWindow x) v (MaxCommitteeSize x)
      (EarlyWithdrawalPenalty x) (DelegateUnstakingBlocks x) (MinimumOrderSize x)
      (StakePercentForSubsidizedCommittee x) (MaxSlashPerCommittee x) (DelegateRewardPercentage x)
      (BuyDeadlineBlocks x) (LockOrderFeeMultiplier x) (MinimumStakeForValidators x) (MinimumStakeForDelegates
      x) (MaximumDelegatesPerCommittee x));
   ("maxCommitteeSize", λ v x,
      MkValidatorParams (UnstakingBlocks x) (MaxPauseBlocks x) (DoubleSignSlashPercentage x)
      (NonSignSlashPercentage x) (MaxNonSign x) (NonSignWindow x) (MaxCommittees x) v (EarlyWithdrawalPenalty
      x) (DelegateUnstakingBlocks x) (MinimumOrderSize x) (StakePercentForSubsidizedCommittee x)
      (MaxSlashPerCommittee x) (DelegateRewardPercentage x) (BuyDeadlineBlocks x) (LockOrderFeeMultiplier x)
      (MinimumStakeForValidators x) (MinimumStakeForDelegates x) (MaximumDelegatesPerCommittee x));
   ("earlyWithdrawalPenalty", λ v x,
      MkValidatorParams (UnstakingBlocks x) (MaxPauseBlocks x) (DoubleSignSlashPercentage x)
      (NonSignSlashPercentage x) (MaxNonSign x) (NonSignWindow x) (MaxCommittees x) (MaxCommitteeSize x) v
      (DelegateUnstakingBlocks x) (MinimumOrderSize x) (StakePercentForSubsidizedCommittee x)
      (MaxSlashPerCommittee x) (DelegateRewardPercentage x) (BuyDeadlineBlocks x) (LockOrderFeeMultiplier x)
      (MinimumStakeForValidators x) (MinimumStakeForDelegates x) (MaximumDelegatesPerCommittee x));
   ("delegateUnstakingBlocks", λ v x,
      MkValidatorParams (UnstakingBlocks x) (MaxPauseBlocks x) (DoubleSignSlashPercentage x)
      (NonSignSlashPercentage x) (MaxNonSign x) (NonSignWindow x) (MaxCommittees x) (MaxCommitteeSize x)
      (EarlyWithdrawalPenalty x) v (MinimumOrderSize x) (StakePercentForSubsidizedCommittee x)
      (MaxSlashPerCommittee x) (DelegateRewardPercentage x) (BuyDeadlineBlocks x) (LockOrderFeeMultiplier x)
      (MinimumStakeForValidators x) (MinimumStakeForDelegates x) (MaximumDelegatesPerCommittee x));
   ("minimumOrderSize", λ v x,
      MkValidatorParams (UnstakingBlocks x) (MaxPauseBlocks x) (DoubleSignSlashPercentage x)
      (NonSignSlashPercentage x) (MaxNonSign x) (NonSignWindow x) (MaxCommittees x) (MaxCommitteeSize x)
      (EarlyWithdrawalPenalty x) (DelegateUnstakingBlocks x) v (StakePercentForSubsidizedCommittee x)
      (MaxSlashPerCommittee x) (DelegateRewardPercentage x) (BuyDeadlineBlocks x) (LockOrderFeeMultiplier x)
      (MinimumStakeForValidators x) (MinimumStakeForDelegates x) (MaximumDelegatesPerCommittee x));
   ("stakePercentForSubsidizedCommittee", λ v x,
      MkValidatorParams (UnstakingBlocks x) (MaxPauseBlocks x) (DoubleSignSlashPercentage x)
      (NonSignSlashPercentage x) (MaxNonSign x) (NonSignWindow x) (MaxCommittees x) (MaxCommitteeSize x)
      (EarlyWithdrawalPenalty x) (DelegateUnstakingBlocks x) (MinimumOrderSize x) v (MaxSlashPerCommittee x)
      (DelegateRewardPercentage x) (BuyDeadlineBlocks x) (LockOrderFeeMultiplier x) (MinimumStakeForValidators
      x) (MinimumStakeForDelegates x) (MaximumDelegatesPerCommittee x));
   ("maxSlashPerCommittee", λ v x,
      MkValidatorParams (UnstakingBlocks x) (MaxPauseBlocks x) (DoubleSignSlashPercentage x)
      (NonSignSlashPercentage x) (MaxNonSign x) (NonSignWindow x) (MaxCommittees x) (MaxCommitteeSize x)
      (EarlyWithdrawalPenalty x) (DelegateUnstakingBlocks x) (MinimumOrderSize x)
      (StakePercentForSubsidizedCommittee x) v (DelegateRewardPercentage x) (BuyDeadlineBlocks x)
      (LockOrderFeeMultiplier x) (MinimumStakeForValidators x) (MinimumStakeForDelegates x)
      (MaximumDelegatesPerCommittee x));
   ("delegateRewardPercentage", λ v x,
      MkValidatorParams (UnstakingBlocks x) (MaxPauseBlocks x) (DoubleSignSlashPercentage x)
      (NonSignSlashPercentage x) (MaxNonSign x) (NonSignWindow x) (MaxCommittees x) (MaxCommitteeSize x)
      (EarlyWithdrawalPenalty x) (DelegateUnstakingBlocks x) (MinimumOrderSize x)
      (StakePercentForSubsidizedCommittee x) (MaxSlashPerCommittee x) v (BuyDeadlineBlocks x)
      (LockOrderFeeMultiplier x) (MinimumStakeForValidators x) (MinimumStakeForDelegates x)
      (MaximumDelegatesPerCommittee x));
   ("buyDeadlineBlocks", λ v x,
      MkValidatorParams (UnstakingBlocks x) (MaxPauseBlocks x) (DoubleSignSlashPercentage x)
      (NonSignSlashPercentage x) (MaxNonSign x) (NonSignWindow x) (MaxCommittees x) (MaxCommitteeSize x)
      (EarlyWithdrawalPenalty x) (DelegateUnstakingBlocks x) (MinimumOrderSize x)
      (StakePercentForSubsidizedCommittee x) (MaxSlashPerCommittee x) (DelegateRewardPercentage x) v
      (LockOrderFeeMultiplier x) (MinimumStakeForValidators x) (MinimumStakeForDelegates x)
      (MaximumDelegatesPerCommittee x));
   ("lockOrderFeeMultiplier", λ v x,
      MkValidatorParams (UnstakingBlocks x) (MaxPauseBlocks x) (DoubleSignSlashPercentage x)
      (NonSignSlashPercentage x) (MaxNonSign x) (NonSignWindow x) (MaxCommittees x) (MaxCommitteeSize x)
      (EarlyWithdrawalPenalty x) (DelegateUnstakingBlocks x) (MinimumOrderSize x)
      (StakePercentForSubsidizedCommittee x) (MaxSlashPerCommittee x) (DelegateRewardPercentage x)
      (BuyDeadlineBlocks x) v (MinimumStakeForValidators x) (MinimumStakeForDelegates x)
      (MaximumDelegatesPerCommittee x));
   ("minimumStakeForValidators", λ v x,
      MkValidatorParams (UnstakingBlocks x) (MaxPauseBlocks x) (DoubleSignSlashPercentage x)
      (NonSignSlashPercentage x) (MaxNonSign x) (NonSignWindow x) (MaxCommittees x) (MaxCommitteeSize x)
      (EarlyWithdrawalPenalty x) (DelegateUnstakingBlocks x) (MinimumOrderSize x)
      (StakePercentForSubsidizedCommittee x) (MaxSlashPerCommittee x) (DelegateRewardPercentage x)
      (BuyDeadlineBlocks x) (LockOrderFeeMultiplier x) v (MinimumStakeForDelegates x)
      (MaximumDelegatesPerCommittee x));
   ("minimumStakeForDelegates", λ v x,
      MkValidatorParams (UnstakingBlocks x) (MaxPauseBlocks x) (DoubleSignSlashPercentage x)
      (NonSignSlashPercentage x) (MaxNonSign x) (NonSignWindow x) (MaxCommittees x) (MaxCommitteeSize x)
      (EarlyWithdrawalPenalty x) (DelegateUnstakingBlocks x) (MinimumOrderSize x)
      (StakePercentForSubsidizedCommittee x) (MaxSlashPerCommittee x) (DelegateRewardPercentage x)
      (BuyDeadlineBlocks x) (LockOrderFeeMultiplier x) (MinimumStakeForValidators x) v
      (MaximumDelegatesPerCommittee x));
   ("maximumDelegatesPerCommittee", λ v x,
      MkValidatorParams (UnstakingBlocks x) (MaxPauseBlocks x) (DoubleSignSlashPercentage x)
      (NonSignSlashPercentage x) (MaxNonSign x) (NonSignWindow x) (MaxCommittees x) (MaxCommitteeSize x)
      (EarlyWithdrawalPenalty x) (DelegateUnstakingBlocks x) (MinimumOrderSize x)
      (StakePercentForSubsidizedCommittee x) (MaxSlashPerCommittee x) (DelegateRewardPercentage x)
      (BuyDeadlineBlocks x) (LockOrderFeeMultiplier x) (MinimumStakeForValidators x) (MinimumStakeForDelegates
      x) v)]%string.

Definition FeeParams_Check (x : FeeParams) : result ErrorI unit := Ok ().
Definition fee_switch : list (string * (Z → FeeParams → FeeParams)) :=
  [("sendFee", λ v x,
      MkFeeParams v (StakeFee x) (EditStakeFee x) (UnstakeFee x) (PauseFee x) (UnpauseFee x)
      (ChangeParameterFee x) (DaoTransferFee x) (CertificateResultsFee x) (SubsidyFee x) (CreateOrderFee x)
      (EditOrderFee x) (DeleteOrderFee x) (DexLimitOrderFee x) (DexLiquidityDepositFee x)
      (DexLiquidityWithdrawFee x));
   ("stakeFee", λ v x,
      MkFeeParams (SendFee x) v (EditStakeFee x) (UnstakeFee x) (PauseFee x) (UnpauseFee x)
      (ChangeParameterFee x) (DaoTransferFee x) (CertificateResultsFee x) (SubsidyFee x) (CreateOrderFee x)
      (EditOrderFee x) (DeleteOrderFee x) (DexLimitOrderFee x) (DexLiquidityDepositFee x)
      (DexLiquidityWithdrawFee x));
   ("editStakeFee", λ v x,
      MkFeeParams (SendFee x) (StakeFee x) v (UnstakeFee x) (PauseFee x) (UnpauseFee x) (ChangeParameterFee x)
      (DaoTransferFee x) (CertificateResultsFee x) (SubsidyFee x) (CreateOrderFee x) (EditOrderFee x)
      (DeleteOrderFee x) (DexLimitOrderFee x) (DexLiquidityDepositFee x) (DexLiquidityWithdrawFee x));
   ("unstakeFee", λ v x,
      MkFeeParams (SendFee x) (StakeFee x) (EditStakeFee x) v (PauseFee x) (UnpauseFee x) (ChangeParameterFee
      x) (DaoTransferFee x) (CertificateResultsFee x) (SubsidyFee x) (CreateOrderFee x) (EditOrderFee x)
      (DeleteOrderFee x) (DexLimitOrderFee x) (DexLiquidityDepositFee x) (DexLiquidityWithdrawFee x));
   ("pauseFee", λ v x,
      MkFeeParams (SendFee x) (StakeFee x) (EditStakeFee x) (UnstakeFee x) v (UnpauseFee x)
      (ChangeParameterFee x) (DaoTransferFee x) (CertificateResultsFee x) (SubsidyFee x) (CreateOrderFee x)
      (EditOrderFee x) (DeleteOrderFee x) (DexLimitOrderFee x) (DexLiquidityDepositFee x)
      (DexLiquidityWithdrawFee x));
   ("unpauseFee", λ v x,
      MkFeeParams (SendFee x) (StakeFee x) (EditStakeFee x) (UnstakeFee x) (PauseFee x) v (ChangeParameterFee
      x) (DaoTransferFee x) (CertificateResultsFee x) (SubsidyFee x) (CreateOrderFee x) (EditOrderFee x)
      (DeleteOrderFee x) (DexLimitOrderFee x) (DexLiquidityDepositFee x) (DexLiquidityWithdrawFee x));
   ("changeParameterFee", λ v x,
      MkFeeParams (SendFee x) (StakeFee x) (EditStakeFee x) (UnstakeFee x) (PauseFee x) (UnpauseFee x) v
      (DaoTransferFee x) (CertificateResultsFee x) (SubsidyFee x) (CreateOrderFee x) (EditOrderFee x)
      (DeleteOrderFee x) (DexLimitOrderFee x) (DexLiquidityDepositFee x) (DexLiquidityWithdrawFee x));
   ("daoTransferFee", λ v x,
      MkFeeParams (SendFee x) (StakeFee x) (EditStakeFee x) (UnstakeFee x) (PauseFee x) (UnpauseFee x)
      (ChangeParameterFee x) v (CertificateResultsFee x) (SubsidyFee x) (CreateOrderFee x) (EditOrderFee x)
      (DeleteOrderFee x) (DexLimitOrderFee x) (DexLiquidityDepositFee x) (DexLiquidityWithdrawFee x));
   ("certificateResultsFee", λ v x,
      MkFeeParams (SendFee x) (StakeFee x) (EditStakeFee x) (UnstakeFee x) (PauseFee x) (UnpauseFee x)
      (ChangeParameterFee x) (DaoTransferFee x) v (SubsidyFee x) (CreateOrderFee x) (EditOrderFee x)
      (DeleteOrderFee x) (DexLimitOrderFee x) (DexLiquidityDepositFee x) (DexLiquidityWithdrawFee x));
   ("subsidyFee", λ v x,
      MkFeeParams (SendFee x) (StakeFee x) (EditStakeFee x) (UnstakeFee x) (PauseFee x) (UnpauseFee x)
      (ChangeParameterFee x) (DaoTransferFee x) (CertificateResultsFee x) v (CreateOrderFee x) (EditOrderFee
      x) (DeleteOrderFee x) (DexLimitOrderFee x) (DexLiquidityDepositFee x) (DexLiquidityWithdrawFee x));
   ("createOrderFee", λ v x,
      MkFeeParams (SendFee x) (StakeFee x) (EditStakeFee x) (UnstakeFee x) (PauseFee x) (UnpauseFee x)
      (ChangeParameterFee x) (DaoTransferFee x) (CertificateResultsFee x) (SubsidyFee x) v (EditOrderFee x)
      (DeleteOrderFee x) (DexLimitOrderFee x) (DexLiquidityDepositFee x) (DexLiquidityWithdrawFee x));
   ("deleteOrderFee", λ v x,
      MkFeeParams (SendFee x) (StakeFee x) (EditStakeFee x) (UnstakeFee x) (PauseFee x) (UnpauseFee x)
      (ChangeParameterFee x) (DaoTransferFee x) (CertificateResultsFee x) (SubsidyFee x) (CreateOrderFee x)
      (EditOrderFee x) v (DexLimitOrderFee x) (DexLiquidityDepositFee x) (DexLiquidityWithdrawFee x));
   ("editOrderFee", λ v x,
      MkFeeParams (SendFee x) (StakeFee x) (EditStakeFee x) (UnstakeFee x) (PauseFee x) (UnpauseFee x)
      (ChangeParameterFee x) (DaoTransferFee x) (CertificateResultsFee x) (SubsidyFee x) (CreateOrderFee x) v
      (DeleteOrderFee x) (DexLimitOrderFee x) (DexLiquidityDepositFee x) (DexLiquidityWithdrawFee x));
   ("dexLimitOrderFee", λ v x,
      MkFeeParams (SendFee x) (StakeFee x) (EditStakeFee x) (UnstakeFee x) (PauseFee x) (UnpauseFee x)
      (ChangeParameterFee x) (DaoTransferFee x) (CertificateResultsFee x) (SubsidyFee x) (CreateOrderFee x)
      (EditOrderFee x) (DeleteOrderFee x) v (DexLiquidityDepositFee x) (DexLiquidityWithdrawFee x));
   ("dexLiquidityDepositFee", λ v x,
      MkFeeParams (SendFee x) (StakeFee x) (EditStakeFee x) (UnstakeFee x) (PauseFee x) (UnpauseFee x)
      (ChangeParameterFee x) (DaoTransferFee x) (CertificateResultsFee x) (SubsidyFee x) (CreateOrderFee x)
      (EditOrderFee x) (DeleteOrderFee x) (DexLimitOrderFee x) v (DexLiquidityWithdrawFee x));
   ("dexLiquidityWithdrawFee", λ v x,
      MkFeeParams (SendFee x) (StakeFee x) (EditStakeFee x) (UnstakeFee x) (PauseFee x) (UnpauseFee x)
      (ChangeParameterFee x) (DaoTransferFee x) (CertificateResultsFee x) (SubsidyFee x) (CreateOrderFee x)
      (EditOrderFee x) (DeleteOrderFee x) (DexLimitOrderFee x) (DexLiquidityDepositFee x) v)]%string.

Definition GovernanceParams_Check (x : GovernanceParams) : result ErrorI unit :=
  check_not (100 <? DaoRewardPercentage x) ErrInvalidParam.
Definition gov_switch : list (string * (Z → GovernanceParams → GovernanceParams)) :=
  [("daoRewardPercentage", λ v x, MkGovernanceParams v)]%string.

(** [SetString] of the three spaces without string parameters. *)
Definition no_strings {A} (paramName value : string) (x : A) : result ErrorI unit * A :=
  (Err ErrUnknownParam, x).

#[export] Instance cons_space : ParamSpace ConsensusParams :=
  {| ps_Check := ConsensusParams_Check; ps_SetString := ConsensusParams_SetString;
     ps_SetUint64 := set_uint64 ConsensusParams_Check cons_switch |}.
#[export] Instance val_space : ParamSpace ValidatorParams :=
  {| ps_Check := ValidatorParams_Check; ps_SetString := no_strings;
     ps_SetUint64 := set_uint64 ValidatorParams_Check val_switch |}.
#[export] Instance fee_space : ParamSpace FeeParams :=
  {| ps_Check := FeeParams_Check; ps_SetString := no_strings;
     ps_SetUint64 := set_uint64 FeeParams_Check fee_switch |}.
#[export] Instance gov_space : ParamSpace GovernanceParams :=
  {| ps_Check := GovernanceParams_Check; ps_SetString := no_strings;
     ps_SetUint64 := set_uint64 GovernanceParams_Check gov_switch |}.

(** ** Proposals *)

Inductive GovProposalVoteConfig : Type := AcceptAllProposals | ProposalApproveList | RejectAllProposals.

(** The node's configuration of votes: [s.proposeVoteConfig] and the approve
    list [NewFromFile] reads, by proposal hash. *)
Class VoteConfig : Type := {
  proposeVoteConfig : GovProposalVoteConfig;
  proposals : result ErrorI (gmap string bool);
}.

Definition ApproveProposal `{VoteConfig} (startHeight endHeight : Z) (proposalHash : string) : F unit :=
  h ← Height;
  fail_if ((h <? startHeight) || (endHeight <? h)) ErrRejectProposal;;
  match proposeVoteConfig with
  | AcceptAllProposals => mret ()
  | RejectAllProposals => throw ErrRejectProposal
  | ProposalApproveList =>
      proposals ← lift proposals;
      match proposals !! proposalHash with
      | Some true => mret ()
      | _ => throw ErrRejectProposal
      end
  end.

(** ** Updating a parameter *)

(** The protobuf wrappers a new value comes in. *)
Inductive ParamValue : Type :=
| UInt64Wrapper (value : Z)
| StringWrapper (value : string)
| OtherValue.

Definition apply_value {A} `{ParamSpace A} (paramName : string) (value : ParamValue) (sp : A)
    : result ErrorI unit * A :=
  match value with
  | UInt64Wrapper v => ps_SetUint64 paramName v sp
  | StringWrapper v => ps_SetString paramName v sp
  | OtherValue => (Err ErrUnknownParamType, sp)
  end.

(** A pending protocol version blocks the next one. *)
Definition check_pending (paramName : string) (value : ParamValue) (sp : ConsensusParams) : F unit :=
  match value with
  | StringWrapper _ =>
      if String.eqb paramName "protocolVersion" then
        currentProtocol ← lift (ParseProtocolVersion sp);
        h ← Height;
        fail_if (h <? ver_Height currentProtocol) ErrInvalidProtocolVersion
      else mret ()
  | _ => mret ()
  end.

(** Read a space, apply the value to the object read, set it back.  [leave] is
    what the mutation of that object does when it is shared: the validator and
    fee parameters are the cached objects. *)
Definition assign {A} `{ParamSpace A} (get : F A) (pre : A → F unit) (leave set : A → F unit)
    (paramName : string) (value : ParamValue) : F unit :=
  sp ← get;
  pre sp;;
  let '(r, sp') := apply_value paramName value sp in
  leave sp';;
  lift r;;
  set sp'.

Definition ResetCommitteeData (params : Params) : F Params :=
  let c := ResetCommittee (Consensus params) in
  if negb (c =? 0) then
    OverwriteCommitteeData (new_committee_data c);;
    upd (λ st, set_checkpoints (filter (λ e, e.1.1 ≠ c) (checkpoints st)) st);;
    upd (λ st, set_locked_batch (delete c (locked_batch st)) st);;
    let cons := set_ResetCommittee 0 (Consensus params) in
    SetParamsCons cons;;
    mret (MkParams cons (Validator_ params) (Fee params) (Governance params))
  else mret params.

(** The [maxCommittees] committees that follow a rotating start. *)
Definition trim_committees (idx maxCommittees : nat) (committees : list Z) : list Z :=
  map (λ i, nth ((idx mod length committees + i) mod length committees) committees 0) (seq 0 maxCommittees).

Definition trim_validator (maxCommittees : nat) (idx : nat) (v : Validator) : F nat :=
  if (length (Committees v) <=? maxCommittees)%nat then mret idx else
  let newCommittees := trim_committees idx maxCommittees (Committees v) in
  (if negb (Delegate v) then UpdateCommittees (val_Address v) v (StakedAmount v) newCommittees
   else UpdateDelegations (val_Address v) v (StakedAmount v) newCommittees);;
  SetValidator (set_Committees newCommittees v);;
  mret (S idx).

Definition ConformStateToParamUpdate (previousParams : Params) : F unit :=
  params ← GetParams;
  params ← ResetCommitteeData params;
  (if negb (RootChainId (Consensus previousParams) =? RootChainId (Consensus params)) then
     cfg ← gets config;
     selfCommittee ← GetCommitteeData (ChainId cfg);
     OverwriteCommitteeData (set_LastRootHeightUpdated 0 selfCommittee)
   else mret ());;
  (if (MinimumStakeForValidators (Validator_ previousParams) <? MinimumStakeForValidators (Validator_ params))
      || (MinimumStakeForDelegates (Validator_ previousParams) <? MinimumStakeForDelegates (Validator_ params))
   then
     vals ← GetValidators;
     for_each vals (λ v, _ ← SetValidatorUnstakingIfBelowMinimum v (Validator_ params); mret ())
   else mret ());;
  if MaxCommittees (Validator_ previousParams) <=? MaxCommittees (Validator_ params) then mret () else
  vals ← GetValidators;
  _ ← fold_m (trim_validator (Z.to_nat (MaxCommittees (Validator_ params)))) O vals;
  mret ().

Definition UpdateParam (paramSpace paramName : string) (value : ParamValue) : F unit :=
  previousParams ← GetParams;
  (if String.eqb paramSpace "cons" then
     assign GetParamsCons (check_pending paramName value) (λ _, mret ()) SetParamsCons paramName value
   else if String.eqb paramSpace "val" then
     assign GetParamsVal (λ _, mret ()) (λ p, modify (set_cache_valParams (Some p))) SetParamsVal paramName value
   else if String.eqb paramSpace "fee" then
     assign GetParamsFee (λ _, mret ()) (λ p, modify (set_cache_feeParams (Some p))) SetParamsFee paramName value
   else if String.eqb paramSpace "gov" then
     assign GetParamsGov (λ _, mret ()) (λ _, mret ()) SetParamsGov paramName value
   else throw ErrUnknownParamSpace);;
  ConformStateToParamUpdate previousParams.

(** [GetMaxBlockSize] of [fsm/state.go]. *)
Definition GetMaxBlockSize : F Z :=
  consParams ← GetParamsCons;
  fail_if (BlockSize consParams <? MaxBlockHeaderSize) ErrInvalidParam;;
  mret (u64_sub (BlockSize consParams) MaxBlockHeaderSize).

(** ** The interface's law: a setter that succeeds leaves a checked space *)

Class ParamSpaceLaws (A : Type) `{ParamSpace A} : Prop := {
  ps_string_checked : ∀ name v (x x' : A), ps_SetString name v x = (Ok (), x') → ps_Check x' = Ok ();
  ps_uint64_checked : ∀ name v (x x' : A), ps_SetUint64 name v x = (Ok (), x') → ps_Check x' = Ok ();
}.

Lemma set_uint64_checked {A} (check : A → result ErrorI unit) cases name v x x' :
  set_uint64 check cases name v x = (Ok (), x') → check x' = Ok ().
Proof. unfold set_uint64. case_match; [by intros [= ? <-]|done]. Qed.

#[export] Instance cons_laws : ParamSpaceLaws ConsensusParams.
Proof.
  split; [|exact (set_uint64_checked _ _)]. intros name v x x'. cbn. unfold ConsensusParams_SetString.
  repeat case_match; try done. by intros [= ? <-].
Qed.
#[export] Instance val_laws : ParamSpaceLaws ValidatorParams.
Proof. split; [done|exact (set_uint64_checked _ _)]. Qed.
#[export] Instance fee_laws : ParamSpaceLaws FeeParams.
Proof. by split. Qed.
#[export] Instance gov_laws : ParamSpaceLaws GovernanceParams.
Proof. split; [done|exact (set_uint64_checked _ _)]. Qed.

Lemma apply_value_checked `{ParamSpaceLaws A} name v (sp sp' : A) :
  apply_value name v sp = (Ok (), sp') → ps_Check sp' = Ok ().
Proof. destruct v; cbn; [apply ps_uint64_checked|apply ps_string_checked|done]. Qed.

(** ** Lemmas: the adjustments *)

(** Only the validators, their queues and the supply tracker changed. *)
Definition only_validators (s s' : FSM) : Prop :=
  ∃ vs x ci di un pa, s' = set_store (set_validators vs (set_supply x (set_committee_index ci
    (set_delegate_index di (set_unstaking un (set_paused pa (store s))))))) s.
Lemma only_validators_refl s : only_validators s s.
Proof.
  exists (validators (store s)), (supply (store s)), (committee_index (store s)), (delegate_index (store s)),
    (unstaking (store s)), (paused (store s)). by destruct s as [[]].
Qed.
Lemma only_validators_trans s1 s2 s3 : only_validators s1 s2 → only_validators s2 s3 → only_validators s1 s3.
Proof. intros (?&?&?&?&?&?&->) (vs&y&ci&di&un&pa&->). by exists vs, y, ci, di, un, pa. Qed.
Lemma only_validators_supply s s' : only_supply_idx s s' → only_validators s s'.
Proof.
  intros (x & ci & di & ->). exists (validators (store s)), x, ci, di, (unstaking (store s)), (paused (store s)).
  by destruct s as [[]].
Qed.
Lemma only_validators_write vs un pa s :
  only_validators s (set_store (set_paused pa (set_unstaking un (set_validators vs (store s)))) s).
Proof.
  exists vs, (supply (store s)), (committee_index (store s)), (delegate_index (store s)), un, pa.
  by destruct s as [[]].
Qed.
Lemma only_validators_set vs s : only_validators s (set_store (set_validators vs (store s)) s).
Proof.
  pose proof (only_validators_write vs (unstaking (store s)) (paused (store s)) s) as H. by destruct s as [[]].
Qed.

(** An operation on one validator that moves no tokens. *)
Definition quiet_on (R : Validator → Validator → Prop) (v : Validator) (s s' : FSM) : Prop :=
  (∀ c, posted c g_zero s s') ∧ only_validators s s' ∧
  ∃ w, R v w ∧ validators (store s') = <[val_Address v := w]> (validators (store s)).

(** A validator whose committees were cut down to [max]. *)
Definition trimmed (max : nat) (v w : Validator) : Prop :=
  w = v ∨ ∃ l, w = set_Committees l v ∧ length l = max ∧ l ⊆ Committees v ∧ (NoDup (Committees v) → NoDup l).

Lemma trim_length idx max l : length (trim_committees idx max l) = max.
Proof. unfold trim_committees. by rewrite length_map, length_seq. Qed.
Lemma trim_subset idx max l : l ≠ [] → trim_committees idx max l ⊆ l.
Proof.
  intros Hl x. unfold trim_committees. intros (i & -> & _)%list_elem_of_fmap.
  apply list_elem_of_In, nth_In. assert (length l ≠ 0)%nat by (by destruct l). by apply Nat.mod_upper_bound.
Qed.
(** The window is no longer than the circle, so it visits no committee twice. *)
Lemma trim_NoDup idx max l : (max <= length l)%nat → NoDup l → NoDup (trim_committees idx max l).
Proof.
  intros Hm Hl. unfold trim_committees. apply NoDup_fmap_2_strong; [|apply NoDup_seq].
  set (n := length l) in *. intros i j Hi%elem_of_seq Hj%elem_of_seq Heq. assert (n ≠ 0)%nat by lia.
  assert (Hij : ((idx mod n + i) mod n = (idx mod n + j) mod n)%nat).
  { rewrite NoDup_ListNoDup in Hl. rewrite NoDup_nth in Hl. apply (Hl _ _); [by apply Nat.mod_upper_bound..|exact Heq]. }
  assert (idx mod n < n)%nat by (by apply Nat.mod_upper_bound). generalize dependent (idx mod n)%nat. intros a _ Hij Ha.
  assert (Hm' : ∀ k, (k < n)%nat → ((a + k) mod n = if a + k <? n then a + k else a + k - n)%nat).
  { intros k Hk. destruct (Nat.ltb_spec (a + k) n); [by apply Nat.mod_small|].
    replace (a + k)%nat with (a + k - n + 1 * n)%nat at 1 by lia. rewrite Nat.Div0.mod_add. apply Nat.mod_small. lia. }
  rewrite !Hm' in Hij by lia. destruct (Nat.ltb_spec (a + i) n), (Nat.ltb_spec (a + j) n); lia.
Qed.

Lemma trim_validator_spec max idx v s idx' s' :
  wf s → validators (store s) !! val_Address v = Some v →
  trim_validator max idx v s = (Ok idx', s') →
  quiet_on (λ v w, trimmed max v w ∧ (length (Committees w) <= max)%nat) v s s'.
Proof.
  intros Hw Hv Hrun. unfold trim_validator in Hrun. destruct (Nat.leb_spec (length (Committees v)) max) as [Hle|Hgt].
  { injection Hrun as _ <-. split_and!; [by intros; apply posted_0|apply only_validators_refl|].
    exists v. split_and!; [by left|done|]. by rewrite insert_id. }
  set (l := trim_committees idx max (Committees v)) in *. minv.
  destruct (wf_validators s Hw _ _ Hv) as [_ Hu].
  assert (Hm1 : (if Delegate v then UpdateDelegations (val_Address v) v (StakedAmount v) l
     else UpdateCommittees (val_Address v) v (StakedAmount v) l) s = (Ok a, s0)) by (by destruct (Delegate v)).
  pose proof (λ c, restake_spec c v _ l _ _ _ Hw Hu Hu Hm1) as HR. destruct (HR 0) as [P0 O].
  set (w := set_Committees l v) in *.
  assert (set_StakedAmount (StakedAmount v) w = w) as Hwv by by destruct v.
  pose proof (λ c, SetValidator_spec c w s0 _ _ (po_ok _ _ _ _ P0) Hu Hm0) as HS.
  destruct (HS 0) as (_ & _ & Hs'). pose proof O as (x & ci & di & Hs0).
  split_and!.
  - intros c. destruct (HR c) as [P1 _], (HS c) as (_ & P2 & _). cbv zeta in P1. fold w in P1. rewrite Hwv in P1.
    eapply posted_eq; [eapply posted_trans; [exact P1|exact P2]|]. change (val_Address w) with (val_Address v).
    rewrite Hs0. cbn [store set_store set_supply set_committee_index set_delegate_index validators]. rewrite Hv.
    unfold d_replace, d_validator, deleg_stake, w. cbn. g_eq.
  - rewrite Hs'. eapply only_validators_trans; [by apply only_validators_supply|apply only_validators_set].
  - exists w. split_and!; [|cbn; unfold l; by rewrite trim_length|subst s' s0; done].
    right. exists l. unfold l. split_and!; [done|apply trim_length|apply trim_subset; intros E; rewrite E in Hgt; cbn in Hgt; lia|].
    apply trim_NoDup. lia.
Qed.

(** What lifting an active validator below the minimum does to it. *)
Definition evicted (h : Z) (p : ValidatorParams) (v w : Validator) : Prop :=
  let minimum := if Delegate v then MinimumStakeForDelegates p else MinimumStakeForValidators p in
  let blocks := if Delegate v then DelegateUnstakingBlocks p else UnstakingBlocks p in
  if bool_decide (UnstakingHeight v = 0 ∧ StakedAmount v < minimum)
  then w = set_UnstakingHeight (u64_add h blocks) (set_MaxPausedHeight 0 v) else w = v.

Lemma evict_validators_spec p v s b s' :
  wf s → validators (store s) !! val_Address v = Some v →
  SetValidatorUnstakingIfBelowMinimum v p s = (Ok b, s') → quiet_on (evicted (height s) p) v s s'.
Proof.
  intros Hw Hv Hrun.
  assert (Hno : s' = s → evicted (height s) p v v → quiet_on (evicted (height s) p) v s s').
  { intros -> He. split_and!; [by intros; apply posted_0|apply only_validators_refl|].
    exists v. split; [done|]. by rewrite insert_id. }
  assert (Hyes : ∀ n, (h ← Height; _ ← SetValidatorUnstaking (val_Address v) v (u64_add h n); mret true) s = (Ok b, s') →
    let w := set_UnstakingHeight (u64_add (height s) n) (set_MaxPausedHeight 0 v) in
    evicted (height s) p v w → quiet_on (evicted (height s) p) v s s').
  { intros n Hr w Hev. runs in Hr. rewrite SetValidatorUnstaking_run in Hr by done. injection Hr as _ <-.
    split_and!; [by intros; eapply write_posted|apply only_validators_write|by exists w]. }
  unfold SetValidatorUnstakingIfBelowMinimum in Hrun. unfold evicted in *.
  destruct (Z.eqb_spec (UnstakingHeight v) 0) as [Hu|Hu]; cbn [negb] in Hrun.
  2:{ injection Hrun as _ <-. apply Hno; [done|]. by rewrite bool_decide_false by naive_solver. }
  destruct (Delegate v);
    [destruct (Z.ltb_spec (StakedAmount v) (MinimumStakeForDelegates p)) as [Hm|Hm]
    |destruct (Z.ltb_spec (StakedAmount v) (MinimumStakeForValidators p)) as [Hm|Hm]]; cbn iota beta zeta in Hrun;
    first [ injection Hrun as _ <-; apply Hno; [done|]; by rewrite bool_decide_false by naive_solver lia
          | apply (Hyes _ Hrun); by rewrite bool_decide_true ].
Qed.

Lemma iter_validators_NoDup s : wf s → NoDup (iter_validators (store s)).
Proof.
  intros Hw. unfold iter_validators. apply NoDup_fmap_2_strong.
  - intros [a v] [b w] Ha Hb Heq. cbn in Heq. subst w. rewrite !elem_of_sorted_by, !elem_of_map_to_list in *.
    destruct (wf_validators s Hw a v Ha), (wf_validators s Hw b v Hb). congruence.
  - rewrite sorted_by_perm. apply NoDup_map_to_list.
Qed.

(** Iterating such an operation over all validators relates every record. *)
Lemma validators_loop {B} (R : Validator → Validator → Prop) (f : B → Validator → F B) s b b' s' :
  (∀ b v s1 b' s1', wf s1 → height s1 = height s → validators (store s1) !! val_Address v = Some v →
     f b v s1 = (Ok b', s1') → quiet_on R v s1 s1') →
  wf s → fold_m f b (iter_validators (store s)) s = (Ok b', s') →
  (∀ c, posted c g_zero s s') ∧ only_validators s s' ∧
  map_Forall2 (λ _, R) (validators (store s)) (validators (store s')).
Proof.
  intros Hf Hw Hrun.
  set (P := λ (done : list Validator) (_ : B) s1, (∀ c, posted c g_zero s s1) ∧ only_validators s s1 ∧
    ∀ a, match validators (store s) !! a, validators (store s1) !! a with
         | Some v, Some w => if decide (v ∈ done) then R v w else w = v
         | None, None => True
         | _, _ => False
         end).
  eapply (fold_m_inv P) in Hrun as (H1 & H2 & H3).
  - split_and!; [done|done|]. intros a. specialize (H3 a).
    destruct (validators (store s) !! a) as [v|] eqn:Hv, (validators (store s') !! a) as [w|] eqn:Hv'; try done;
      [|constructor]. rewrite decide_True in H3 by (apply elem_of_iter_validators; eauto). by constructor.
  - clear Hrun. intros done x rest idx s1 idx' s1' Hl (P1 & P2 & P3) Hrun.
    assert (Hx : validators (store s) !! val_Address x = Some x).
    { assert (x ∈ iter_validators (store s)) as (a & Ha)%elem_of_iter_validators by (rewrite Hl; set_solver).
      by destruct (wf_validators s Hw a x Ha) as [-> _]. }
    pose proof (iter_validators_NoDup s Hw) as Hnd. rewrite Hl in Hnd. apply NoDup_app in Hnd as (_ & Hnd & _).
    assert (Hx1 : validators (store s1) !! val_Address x = Some x).
    { specialize (P3 (val_Address x)). rewrite Hx in P3. case_match; [|done].
      rewrite decide_False in P3 by (intros ?; eapply Hnd; [done|set_solver]). by subst. }
    assert (Hh : height s1 = height s) by (by destruct P2 as (?&?&?&?&?&?&->)).
    apply Hf in Hrun as (Q1 & Q2 & w & Hw1 & Q3); [|apply (P1 0)|done..].
    split_and!; [|by eapply only_validators_trans|].
    + intros c. eapply posted_eq; [eapply posted_trans; [apply P1|apply Q1]|]. by g_eq.
    + intros a. rewrite Q3. destruct (decide (a = val_Address x)) as [->|Hne].
      * rewrite lookup_insert_eq, Hx. rewrite decide_True by set_solver. done.
      * rewrite lookup_insert_ne by done. specialize (P3 a).
        destruct (validators (store s) !! a) as [v|] eqn:Hv, (validators (store s1) !! a); try done.
        assert (v ≠ x) as Hvx by (intros ->; by destruct (wf_validators s Hw a x Hv)).
        destruct (decide (v ∈ done)), (decide (v ∈ done ++ [x])); try done; exfalso; set_solver.
  - split_and!; [by intros; apply posted_0|apply only_validators_refl|].
    intros a. destruct (validators (store s) !! a); [|done]. rewrite decide_False; [done|set_solver].
Qed.

Lemma for_each_fold {S E A} (f : A → M S E unit) l s :
  for_each l f s = fold_m (λ (_ : unit) x, f x) () l s.
Proof.
  revert s. induction l as [|x l IH]; intros s; [done|]. rewrite for_each_cons, fold_m_cons.
  unfold mbind, M_bind. destruct (f x s) as [[[]|e] s1]; [apply IH|done].
Qed.

(** ** Lemmas: a parameter update *)

(** [p] is what the four spaces hold, in the store and in the caches. *)
Record params_at (s : FSM) (p : Params) : Prop := {
  pa_cons : params_cons (store s) = Some (Consensus p);
  pa_val : params_val (store s) = Some (Validator_ p);
  pa_fee : params_fee (store s) = Some (Fee p);
  pa_gov : params_gov (store s) = Some (Governance p);
  pa_cval : cache_valParams s = None ∨ cache_valParams s = Some (Validator_ p);
  pa_cfee : cache_feeParams s = None ∨ cache_feeParams s = Some (Fee p);
}.
Definition valid_params (p : Params) : Prop :=
  ps_Check (Consensus p) = Ok () ∧ ps_Check (Validator_ p) = Ok () ∧ ps_Check (Fee p) = Ok () ∧
  ps_Check (Governance p) = Ok () ∧ ResetCommittee (Consensus p) = 0.

(** Only the four spaces and their caches changed. *)
Definition erase_params (s : FSM) : FSM :=
  set_cache_feeParams None (set_cache_valParams None (set_store (set_params_gov None
    (set_params_fee None (set_params_val None (set_params_cons None (store s))))) s)).
Definition only_params (s s' : FSM) : Prop := erase_params s' = erase_params s.
Lemma only_params_ledger s s' : only_params s s' → same_ledger s s'.
Proof.
  intros H. split.
  - exact (f_equal (λ s, accounts (store s)) H).
  - exact (f_equal (λ s, pools (store s)) H).
  - exact (f_equal (λ s, validators (store s)) H).
  - exact (f_equal (λ s, supply (store s)) H).
  - exact (f_equal (λ s, orders (store s)) H).
  - exact (f_equal (λ s, locked_batch (store s)) H).
  - exact (f_equal (λ s, next_batch (store s)) H).
  - exact (f_equal cache_accounts H).
Qed.

(** Reading the parameters fills the caches. *)
Definition warm (p : Params) (s : FSM) : FSM :=
  set_cache_feeParams (Some (Fee p)) (set_cache_valParams (Some (Validator_ p)) s).
Lemma GetParams_run s p : params_at s p → GetParams s = (Ok p, warm p s).
Proof.
  intros [C V E G HV HF]. destruct p, s as [[]]; cbn in *. subst. by destruct HV as [->| ->], HF as [->| ->].
Qed.
Lemma warm_at s p : params_at s p → params_at (warm p s) p.
Proof. intros []. split; try done; by right. Qed.
Lemma warm_only s p : only_params s (warm p s).
Proof. done. Qed.

(** What the first half of [UpdateParam] establishes. *)
Definition updated (p p' : Params) (s s' : FSM) : Prop :=
  params_at s' p' ∧ only_params s s' ∧
  ps_Check (Consensus p') = Ok () ∧ ps_Check (Validator_ p') = Ok () ∧ ps_Check (Fee p') = Ok () ∧
  ps_Check (Governance p') = Ok ().

Lemma assign_run {A} `{ParamSpaceLaws A} (get : F A) pre (leave set : A → F unit) name v s sp u s' :
  get s = (Ok sp, s) → (∀ r s2, pre sp s = (r, s2) → s2 = s) →
  assign get pre leave set name v s = (Ok u, s') →
  pre sp s = (Ok (), s) ∧ ∃ sp', apply_value name v sp = (Ok (), sp') ∧ ps_Check sp' = Ok () ∧
    (leave sp' ≫= λ _, set sp') s = (Ok u, s').
Proof.
  intros Hget Hpre Hrun. unfold assign in Hrun. rewrite (bind_run_Ok _ _ _ _ _ Hget) in Hrun.
  apply bind_Ok in Hrun as ([] & s1 & Hp & Hrun). pose proof (Hpre _ _ Hp) as ->. split; [done|].
  destruct (apply_value name v sp) as [r sp'] eqn:Hv. apply bind_Ok in Hrun as ([] & s2 & Hl & Hrun).
  apply bind_Ok in Hrun as ([] & s3 & Hr & Hrun). unfold lift in Hr. injection Hr as -> <-.
  exists sp'. split_and!; [done|by eapply apply_value_checked|]. by rewrite (bind_run_Ok _ _ _ _ _ Hl).
Qed.

Lemma check_pending_pure name v sp s r s2 :
  check_pending name v sp s = (r, s2) → s2 = s ∧ ∀ s', height s' = height s → check_pending name v sp s' = (r, s').
Proof.
  unfold check_pending, lift. destruct v; try (intros [= <- <-]; done).
  destruct (String.eqb name "protocolVersion"); [|by intros [= <- <-]].
  destruct (ParseProtocolVersion sp) as [ver|e]; [|by intros [= <- <-]].
  runs. destruct (height s <? ver_Height ver) eqn:Hh; intros [= <- <-]; (split; [done|]); intros s' ->; by rewrite Hh.
Qed.

(** The four cases of the update, on a state whose caches are filled. *)
Lemma update_space_spec space name v p s u s1 :
  params_at s p → valid_params p →
  (if String.eqb space "cons" then
     assign GetParamsCons (check_pending name v) (λ _, mret ()) SetParamsCons name v
   else if String.eqb space "val" then
     assign GetParamsVal (λ _, mret ()) (λ p, modify (set_cache_valParams (Some p))) SetParamsVal name v
   else if String.eqb space "fee" then
     assign GetParamsFee (λ _, mret ()) (λ p, modify (set_cache_feeParams (Some p))) SetParamsFee name v
   else if String.eqb space "gov" then
     assign GetParamsGov (λ _, mret ()) (λ _, mret ()) SetParamsGov name v
   else throw ErrUnknownParamSpace) (warm p s) = (Ok u, s1) →
  ∃ p', updated p p' (warm p s) s1 ∧
    (if String.eqb space "cons" then
       (∃ x, apply_value name v (Consensus p) = (Ok (), x) ∧ p' = MkParams x (Validator_ p) (Fee p) (Governance p)) ∧
       check_pending name v (Consensus p) s = (Ok (), s)
     else if String.eqb space "val" then
       ∃ x, apply_value name v (Validator_ p) = (Ok (), x) ∧ p' = MkParams (Consensus p) x (Fee p) (Governance p)
     else if String.eqb space "fee" then
       ∃ x, apply_value name v (Fee p) = (Ok (), x) ∧ p' = MkParams (Consensus p) (Validator_ p) x (Governance p)
     else String.eqb space "gov" = true ∧
       ∃ x, apply_value name v (Governance p) = (Ok (), x) ∧ p' = MkParams (Consensus p) (Validator_ p) (Fee p) x).
Proof.
  intros Hp (C1 & C2 & C3 & C4 & _) Hrun. destruct (warm_at s p Hp) as [A1 A2 A3 A4 _ _].
  destruct (String.eqb space "cons"); [|destruct (String.eqb space "val"); [|destruct (String.eqb space "fee");
    [|destruct (String.eqb space "gov"); [|done]]]].
  all: eapply assign_run in Hrun; [|unfold GetParamsCons, GetParamsVal, GetParamsFee, GetParamsGov, getParams;
      runs; cbn in *; rewrite ?A1, ?A4; reflexivity|];
    [destruct Hrun as (Hpre & x & Hx & Hc & Hrun)|intros r s2; cbn; try (by intros [= _ <-]);
     intros Hpend; by apply check_pending_pure in Hpend as [-> _]].
  - exists (MkParams x (Validator_ p) (Fee p) (Governance p)).
    injection Hrun as _ <-. split; [|split; [eauto|by apply (check_pending_pure _ _ _ _ _ _ Hpre)]].
    split_and!; [split; cbn; auto|done..].
  - exists (MkParams (Consensus p) x (Fee p) (Governance p)). injection Hrun as _ <-. split; [|eauto].
    split_and!; [split; cbn; auto|done..].
  - exists (MkParams (Consensus p) (Validator_ p) x (Governance p)). injection Hrun as _ <-. split; [|eauto].
    split_and!; [split; cbn; auto|done..].
  - exists (MkParams (Consensus p) (Validator_ p) (Fee p) x). injection Hrun as _ <-. split; [|eauto].
    split_and!; [split; cbn; auto|done..].
Qed.

(** Tokens the dropped locked batch of a reset committee leaves in its holding pool. *)
Definition stranded (s : FSM) (r c : Z) : Z :=
  if r =? 0 then 0 else hit r c (at_key (λ _, batch_due) (locked_batch (store s)) r).
Definition d_stranded (s : FSM) (r c : Z) : gaps := Gaps 0 0 0 0 0 0 (stranded s r c).
Definition clear_reset (p : Params) : Params :=
  MkParams (set_ResetCommittee 0 (Consensus p)) (Validator_ p) (Fee p) (Governance p).

Lemma OverwriteCommitteeData_run d s :
  ∃ l, OverwriteCommitteeData d s = (Ok (), set_store (set_committees_data l (store s)) s).
Proof.
  unfold OverwriteCommitteeData, getCommitteeDataAndList, GetCommitteesData, SetCommitteesData. runs.
  destruct (find_committee_data _ _) as [[l d'] idx]. by eexists.
Qed.

Lemma ResetCommitteeData_spec p s p' s' :
  wf s → params_at s p → ResetCommitteeData p s = (Ok p', s') →
  p' = clear_reset p ∧ params_at s' p' ∧ validators (store s') = validators (store s) ∧ height s' = height s ∧
  ∀ c, posted c (d_stranded s (ResetCommittee (Consensus p)) c) s s'.
Proof.
  intros Hw Hp. unfold ResetCommitteeData, d_stranded, stranded.
  destruct (Z.eqb_spec (ResetCommittee (Consensus p)) 0) as [Hz|Hz]; cbn [negb].
  { intros [= <- <-]. assert (clear_reset p = p) as ->.
    { unfold clear_reset. destruct p as [[] ? ? ?]. cbn in *. by subst. }
    split_and!; [done..|]. intros c. by apply posted_0. }
  set (r := ResetCommittee (Consensus p)) in *.
  destruct (OverwriteCommitteeData_run (new_committee_data r) s) as (l & Hl).
  rewrite (bind_run_Ok _ _ _ _ _ Hl). runs. intros [= <- <-].
  split_and!; [done| |done|done|].
  { destruct Hp. split; cbn; auto. }
  intros c. split.
  - destruct Hw. by constructor.
  - books_step. unfold at_key, hit. destruct (Z.eqb_spec r c) as [->|Hne].
    + rewrite lookup_delete_eq. destruct (locked_batch (store s) !! c); lia.
    + rewrite lookup_delete_ne by done. destruct (locked_batch (store s) !! c); lia.
Qed.

Lemma only_validators_params s s' p : only_validators s s' → params_at s p → params_at s' p.
Proof. intros (?&?&?&?&?&?&->) []. by split. Qed.

(** The validators after an update from [prev] to [p]: those below a raised
    minimum were lined up for unstaking, and then each was cut down to a
    lowered maximum of committees. *)
Definition raised (prev p : Params) : bool :=
  (MinimumStakeForValidators (Validator_ prev) <? MinimumStakeForValidators (Validator_ p))
  || (MinimumStakeForDelegates (Validator_ prev) <? MinimumStakeForDelegates (Validator_ p)).
Definition lowered (prev p : Params) : bool :=
  negb (MaxCommittees (Validator_ prev) <=? MaxCommittees (Validator_ p)).
Definition conformed (prev p : Params) (h : Z) (s s' : FSM) : Prop :=
  let max := Z.to_nat (MaxCommittees (Validator_ p)) in
  map_Forall2 (λ _ v w, ∃ v1,
    (if raised prev p then evicted h (Validator_ p) v v1 else v1 = v) ∧
    (if lowered prev p then trimmed max v1 w ∧ (length (Committees w) <= max)%nat else w = v1))
    (validators (store s)) (validators (store s')).

Lemma map_Forall2_id {V} (R : V → V → Prop) (m : gmap bytes V) : (∀ v, R v v) → map_Forall2 (λ _, R) m m.
Proof. intros HR a. destruct (m !! a); by constructor. Qed.
Lemma map_Forall2_comp {V} (R S : V → V → Prop) (m1 m2 m3 : gmap bytes V) :
  map_Forall2 (λ _, R) m1 m2 → map_Forall2 (λ _, S) m2 m3 → map_Forall2 (λ _ v w, ∃ u, R v u ∧ S u w) m1 m3.
Proof.
  intros H1 H2 a. specialize (H1 a). specialize (H2 a).
  destruct (m1 !! a), (m2 !! a), (m3 !! a); inv H1; inv H2; constructor; eauto.
Qed.

Lemma ConformStateToParamUpdate_spec prev p s u s' :
  wf s → params_at s p → ConformStateToParamUpdate prev s = (Ok u, s') →
  params_at s' (clear_reset p) ∧ height s' = height s ∧ conformed prev (clear_reset p) (height s) s s' ∧
  ∀ c, posted c (d_stranded s (ResetCommittee (Consensus p)) c) s s'.
Proof.
  intros Hw Hp Hrun. unfold ConformStateToParamUpdate in Hrun.
  rewrite (bind_run_Ok _ _ _ _ _ (GetParams_run s p Hp)) in Hrun.
  pose proof (warm_at s p Hp) as Hp1. pose proof (only_params_ledger _ _ (warm_only s p)) as L1.
  pose proof (λ c, same_ledger_posted c _ _ Hw L1) as P1.
  apply bind_Ok in Hrun as (p2 & s2 & H2 & Hrun).
  apply ResetCommitteeData_spec in H2 as (-> & Hp2 & V2 & T2 & P2); [|apply (P1 0)|done].
  change (d_stranded (warm p s)) with (d_stranded s) in P2. change (validators (store (warm p s))) with (validators (store s)) in V2.
  change (height (warm p s)) with (height s) in T2.
  set (p2 := clear_reset p) in *.
  apply bind_Ok in Hrun as ([] & s3 & H3 & Hrun).
  assert (L3 : same_ledger s2 s3 ∧ params_at s3 p2 ∧ height s3 = height s2).
  { destruct (negb _); [|injection H3 as <-; by split_and!].
    unfold GetCommitteeData, getCommitteeDataAndList, GetCommitteesData in H3. runs in H3.
    destruct (find_committee_data _ _) as [[l d] idx]. cbn in H3.
    destruct (OverwriteCommitteeData_run (set_LastRootHeightUpdated 0 d) s2) as (l' & Hl).
    rewrite Hl in H3. injection H3 as <-. split_and!; [by split|destruct Hp2; by split|done]. }
  destruct L3 as (L3 & Hp3 & T3). pose proof (λ c, same_ledger_posted c _ _ (po_ok _ _ _ _ (P2 0)) L3) as P3.
  apply bind_Ok in Hrun as ([] & s4 & H4 & Hrun).
  assert (H4' : (∀ c, posted c g_zero s3 s4) ∧ only_validators s3 s4 ∧
      map_Forall2 (λ _ v w, if raised prev p2 then evicted (height s) (Validator_ p2) v w else w = v)
        (validators (store s3)) (validators (store s4))).
  { unfold raised. destruct (_ || _).
    - unfold GetValidators, getst, gets in H4. unfold mbind at 1, M_bind at 1 in H4. rewrite for_each_fold in H4.
      apply (validators_loop (evicted (height s3) (Validator_ p2))) in H4; [|clear|apply (P3 0)].
      { by rewrite T3, T2 in H4. }
      intros b v s b' s' Hw Hh Hv Hrun. apply bind_Ok in Hrun as (b2 & s2 & Hrun & [= _ <-]).
      rewrite <- Hh. by eapply evict_validators_spec.
    - injection H4 as <-. split_and!; [by intros; apply posted_0, (P3 0)|apply only_validators_refl|].
      by apply map_Forall2_id. }
  clear H4. destruct H4' as (P4 & O4 & M4). pose proof (only_validators_params _ _ _ O4 Hp3) as Hp4.
  assert (H5 : (∀ c, posted c g_zero s4 s') ∧ only_validators s4 s' ∧
      map_Forall2 (λ _ v w, if lowered prev p2 then trimmed (Z.to_nat (MaxCommittees (Validator_ p2))) v w ∧
          (length (Committees w) <= Z.to_nat (MaxCommittees (Validator_ p2)))%nat else w = v)
        (validators (store s4)) (validators (store s'))).
  { unfold lowered. change (MaxCommittees (Validator_ p2)) with (MaxCommittees (Validator_ p)) in *.
    destruct (Z.leb_spec (MaxCommittees (Validator_ prev)) (MaxCommittees (Validator_ p))); cbn [negb].
    - injection Hrun as _ <-. split_and!; [by intros; apply posted_0, (P4 0)|apply only_validators_refl|].
      by apply map_Forall2_id.
    - unfold GetValidators, getst, gets in Hrun. unfold mbind at 1, M_bind at 1 in Hrun.
      apply bind_Ok in Hrun as (i & s5 & Hrun & [= _ <-]).
      eapply validators_loop in Hrun; [exact Hrun| |apply (P4 0)].
      intros b v s5' b' s6 Hw5 _ Hv5 Hr. by eapply trim_validator_spec. }
  destruct H5 as (P5 & O5 & M5). split_and!.
  - by eapply only_validators_params.
  - destruct O4 as (?&?&?&?&?&?&->), O5 as (?&?&?&?&?&?&->). cbn. congruence.
  - unfold conformed. rewrite <- V2, <- (sl_validators _ _ L3). exact (map_Forall2_comp _ _ _ _ _ M4 M5).
  - intros c. eapply posted_eq; [eapply posted_trans; [apply P1|eapply posted_trans; [apply P2|eapply posted_trans;
      [apply P3|eapply posted_trans; [apply P4|apply P5]]]]|]. unfold d_stranded. g_eq.
Qed.

(** Only the reset parameter can ask for a reset. *)
Lemma cons_reset name v x x' :
  apply_value name v x = (Ok (), x') → ResetCommittee x = 0 → ResetCommittee x' ≠ 0 →
  name = "resetCommittee"%string ∧ v = UInt64Wrapper (ResetCommittee x').
Proof.
  destruct v as [n|str|]; cbn; [| |done].
  - unfold set_uint64, cons_switch, switch. cbn.
    destruct (String.eqb_spec name "blockSize"); [by intros [= _ <-]|].
    destruct (String.eqb_spec name "retired"); [by intros [= _ <-]|].
    destruct (String.eqb_spec name "rootChainID"); [by intros [= _ <-]|].
    destruct (String.eqb_spec name "resetCommittee"); [|done]. by intros [= _ <-].
  - unfold ConsensusParams_SetString. repeat case_match; try done. by intros [= _ <-].
Qed.

(** ** Theorems *)

(** C33. A parameter update that succeeds leaves every space passing its check,
    with the caches equal to the store and no committee reset pending; every
    validator below a raised minimum stake is lined up for unstaking and every
    validator over a lowered [MaxCommittees] keeps that many of its own
    committees, each at most once; no token moves, except that resetting a
    committee strands what its locked dex batch owed in the holding pool. *)
Theorem UpdateParam_conforms space name v p s u s' :
  wf s → params_at s p → valid_params p →
  UpdateParam space name v s = (Ok u, s') →
  ∃ p' r, params_at s' p' ∧ valid_params p' ∧ conformed p p' (height s) s s' ∧
    (∀ c, posted c (d_stranded s r c) s s') ∧
    (r ≠ 0 → space = "cons"%string ∧ name = "resetCommittee"%string ∧ v = UInt64Wrapper r).
Proof.
  intros Hw Hp HV Hrun. unfold UpdateParam in Hrun. rewrite (bind_run_Ok _ _ _ _ _ (GetParams_run s p Hp)) in Hrun.
  apply bind_Ok in Hrun as (u1 & s1 & H1 & Hrun).
  apply update_space_spec in H1 as (p1 & (A & O & C1 & C2 & C3 & C4) & Hcase); [|done..].
  pose proof (λ c, same_ledger_posted c _ _ Hw (only_params_ledger _ _ (O : only_params s s1))) as P1.
  pose proof (f_equal height O) as Hh. pose proof (f_equal (λ s, validators (store s)) O) as Hvs.
  pose proof (f_equal (λ s, locked_batch (store s)) O) as Hlk. cbn in Hh, Hvs, Hlk.
  apply (ConformStateToParamUpdate_spec _ p1) in Hrun as (A' & _ & Hconf & P2); [|apply (P1 0)|done].
  exists (clear_reset p1), (ResetCommittee (Consensus p1)). split_and!; [done|by split_and!| | |].
  - unfold conformed in *. by rewrite Hvs, Hh in Hconf.
  - intros c. eapply posted_eq; [eapply posted_trans; [apply P1|apply P2]|].
    unfold d_stranded, stranded. rewrite Hlk. g_eq.
  - intros Hr. destruct HV as (_ & _ & _ & _ & Hz). destruct (String.eqb_spec space "cons") as [->|].
    + destruct Hcase as [(x & Hx & ->) _]. split; [done|]. by eapply cons_reset.
    + exfalso. apply Hr. destruct (String.eqb space "val"); [by destruct Hcase as (x & _ & ->)|].
      destruct (String.eqb space "fee"); [by destruct Hcase as (x & _ & ->)|]. by destruct Hcase as (_ & x & _ & ->).
Qed.

(** C34. An accepted protocol upgrade follows the active version by one, is only
    accepted once the active version is in force, and switches no feature
    before its activation height. *)
Theorem protocol_upgrade_gated str p s u s' old :
  wf s → params_at s p → valid_params p →
  ParseProtocolVersion (Consensus p) = Ok old → 0 <= ver_Version old < u64_max →
  UpdateParam "cons" "protocolVersion" (StringWrapper str) s = (Ok u, s') →
  ver_Height old <= height s ∧
  ∃ new, checkProtocolVersion str = Ok new ∧ ver_Version new = ver_Version old + 1 ∧
    ver_Height old < ver_Height new ∧
    ∀ required, feature_enabled required s' =
      if height s <? ver_Height new then feature_enabled required s else required <=? ver_Version new.
Proof.
  intros Hw Hp HV Hold Hr Hrun. unfold UpdateParam in Hrun. rewrite (bind_run_Ok _ _ _ _ _ (GetParams_run s p Hp)) in Hrun.
  apply bind_Ok in Hrun as (u1 & s1 & H1 & Hrun).
  apply update_space_spec in H1 as (p1 & (A & O & _) & Hcase); [|done..].
  pose proof (λ c, same_ledger_posted c _ _ Hw (only_params_ledger _ _ (O : only_params s s1))) as P1.
  pose proof (f_equal height O) as Hh. cbn in Hh.
  apply (ConformStateToParamUpdate_spec _ p1) in Hrun as (A' & Hh' & _); [|apply (P1 0)|done].
  destruct Hcase as [(x & Hx & ->) Hpend].
  unfold check_pending, lift in Hpend. cbn [String.eqb Ascii.eqb Bool.eqb] in Hpend. rewrite Hold in Hpend. runs in Hpend.
  destruct (Z.ltb_spec (height s) (ver_Height old)) as [|Hle]; [done|]. split; [done|].
  cbn in Hx. unfold ConsensusParams_SetString in Hx. cbn [String.eqb Ascii.eqb Bool.eqb] in Hx.
  destruct (checkProtocolVersion str) as [new|] eqn:Hnew; [|done].
  unfold ParseProtocolVersion in Hold. rewrite Hold in Hx. rewrite u64_add_small in Hx by u64.
  destruct (_ || _) eqn:Hc; [done|]. injection Hx as _ <-. zify_bools. exists new. split_and!; [done..|].
  intros required. unfold feature_enabled. rewrite (pa_cons _ _ A'), (pa_cons _ _ Hp). cbn [Consensus clear_reset].
  unfold ParseProtocolVersion. cbn [ProtocolVersion set_ProtocolVersion set_ResetCommittee]. rewrite Hnew, Hold, Hh', Hh.
  destruct (Z.ltb_spec (height s) (ver_Height new)) as [Hlt|]; [|done].
  destruct (Z.ltb_spec (height s) (ver_Height old)); [lia|].
  destruct (Z.eqb_spec (ver_Version new) 0); [lia|]. rewrite u64_sub_small by u64. f_equal. lia.
Qed.

(** ** Witnesses *)

Definition demo_gov_params : Params :=
  MkParams (MkConsensusParams 2000 "1/0" 1 0 0) demo_val demo_fee (MkGovernanceParams 10).
Definition demo_gov : FSM := set_store (set_params_cons (Some (Consensus demo_gov_params)) demo_store) demo.
Definition demo_cut : FSM := snd (UpdateParam "val" "maxCommittees" (UInt64Wrapper 1) demo_gov).
Definition demo_upgrade : FSM := snd (UpdateParam "cons" "protocolVersion" (StringWrapper "2/9") demo_gov).

Lemma demo_gov_wf : wf demo_gov.
Proof. constructor; unfold wf_supply; decide_now. Qed.
Lemma demo_gov_at : params_at demo_gov demo_gov_params.
Proof. split; try done; by left. Qed.
Lemma demo_gov_valid : valid_params demo_gov_params.
Proof. by vm_compute. Qed.

(** The delegate of two committees keeps one. *)
Example demo_cut_delegate : (λ v, Committees v) <$> validators (store demo_cut) !! del1 = Some [1].
Proof. vm_compute. reflexivity. Qed.

Lemma UpdateParam_conforms_witness :
  ∃ p' r, params_at demo_cut p' ∧ valid_params p' ∧ conformed demo_gov_params p' 5 demo_gov demo_cut ∧
    (∀ c, posted c (d_stranded demo_gov r c) demo_gov demo_cut) ∧
    (r ≠ 0 → "val" = "cons" ∧ "maxCommittees" = "resetCommittee" ∧ UInt64Wrapper 1 = UInt64Wrapper r)%string.
Proof.
  apply (UpdateParam_conforms "val" "maxCommittees" (UInt64Wrapper 1) demo_gov_params demo_gov ());
    [exact demo_gov_wf|exact demo_gov_at|exact demo_gov_valid|run_now].
Defined.
Lemma protocol_upgrade_gated_witness :
  0 <= 5 ∧ ∃ new, checkProtocolVersion "2/9" = Ok new ∧ ver_Version new = 1 + 1 ∧ 0 < ver_Height new ∧
    ∀ required, feature_enabled required demo_upgrade =
      if 5 <? ver_Height new then feature_enabled required demo_gov else required <=? ver_Version new.
Proof.
  apply (protocol_upgrade_gated "2/9" demo_gov_params demo_gov () demo_upgrade (MkVersion 0 1));
    [exact demo_gov_wf|exact demo_gov_at|exact demo_gov_valid|reflexivity|by vm_compute|run_now].
Defined.
