(* ===== verification/Automatic.v ===== *)
(** * Certificate results and the automatic state changes of a block
    ([fsm/automatic.go], the checkpoints of [store/indexer.go], the historical
    views of [fsm/state.go])

    What the state machine does with a quorum certificate, and what it runs at
    the beginning and at the end of every block. *)
From Stdlib Require Import String.
From S2P Require Import Prelude LibUtil State Ledger Params Crypto Account Validator Committee Byzantine Swap.
From S2P Require Import Quorum Certificate Dex Fixtures Gov.
#[local] Open Scope Z_scope.

(** ** Checkpoints *)

Definition IndexCheckpoint (chainId : Z) (checkpoint : Checkpoint) : F unit :=
  upd (λ st, set_checkpoints (<[(chainId, cp_Height checkpoint) := cp_BlockHash checkpoint]> (checkpoints st)) st).
(** The reverse iterator of a chain's checkpoints starts at the greatest height. *)
Definition most_recent (chainId : Z) (st : Store) : Checkpoint :=
  match sorted_by (λ a b, b.1.2 <=? a.1.2)
          (filter (λ e : Z * Z * bytes, e.1.1 = chainId) (map_to_list (checkpoints st))) with
  | [] => MkCheckpoint 0 []
  | (k, blockHash) :: _ => MkCheckpoint k.2 blockHash
  end.
Definition GetMostRecentCheckpoint (chainId : Z) : F Checkpoint := getst (most_recent chainId).

Definition HandleCheckpoint (chainId : Z) (results : CertificateResult) : F unit :=
  match cr_Checkpoint results with
  | None => mret ()
  | Some checkpoint =>
      if bool_decide (cp_BlockHash checkpoint = []) then mret () else
      mostRecentCheckpoint ← GetMostRecentCheckpoint chainId;
      fail_if (cp_Height checkpoint <=? cp_Height mostRecentCheckpoint) ErrInvalidCheckpoint;;
      IndexCheckpoint chainId checkpoint
  end.

(** ** Last proposers *)

Definition UpdateLastProposers (address : bytes) : F unit :=
  list ← getst last_proposers;
  let addresses := match list with [] => replicate 5 [] | _ => list end in
  h ← Height;
  let index := Z.to_nat (h mod 5) in
  fail_if (length addresses <=? index)%nat ErrPanic;;
  upd (set_last_proposers (<[index := address]> addresses)).

(** ** Historical views

    The committed versions of the state and the indexed certificates are read
    through the versioned store and the indexer, which are not modelled. *)
Class History : Type := {
  (** [store.NewReadOnly(height)] *)
  NewReadOnly : Z → result ErrorI Store;
  (** [GetQCByHeight] *)
  GetQCByHeight : Z → result ErrorI QuorumCertificate;
}.

Section automatic.
Context `{Crypto, Multisig, Codec, History}.

(** A machine over the state at [h]; 0 and heights to come mean the latest. *)
Definition TimeMachine (h : Z) : F FSM := λ s,
  let h := if (h =? 0) || (height s <? h) then height s else h in
  if h =? 0 then (Ok s, s)
  else match NewReadOnly h with
       | Err e => (Err e, s)
       | Ok st => (Ok (MkFSM st h (fsm_ProtocolVersion s) ∅ ∅ None None None [] (config s)), s)
       end.
Definition consensus_validator (v : Validator) : ConsensusValidator :=
  MkConsensusValidator (val_PublicKey v) (StakedAmount v) (val_NetAddress v).
Definition LoadCommittee (chainId h : Z) : F ValidatorSet :=
  historicalFSM ← TimeMachine h;
  lift (members ← fst (GetCommitteeMembers chainId historicalFSM);
        NewValidatorSet (Some (map consensus_validator members)) false).
Definition LoadRootChainId (h : Z) : F Z :=
  historicalFSM ← TimeMachine h;
  lift (fst (GetRootChainId historicalFSM)).
Definition LoadCertificate (h : Z) : F QuorumCertificate :=
  lift (GetQCByHeight (if h <=? 1 then 1 else h)).

(** ** Certificate results *)

(** The payments of the results, each reduced by the power that did not sign. *)
Definition reduced_payments (nonSignerPercent : Z) (rr : RewardRecipients) : list PaymentPercents :=
  map (λ p, set_pay_Percent (Uint64ReducePercentage (pay_Percent p) nonSignerPercent) p) (PaymentPercentsList rr).

Definition HandleCertificateResults (qc : option QuorumCertificate) (committee : option ValidatorSet) : F unit :=
  match qc with
  | None => throw ErrNilCertResults
  | Some qc =>
  match Results qc with
  | None => throw ErrNilCertResults
  | Some results =>
  match Header qc with
  | None => throw ErrEmptyView
  | Some header =>
  match cr_RewardRecipients results with
  | None => throw ErrNilRewardRecipients
  | Some rewardRecipients =>
      let chainId := view_ChainId header in
      retired ← CommitteeIsRetired chainId;
      fail_if retired ErrNonSubsidizedCommittee;;
      data ← GetCommitteeData chainId;
      fail_if (RootHeight header <? LastRootHeightUpdated data) ErrInvalidQCRootChainHeight;;
      fail_if (view_Height header <=? LastChainHeightUpdated data) ErrInvalidQCCommitteeHeight;;
      let isNested := match committee with None => true | Some _ => false end in
      cfg ← gets config;
      when (negb (chainId =? ChainId cfg) || isNested) (HandleDexBatch chainId results isNested);;
      HandleCommitteeSwaps (cr_Orders results) chainId;;
      HandleCheckpoint chainId results;;
      nonSignerPercent ← (match committee with
        | None => mret 0
        | Some vs => HandleByzantine chainId (qc_GetNonSigners qc (Some (vs_Validators vs))) (cr_SlashRecipients results)
        end);
      when (cr_Retired results && negb (chainId =? ChainId cfg)) (RetireCommittee chainId);;
      UpsertCommitteeData (MkCommitteeData chainId (RootHeight header) (view_Height header)
        (reduced_payments nonSignerPercent rewardRecipients) 0)
  end end end end.

(** ** The beginning and the end of a block, without a plugin *)

(** [s.events.Reset()] *)
Definition reset_events : F (list Event) := λ s, (Ok (events s), set_events [] s).

Definition BeginBlock : F (list Event) :=
  h ← Height;
  if h <=? 1 then mret [] else
  CheckProtocolVersion;;
  FundCommitteeRewardPools;;
  lastCertificate ← LoadCertificate (u64_sub h 1);
  rootChainId ← LoadRootChainId (u64_sub h 1);
  cfg ← gets config;
  (if negb (ChainId cfg =? rootChainId) then HandleCertificateResults (Some lastCertificate) None
   else
     lastValidatorSet ← LoadCommittee (ChainId cfg) (u64_sub h 1);
     HandleCertificateResults (Some lastCertificate) (Some lastValidatorSet));;
  reset_events.

Definition EndBlock (proposerAddress : bytes) : F (list Event) :=
  UpdateLastProposers proposerAddress;;
  DistributeCommitteeRewards;;
  ForceUnstakeMaxPaused;;
  DeleteFinishedUnstaking;;
  IncludeSameBlockDex;;
  reset_events.

(** ** Lemmas: no certificate twice *)

(** The data the state keeps of a committee. *)
Definition committee_data (chainId : Z) (s : FSM) : CommitteeData :=
  snd (fst (find_committee_data chainId (committees_data (store s)))).

Lemma UpsertCommitteeData_heights new s u s' :
  UpsertCommitteeData new s = (Ok u, s') →
  LastChainHeightUpdated (committee_data (cd_ChainId new) s) < LastChainHeightUpdated new ∧
  LastRootHeightUpdated (committee_data (cd_ChainId new) s) <= LastRootHeightUpdated new ∧
  LastChainHeightUpdated (committee_data (cd_ChainId new) s') = LastChainHeightUpdated new ∧
  LastRootHeightUpdated (committee_data (cd_ChainId new) s') = LastRootHeightUpdated new ∧
  s' = set_store (set_committees_data (committees_data (store s')) (store s)) s.
Proof.
  unfold UpsertCommitteeData, getCommitteeDataAndList, GetCommitteesData, getst, committee_data.
  destruct (find_committee_data (cd_ChainId new) (committees_data (store s))) as [[l' old] idx] eqn:Hf.
  rewrite (bind_run_Ok _ _ _ (l', old, idx) s) by (runs; by rewrite Hf).
  intros Hrun. apply bind_Ok in Hrun as (? & ? & [G1 ->]%fail_if_Ok & Hrun).
  apply bind_Ok in Hrun as (? & ? & [G2 ->]%fail_if_Ok & Hrun).
  rewrite (bind_run_Ok _ _ _ (config s) s) in Hrun by done.
  apply bind_Ok in Hrun as (t & ? & [= Hc ->] & Hrun).
  unfold SetCommitteesData, upd, modify in Hrun. injection Hrun as _ <-. zify_bools.
  unfold Combine in Hc. destruct (combine_percents _ _ _) as [l|]; [|done]. destruct (_ =? u64_max); [done|].
  injection Hc as <-. cbn [store set_store committees_data set_committees_data fst snd].
  rewrite (find_after_update _ _ _ _ _ _ Hf) by done. by split_and!.
Qed.

(** What a certificate that was handled established. *)
Lemma HandleCertificateResults_Ok qc committee s u s' :
  HandleCertificateResults (Some qc) committee s = (Ok u, s') →
  ∃ header, Header qc = Some header ∧ view_ChainId header ∉ retired (store s) ∧
    LastChainHeightUpdated (committee_data (view_ChainId header) s) < view_Height header ∧
    LastChainHeightUpdated (committee_data (view_ChainId header) s') = view_Height header ∧
    LastRootHeightUpdated (committee_data (view_ChainId header) s') = RootHeight header.
Proof.
  unfold HandleCertificateResults. destruct (Results qc) as [results|]; [|done].
  destruct (Header qc) as [header|]; [|done]. destruct (cr_RewardRecipients results) as [rr|]; [|done].
  intros Hrun. exists header. split; [done|].
  unfold CommitteeIsRetired, getst, gets in Hrun. unfold mbind at 1, M_bind at 1 in Hrun.
  apply bind_Ok in Hrun as (? & ? & [Hret ->]%fail_if_Ok & Hrun).
  rewrite (bind_run_Ok _ _ _ _ _ (GetCommitteeData_run _ _)) in Hrun. fold (committee_data (view_ChainId header) s) in Hrun.
  apply bind_Ok in Hrun as (? & ? & [_ ->]%fail_if_Ok & Hrun).
  apply bind_Ok in Hrun as (? & ? & [Hh ->]%fail_if_Ok & Hrun). zify_bools.
  rewrite (bind_run_Ok _ _ _ (config s) s) in Hrun by done.
  do 5 (apply bind_Ok in Hrun as (? & ? & _ & Hrun)).
  apply UpsertCommitteeData_heights in Hrun as (_ & _ & ? & ? & _). by split_and!.
Qed.

(** A certificate that is not newer than the committee's data changes nothing. *)
Lemma HandleCertificateResults_stale qc committee s header :
  Header qc = Some header →
  view_Height header <= LastChainHeightUpdated (committee_data (view_ChainId header) s) ∨
    view_ChainId header ∈ retired (store s) →
  ∃ e, HandleCertificateResults (Some qc) committee s = (Err e, s).
Proof.
  intros Hh Hold. unfold HandleCertificateResults. rewrite Hh.
  destruct (Results qc) as [results|]; [|by eexists]. destruct (cr_RewardRecipients results) as [rr|]; [|by eexists].
  unfold CommitteeIsRetired, getst, gets. unfold mbind at 1, M_bind at 1.
  destruct (decide (view_ChainId header ∈ retired (store s))) as [Hr|Hr].
  { rewrite bool_decide_true by done. by eexists. }
  destruct Hold as [Hold%Z.leb_le|]; [|done]. rewrite bool_decide_false by done.
  rewrite (bind_run_Ok _ _ _ () s) by done. rewrite (bind_run_Ok _ _ _ _ _ (GetCommitteeData_run _ _)).
  fold (committee_data (view_ChainId header) s). destruct (_ <? _); [by eexists|].
  rewrite (bind_run_Ok _ _ _ () s) by done. rewrite Hold. by eexists.
Qed.


(** ** Checkpoints *)

Definition chain_checkpoints (ch : Z) (st : Store) : list (Z * Z * bytes) :=
  filter (λ e : Z * Z * bytes, e.1.1 = ch) (map_to_list (checkpoints st)).
Lemma elem_of_chain_checkpoints ch st e :
  e ∈ chain_checkpoints ch st ↔ e.1.1 = ch ∧ checkpoints st !! (ch, e.1.2) = Some e.2.
Proof.
  destruct e as [[c h] b]. unfold chain_checkpoints. rewrite list_elem_of_filter, elem_of_map_to_list. cbn.
  split; [intros [-> ?]|intros [-> ?]]; done.
Qed.
Lemma most_recent_spec ch st :
  (∀ h b, checkpoints st !! (ch, h) = Some b → h <= cp_Height (most_recent ch st)) ∧
  ((∀ h, checkpoints st !! (ch, h) = None) ∧ most_recent ch st = MkCheckpoint 0 [] ∨
   checkpoints st !! (ch, cp_Height (most_recent ch st)) = Some (cp_BlockHash (most_recent ch st))).
Proof.
  unfold most_recent. fold (chain_checkpoints ch st). set (le := λ a b : Z * Z * bytes, b.1.2 <=? a.1.2).
  pose proof (sorted_by_Sorted le (chain_checkpoints ch st)) as Hs.
  assert (Hin : ∀ e, e ∈ sorted_by le (chain_checkpoints ch st) ↔ e ∈ chain_checkpoints ch st)
    by (intros e; apply elem_of_sorted_by).
  destruct (sorted_by le (chain_checkpoints ch st)) as [|[k b] l].
  - assert (Hno : ∀ h b, checkpoints st !! (ch, h) ≠ Some b).
    { intros h b Hb. assert (((ch, h), b) ∈ []) as He; [|by inv He].
      apply Hin, elem_of_chain_checkpoints. done. }
    split; [intros h b Hb; by destruct (Hno h b)|]. left. split; [|done]. intros h.
    destruct (checkpoints st !! (ch, h)) eqn:Hb; [|done]. by destruct (Hno h _ Hb).
  - cbn [cp_Height cp_BlockHash]. split.
    + intros h b' Hb. assert (((ch, h), b') ∈ (k, b) :: l) as He by (apply Hin, elem_of_chain_checkpoints; done).
      assert (StronglySorted (λ a b, le a b = true) ((k, b) :: l)) as HS.
      { apply Hs; unfold le; intros.
        - destruct (Z.leb_spec a.1.2 b0.1.2); [by right|left; apply Z.leb_le; lia].
        - apply Z.leb_le. repeat match goal with Hle : (_ <=? _) = true |- _ => apply Z.leb_le in Hle end. lia. }
      inv HS as [|? ? _ Hall]. apply elem_of_cons in He as [[= <- _]|He]; [cbn; lia|].
      rewrite Forall_forall in Hall. specialize (Hall _ He). unfold le in Hall. cbn in Hall.
      by apply Z.leb_le in Hall.
    + right. assert ((k, b) ∈ chain_checkpoints ch st) as [_ Hk]%elem_of_chain_checkpoints by (apply Hin; set_solver). done.
Qed.

(** Checkpoints are append-only: an indexed checkpoint is above every earlier one
    of its chain, replaces none, and becomes the most recent. *)
Theorem checkpoints_append_only ch results cp s u s' :
  cr_Checkpoint results = Some cp → cp_BlockHash cp ≠ [] →
  HandleCheckpoint ch results s = (Ok u, s') →
  (∀ h b, checkpoints (store s) !! (ch, h) = Some b → h < cp_Height cp) ∧
  checkpoints (store s) ⊆ checkpoints (store s') ∧ most_recent ch (store s') = cp.
Proof.
  intros Hcp Hne Hrun. unfold HandleCheckpoint in Hrun. rewrite Hcp, bool_decide_false in Hrun by done.
  unfold GetMostRecentCheckpoint, getst in Hrun. rewrite (bind_run_Ok _ _ _ (most_recent ch (store s)) s) in Hrun by done.
  apply bind_Ok in Hrun as (? & ? & [Hlt%Z.leb_gt ->]%fail_if_Ok & Hrun). injection Hrun as _ <-. cbn.
  destruct (most_recent_spec ch (store s)) as [Hge _].
  assert (Hold : ∀ h b, checkpoints (store s) !! (ch, h) = Some b → h < cp_Height cp) by (intros h b Hb; specialize (Hge h b Hb); lia).
  assert (Hfree : checkpoints (store s) !! (ch, cp_Height cp) = None).
  { destruct (checkpoints (store s) !! (ch, cp_Height cp)) eqn:Hb; [|done]. apply Hold in Hb. lia. }
  split_and!; [done|by apply insert_subseteq|].
  set (st := set_checkpoints _ _).
  assert (Hst : checkpoints st = <[(ch, cp_Height cp) := cp_BlockHash cp]> (checkpoints (store s))) by done. clearbody st.
  destruct (most_recent_spec ch st) as [Hge' [[Hno _]|Hin]]; rewrite Hst in *.
  { specialize (Hno (cp_Height cp)). by rewrite lookup_insert_eq in Hno. }
  specialize (Hge' _ _ (lookup_insert_eq _ _ _)).
  destruct (decide (cp_Height (most_recent ch st) = cp_Height cp)) as [Heq|Hneq].
  - rewrite Heq, lookup_insert_eq in Hin. injection Hin as Hb. destruct cp, (most_recent ch st). cbn in *. by subst.
  - rewrite lookup_insert_ne in Hin by congruence. apply Hold in Hin. lia.
Qed.
End automatic.

(** ** Witnesses *)

Definition toy_history : History := {| NewReadOnly := λ _, Err ErrTimeMachine; GetQCByHeight := λ _, Err ErrNilCertResults |}.
Definition demo_header (h : Z) : View := MkView 1 1 h 3 0 PRECOMMIT_VOTE.
Definition demo_qc (h : Z) : QuorumCertificate :=
  MkQuorumCertificate (Some (demo_header h))
    (Some (MkCertificateResult (Some (MkRewardRecipients [MkPaymentPercents bob 100 1] 0)) None None
      (Some (MkCheckpoint 6 [x09])) false None None)) [] [] [] [] None.
#[local] Existing Instances toy_crypto toy_multisig toy_codec toy_history.
Definition demo_handled : FSM := snd (HandleCertificateResults (Some (demo_qc 5)) None demo).

Example demo_checkpoint : most_recent 1 (store demo_handled) = MkCheckpoint 6 [x09].
Proof. vm_compute. reflexivity. Qed.
