(* ===== verification/Hex.v ===== *)
(** * Hexadecimal strings ([lib/util.go], [lib/crypto/address.go] over [encoding/hex])

    Strings are ASCII: [TrimSpace] and [ToLower] are those of Go on ASCII
    input.  The hex text of a hash is a [string], its bytes a [bytes]. *)
From Stdlib Require Import String.
From S2P Require Import Prelude State Crypto.
#[local] Open Scope Z_scope.

(** [hex.DecodeString]: both cases of the digits, an even number of them. *)
Definition hex_value (c : byte) : option Z :=
  let n := byte_to_Z c in
  if (48 <=? n) && (n <=? 57) then Some (n - 48)
  else if (97 <=? n) && (n <=? 102) then Some (n - 87)
  else if (65 <=? n) && (n <=? 70) then Some (n - 55)
  else None.
Fixpoint DecodeString (s : bytes) : option bytes :=
  match s with
  | [] => Some []
  | a :: b :: rest =>
      x ← hex_value a; y ← hex_value b; bz ← DecodeString rest;
      Some (byte_of_Z (16 * x + y) :: bz)
  | [_] => None
  end.

(** [lib.BytesToString] and [lib.StringToBytes] *)
Definition BytesToString (b : bytes) : string := string_of_list_byte (EncodeToString b).
Definition StringToBytes (s : string) : result ErrorI bytes :=
  match DecodeString (list_byte_of_string s) with
  | None => Err ErrStringToBytes
  | Some b => Ok b
  end.
(** [crypto.NewAddressFromString]; [None] is its error. *)
Definition NewAddressFromString (hexString : bytes) : option bytes := DecodeString hexString.

(** [strings.TrimSpace], [strings.ToLower] and [strings.TrimPrefix] *)
Definition is_space (c : byte) : bool :=
  let n := byte_to_Z c in ((9 <=? n) && (n <=? 13)) || (n =? 32).
Fixpoint trim_left (s : bytes) : bytes :=
  match s with
  | [] => []
  | c :: rest => if is_space c then trim_left rest else s
  end.
Definition TrimSpace (s : bytes) : bytes := reverse (trim_left (reverse (trim_left s))).
Definition ToLower (s : bytes) : bytes :=
  map (λ c, let n := byte_to_Z c in if (65 <=? n) && (n <=? 90) then byte_of_Z (n + 32) else c) s.
Definition TrimPrefix (s prefix : bytes) : bytes :=
  if bool_decide (take (length prefix) s = prefix) then drop (length prefix) s else s.

Lemma hex_byte c :
  hex_value (hex_digit (byte_to_Z c / 16)) = Some (byte_to_Z c / 16) ∧
  hex_value (hex_digit (byte_to_Z c mod 16)) = Some (byte_to_Z c mod 16) ∧
  byte_of_Z (16 * (byte_to_Z c / 16) + byte_to_Z c mod 16) = c.
Proof. destruct c; vm_compute; done. Qed.

(** Decoding what was encoded. *)
Lemma DecodeString_EncodeToString b : DecodeString (EncodeToString b) = Some b.
Proof.
  induction b as [|c b IH]; [done|]. destruct (hex_byte c) as (H1 & H2 & H3).
  change (EncodeToString (c :: b)) with
    (hex_digit (byte_to_Z c / 16) :: hex_digit (byte_to_Z c mod 16) :: EncodeToString b).
  cbn [DecodeString]. rewrite H1, H2, IH. cbn. by rewrite H3.
Qed.
Lemma StringToBytes_BytesToString b : StringToBytes (BytesToString b) = Ok b.
Proof.
  unfold StringToBytes, BytesToString. by rewrite list_byte_of_string_of_list_byte, DecodeString_EncodeToString.
Qed.
Lemma BytesToString_inj a b : BytesToString a = BytesToString b → a = b.
Proof.
  intros Heq. assert (StringToBytes (BytesToString a) = StringToBytes (BytesToString b)) as Hs by congruence.
  rewrite !StringToBytes_BytesToString in Hs. congruence.
Qed.
