(* ===== verification/Message.v ===== *)
(** * Transaction payloads ([fsm/message.go], [fsm/message_helpers.go])

    The sixteen messages, their stateless checks, their authorized signers, fees
    and handlers. *)
From Stdlib Require Import String Ascii.
From stdpp Require Import strings.
From S2P Require Import Prelude LibUtil State Ledger Params Crypto Account Validator Committee Byzantine Swap.
From S2P Require Import Quorum Certificate Dex Tx Fixtures Gov NetUrl Hex Automatic.
#[local] Open Scope Z_scope.

(** ** The messages of [message.proto] *)

Record MessageSend : Type := MkMsgSend {
  ms_FromAddress : bytes; ms_ToAddress : bytes; ms_Amount : Z;
  ms_VestingStartHeight : Z; ms_VestingCliffHeight : Z; ms_VestingEndHeight : Z }.
Record MessageStake : Type := MkMsgStake {
  st_PublicKey : bytes; st_Amount : Z; st_Committees : list Z; st_NetAddress : string;
  st_OutputAddress : bytes; st_Delegate : bool; st_Compound : bool; st_Signer : bytes }.
Record MessageEditStake : Type := MkMsgEditStake {
  es_Address : bytes; es_Amount : Z; es_Committees : list Z; es_NetAddress : string;
  es_OutputAddress : bytes; es_Compound : bool; es_Signer : bytes }.
Record MessageUnstake : Type := MkMsgUnstake { un_Address : bytes }.
Record MessagePause : Type := MkMsgPause { pa_Address : bytes }.
Record MessageUnpause : Type := MkMsgUnpause { up_Address : bytes }.
Record MessageChangeParameter : Type := MkMsgChangeParameter {
  cp_ParameterSpace : string; cp_ParameterKey : string; cp_ParameterValue : option Any;
  cp_StartHeight : Z; cp_EndHeight : Z; cp_Signer : bytes; cp_ProposalHash : string }.
Record MessageDAOTransfer : Type := MkMsgDAOTransfer {
  dt_Address : bytes; dt_Amount : Z; dt_Mint : bool; dt_StartHeight : Z; dt_EndHeight : Z;
  dt_ProposalHash : string }.
Record MessageCertificateResults : Type := MkMsgCertificateResults { cr_Qc : option QuorumCertificate }.
Record MessageSubsidy : Type := MkMsgSubsidy {
  su_Address : bytes; su_ChainId : Z; su_Amount : Z; su_Opcode : bytes }.

Inductive Message : Type :=
| MSend (x : MessageSend)
| MStake (x : MessageStake)
| MEditStake (x : MessageEditStake)
| MUnstake (x : MessageUnstake)
| MPause (x : MessagePause)
| MUnpause (x : MessageUnpause)
| MChangeParameter (x : MessageChangeParameter)
| MDAOTransfer (x : MessageDAOTransfer)
| MCertificateResults (x : MessageCertificateResults)
| MSubsidy (x : MessageSubsidy)
| MCreateOrder (x : MessageCreateOrder)
| MEditOrder (x : MessageEditOrder)
| MDeleteOrder (x : MessageDeleteOrder)
| MDexLimitOrder (x : MessageDexLimitOrder)
| MDexLiquidityDeposit (x : MessageDexLiquidityDeposit)
| MDexLiquidityWithdraw (x : MessageDexLiquidityWithdraw).

(** What [lib.FromAny] finds in an [Any]: the protobuf registry is a parameter. *)
Inductive AnyContent : Type := AnyMessage (m : Message) | AnyParam (v : ParamValue) | AnyOther.
Class AnyCodec : Type := { FromAny : Any → result ErrorI AnyContent }.

(** ** Checks on fields *)

Definition ReservedIDs : list Z := [UnknownChainId; DAOPoolID].

Definition ensureEmpty (b : bytes) : result ErrorI unit := check_not (negb (len b =? 0)) ErrNotEmpty.
Definition checkAmount (amount : Z) : result ErrorI unit := check_not (amount =? 0) ErrInvalidAmount.
Definition checkPercent (percent : Z) : result ErrorI unit :=
  check_not (percent =? 0) ErrInvalidPercentAllocation;;
  check_not (100 <? percent) ErrInvalidPercentAllocation.
(** A nil slice and an empty one are not told apart. *)
Definition checkAddress (address : bytes) : result ErrorI unit :=
  check_not (bool_decide (address = [])) ErrAddressEmpty;;
  check_not (negb (len address =? AddressSize)) ErrAddressSize.
Definition checkExternalAddress (address : bytes) : result ErrorI unit :=
  let addressLen := len address in
  check_not ((addressLen =? 0) || (255 <? addressLen)) ErrAddressSize.
Definition checkOutputAddress (output : bytes) : result ErrorI unit :=
  check_not (bool_decide (output = [])) ErrOutputAddressEmpty;;
  check_not (negb (len output =? AddressSize)) ErrOutputAddressSize.
Definition checkPubKey (publicKey : bytes) (delegate : bool) : result ErrorI unit :=
  check_not (bool_decide (publicKey = [])) ErrPublicKeyEmpty;;
  if negb delegate then check_not (negb (len publicKey =? BLS12381PubKeySize)) ErrPublicKeySize else Ok ().
Definition checkChainId (i : Z) : result ErrorI unit :=
  check_not (bool_decide (i ∈ ReservedIDs)) ErrInvalidChainId;;
  check_not (MaxChainId <? i) ErrInvalidChainId.
Fixpoint check_committees (seen : list Z) (committees : list Z) : result ErrorI unit :=
  match committees with
  | [] => Ok ()
  | committee :: rest =>
      check_not (bool_decide (committee ∈ seen)) ErrInvalidNumCommittees;;
      checkChainId committee;;
      check_committees (committee :: seen) rest
  end.
Definition checkCommittees (committees : list Z) : result ErrorI unit :=
  let numCommittees := len committees in
  check_not ((1000 <? numCommittees) || (numCommittees =? 0)) ErrInvalidNumCommittees;;
  check_committees [] committees.
Definition checkStartEndHeight (startHeight endHeight : Z) : result ErrorI unit :=
  check_not (endHeight <=? startHeight) ErrInvalidBlockRange;;
  check_not (10000 <? u64_sub endHeight startHeight) ErrInvalidBlockRange.
Definition CheckNetAddress (netAddress : string) (isDelegate : bool) : result ErrorI unit :=
  let netAddressLen := Z.of_nat (String.length netAddress) in
  if isDelegate then check_not (negb (netAddressLen =? 0)) ErrInvalidNetAddressLen
  else
    check_not ((netAddressLen <? 1) || (255 <? netAddressLen)) ErrInvalidNetAddressLen;;
    check_not (negb (ValidNetURLInput netAddress)) ErrInvalidStateNetAddress.
Fixpoint check_locks (seen : gset bytes) (l : list (option LockOrderMsg)) : result ErrorI unit :=
  match l with
  | [] => Ok ()
  | None :: _ => Err ErrInvalidLockOrder
  | Some lockOrder :: rest =>
      let '(found, seen) := Found seen (lo_OrderId lockOrder) in
      check_not found ErrDuplicateLockOrder;;
      checkAddress (lo_BuyerReceiveAddress lockOrder);;
      check_not (lo_BuyerChainDeadline lockOrder =? 0) ErrInvalidBuyerDeadline;;
      check_locks seen rest
  end.
Definition checkOrders (orders : option Orders) : result ErrorI unit :=
  match orders with
  | None => Ok ()
  | Some orders =>
      check_locks ∅ (LockOrders orders);;
      check_distinct ErrInvalidCloseOrder ∅ (ResetOrders orders);;
      check_distinct ErrInvalidCloseOrder ∅ (CloseOrders orders)
  end.

(** ** The [Check] methods *)

Section checks.
Context `{Crypto, Multisig, Codec}.

Definition MessageSend_Check (x : MessageSend) : result ErrorI unit :=
  checkAddress (ms_FromAddress x);;
  check_not (bool_decide (ms_ToAddress x = [])) ErrRecipientAddressEmpty;;
  check_not (negb (len (ms_ToAddress x) =? AddressSize)) ErrRecipientAddressSize;;
  checkAmount (ms_Amount x);;
  if (ms_VestingStartHeight x =? 0) && (ms_VestingCliffHeight x =? 0) && (ms_VestingEndHeight x =? 0) then Ok ()
  else
    check_not (ms_VestingEndHeight x <=? ms_VestingStartHeight x) ErrInvalidVesting;;
    check_not ((ms_VestingCliffHeight x <? ms_VestingStartHeight x)
      || (ms_VestingEndHeight x <? ms_VestingCliffHeight x)) ErrInvalidVesting.
Definition MessageStake_Check (x : MessageStake) : result ErrorI unit :=
  checkOutputAddress (st_OutputAddress x);;
  checkPubKey (st_PublicKey x) (st_Delegate x);;
  checkCommittees (st_Committees x);;
  ensureEmpty (st_Signer x);;
  checkAmount (st_Amount x).
Definition MessageEditStake_Check (x : MessageEditStake) : result ErrorI unit :=
  checkAddress (es_Address x);;
  checkOutputAddress (es_OutputAddress x);;
  checkCommittees (es_Committees x);;
  ensureEmpty (es_Signer x);;
  checkAmount (es_Amount x).
Definition MessageChangeParameter_Check (x : MessageChangeParameter) : result ErrorI unit :=
  checkAddress (cp_Signer x);;
  check_not (bool_decide (cp_ParameterKey x = EmptyString)) ErrParamKeyEmpty;;
  check_not (is_nil (cp_ParameterValue x)) ErrParamValueEmpty;;
  checkStartEndHeight (cp_StartHeight x) (cp_EndHeight x);;
  check_not (negb (bool_decide (cp_ProposalHash x = EmptyString))) ErrInvalidProposalHash.
Definition MessageDAOTransfer_Check (x : MessageDAOTransfer) : result ErrorI unit :=
  checkAddress (dt_Address x);;
  checkStartEndHeight (dt_StartHeight x) (dt_EndHeight x);;
  check_not (negb (bool_decide (dt_ProposalHash x = EmptyString))) ErrInvalidProposalHash;;
  checkAmount (dt_Amount x).
Definition MessageCertificateResults_Check (x : MessageCertificateResults) : result ErrorI unit :=
  match cr_Qc x with
  | None => Err ErrEmptyQuorumCertificate
  | Some qc =>
      QuorumCertificate_CheckBasic qc;;
      match Results qc, Header qc with
      | None, _ => Err ErrEmptyCertificateResults
      | Some _, None => Err ErrPanic
      | Some results, Some header =>
          check_not (negb (bool_decide (qc_Block qc = []))) ErrNilBlock;;
          checkChainId (view_ChainId header);;
          RewardRecipients_CheckBasic (cr_RewardRecipients results);;
          check_not (match cr_RewardRecipients results with
                     | Some rr => negb (rr_NumberOfSamples rr =? 0)
                     | None => false
                     end) ErrInvalidNumOfSamples;;
          check_not (match cr_Checkpoint results with
                     | Some checkpoint => 100 <? len (cp_BlockHash checkpoint)
                     | None => false
                     end) ErrInvalidBlockHash;;
          checkOrders (cr_Orders results)
      end
  end.
Definition MessageSubsidy_Check (x : MessageSubsidy) : result ErrorI unit :=
  checkAddress (su_Address x);;
  check_not (100 <? len (su_Opcode x)) ErrInvalidOpcode.
Definition MessageCreateOrder_Check (x : MessageCreateOrder) : result ErrorI unit :=
  checkChainId (co_ChainId x);;
  check_not (100 <? len (co_Data x)) ErrInvalidOpcode;;
  check_not ((co_AmountForSale x =? 0) || (co_RequestedAmount x =? 0)) ErrInvalidAmount;;
  ensureEmpty (co_OrderId x);;
  checkAddress (co_SellersSendAddress x);;
  checkExternalAddress (co_SellerReceiveAddress x).
Definition MessageEditOrder_Check (x : MessageEditOrder) : result ErrorI unit :=
  checkChainId (eo_ChainId x);;
  check_not (100 <? len (eo_Data x)) ErrInvalidOpcode;;
  check_not ((eo_AmountForSale x =? 0) || (eo_RequestedAmount x =? 0)) ErrInvalidAmount;;
  checkExternalAddress (eo_SellerReceiveAddress x).
Definition MessageDexLimitOrder_Check (x : MessageDexLimitOrder) : result ErrorI unit :=
  checkAddress (dl_Address x);;
  checkAmount (dl_AmountForSale x);;
  checkAmount (dl_RequestedAmount x);;
  checkChainId (dl_ChainId x).
Definition MessageDexLiquidityDeposit_Check (x : MessageDexLiquidityDeposit) : result ErrorI unit :=
  checkAddress (dd_Address x);;
  checkAmount (dd_Amount x);;
  checkChainId (dd_ChainId x).
Definition MessageDexLiquidityWithdraw_Check (x : MessageDexLiquidityWithdraw) : result ErrorI unit :=
  checkAddress (dw_Address x);;
  checkPercent (dw_Percent x);;
  checkChainId (dw_ChainId x).

Definition Check (msg : Message) : result ErrorI unit :=
  match msg with
  | MSend x => MessageSend_Check x
  | MStake x => MessageStake_Check x
  | MEditStake x => MessageEditStake_Check x
  | MUnstake x => checkAddress (un_Address x)
  | MPause x => checkAddress (pa_Address x)
  | MUnpause x => checkAddress (up_Address x)
  | MChangeParameter x => MessageChangeParameter_Check x
  | MDAOTransfer x => MessageDAOTransfer_Check x
  | MCertificateResults x => MessageCertificateResults_Check x
  | MSubsidy x => MessageSubsidy_Check x
  | MCreateOrder x => MessageCreateOrder_Check x
  | MEditOrder x => MessageEditOrder_Check x
  | MDeleteOrder x => checkChainId (do_ChainId x)
  | MDexLimitOrder x => MessageDexLimitOrder_Check x
  | MDexLiquidityDeposit x => MessageDexLiquidityDeposit_Check x
  | MDexLiquidityWithdraw x => MessageDexLiquidityWithdraw_Check x
  end.
End checks.

Definition Name (msg : Message) : string :=
  match msg with
  | MSend _ => "send" | MStake _ => "stake" | MEditStake _ => "editStake" | MUnstake _ => "unstake"
  | MPause _ => "pause" | MUnpause _ => "unpause" | MChangeParameter _ => "changeParameter"
  | MDAOTransfer _ => "daoTransfer" | MCertificateResults _ => "certificateResults" | MSubsidy _ => "subsidy"
  | MCreateOrder _ => "createOrder" | MEditOrder _ => "editOrder" | MDeleteOrder _ => "deleteOrder"
  | MDexLimitOrder _ => "dexLimitOrder" | MDexLiquidityDeposit _ => "dexLiquidityDeposit"
  | MDexLiquidityWithdraw _ => "dexLiquidityWithdraw"
  end.
Definition Recipient (msg : Message) : bytes := match msg with MSend x => ms_ToAddress x | _ => [] end.

(** ** Vesting sends and the faucet ([fsm/account.go]) *)

Definition ValidateAccountAddWithVesting (msg : MessageSend) : F unit :=
  acc ← GetAccount (ms_ToAddress msg);
  h ← Height;
  fail_if (negb (VestingAmount acc =? 0) && negb (AccountLockedAmount h acc =? 0)
    && (negb (VestingStartHeight acc =? ms_VestingStartHeight msg)
        || negb (VestingCliffHeight acc =? ms_VestingCliffHeight msg)
        || negb (VestingEndHeight acc =? ms_VestingEndHeight msg))) ErrIncompatibleVesting.
(** The lock of the second test is that of the account with its new amount. *)
Definition AccountAddWithVesting (msg : MessageSend) : F unit :=
  acc ← GetAccount (ms_ToAddress msg);
  fail_if ((u64_sub u64_max (ms_Amount msg) <? acc_Amount acc)
    || (u64_sub u64_max (ms_Amount msg) <? VestingAmount acc)) ErrInvalidAmount;;
  ValidateAccountAddWithVesting msg;;
  h ← Height;
  let acc := set_acc_Amount (u64_add (acc_Amount acc) (ms_Amount msg)) acc in
  if (VestingAmount acc =? 0) || (AccountLockedAmount h acc =? 0) then
    SetAccount (MkAccount (acc_Address acc) (acc_Amount acc) (ms_Amount msg) (ms_VestingStartHeight msg)
      (ms_VestingCliffHeight msg) (ms_VestingEndHeight msg))
  else
    SetAccount (MkAccount (acc_Address acc) (acc_Amount acc) (u64_add (VestingAmount acc) (ms_Amount msg))
      (VestingStartHeight acc) (VestingCliffHeight acc) (VestingEndHeight acc)).

(** Mint what the faucet's own sends lack. *)
Definition maybeFaucetTopUpForSendTx (sender : bytes) (required : Z) : F unit :=
  cfg ← gets config;
  let faucetStr := TrimSpace (list_byte_of_string (FaucetAddress cfg)) in
  if bool_decide (faucetStr = []) then mret () else
  let faucetStr := TrimPrefix (ToLower faucetStr) (list_byte_of_string "0x") in
  match NewAddressFromString faucetStr with
  | None => throw ErrInvalidAddress
  | Some faucetAddr =>
      fail_if (negb (len faucetAddr =? AddressSize)) ErrAddressSize;;
      if negb (bool_decide (sender = faucetAddr)) then mret () else
      bal ← GetAccountSpendableBalance sender;
      if required <=? bal then mret () else MintToAccount sender (u64_sub required bal)
  end.

(** ** The handlers *)

(** The node: its network, and the validator sets it keeps by root height and
    chain ([s.LastValidatorSet]). *)
Class Node : Type := {
  NetworkID : Z;
  LastValidatorSet : Z → Z → option ValidatorSet;
}.

(** A message's approval, any reason against it reported as a rejection. *)
Definition approved `{VoteConfig} (startHeight endHeight : Z) (proposalHash : string) : F unit := λ s,
  match ApproveProposal startHeight endHeight proposalHash s with
  | (Err _, s) => (Err ErrRejectProposal, s)
  | r => r
  end.

Section handlers.
Context `{Crypto, Multisig, Codec, History, VoteConfig, AnyCodec, Node}.

Definition HandleMessageSend (msg : MessageSend) : F unit :=
  let vesting := negb (ms_VestingStartHeight msg =? 0) || negb (ms_VestingEndHeight msg =? 0) in
  when vesting (ValidateAccountAddWithVesting msg);;
  AccountSub (ms_FromAddress msg) (ms_Amount msg);;
  if vesting then AccountAddWithVesting msg else AccountAdd (ms_ToAddress msg) (ms_Amount msg).

Definition HandleMessageStake (msg : MessageStake) : F unit :=
  match NewPublicKeyFromBytes (st_PublicKey msg) with
  | None => throw ErrInvalidPublicKey
  | Some publicKey =>
      fail_if (negb (st_Delegate msg) && negb (is_BLS12381 publicKey)) ErrInvalidPublicKey;;
      lift (CheckNetAddress (st_NetAddress msg) (st_Delegate msg));;
      let address := pk_Address publicKey in
      exist ← GetValidatorExists address;
      fail_if exist ErrValidatorExists;;
      params ← GetParamsVal;
      fail_if (st_Amount msg <? (if st_Delegate msg then MinimumStakeForDelegates params
                                 else MinimumStakeForValidators params)) ErrStakeBelowMininum;;
      AccountSub (st_Signer msg) (st_Amount msg);;
      AddToStakedSupply (st_Amount msg);;
      (if st_Delegate msg then
         AddToDelegateSupply (st_Amount msg);;
         SetDelegations address (st_Amount msg) (st_Committees msg)
       else SetCommittees address (st_Amount msg) (st_Committees msg));;
      SetValidator (MkValidator address (pk_Bytes publicKey) (st_NetAddress msg) (st_Amount msg) (st_Committees msg)
        0 0 (st_OutputAddress msg) (st_Delegate msg) (st_Compound msg))
  end.

Definition HandleMessageEditStake (msg : MessageEditStake) : F unit :=
  val ← GetValidator (es_Address msg);
  lift (CheckNetAddress (es_NetAddress msg) (Delegate val));;
  fail_if (negb (UnstakingHeight val =? 0)) ErrValidatorUnstaking;;
  fail_if (negb (bool_decide (val_Output val = es_OutputAddress msg))
    && negb (bool_decide (val_Output val = es_Signer msg))) ErrUnauthorizedTx;;
  let amountToAdd := if es_Amount msg <=? StakedAmount val then 0 else u64_sub (es_Amount msg) (StakedAmount val) in
  AccountSub (es_Signer msg) amountToAdd;;
  UpdateValidatorStake (MkValidator (val_Address val) (val_PublicKey val) (es_NetAddress msg) (StakedAmount val)
    (Committees val) (MaxPausedHeight val) (UnstakingHeight val) (es_OutputAddress msg) (Delegate val)
    (es_Compound msg)) (es_Committees msg) amountToAdd.

(** [lib.FromAny] of a nil value is an error. *)
Definition HandleMessageChangeParameter (msg : MessageChangeParameter) : F unit :=
  approved (cp_StartHeight msg) (cp_EndHeight msg) (cp_ProposalHash msg);;
  match cp_ParameterValue msg with
  | None => throw ErrFromAny
  | Some any =>
      protoMsg ← lift (FromAny any);
      UpdateParam (cp_ParameterSpace msg) (cp_ParameterKey msg)
        (match protoMsg with AnyParam v => v | _ => OtherValue end)
  end.

Definition HandleMessageDAOTransfer (msg : MessageDAOTransfer) : F unit :=
  approved (dt_StartHeight msg) (dt_EndHeight msg) (dt_ProposalHash msg);;
  when (dt_Mint msg) (MintToPool DAOPoolID (dt_Amount msg));;
  PoolSub DAOPoolID (dt_Amount msg);;
  AccountAdd (dt_Address msg) (dt_Amount msg).

(** The set of the cache, or that of the committee at the certificate's root height. *)
Definition certificate_committee (chainId rootHeight : Z) : F ValidatorSet :=
  match LastValidatorSet (u64_add rootHeight 1) chainId with
  | Some committee => mret committee
  | None => LoadCommittee chainId rootHeight
  end.
Definition HandleMessageCertificateResults (msg : MessageCertificateResults) : F unit :=
  rootChainId ← GetRootChainId;
  cfg ← gets config;
  match cr_Qc msg with
  | None => throw ErrPanic
  | Some qc =>
  match Header qc with
  | None => throw ErrPanic
  | Some header =>
      let chainId := view_ChainId header in
      fail_if ((chainId =? rootChainId) || (chainId =? ChainId cfg)) ErrInvalidCertificateResults;;
      committee ← certificate_committee chainId (RootHeight header);
      isPartialQC ← lift (QuorumCertificate_Check qc committee 0 (MkView NetworkID chainId 0 0 0 UNKNOWN) false);
      fail_if isPartialQC ErrNoMaj23;;
      HandleCertificateResults (Some qc) (Some committee)
  end end.

Definition HandleMessageSubsidy (msg : MessageSubsidy) : F unit :=
  retired ← CommitteeIsRetired (su_ChainId msg);
  fail_if retired ErrNonSubsidizedCommittee;;
  AccountSub (su_Address msg) (su_Amount msg);;
  PoolAdd (su_ChainId msg) (su_Amount msg).

Definition HandleMessage (msg : Message) : F unit :=
  match msg with
  | MSend x => HandleMessageSend x
  | MStake x => HandleMessageStake x
  | MEditStake x => HandleMessageEditStake x
  | MUnstake x => HandleMessageUnstake (un_Address x)
  | MPause x => HandleMessagePause (pa_Address x)
  | MUnpause x => HandleMessageUnpause (up_Address x)
  | MChangeParameter x => HandleMessageChangeParameter x
  | MDAOTransfer x => HandleMessageDAOTransfer x
  | MCertificateResults x => HandleMessageCertificateResults x
  | MSubsidy x => HandleMessageSubsidy x
  | MCreateOrder x => HandleMessageCreateOrder x
  | MEditOrder x => HandleMessageEditOrder x
  | MDeleteOrder x => HandleMessageDeleteOrder x
  | MDexLimitOrder x => HandleMessageDexLimitOrder x
  | MDexLiquidityDeposit x => HandleMessageDexLiquidityDeposit x
  | MDexLiquidityWithdraw x => HandleMessageDexLiquidityWithdraw x
  end.

(** ** Fees and authorized signers *)

Definition fee_of (name : string) (feeParams : FeeParams) : result ErrorI Z :=
  match switch name [
    ("send", SendFee feeParams); ("stake", StakeFee feeParams); ("editStake", EditStakeFee feeParams);
    ("unstake", UnstakeFee feeParams); ("pause", PauseFee feeParams); ("unpause", UnpauseFee feeParams);
    ("changeParameter", ChangeParameterFee feeParams); ("daoTransfer", DaoTransferFee feeParams);
    ("certificateResults", CertificateResultsFee feeParams); ("subsidy", SubsidyFee feeParams);
    ("createOrder", CreateOrderFee feeParams); ("editOrder", EditOrderFee feeParams);
    ("deleteOrder", DeleteOrderFee feeParams); ("dexLimitOrder", DexLimitOrderFee feeParams);
    ("dexLiquidityDeposit", DexLiquidityDepositFee feeParams);
    ("dexLiquidityWithdraw", DexLiquidityWithdrawFee feeParams)]%string
  with
  | Some fee => Ok fee
  | None => Err ErrUnknownMessageName
  end.
Definition GetFeeForMessageName (name : string) : F Z :=
  feeParams ← GetParamsFee;
  lift (fee_of name feeParams).

Definition pubKeyBytesToAddress (public : bytes) : result ErrorI bytes :=
  match NewPublicKeyFromBytes public with
  | None => Err ErrInvalidPublicKey
  | Some pk => Ok (pk_Address pk)
  end.
Definition order_signers (orderId : bytes) (chainId : Z) : F (list bytes) :=
  order ← GetOrder orderId chainId;
  mret [SellersSendAddress order].
Definition GetAuthorizedSignersFor (msg : Message) : F (list bytes) :=
  match msg with
  | MSend x => mret [ms_FromAddress x]
  | MStake x => address ← lift (pubKeyBytesToAddress (st_PublicKey x)); mret [address; st_OutputAddress x]
  | MEditStake x => GetAuthorizedSignersForValidator (es_Address x)
  | MUnstake x => GetAuthorizedSignersForValidator (un_Address x)
  | MPause x => GetAuthorizedSignersForValidator (pa_Address x)
  | MUnpause x => GetAuthorizedSignersForValidator (up_Address x)
  | MChangeParameter x => mret [cp_Signer x]
  | MDAOTransfer x => mret [dt_Address x]
  | MSubsidy x => mret [su_Address x]
  | MCertificateResults x =>
      match cr_Qc x with
      | None => throw ErrPanic
      | Some qc => address ← lift (pubKeyBytesToAddress (ProposerKey qc)); mret [address]
      end
  | MCreateOrder x => mret [co_SellersSendAddress x]
  | MEditOrder x => order_signers (eo_OrderId x) (eo_ChainId x)
  | MDeleteOrder x => order_signers (do_OrderId x) (do_ChainId x)
  | MDexLimitOrder x => mret [dl_Address x]
  | MDexLiquidityDeposit x => mret [dd_Address x]
  | MDexLiquidityWithdraw x => mret [dw_Address x]
  end.
End handlers.
