(* ===== verification/Batch.v ===== *)
(** * Batch verification of signatures ([lib/crypto/key_batch.go])

    The signatures of a block, kept by kind of key in eight lists per kind that
    eight threads verify.  Signature schemes are third-party code, a parameter:
    verification of one signature, the Ed25519 batch verifier, and the shared
    cache of signatures found valid, of which only the hits matter here. *)
From S2P Require Import Prelude State Crypto.
#[local] Open Scope Z_scope.

(** The decoded key types; a BLS multi-key is verified with the BLS keys. *)
Inductive KeyKind : Type := ED25519 | ETHSECP256K1 | SECP256K1 | BLS12381 | OtherKey.
#[export] Instance KeyKind_eq_dec : EqDecision KeyKind.
Proof. solve_decision. Defined.

Record BatchTuple : Type := MkBatchTuple {
  bt_PublicKey : PublicKey; bt_Message : bytes; bt_Signature : bytes; bt_index : nat }.

Class SigScheme : Type := {
  (** the dynamic type of a [PublicKeyI] *)
  key_kind : PublicKey → KeyKind;
  (** [PublicKeyI.VerifyBytes] *)
  VerifySig : PublicKey → bytes → bytes → bool;
  (** [VerifyBatchOnly] of the Ed25519 library on a list of tuples *)
  VerifyBatchOnly : list BatchTuple → bool;
  (** [SignatureCache.Get] finds the key *)
  cache_hit : bytes → bool;
}.

(** [BatchTuple.Key] *)
Definition Key (bt : BatchTuple) : bytes := pk_Bytes (bt_PublicKey bt) ++ bt_Message bt ++ bt_Signature bt.

Record BatchVerifier : Type := MkBatchVerifier {
  ed25519 : list (list BatchTuple);
  ethSecp256k1 : list (list BatchTuple);
  secp256k1 : list (list BatchTuple);
  bls12381 : list (list BatchTuple);
  count : nat;
  noOp : bool;
}.
(** [NewBatchVerifier()] and [NewBatchVerifier(true)] *)
Definition NewBatchVerifier : BatchVerifier :=
  MkBatchVerifier (replicate 8 []) (replicate 8 []) (replicate 8 []) (replicate 8 []) 0 false.
Definition NoOpBatchVerifier : BatchVerifier := MkBatchVerifier [] [] [] [] 0 true.

Section batch.
Context `{SigScheme}.

Definition valid (t : BatchTuple) : bool := VerifySig (bt_PublicKey t) (bt_Message t) (bt_Signature t).

(** [None] is the error "unrecognized public key format". *)
Definition Add (b : BatchVerifier) (pk : PublicKey) (message signature : bytes) : option BatchVerifier :=
  if noOp b then Some b else
  let t := MkBatchTuple pk message signature (count b) in
  let put := alter (λ l, l ++ [t]) (count b mod 8)%nat in
  match key_kind pk with
  | ED25519 => Some (MkBatchVerifier (put (ed25519 b)) (ethSecp256k1 b) (secp256k1 b) (bls12381 b) (S (count b)) false)
  | ETHSECP256K1 => Some (MkBatchVerifier (ed25519 b) (put (ethSecp256k1 b)) (secp256k1 b) (bls12381 b) (S (count b)) false)
  | SECP256K1 => Some (MkBatchVerifier (ed25519 b) (ethSecp256k1 b) (put (secp256k1 b)) (bls12381 b) (S (count b)) false)
  | BLS12381 => Some (MkBatchVerifier (ed25519 b) (ethSecp256k1 b) (secp256k1 b) (put (bls12381 b)) (S (count b)) false)
  | OtherKey => None
  end.

(** The closure [verifyBatch] of [verifyAll]. *)
Definition verifyBatch (tuples : list BatchTuple) : list nat :=
  map bt_index (filter (λ t, valid t = false) tuples).
Definition verify_ed25519 (l : list BatchTuple) : list nat :=
  let notInCache := filter (λ t, cache_hit (Key t) = false) l in
  if bool_decide (notInCache = []) then []
  else if VerifyBatchOnly notInCache then [] else verifyBatch l.
Definition verifyAll (b : BatchVerifier) (idx : nat) : list nat :=
  verify_ed25519 (nth idx (ed25519 b) []) ++ verifyBatch (nth idx (ethSecp256k1 b) []) ++
  verifyBatch (nth idx (secp256k1 b) []) ++ verifyBatch (nth idx (bls12381 b) []).
(** The threads finish in any order; the indices are sorted at the end. *)
Definition Verify (b : BatchVerifier) : list nat :=
  if noOp b then [] else sorted_by Nat.leb (concat (map (verifyAll b) (seq 0 8))).

(** ** What the libraries promise *)

(** A batch that passes holds valid signatures only. *)
Class SigSchemeLaws : Prop := {
  VerifyBatchOnly_sound : ∀ l, VerifyBatchOnly l = true → Forall (λ t, valid t = true) l;
}.
Context `{!SigSchemeLaws}.
(** A tuple that hits the cache is valid. *)
Definition cache_sound (l : list BatchTuple) : Prop := Forall (λ t, cache_hit (Key t) = true → valid t = true) l.

(** ** Lemmas *)

Lemma verify_ed25519_each l : cache_sound l → verify_ed25519 l = verifyBatch l.
Proof.
  unfold verify_ed25519. set (fresh := filter (λ t, cache_hit (Key t) = false) l). intros Hcs.
  assert (Hok : ∀ t, t ∈ l → Forall (λ t, valid t = true) fresh → valid t = true).
  { intros t Ht Hf. rewrite Forall_forall in Hf. unfold cache_sound in Hcs. rewrite Forall_forall in Hcs.
    destruct (cache_hit (Key t)) eqn:Hc; [by apply Hcs|]. apply Hf, list_elem_of_filter. done. }
  assert (Hnone : Forall (λ t, valid t = true) fresh → [] = verifyBatch l).
  { intros Hf. unfold verifyBatch.
    destruct (filter (λ t, valid t = false) l) as [|t l'] eqn:Hl; [done|].
    assert (t ∈ filter (λ t, valid t = false) l) as [Hv Ht]%list_elem_of_filter by (rewrite Hl; left).
    by rewrite (Hok t Ht Hf) in Hv. }
  case_bool_decide as Hnil; [apply Hnone; rewrite Hnil; constructor|].
  destruct (VerifyBatchOnly fresh) eqn:Hb; [|done]. by apply Hnone, VerifyBatchOnly_sound.
Qed.
Lemma verifyBatch_app l1 l2 : verifyBatch (l1 ++ l2) = verifyBatch l1 ++ verifyBatch l2.
Proof. unfold verifyBatch. by rewrite filter_app, map_app. Qed.
Lemma verifyBatch_concat ls : verifyBatch (concat ls) = concat (map verifyBatch ls).
Proof. induction ls as [|l ls IH]; [done|]. cbn [concat map]. by rewrite verifyBatch_app, IH. Qed.
Lemma verifyBatch_perm l1 l2 : l1 ≡ₚ l2 → verifyBatch l1 ≡ₚ verifyBatch l2.
Proof. intros Hp. unfold verifyBatch. by rewrite Hp. Qed.

(** The tuples of a verifier. *)
Definition tuples (b : BatchVerifier) : list BatchTuple :=
  concat (ed25519 b) ++ concat (ethSecp256k1 b) ++ concat (secp256k1 b) ++ concat (bls12381 b).
Definition shaped (b : BatchVerifier) : Prop :=
  length (ed25519 b) = 8%nat ∧ length (ethSecp256k1 b) = 8%nat ∧ length (secp256k1 b) = 8%nat ∧
  length (bls12381 b) = 8%nat ∧ noOp b = false.

Lemma concat_nth {A} (ls : list (list A)) n :
  length ls = n → concat (map (λ i, nth i ls []) (seq 0 n)) = concat ls.
Proof.
  intros <-. f_equal. apply list_eq. intros i. rewrite list_lookup_fmap.
  destruct (decide (i < length ls)%nat) as [Hi|Hi].
  - rewrite lookup_seq_lt by done. cbn. destruct (lookup_lt_is_Some_2 ls i Hi) as [x Hx].
    rewrite Hx. f_equal. by apply nth_lookup_Some.
  - rewrite lookup_seq_ge by lia. cbn. symmetry. apply lookup_ge_None. lia.
Qed.
Lemma concat_alter {A} (ls : list (list A)) i t :
  (i < length ls)%nat → concat (alter (λ l, l ++ [t]) i ls) ≡ₚ t :: concat ls.
Proof.
  revert i. induction ls as [|l ls IH]; intros i Hi; cbn in *; [lia|]. destruct i as [|i]; cbn.
  - rewrite <- app_assoc. cbn. by rewrite Permutation_middle.
  - rewrite IH by lia. by rewrite Permutation_middle.
Qed.

Lemma Add_spec b pk m sig b' :
  shaped b → Add b pk m sig = Some b' →
  shaped b' ∧ count b' = S (count b) ∧ tuples b' ≡ₚ MkBatchTuple pk m sig (count b) :: tuples b.
Proof.
  intros (H1 & H2 & H3 & H4 & Hop) Hadd. unfold Add in Hadd. rewrite Hop in Hadd.
  assert (Hi : (count b mod 8 < 8)%nat) by (apply Nat.mod_upper_bound; lia).
  unfold tuples, shaped. set (t := MkBatchTuple pk m sig (count b)) in *.
  destruct (key_kind pk); [..|done]; injection Hadd as <-; cbn -[Nat.modulo]; rewrite ?length_alter;
    (split; [done|split; [done|]]); rewrite concat_alter by lia; solve_Permutation.
Qed.

(** Adding tuples in turn. *)
Fixpoint add_all (b : BatchVerifier) (l : list (PublicKey * bytes * bytes)) : option BatchVerifier :=
  match l with
  | [] => Some b
  | (pk, m, sig) :: l => b ← Add b pk m sig; add_all b l
  end.
Definition valid_at (l : list (PublicKey * bytes * bytes)) (i : nat) : bool :=
  match l !! i with Some (pk, m, sig) => VerifySig pk m sig | None => true end.
Definition tuple_at (l : list (PublicKey * bytes * bytes)) : list BatchTuple :=
  imap (λ i '(pk, m, sig), MkBatchTuple pk m sig i) l.

Lemma add_all_spec l : ∀ b b',
  shaped b → add_all b l = Some b' →
  shaped b' ∧ tuples b' ≡ₚ imap (λ i '(pk, m, sig), MkBatchTuple pk m sig (count b + i)) l ++ tuples b.
Proof.
  induction l as [|[[pk m] sig] l IH]; intros b b' Hs Hadd; [by injection Hadd as <-|].
  cbn [add_all] in Hadd. destruct (Add b pk m sig) as [b1|] eqn:H1; [|done]. cbn in Hadd.
  destruct (Add_spec _ _ _ _ _ Hs H1) as (Hs1 & Hc & Hp). destruct (IH _ _ Hs1 Hadd) as [Hs' Hp'].
  split; [done|]. rewrite Hp', Hp, imap_cons, Hc, Nat.add_0_r, <- app_comm_cons, <- Permutation_middle. f_equiv.
  f_equiv. apply reflexive_eq, imap_ext. intros i [[pk' m'] sig'] _. cbn. f_equal. lia.
Qed.
Lemma add_all_count l : ∀ b b', shaped b → add_all b l = Some b' → count b' = (count b + length l)%nat.
Proof.
  induction l as [|[[pk m] sig] l IH]; intros b b' Hs Hadd; [by injection Hadd as <-; cbn; lia|].
  cbn [add_all] in Hadd. destruct (Add b pk m sig) as [b1|] eqn:H1; [|done]. cbn in Hadd.
  destruct (Add_spec _ _ _ _ _ Hs H1) as (Hs1 & Hc & _). rewrite (IH _ _ Hs1 Hadd), Hc. cbn. lia.
Qed.
Lemma Verify_sorted b : StronglySorted le (Verify b).
Proof.
  unfold Verify. destruct (noOp b); [constructor|].
  assert (Hs : StronglySorted (λ a b, Nat.leb a b = true) (sorted_by Nat.leb (concat (map (verifyAll b) (seq 0 8))))).
  { apply sorted_by_Sorted; intros *; rewrite !Nat.leb_le; lia. }
  induction Hs as [|x l Hs IH HF]; constructor; [done|]. eapply Forall_impl; [exact HF|]. intros y. apply Nat.leb_le.
Qed.
Lemma seq_sorted i n : StronglySorted le (seq i n).
Proof.
  revert i. induction n as [|n IH]; intros i; cbn; constructor; [done|].
  apply Forall_forall. intros j Hj%elem_of_seq. lia.
Qed.
Lemma concat_map_app {A B} (f g : A → list B) l :
  concat (map (λ x, f x ++ g x) l) ≡ₚ concat (map f l) ++ concat (map g l).
Proof. induction l as [|x l IH]; cbn; [done|]. rewrite IH. solve_Permutation. Qed.
Lemma Verify_perm b : shaped b → cache_sound (tuples b) → Verify b ≡ₚ verifyBatch (tuples b).
Proof.
  intros (H1 & H2 & H3 & H4 & Hop) Hcs. unfold Verify. rewrite Hop, sorted_by_perm. unfold verifyAll, tuples.
  rewrite concat_map_app, concat_map_app, concat_map_app, !verifyBatch_app.
  assert (Hl : ∀ ls, length ls = 8%nat →
    concat (map (λ i, verifyBatch (nth i ls [])) (seq 0 8)) = verifyBatch (concat ls)).
  { intros ls Hlen. rewrite verifyBatch_concat, <- (concat_nth (map verifyBatch ls) 8) by (by rewrite length_map).
    f_equal. apply map_ext. intros i. symmetry. apply (map_nth verifyBatch ls [] i). }
  rewrite (map_ext _ (λ i, verifyBatch (nth i (ed25519 b) []))).
  2:{ intros i. apply verify_ed25519_each, Forall_forall. intros t Ht. unfold cache_sound in Hcs.
      rewrite Forall_forall in Hcs. apply Hcs. unfold tuples. rewrite elem_of_app. left.
      destruct (nth_in_or_default i (ed25519 b) []) as [Hin|Hd]; [|by rewrite Hd in Ht; inv Ht].
      apply list_elem_of_In, in_concat. exists (nth i (ed25519 b) []).
      split; [done|by apply list_elem_of_In]. }
  by rewrite !Hl by done.
Qed.
Lemma filter_same {A} (P Q : A → Prop) `{∀ x, Decision (P x), ∀ x, Decision (Q x)} (l : list A) :
  (∀ x, x ∈ l → P x ↔ Q x) → filter P l = filter Q l.
Proof.
  induction l as [|x l IH]; intros HPQ; [done|]. rewrite !filter_cons.
  rewrite IH by (intros; apply HPQ; by right). specialize (HPQ x (list_elem_of_here _ _)). repeat case_decide; tauto.
Qed.
Lemma valid_at_app l x i :
  valid_at (l ++ [x]) i = if decide (i = length l) then let '(pk, m, sig) := x in VerifySig pk m sig else valid_at l i.
Proof.
  unfold valid_at. case_decide as Hi.
  - subst. by rewrite list_lookup_middle.
  - destruct (decide (i < length l)%nat); [by rewrite lookup_app_l|].
    rewrite (lookup_ge_None_2 (l ++ [x])) by (rewrite length_app; cbn; lia). by rewrite lookup_ge_None_2 by lia.
Qed.
Lemma verifyBatch_tuple_at l : verifyBatch (tuple_at l) = filter (λ i, valid_at l i = false) (seq 0 (length l)).
Proof.
  induction l as [|[[pk m] sig] l IH] using rev_ind; [done|].
  unfold tuple_at in *. rewrite imap_app, verifyBatch_app, IH, length_app, Nat.add_comm. cbn [length plus].
  rewrite seq_S, filter_app. f_equal.
  - apply filter_same. intros i Hi%elem_of_seq. rewrite valid_at_app, decide_False by lia. done.
  - cbn [imap]. unfold verifyBatch. rewrite !filter_cons. cbn. unfold valid. cbn.
    rewrite Nat.add_0_r, valid_at_app. destruct (decide (length l = length l)); [|done]. by repeat case_decide.
Qed.

Lemma Verify_filter l b :
  cache_sound (tuple_at l) → add_all NewBatchVerifier l = Some b →
  Verify b = filter (λ i, valid_at l i = false) (seq 0 (length l)).
Proof.
  intros Hcs Hadd. assert (Hs : shaped NewBatchVerifier) by done.
  pose proof (add_all_spec l _ _ Hs Hadd) as [Hs' Hp]. cbn [NewBatchVerifier count plus] in Hp.
  change (tuples NewBatchVerifier) with (@nil BatchTuple) in Hp. rewrite app_nil_r in Hp.
  change (tuples b ≡ₚ tuple_at l) in Hp.
  assert (Hcs' : cache_sound (tuples b)) by (unfold cache_sound; by rewrite Hp).
  pose proof (Verify_perm _ Hs' Hcs') as Hv. rewrite (verifyBatch_perm _ _ Hp), verifyBatch_tuple_at in Hv.
  eapply (StronglySorted_unique_strong le); [|apply Verify_sorted|..|exact Hv].
  - intros x y _ _. lia.
  - apply filter_sorted, seq_sorted.
Qed.
End batch.

(** ** Witnesses *)

(** A scheme to evaluate: a signature is the message, the first byte of a key
    tells its kind, nothing is cached. *)
Definition toy_sigs : SigScheme :=
  {| key_kind := λ pk, match pk_Bytes pk with
       | x01 :: _ => ED25519 | x02 :: _ => SECP256K1 | x03 :: _ => ETHSECP256K1 | [] => OtherKey | _ => BLS12381
       end;
     VerifySig := λ _ m sig, bool_decide (sig = m);
     VerifyBatchOnly := forallb (λ t, bool_decide (bt_Signature t = bt_Message t));
     cache_hit := λ _, false |}.
#[local] Existing Instance toy_sigs.
#[local] Instance toy_sigs_laws : SigSchemeLaws.
Proof. constructor. intros l Hl. apply Forall_forall. intros t Ht. by apply (proj1 (forallb_forall _ _) Hl), list_elem_of_In. Qed.

(** Ten signatures of the four kinds, the fourth and the last of which are bad. *)
Definition demo_key (b : byte) : PublicKey := MkPublicKey [b] [b] false.
Definition demo_sigs : list (PublicKey * bytes * bytes) :=
  [(demo_key x01, [x10], [x10]); (demo_key x02, [x11], [x11]); (demo_key x01, [x12], [x12]);
   (demo_key x01, [x13], [x00]); (demo_key x03, [x14], [x14]); (demo_key x04, [x15], [x15]);
   (demo_key x02, [x16], [x16]); (demo_key x01, [x17], [x17]); (demo_key x04, [x18], [x18]);
   (demo_key x03, [x19], [x10])].
Definition demo_batch : BatchVerifier := default NewBatchVerifier (add_all NewBatchVerifier demo_sigs).
