(* ===== verification/Ethereum.v ===== *)
(** * The Ethereum translation of transactions ([fsm/ethereum.go], [lib/crypto/eth_secp256k1.go])

    A signed RLP transaction is translated into a transaction that carries the
    RLP bytes as its signature; whoever receives it translates the bytes again
    and compares.  [go-ethereum] (decoding, the signing hash, the curve) and the
    protobuf codec are parameters. *)
From Stdlib Require Import String.
From S2P Require Import Prelude LibUtil State Crypto Account Certificate Swap Dex Tx Gov Hex Message.
#[local] Open Scope Z_scope.

(** What the program reads of an [ethTypes.Transaction]; numbers are [big.Int]s,
    [None] is a nil pointer. *)
Record EthTransaction : Type := MkEthTransaction {
  eth_ChainId : option Z;
  eth_Nonce : Z;
  eth_Gas : Z;
  eth_GasPrice : Z;
  eth_To : option bytes;
  eth_Value : Z;
  eth_Data : bytes;
  RawSignatureValues : option (Z * Z * Z);
}.
Class EthLib : Type := {
  (** [tx.UnmarshalBinary] *)
  UnmarshalBinary : bytes → option EthTransaction;
  (** [types.LatestSignerForChainID(chainId).Hash(&tx)] *)
  SigningHash : option Z → EthTransaction → bytes;
  (** [ethCrypto.ValidateSignatureValues(v, r, s, true)] *)
  ValidateSignatureValues : Z → Z → Z → bool;
  (** [ethCrypto.Ecrecover] and [ethCrypto.VerifySignature] *)
  Ecrecover : bytes → bytes → option bytes;
  VerifySignature : bytes → bytes → bytes → bool;
  (** [int(units.KB)] *)
  KB : Z;
}.
(** [lib.Unmarshal] into a message of the named type, and [lib.NewAny]. *)
Class MsgCodec : Type := {
  UnmarshalMsg : string → bytes → result ErrorI Message;
  NewAny : Message → result ErrorI Any;
}.

(** ** Numbers *)

(** Big-endian bytes: [big.Int.SetBytes], and a number on [n] bytes. *)
Definition SetBytes (bz : bytes) : Z := fold_left (λ acc b, 256 * acc + byte_to_Z b) bz 0.
Fixpoint be_bytes (n : nat) (z : Z) : bytes :=
  match n with
  | O => []
  | S n => be_bytes n (z / 256) ++ [byte_of_Z (z mod 256)]
  end.

Definition EvmChainIdToCanopyIds (evmChainId : Z) : Z * Z :=
  (Z.land evmChainId 0xFFFFFFFF, Z.shiftr evmChainId 32).
Definition CanopyIdsToEVMChainId (chainId networkId : Z) : Z :=
  Z.lor (wrap64 (Z.shiftl networkId 32)) (Z.land chainId 0xFFFFFFFF).
Definition scaleFactor : Z := 1000000000000.
(** The conversion [int64(n)]. *)
Definition UpscaleTo18Decimals (amount : Z) : Z := wrap_s64 amount * scaleFactor.
Definition DownscaleTo6Decimals (amount : Z) : Z := big_Uint64 (amount / scaleFactor).
Definition IsUint64 (z : Z) : bool := (0 <=? z) && (z <? two64).
(** [None] is the false of the second result. *)
Definition DownscaleTo6DecimalsChecked (amount : Z) : option Z :=
  if amount <? 0 then None
  else if IsUint64 (amount / scaleFactor) then Some (amount / scaleFactor) else None.
(** The first of January 2025 plus a duration of nanoseconds on 64 bits. *)
Definition pseudoEthereumTimestamp (gasLimit : Z) : Z :=
  wrap64 (1735689600 + wrap_s64 (wrap_s64 gasLimit * 1000000000) / 1000000000).

(** ** Recovering the signer *)

Section ethereum.
Context `{Crypto, Multisig, Codec, TxCodec, MsgCodec, EthLib}.

Definition recovery_id (V : Z) : option Z :=
  if (V =? 27) || (V =? 28) then Some (V - 27)
  else if 35 <=? V then Some ((V - 35) mod 2)
  else if (V =? 0) || (V =? 1) then Some V
  else None.
(** Any error is wrapped as [ErrInvalidPublicKey] by the caller; an [R] or [S] of
    more than 32 bytes is a slice out of range. *)
Definition RecoverPublicKey (chainId : option Z) (tx : EthTransaction) : result ErrorI PublicKey :=
  match RawSignatureValues tx with
  | None => Err ErrInvalidPublicKey
  | Some (Vb, R, S_) =>
      let sigHash := SigningHash chainId tx in
      match recovery_id (wrap64 Vb) with
      | None => Err ErrInvalidPublicKey
      | Some recoveryID =>
          check_not (negb (ValidateSignatureValues recoveryID R S_)) ErrInvalidPublicKey;;
          check_not ((2 ^ 256 <=? R) || (2 ^ 256 <=? S_)) ErrPanic;;
          let sig := be_bytes 32 R ++ be_bytes 32 S_ ++ [byte_of_Z recoveryID] in
          match Ecrecover sigHash sig with
          | None => Err ErrInvalidPublicKey
          | Some pubKeyBytes =>
              check_not (negb (VerifySignature pubKeyBytes sigHash (take 64 sig))) ErrInvalidPublicKey;;
              match NewPublicKeyFromBytes pubKeyBytes with
              | None => Err ErrInvalidPublicKey
              | Some publicKey => Ok publicKey
              end
          end
      end
  end.

(** ** The payload *)

Definition contract_address (n : byte) : bytes := replicate 19 x00 ++ [n].
Definition is_contract (to : bytes) : bool :=
  bool_decide (to ∈ [contract_address x01; contract_address x02; contract_address x03]).

Definition ethDataToMsgSend (fromAddress data : bytes) : result ErrorI Message :=
  check_not (len data <? 4 + 32 + 32) ErrInvalidERC20Tx;;
  let amount := SetBytes (take 32 (drop 36 data)) in
  check_not (negb (IsUint64 amount) || (amount =? 0)) ErrInvalidAmount;;
  Ok (MSend (MkMsgSend fromAddress (take 20 (drop 16 data)) amount 0 0 0)).
(** The message type is that of the transaction under construction. *)
Definition ethDataToMsg (messageType : string) (data : bytes) (callback : Message → Message)
    : result ErrorI (string * Message) :=
  msg ← UnmarshalMsg messageType (drop 4 data);
  let msg := callback msg in
  Check msg;;
  Ok (messageType, msg).
(** A stake without a public key gets the signer's. *)
Definition fill_public_key (publicKey : PublicKey) (msg : Message) : Message :=
  match msg with
  | MStake x =>
      if len (st_PublicKey x) =? 0 then
        MStake (MkMsgStake (pk_Bytes publicKey) (st_Amount x) (st_Committees x) (st_NetAddress x) (st_OutputAddress x)
          (st_Delegate x) (st_Compound x) (st_Signer x))
      else msg
  | _ => msg
  end.
(** The message and its type; plain sends keep the default type. *)
Definition rlpToMessage (publicKey : PublicKey) (tx : EthTransaction) : result ErrorI (string * Message) :=
  match eth_To tx with
  | None => Err ErrRecipientAddressEmpty
  | Some to =>
      let from := pk_Address publicKey in
      let data := eth_Data tx in
      if is_contract to then
        check_not (len data <? 4) ErrInvalidERC20Tx;;
        let selector := BytesToString (take 4 data) in
        if String.eqb selector "a9059cbb" then
          msg ← ethDataToMsgSend from data; Ok ("send"%string, msg)
        else
          match switch selector [
            ("2d1e0c02", ("stake", fill_public_key publicKey)); ("8c71a515", ("editStake", id));
            ("3c3653e2", ("unstake", id)); ("bc2e8e5f", ("createOrder", id)); ("74e78d6f", ("editOrder", id));
            ("6c4650e7", ("deleteOrder", id)); ("16d68b09", ("subsidy", id))]%string
          with
          | Some (messageType, callback) => ethDataToMsg messageType data callback
          | None => Err ErrInvalidERC20Tx
          end
      else
        match DownscaleTo6DecimalsChecked (eth_Value tx) with
        | None => Err ErrInvalidAmount
        | Some amount =>
            check_not (amount =? 0) ErrInvalidAmount;;
            Ok ("send"%string, MSend (MkMsgSend from to amount 0 0 0))
        end
  end.

Definition RLPIndicator : string := "RLP".
Definition RLPToCanopyTransaction (txBytes : bytes) : result ErrorI Transaction :=
  check_not (2 * KB <? len txBytes) ErrInvalidRLPTx;;
  match UnmarshalBinary txBytes with
  | None => Err ErrInvalidRLPTx
  | Some tx =>
      publicKey ← RecoverPublicKey (eth_ChainId tx) tx;
      match eth_ChainId tx with
      | None => Err ErrInvalidRLPTx
      | Some evmChainId =>
          check_not (negb (IsUint64 evmChainId)) ErrInvalidRLPTx;;
          let '(chainId, networkId) := EvmChainIdToCanopyIds evmChainId in
          match DownscaleTo6DecimalsChecked (eth_Gas tx * eth_GasPrice tx) with
          | None => Err ErrInvalidRLPTx
          | Some fee =>
              '(messageType, msg) ← rlpToMessage publicKey tx;
              any ← NewAny msg;
              Ok (MkTransaction messageType (Some any) (Some (MkSignature (Some (pk_Bytes publicKey)) (Some txBytes)))
                (eth_Nonce tx) (pseudoEthereumTimestamp (eth_Gas tx)) fee RLPIndicator networkId chainId)
          end
      end
  end.

Definition VerifyRLPBytes (tx : Transaction) : result ErrorI unit :=
  match tx_Signature tx with
  | None => Err ErrPanic
  | Some sig =>
      compare ← RLPToCanopyTransaction (default [] (sig_Signature sig));
      compareHash ← GetHash compare;
      originalHash ← GetHash tx;
      check_not (negb (bool_decide (compareHash = originalHash))) ErrInvalidSignature
  end.
End ethereum.

(** ** Theorems *)

(** The two chain identifiers travel through one EVM chain id and back when
    each fits in 32 bits, and an EVM chain id of 64 bits is recovered from its
    halves. *)
Theorem evm_chain_id_roundtrip :
  (∀ chainId networkId, 0 <= chainId < 2 ^ 32 → 0 <= networkId < 2 ^ 32 →
     EvmChainIdToCanopyIds (CanopyIdsToEVMChainId chainId networkId) = (chainId, networkId)) ∧
  (∀ evm, u64 evm → CanopyIdsToEVMChainId (fst (EvmChainIdToCanopyIds evm)) (snd (EvmChainIdToCanopyIds evm)) = evm).
Proof.
  assert (Hones : 0xFFFFFFFF = Z.ones 32) by done. unfold EvmChainIdToCanopyIds, CanopyIdsToEVMChainId. rewrite Hones.
  split.
  - intros c n Hc Hn.
    assert (Hw : wrap64 (Z.shiftl n 32) = n * 2 ^ 32)
      by (rewrite Z.shiftl_mul_pow2 by lia; apply wrap64_small; unfold u64, two64; lia).
    rewrite Hw, (Z.land_ones c), (Z.mod_small c) by lia.
    assert (Hlor : Z.lor (n * 2 ^ 32) c = n * 2 ^ 32 + c).
    { rewrite <- Z.shiftl_mul_pow2 by lia. pose proof (Z.add_lor_land (Z.shiftl n 32) c) as Hadd.
      replace (Z.land (Z.shiftl n 32) c) with 0 in Hadd; [lia|]. symmetry. apply Z.bits_inj'. intros i Hi.
      rewrite Z.bits_0, Z.land_spec. destruct (Z.lt_ge_cases i 32).
      - by rewrite Z.shiftl_spec_low by lia.
      - rewrite <- (Z.mod_small c (2 ^ 32)), Z.mod_pow2_bits_high by lia. by rewrite andb_false_r. }
    rewrite Hlor, Z.land_ones, Z.shiftr_div_pow2 by lia. f_equal.
    + rewrite Z.add_comm, Z.mod_add by lia. apply Z.mod_small. lia.
    + rewrite Z.add_comm, Z.div_add by lia. rewrite Z.div_small by lia. lia.
  - intros evm Hevm. cbn [fst snd]. unfold u64, two64 in Hevm.
    assert (Hs : 0 <= Z.shiftr evm 32 < 2 ^ 32)
      by (rewrite Z.shiftr_div_pow2 by lia; split; [apply Z.div_pos; lia|apply Z.div_lt_upper_bound; lia]).
    rewrite wrap64_small by (rewrite Z.shiftl_mul_pow2 by lia; unfold u64, two64; lia).
    rewrite <- Z.land_assoc, Z.land_diag. apply Z.bits_inj'. intros i Hi. rewrite Z.lor_spec, Z.land_spec.
    destruct (Z.lt_ge_cases i 32).
    + rewrite Z.shiftl_spec_low, Z.ones_spec_low by lia. by rewrite andb_true_r.
    + rewrite Z.shiftl_spec, Z.shiftr_spec, Z.ones_spec_high by lia. rewrite andb_false_r, orb_false_r. f_equal. lia.
Qed.


Section authentic.
Context `{Crypto, Multisig, Codec, TxCodec, MsgCodec, EthLib}.

(** The translation of [tx], field by field, when it succeeds on [rlp]. *)
Record translation (rlp : bytes) (tx : Transaction) (eth : EthTransaction) (pk : PublicKey) (msg : Message) : Prop := {
  tr_decoded : UnmarshalBinary rlp = Some eth;
  tr_signer : RecoverPublicKey (eth_ChainId eth) eth = Ok pk;
  tr_payload : rlpToMessage pk eth = Ok (MessageType tx, msg);
  tr_packed : ∃ any, NewAny msg = Ok any ∧ tx_Msg tx = Some any;
  tr_signature : tx_Signature tx = Some (MkSignature (Some (pk_Bytes pk)) (Some rlp));
  tr_height : CreatedHeight tx = eth_Nonce eth;
  tr_fee : DownscaleTo6DecimalsChecked (eth_Gas eth * eth_GasPrice eth) = Some (tx_Fee tx);
  tr_ids : ∃ evm, eth_ChainId eth = Some evm ∧ EvmChainIdToCanopyIds evm = (tx_ChainId tx, tx_NetworkId tx);
}.
Lemma RLPToCanopyTransaction_Ok rlp tx :
  RLPToCanopyTransaction rlp = Ok tx → ∃ eth pk msg, translation rlp tx eth pk msg.
Proof.
  unfold RLPToCanopyTransaction. intros (u & _ & Hrun)%result_bind_Ok.
  destruct (UnmarshalBinary rlp) as [eth|] eqn:Hdec; [|done].
  apply result_bind_Ok in Hrun as (pk & Hpk & Hrun). destruct (eth_ChainId eth) as [evm|] eqn:Hid; [|done].
  apply result_bind_Ok in Hrun as (u' & _ & Hrun). destruct (EvmChainIdToCanopyIds evm) as [c n] eqn:Hids.
  destruct (DownscaleTo6DecimalsChecked _) as [fee|] eqn:Hfee; [|done].
  apply result_bind_Ok in Hrun as ([name msg] & Hmsg & Hrun). apply result_bind_Ok in Hrun as (any & Hany & Hrun).
  injection Hrun as <-. exists eth, pk, msg. constructor; cbn; try done; [by rewrite Hid|by exists any|by exists evm].
Qed.
(** A call that is not one to a pseudo-contract is a send of the signer's. *)
Lemma rlpToMessage_plain pk eth name msg to :
  rlpToMessage pk eth = Ok (name, msg) → eth_To eth = Some to → is_contract to = false →
  name = "send"%string ∧ ∃ amount, DownscaleTo6DecimalsChecked (eth_Value eth) = Some amount ∧ amount ≠ 0 ∧
    msg = MSend (MkMsgSend (pk_Address pk) to amount 0 0 0).
Proof.
  unfold rlpToMessage. intros Hrun Hto Hc. rewrite Hto, Hc in Hrun.
  destruct (DownscaleTo6DecimalsChecked _) as [amount|]; [|done].
  apply result_bind_Ok in Hrun as (u & Hne%check_not_Ok%Z.eqb_neq & [= <- <-]). split; [done|]. by exists amount.
Qed.

End authentic.

(** ** Witnesses *)


(** One Ethereum transaction, whose translation is the only transaction with its hash. *)
#[local] Instance Any_eq_dec : EqDecision Any.
Proof. solve_decision. Defined.
#[local] Instance Signature_eq_dec : EqDecision Signature.
Proof. solve_decision. Defined.
#[local] Instance Transaction_eq_dec : EqDecision Transaction.
Proof. solve_decision. Defined.
Definition demo_eth : EthTransaction :=
  MkEthTransaction (Some (CanopyIdsToEVMChainId 1 1)) 7 21000 1000000000000 (Some (replicate 20 x0b)) 5000000000000 []
    (Some (27, 1, 1)).
Definition toy_eth : EthLib :=
  {| UnmarshalBinary := λ bz, if bool_decide (bz = [xee]) then Some demo_eth else None;
     SigningHash := λ _ _, [x00]; ValidateSignatureValues := λ _ _ _, true; Ecrecover := λ _ _, Some (replicate 20 x0a);
     VerifySignature := λ _ _ _, true; KB := 1000 |}.
Definition toy_msgs : MsgCodec :=
  {| UnmarshalMsg := λ _ _, Err ErrUnmarshal; NewAny := λ _, Ok (MkAny EmptyString []) |}.
Definition demo_eth_tx : Transaction :=
  MkTransaction "send" (Some (MkAny EmptyString [])) (Some (MkSignature (Some (replicate 20 x0a)) (Some [xee])))
    7 (1735689600 + 21000) 21000 "RLP" 1 1.
Definition toy_eth_codec : TxCodec :=
  {| UnmarshalTx := λ _, Err ErrUnmarshal;
     MarshalTx := λ x, Ok (if decide (x = demo_eth_tx) then [x01] else [x02]) |}.
#[local] Existing Instances toy_crypto toy_multisig toy_codec toy_eth toy_msgs toy_eth_codec.
