(* ===== verification/ApplyTx.v ===== *)
(** * Applying transactions ([fsm/transaction.go], [fsm/state.go], [lib/tx.go])

    The checks a transaction must pass, its execution, and the execution of the
    transactions of a block in two phases: all are checked against the state
    before the block and their signatures verified in one batch, then each is
    applied inside a database transaction that a failure rolls back.  There is no
    plugin.  The events carry no reference to the transaction they belong to. *)
From Stdlib Require Import String.
From S2P Require Import Prelude LibUtil State Ledger Params Crypto Account Validator Committee Byzantine Swap.
From S2P Require Import Quorum Certificate Dex Tx Fixtures Gov Hex Automatic Message Batch Ethereum.
#[local] Open Scope Z_scope.

(** The transaction index, read through the indexer: the hash recorded in the
    result found under a hash. *)
Class TxIndexer : Type := { GetTxByHash : bytes → result ErrorI (option string) }.

Definition BlockAcceptanceRange : Z := 4320.

Record CheckTxResult : Type := MkCheckTxResult {
  ctr_tx : Transaction; ctr_msg : Message; ctr_sender : bytes; ctr_recipient : bytes }.
Record TxResult : Type := MkTxResult {
  txr_Sender : bytes; txr_Recipient : bytes; txr_MessageType : string; txr_Height : Z; txr_Index : Z;
  txr_Transaction : Transaction; txr_TxHash : string }.

Section checks.
Context `{Crypto, Multisig, Codec, TxCodec, AnyCodec, Node, SigScheme, MsgCodec, EthLib, TxIndexer}.

(** The height bounds a transaction is created within. *)
Definition check_created_height (h createdHeight : Z) : result ErrorI unit :=
  let maxHeight := u64_add h BlockAcceptanceRange in
  let minHeight := if BlockAcceptanceRange <? h then u64_sub h BlockAcceptanceRange else 0 in
  check_not ((maxHeight <? createdHeight) || (createdHeight <? minHeight)) ErrInvalidTxHeight.
(** The empty string is no hash to look up. *)
Definition check_indexed (txHash : string) : result ErrorI unit :=
  if bool_decide (txHash = EmptyString) then Ok () else
  hashBz ← StringToBytes txHash;
  txResult ← GetTxByHash hashBz;
  check_not (bool_decide (txResult = Some txHash)) ErrDuplicateTx.
Definition CheckReplay (tx : Transaction) (txHash : string) : F unit :=
  fail_if (negb (NetworkID =? tx_NetworkId tx)) ErrWrongNetworkID;;
  cfg ← gets config;
  fail_if (negb (ChainId cfg =? tx_ChainId tx)) ErrWrongChainId;;
  h ← Height;
  if h <? 2 then mret () else
  lift (check_indexed txHash);;
  lift (check_created_height h (CreatedHeight tx)).

Definition CheckMessage (msg : option Any) : result ErrorI Message :=
  match msg with
  | None => Err ErrEmptyMessage
  | Some any =>
      proto ← FromAny any;
      match proto with
      | AnyMessage message => Check message;; Ok message
      | _ => Err ErrInvalidTxMessage
      end
  end.
Definition CheckFee (fee : Z) (msg : Message) : F unit :=
  stateLimitFee ← GetFeeForMessageName (Name msg);
  fail_if (fee <? stateLimitFee) ErrTxFeeBelowStateLimit.

(** The batch verifier is an object the caller keeps: the model returns it as the
    check leaves it, also when the check fails. *)
Definition check_bytes (tx : Transaction) (publicKey : PublicKey) (signBytes signature : bytes)
    (batchSigVerifier : option BatchVerifier) : result ErrorI unit * option BatchVerifier :=
  if bool_decide (key_kind publicKey = ETHSECP256K1) && bool_decide (Memo tx = RLPIndicator) then
    (VerifyRLPBytes tx, batchSigVerifier)
  else
    match batchSigVerifier with
    | Some b =>
        match Add b publicKey signBytes signature with
        | None => (Err ErrInvalidPublicKey, Some b)
        | Some b => (Ok (), Some b)
        end
    | None => (check_not (negb (VerifySig publicKey signBytes signature)) ErrInvalidSignature, None)
    end.
Definition CheckSignature (tx : Transaction) (authorizedSigners : list bytes) (batchSigVerifier : option BatchVerifier)
    : result ErrorI bytes * option BatchVerifier :=
  match tx_Signature tx with
  | None => (Err ErrEmptySignature, batchSigVerifier)
  | Some sig =>
      let signature := default [] (sig_Signature sig) in
      if bool_decide (signature = []) then (Err ErrEmptySignature, batchSigVerifier) else
      match GetSignBytes tx with
      | Err _ => (Err ErrTxSignBytes, batchSigVerifier)
      | Ok signBytes =>
          match NewPublicKeyFromBytes (default [] (sig_PublicKey sig)) with
          | None => (Err ErrInvalidPublicKey, batchSigVerifier)
          | Some publicKey =>
              let '(checked, verifier) := check_bytes tx publicKey signBytes signature batchSigVerifier in
              (checked;;
               if bool_decide (pk_Address publicKey ∈ authorizedSigners) then Ok (pk_Address publicKey)
               else Err ErrUnauthorizedTx, verifier)
          end
      end
  end.

(** [hash, _ := tx.GetHash()] and its first 20 bytes, out of range when it is shorter. *)
Definition hash_or_nil (tx : Transaction) : bytes := match GetHash tx with Ok hash => hash | Err _ => [] end.
Definition order_id_of (tx : Transaction) : result ErrorI bytes :=
  let hash := hash_or_nil tx in
  check_not (len hash <? 20) ErrPanic;;
  Ok (take 20 hash).
Definition PopulateSpecialMessageFields (tx : Transaction) (signer : bytes) (msg : Message) : result ErrorI Message :=
  match msg with
  | MStake x =>
      Ok (MStake (MkMsgStake (st_PublicKey x) (st_Amount x) (st_Committees x) (st_NetAddress x) (st_OutputAddress x)
        (st_Delegate x) (st_Compound x) signer))
  | MEditStake x =>
      Ok (MEditStake (MkMsgEditStake (es_Address x) (es_Amount x) (es_Committees x) (es_NetAddress x)
        (es_OutputAddress x) (es_Compound x) signer))
  | MChangeParameter x =>
      Ok (MChangeParameter (MkMsgChangeParameter (cp_ParameterSpace x) (cp_ParameterKey x) (cp_ParameterValue x)
        (cp_StartHeight x) (cp_EndHeight x) (cp_Signer x) (BytesToString (hash_or_nil tx))))
  | MDAOTransfer x =>
      Ok (MDAOTransfer (MkMsgDAOTransfer (dt_Address x) (dt_Amount x) (dt_Mint x) (dt_StartHeight x) (dt_EndHeight x)
        (BytesToString (hash_or_nil tx))))
  | MCreateOrder x =>
      id ← order_id_of tx;
      Ok (MCreateOrder (MkCreateOrder (co_ChainId x) (co_Data x) (co_AmountForSale x) (co_RequestedAmount x)
        (co_SellerReceiveAddress x) (co_SellersSendAddress x) id))
  | MDexLimitOrder x =>
      id ← order_id_of tx;
      Ok (MDexLimitOrder (MkMsgDexLimitOrder (dl_ChainId x) (dl_AmountForSale x) (dl_RequestedAmount x)
        (dl_Address x) id))
  | MDexLiquidityDeposit x =>
      id ← order_id_of tx;
      Ok (MDexLiquidityDeposit (MkMsgDexLiquidityDeposit (dd_ChainId x) (dd_Amount x) (dd_Address x) id))
  | MDexLiquidityWithdraw x =>
      id ← order_id_of tx;
      Ok (MDexLiquidityWithdraw (MkMsgDexLiquidityWithdraw (dw_ChainId x) (dw_Percent x) (dw_Address x) id))
  | _ => Ok msg
  end.

(** The checks before the signature. *)
Definition check_payload (transaction : bytes) (txHash : string) : F (Transaction * Message * list bytes) :=
  tx ← lift (UnmarshalTx transaction);
  lift (Transaction_CheckBasic (Some tx));;
  CheckReplay tx txHash;;
  msg ← lift (CheckMessage (tx_Msg tx));
  CheckFee (tx_Fee tx) msg;;
  authorizedSigners ← GetAuthorizedSignersFor msg;
  mret (tx, msg, authorizedSigners).
(** The outcome of the checks and the batch verifier they leave. *)
Definition CheckTx (transaction : bytes) (txHash : string) (batchVerifier : option BatchVerifier)
    : F (result ErrorI CheckTxResult * option BatchVerifier) :=
  payload ← try (check_payload transaction txHash);
  mret (match payload with
        | Err e => (Err e, batchVerifier)
        | Ok (tx, msg, authorizedSigners) =>
            let '(sender, verifier) := CheckSignature tx authorizedSigners batchVerifier in
            (sender ← sender;
             msg' ← PopulateSpecialMessageFields tx sender msg;
             Ok (MkCheckTxResult tx msg' sender (Recipient msg)), verifier)
        end).
End checks.

(** ** Execution *)

Definition reset_caches (s : FSM) : FSM :=
  set_cache_accounts ∅ (set_cache_valParams None (set_cache_feeParams None (set_cache_rootDexBatch None s))).

(** [lib.ApplyBlockResults], without the root of the results. *)
Record ApplyBlockResults : Type := MkResults {
  Txs : list bytes; abr_Results : list TxResult; ResultsBz : list bytes; abr_Events : list Event; Count : Z;
  abr_BlockSize : Z; LargestTx : Z; Oversized : list TxResult; Failed : list (bytes * ErrorI) }.
Definition empty_results : ApplyBlockResults := MkResults [] [] [] [] 0 0 0 [] [].
Definition add_result (a : ApplyBlockResults) (tx txResult : bytes) (result : TxResult) (evs : list Event)
    (oversized : bool) : ApplyBlockResults :=
  if oversized then
    MkResults (Txs a) (abr_Results a) (ResultsBz a) (abr_Events a) (Count a) (abr_BlockSize a) (LargestTx a)
      (Oversized a ++ [result]) (Failed a)
  else
    MkResults (Txs a ++ [tx]) (abr_Results a ++ [result]) (ResultsBz a ++ [txResult]) (abr_Events a ++ evs)
      (Count a + 1) (u64_add (abr_BlockSize a) (len tx)) (Z.max (LargestTx a) (len tx)) (Oversized a) (Failed a).
Definition AddFailed (a : ApplyBlockResults) (f : bytes * ErrorI) : ApplyBlockResults :=
  MkResults (Txs a) (abr_Results a) (ResultsBz a) (abr_Events a) (Count a) (abr_BlockSize a) (LargestTx a)
    (Oversized a) (Failed a ++ [f]).
Definition AddEvent (a : ApplyBlockResults) (e : list Event) : ApplyBlockResults :=
  MkResults (Txs a) (abr_Results a) (ResultsBz a) (abr_Events a ++ e) (Count a) (abr_BlockSize a) (LargestTx a)
    (Oversized a) (Failed a).

(** [lib.Marshal] of a transaction result. *)
Class ResultCodec : Type := { MarshalResult : TxResult → result ErrorI bytes }.

Section apply.
Context `{Crypto, Multisig, Codec, History, VoteConfig, TxCodec, AnyCodec, Node, SigScheme, MsgCodec, EthLib, TxIndexer,
  ResultCodec}.

(** [crypto.HashString] of a transaction, as text. *)
Definition tx_hash_string (tx : bytes) : string := BytesToString (Hash tx).

(** What follows the checks. *)
Definition execute (result : CheckTxResult) : F unit :=
  let fee := tx_Fee (ctr_tx result) in
  match ctr_msg result with
  | MSend send =>
      fail_if (u64_sub u64_max fee <? ms_Amount send) ErrInvalidAmount;;
      maybeFaucetTopUpForSendTx (ctr_sender result) (u64_add (ms_Amount send) fee)
  | _ => mret ()
  end;;
  AccountDeductFees (ctr_sender result) fee;;
  HandleMessage (ctr_msg result).
Definition ApplyTransaction (index : Z) (transaction : bytes) (txHash : string) (batchVerifier : option BatchVerifier)
    : F (TxResult * list Event) :=
  checked ← CheckTx transaction txHash batchVerifier;
  result ← lift (fst checked);
  execute result;;
  h ← Height;
  evs ← reset_events;
  mret (MkTxResult (ctr_sender result) (ctr_recipient result) (Name (ctr_msg result)) h index (ctr_tx result) txHash, evs).

(** *** The first phase: every transaction checked, every signature verified *)

Record Phase1 : Type := MkPhase1 {
  p1_verifier : BatchVerifier;
  failedCheckTxs : gmap nat ErrorI;
  batchToTxIdx : list nat;
}.
(** Each check runs in a database transaction that is discarded; a panic ends the
    block. *)
Definition check_one (i : nat) (tx : bytes) (p : Phase1) : F Phase1 :=
  checkStore ← gets store;
  checked ← CheckTx tx EmptyString (Some (p1_verifier p));
  modify (set_store checkStore);;
  let '(checkErr, verifier) := checked in
  let verifier := default (p1_verifier p) verifier in
  fail_if (match checkErr with Err ErrPanic => true | _ => false end) ErrPanic;;
  mret (MkPhase1 verifier
    (match checkErr with Err e => <[i := e]> (failedCheckTxs p) | Ok _ => failedCheckTxs p end)
    (batchToTxIdx p ++ replicate (count verifier - count (p1_verifier p)) i)).
Fixpoint check_each (i : nat) (txs : list bytes) (p : Phase1) : F Phase1 :=
  match txs with
  | [] => mret p
  | tx :: txs => p ← check_one i tx p; check_each (S i) txs p
  end.
Fixpoint mark_invalid (badIndices : list nat) (idx : list nat) (failed : gmap nat ErrorI)
    : result ErrorI (gmap nat ErrorI) :=
  match badIndices with
  | [] => Ok failed
  | failedIdx :: rest =>
      match idx !! failedIdx with
      | None => Err ErrInvalidSignature
      | Some i => mark_invalid rest idx (<[i := ErrInvalidSignature]> failed)
      end
  end.
Definition check_all_txs (txs : list bytes) : F (gmap nat ErrorI) :=
  p ← check_each 0 txs (MkPhase1 NewBatchVerifier ∅ []);
  lift (mark_invalid (Verify (p1_verifier p)) (batchToTxIdx p) (failedCheckTxs p)).

(** *** The second phase *)

(** The variables of the loop; [lp_original] is the store of the block while
    oversize transactions run over it. *)
Record Loop : Type := MkLoop {
  deDuplicator : gset string;
  lp_results : ApplyBlockResults;
  lp_original : option Store;
}.
Definition is_oversize (l : Loop) : bool := match lp_original l with Some _ => true | None => false end.

(** Apply one transaction, or undo it: the store, the caches, the events and the
    slash tracker.  A panic leaves the loop with the store it was wrapped over. *)
Definition apply_or_rollback (index : Z) (tx : bytes) (hashString : string) : F (result ErrorI (TxResult * list Event)) :=
  currentStore ← gets store;
  preTxSlashTracker ← gets slashTracker;
  r ← try (ApplyTransaction index tx hashString (Some NoOpBatchVerifier));
  match r with
  | Ok x => mret (Ok x)
  | Err ErrPanic => modify (set_store currentStore);; mret (Err ErrPanic)
  | Err e =>
      modify reset_caches;;
      modify (set_events []);;
      modify (set_slashTracker preTxSlashTracker);;
      modify (set_store currentStore);;
      mret (Err e)
  end.

(** One iteration: the loop's variables, and the error that ends the loop. *)
Definition apply_one (ctx_Err : bool) (allowOversize : bool) (maxBlockSize : Z) (failedCheck : option ErrorI) (tx : bytes)
    (l : Loop) : F (Loop * option ErrorI) :=
  if ctx_Err then mret (l, Some ErrMempoolStopSignal) else
  match failedCheck with
  | Some e => mret (MkLoop (deDuplicator l) (AddFailed (lp_results l) (tx, e)) (lp_original l), None)
  | None =>
      let hashString := tx_hash_string tx in
      let '(found, deDuplicator) := Found (deDuplicator l) hashString in
      if found then mret (l, Some ErrDuplicateTx) else
      let r := lp_results l in
      let exceeded := (maxBlockSize <? u64_add (len tx) (abr_BlockSize r)) && negb (is_oversize l) in
      if exceeded && negb allowOversize then mret (l, Some ErrMaxBlockSize) else
      current ← gets store;
      let l := MkLoop deDuplicator r (if exceeded then Some current else lp_original l) in
      applied ← apply_or_rollback (Count r) tx hashString;
      match applied with
      | Err ErrPanic => mret (l, Some ErrPanic)
      | Err e => mret (MkLoop deDuplicator (AddFailed r (tx, e)) (lp_original l), None)
      | Ok (result, evs) =>
          match MarshalResult result with
          | Err e => mret (l, Some e)
          | Ok txResultBz =>
              mret (MkLoop deDuplicator (add_result r tx txResultBz result evs (is_oversize l)) (lp_original l), None)
          end
      end
  end.
Fixpoint apply_each (ctx_Err : nat → bool) (allowOversize : bool) (maxBlockSize : Z) (failed : gmap nat ErrorI) (i : nat)
    (txs : list bytes) (l : Loop) : F (Loop * option ErrorI) :=
  match txs with
  | [] => mret (l, None)
  | tx :: txs =>
      '(l, err) ← apply_one (ctx_Err i) allowOversize maxBlockSize (failed !! i) tx l;
      match err with
      | Some e => mret (l, Some e)
      | None => apply_each ctx_Err allowOversize maxBlockSize failed (S i) txs l
      end
  end.
(** [ctx_Err i]: the context is cancelled when the transaction at [i] is reached.
    The results passed are extended; the deferred [SetStore] drops what the
    oversize transactions wrote. *)
Definition ApplyTransactions (ctx_Err : nat → bool) (txs : list bytes) (r : ApplyBlockResults) (allowOversize : bool)
    : F ApplyBlockResults :=
  maxBlockSize ← GetMaxBlockSize;
  failed ← check_all_txs txs;
  '(l, err) ← apply_each ctx_Err allowOversize maxBlockSize failed 0 txs (MkLoop ∅ r None);
  modify (λ s, match lp_original l with Some st => set_store st s | None => s end);;
  match err with
  | Some e => throw e
  | None => mret (lp_results l)
  end.

(** ** Lemmas: what a check that passes has checked *)

(** Everything the checks establish about a transaction, at the state they run on. *)
Record checked (s : FSM) (bz : bytes) (txHash : string) (tx : Transaction) (msg : Message) (sender : bytes) : Prop := {
  ck_decoded : UnmarshalTx bz = Ok tx;
  ck_basic : Transaction_CheckBasic (Some tx) = Ok ();
  ck_network : tx_NetworkId tx = NetworkID;
  ck_chain : tx_ChainId tx = ChainId (config s);
  ck_replay : 2 <= height s → check_indexed txHash = Ok () ∧ check_created_height (height s) (CreatedHeight tx) = Ok ();
  ck_message : CheckMessage (tx_Msg tx) = Ok msg;
  ck_fee : ∃ s1 minimum s2, store s1 = store s ∧ GetFeeForMessageName (Name msg) s1 = (Ok minimum, s2) ∧ minimum <= tx_Fee tx;
  ck_signer : ∃ s1 signers s2, store s1 = store s ∧ GetAuthorizedSignersFor msg s1 = (Ok signers, s2) ∧ sender ∈ signers;
}.
(** The signer of a transaction, and what there is to verify. *)
Record signer_of (tx : Transaction) (pk : PublicKey) (signBytes signature : bytes) : Prop := {
  so_signature : ∃ sig, tx_Signature tx = Some sig ∧ NewPublicKeyFromBytes (default [] (sig_PublicKey sig)) = Some pk ∧
    signature = default [] (sig_Signature sig);
  so_bytes : GetSignBytes tx = Ok signBytes;
}.
Definition is_rlp (tx : Transaction) (pk : PublicKey) : Prop := key_kind pk = ETHSECP256K1 ∧ Memo tx = RLPIndicator.
(** Its signature verifies: the key's over the sign bytes, or that of the RLP transaction. *)
Definition signed_by (tx : Transaction) (pk : PublicKey) : Prop :=
  ∃ signBytes signature, signer_of tx pk signBytes signature ∧
    (VerifySig pk signBytes signature = true ∨ is_rlp tx pk ∧ VerifyRLPBytes tx = Ok ()).

Lemma signer_of_unique tx pk m sig pk' m' sig' :
  signer_of tx pk m sig → signer_of tx pk' m' sig' → pk' = pk ∧ m' = m ∧ sig' = sig.
Proof. intros [(g & E1 & E2 & ->) E3] [(g' & F1 & F2 & ->) F3]. split_and!; congruence. Qed.

(** The reads of the checks leave the state, the parameter caches apart. *)
Definition only_params_cache (s s' : FSM) : Prop := ∃ v f, s' = set_cache_valParams v (set_cache_feeParams f s).
Lemma only_params_cache_refl s : only_params_cache s s.
Proof. exists (cache_valParams s), (cache_feeParams s). by destruct s. Qed.
Lemma only_params_cache_trans s1 s2 s3 : only_params_cache s1 s2 → only_params_cache s2 s3 → only_params_cache s1 s3.
Proof. intros (v & f & ->) (v' & f' & ->). by exists v', f'. Qed.
Lemma GetFee_cache name s r s' : GetFeeForMessageName name s = (r, s') → only_params_cache s s'.
Proof.
  unfold GetFeeForMessageName, GetParamsFee, getParams, lift. destruct s as [st h pv sl ca cv cf cr ev cfg]. runs.
  cbn. destruct cf as [f|]; [|destruct (params_fee st)]; intros Hrun; apply (f_equal snd) in Hrun; cbn in Hrun;
    exists cv, (cache_feeParams s'); subst s'; cbn; by destruct (params_fee st).
Qed.
Lemma GetSigners_cache msg s r s' : GetAuthorizedSignersFor msg s = (r, s') → s' = s.
Proof.
  destruct msg; cbn [GetAuthorizedSignersFor]; unfold order_signers, GetAuthorizedSignersForValidator, GetValidator, GetOrder, lift;
    runs; intros Hrun; repeat case_match; by simplify_eq.
Qed.

Lemma check_payload_Ok bz h s tx msg signers s' :
  check_payload bz h s = (Ok (tx, msg, signers), s') →
  only_params_cache s s' ∧ ∀ sender, sender ∈ signers → checked s bz h tx msg sender.
Proof.
  unfold check_payload, lift. intros Hrun. apply bind_Ok in Hrun as (tx0 & s0 & [= Hdec <-] & Hrun).
  apply bind_Ok in Hrun as (u1 & s0 & [= Hbasic <-] & Hrun). destruct u1.
  apply bind_Ok in Hrun as (u2 & s0 & Hreplay & Hrun).
  apply bind_Ok in Hrun as (msg0 & s1 & [= Hmsg <-] & Hrun).
  apply bind_Ok in Hrun as (u3 & s2 & Hfee & Hrun). apply bind_Ok in Hrun as (signers0 & s3 & Hsig & [= <- <- <- <-]).
  assert (Hr : s0 = s ∧ tx_NetworkId tx0 = NetworkID ∧ tx_ChainId tx0 = ChainId (config s) ∧
    (2 <= height s → check_indexed h = Ok () ∧ check_created_height (height s) (CreatedHeight tx0) = Ok ())).
  { unfold CheckReplay, lift, Height in Hreplay. apply bind_Ok in Hreplay as (? & ? & [Hn ->]%fail_if_Ok & Hreplay).
    rewrite (bind_run_Ok _ _ _ (config s) s) in Hreplay by done.
    apply bind_Ok in Hreplay as (? & ? & [Hc ->]%fail_if_Ok & Hreplay).
    rewrite (bind_run_Ok _ _ _ (height s) s) in Hreplay by done. zify_bools.
    destruct (Z.ltb_spec (height s) 2) as [Hh|Hh].
    - injection Hreplay as _ <-. split_and!; [done..|lia].
    - apply bind_Ok in Hreplay as ([] & ? & [= Hix <-] & [= Hch <-]). destruct u2. by split_and!. }
  destruct Hr as (-> & Hn & Hc & Hr). unfold CheckFee in Hfee. apply bind_Ok in Hfee as (minimum & s4 & Hmin & Hfee).
  apply fail_if_Ok in Hfee as [Hle ->]. apply GetFee_cache in Hmin as Hs4. apply GetSigners_cache in Hsig as Hs3. subst s3.
  split; [done|]. intros sender Hin. zify_bools. constructor; try done.
  - by exists s, minimum, s4.
  - exists s4, signers0, s4. split_and!; [|done..]. by destruct Hs4 as (v & f & ->).
Qed.
Lemma check_payload_cache bz h s r s' : check_payload bz h s = (r, s') → only_params_cache s s'.
Proof.
  unfold check_payload, CheckReplay, CheckFee, lift, Height. pose proof (only_params_cache_refl s) as Hrefl. intros Hrun.
  runs in Hrun. repeat (case_match; simplify_eq; try done).
  all: repeat match goal with
  | H : GetAuthorizedSignersFor _ _ = _ |- _ => apply GetSigners_cache in H as ->
  | H : GetFeeForMessageName _ _ = _ |- _ => by apply GetFee_cache in H
  end.
Qed.
(** [CheckTx] that succeeds: what it checked, whose signature it is, and where it went. *)
Lemma CheckTx_Ok bz h bv s res bv' s' :
  CheckTx bz h bv s = (Ok (Ok res, bv'), s') →
  only_params_cache s s' ∧ ∃ msg pk signBytes signature,
    checked s bz h (ctr_tx res) msg (ctr_sender res) ∧ ctr_sender res = pk_Address pk ∧
    PopulateSpecialMessageFields (ctr_tx res) (ctr_sender res) msg = Ok (ctr_msg res) ∧
    signer_of (ctr_tx res) pk signBytes signature ∧
    (is_rlp (ctr_tx res) pk ∧ VerifyRLPBytes (ctr_tx res) = Ok () ∧ bv' = bv ∨
     match bv with
     | Some b => ∃ b', Add b pk signBytes signature = Some b' ∧ bv' = Some b'
     | None => VerifySig pk signBytes signature = true ∧ bv' = None
     end).
Proof.
  unfold CheckTx. rewrite (bind_run_Ok _ _ _ _ _ (try_run _ _)).
  destruct (check_payload bz h s) as [[[[tx msg] signers]|e] s1] eqn:Hp; cbn [fst snd]; [|done].
  destruct (check_payload_Ok _ _ _ _ _ _ _ Hp) as [Hc Hck].
  destruct (CheckSignature tx signers bv) as [snd verifier] eqn:Hs. intros [= Hres <- <-]. split; [done|].
  apply result_bind_Ok in Hres as (sender & -> & Hres). apply result_bind_Ok in Hres as (msg' & Hpop & [= <-]). cbn.
  unfold CheckSignature in Hs. destruct (tx_Signature tx) as [sig|] eqn:Hsig; [|done].
  case_bool_decide as Hne; [done|]. destruct (GetSignBytes tx) as [signBytes|] eqn:Hsb; [|done].
  destruct (NewPublicKeyFromBytes _) as [pk|] eqn:Hpk; [|done].
  destruct (check_bytes _ _ _ _ _) as [chk verifier'] eqn:Hcb. injection Hs as Hs <-.
  apply result_bind_Ok in Hs as ([] & -> & Hs). case_bool_decide as Hin; [|done]. injection Hs as <-.
  exists msg, pk, signBytes, (default [] (sig_Signature sig)). split_and!; [by apply Hck|done|done|by split; [exists sig|]|].
  unfold check_bytes in Hcb. destruct (bool_decide (key_kind pk = ETHSECP256K1) && bool_decide (Memo tx = RLPIndicator)) eqn:Hrlp.
  - injection Hcb as Hv <-. left. zify_bools. done.
  - right. destruct bv as [b|].
    + destruct (Add b pk signBytes _) as [b'|]; [|done]. injection Hcb as <-. by exists b'.
    + injection Hcb as Hv <-. apply check_not_Ok in Hv. zify_bools. done.
Qed.

(** ** Lemmas: the first phase *)

Lemma add_all_app l1 l2 b : add_all b (l1 ++ l2) = (b' ← add_all b l1; add_all b' l2).
Proof. revert b. induction l1 as [|[[pk m] sig] l1 IH]; intros b; cbn; [done|]. destruct (Add b pk m sig); cbn; [apply IH|done]. Qed.

(** Why the [i]-th transaction may be included: its signature is in the batch, or
    it was verified at once. *)
Definition batched (l : list (PublicKey * bytes * bytes)) (idx : list nat) (i : nat) (tx : Transaction) : Prop :=
  ∃ pk signBytes signature, signer_of tx pk signBytes signature ∧
    (is_rlp tx pk ∧ VerifyRLPBytes tx = Ok () ∨ ∃ j, idx !! j = Some i ∧ l !! j = Some (pk, signBytes, signature)).
(** The first phase after the first [n] transactions. *)
Record scanned (s : FSM) (txs : list bytes) (n : nat) (p : Phase1) (l : list (PublicKey * bytes * bytes)) : Prop := {
  sc_verifier : add_all NewBatchVerifier l = Some (p1_verifier p);
  sc_indices : length (batchToTxIdx p) = length l;
  sc_passed : ∀ i bz, (i < n)%nat → txs !! i = Some bz → failedCheckTxs p !! i = None →
    ∃ tx msg sender, checked s bz EmptyString tx msg sender ∧ batched l (batchToTxIdx p) i tx;
}.

Lemma batched_app l idx l' idx' i tx : batched l idx i tx → batched (l ++ l') (idx ++ idx') i tx.
Proof.
  intros (pk & m & sig & Hso & Hor). exists pk, m, sig. split; [done|]. destruct Hor as [?|(j & H1' & H2')]; [by left|right].
  exists j. split; by apply lookup_app_l_Some.
Qed.

Lemma checked_cache s s' bz h tx msg sender :
  only_params_cache s s' → checked s' bz h tx msg sender → checked s bz h tx msg sender.
Proof.
  intros (v & f & ->) [D1 D2 D3 D4 D5 D6 (s1 & m & s2 & E1 & E2) (s3 & sg & s4 & E3 & E4)].
  constructor; try done; [by exists s1, m, s2|by exists s3, sg, s4].
Qed.
Lemma Add_all_snoc l b pk m sig b' :
  add_all NewBatchVerifier l = Some b → Add b pk m sig = Some b' →
  add_all NewBatchVerifier (l ++ [(pk, m, sig)]) = Some b' ∧ count b = length l ∧ count b' = S (length l).
Proof.
  intros Hb Ha. assert (Hs : shaped NewBatchVerifier) by done.
  assert (Hc : count b = length l) by (rewrite (add_all_count l _ _ Hs Hb); done).
  split_and!; [rewrite add_all_app, Hb; cbn; by rewrite Ha|done|].
  destruct (add_all_spec l _ _ Hs Hb) as [Hsb _]. destruct (Add_spec _ _ _ _ _ Hsb Ha) as (_ & -> & _). by rewrite Hc.
Qed.
Lemma Add_inj l b pk m sig pk' m' sig' b' :
  add_all NewBatchVerifier l = Some b → Add b pk m sig = Some b' → Add b pk' m' sig' = Some b' →
  (pk', m', sig') = (pk, m, sig).
Proof.
  intros Hb H1' H2'. assert (Hs : shaped NewBatchVerifier) by done. destruct (add_all_spec l _ _ Hs Hb) as [Hsb _].
  destruct (Add_spec _ _ _ _ _ Hsb H1') as (_ & _ & P1). destruct (Add_spec _ _ _ _ _ Hsb H2') as (_ & _ & P2).
  rewrite P1 in P2. apply (Permutation_app_inv_r (tuples b) [_] [_]), Permutation_length_1 in P2. congruence.
Qed.
(** Whatever the outcome, the verifier a check leaves has one more signature or none. *)
Lemma CheckTx_verifier bz h b l s r bv' s' :
  add_all NewBatchVerifier l = Some b → CheckTx bz h (Some b) s = (Ok (r, bv'), s') →
  only_params_cache s s' ∧ ∃ b' l', bv' = Some b' ∧ add_all NewBatchVerifier (l ++ l') = Some b' ∧
    (count b' - count b)%nat = length l'.
Proof.
  intros Hb. unfold CheckTx. rewrite (bind_run_Ok _ _ _ _ _ (try_run _ _)).
  assert (Hsame : ∃ b' l', Some b = Some b' ∧ add_all NewBatchVerifier (l ++ l') = Some b' ∧ (count b' - count b)%nat = length l')
    by (exists b, []; rewrite app_nil_r; split_and!; [done..|cbn; lia]).
  destruct (check_payload bz h s) as [pl s1] eqn:Hp. cbn [fst snd].
  assert (Hc : only_params_cache s s1) by exact (check_payload_cache _ _ _ _ _ Hp).
  destruct pl as [[[tx msg] signers]|e]; [|by intros [= _ <- <-]].
  destruct (CheckSignature tx signers (Some b)) as [snd verifier] eqn:Hs. intros [= _ <- <-]. split; [done|].
  unfold CheckSignature in Hs. destruct (tx_Signature tx); [|by injection Hs as _ <-].
  case_bool_decide; [by injection Hs as _ <-|]. destruct (GetSignBytes tx); [|by injection Hs as _ <-].
  destruct (NewPublicKeyFromBytes _) as [pk|]; [|by injection Hs as _ <-].
  destruct (check_bytes _ _ _ _ _) as [chk verifier'] eqn:Hcb. injection Hs as _ <-.
  unfold check_bytes in Hcb. case_match; [by injection Hcb as _ <-|].
  destruct (Add b pk a _) as [b'|] eqn:Ha; injection Hcb as _ <-; [|done].
  destruct (Add_all_snoc _ _ _ _ _ _ Hb Ha) as (Hl & Hc1 & Hc2). eexists b', [_]. split_and!; [done|exact Hl|cbn; lia].
Qed.

Lemma check_one_spec s0 txs i bz p l s p' s' :
  only_params_cache s0 s → scanned s0 txs i p l → txs !! i = Some bz → check_one i bz p s = (Ok p', s') →
  only_params_cache s0 s' ∧ ∃ l', scanned s0 txs (S i) p' l'.
Proof.
  intros Hc0 [Hv Hi Hpass] Hbz. unfold check_one.
  rewrite (bind_run_Ok _ _ _ (store s) s) by done. intros Hrun. apply bind_Ok in Hrun as ([checkErr bv'] & s1 & Hchk & Hrun).
  destruct (CheckTx_verifier _ _ _ _ _ _ _ _ Hv Hchk) as (Hc1 & b' & l' & -> & Hall & Hcount).
  unfold modify in Hrun. rewrite (bind_run_Ok _ _ _ () (set_store (store s) s1)) in Hrun by done.
  apply bind_Ok in Hrun as (? & ? & [_ ->]%fail_if_Ok & [= <- <-]).
  split.
  { eapply only_params_cache_trans; [exact Hc0|]. destruct Hc1 as (v & f & ->). exists v, f. by destruct s. }
  cbn [default]. rewrite Hcount. exists (l ++ l'). constructor; cbn [p1_verifier failedCheckTxs batchToTxIdx]; [done| |].
  { by rewrite !length_app, length_replicate, Hi. }
  intros j bz' Hj Hjbz Hnone.
  assert (Hnone' : failedCheckTxs p !! j = None).
  { destruct checkErr as [res|e]; [done|]. by apply lookup_insert_None in Hnone as [? _]. }
  destruct (decide (j = i)) as [->|Hne].
  2:{ destruct (Hpass j bz' ltac:(lia) Hjbz Hnone') as (tx & msg & sender & Hck & Hb). exists tx, msg, sender.
      split; [done|by apply batched_app]. }
  destruct checkErr as [res|e]; [|by rewrite lookup_insert_eq in Hnone].
  assert (bz' = bz) as -> by congruence.
  destruct (CheckTx_Ok _ _ _ _ _ _ _ Hchk) as (_ & msg & pk & signBytes & signature & Hck & _ & _ & Hso & Hor).
  exists (ctr_tx res), msg, (ctr_sender res). split; [by eapply checked_cache|].
  exists pk, signBytes, signature. split; [done|]. destruct Hor as [(Hr & Hrlp & _)|(b1 & Ha & [= <-])]; [by left|right].
  exists (length l). destruct (Add_all_snoc _ _ _ _ _ _ Hv Ha) as (_ & Hc & Hc').
  assert (Hl' : length l' = 1%nat) by lia.
  assert (l' = [(pk, signBytes, signature)]) as ->.
  { destruct l' as [|[[pk' m'] sig'] [|]]; try done. rewrite add_all_app, Hv in Hall. cbn in Hall.
    assert (Ha' : Add (p1_verifier p) pk' m' sig' = Some b') by (by destruct (Add (p1_verifier p) pk' m' sig')).
    by rewrite (Add_inj _ _ _ _ _ _ _ _ _ Hv Ha Ha'). }
  rewrite Hl', <- Hi at 1. split; by apply list_lookup_middle.
Qed.

Lemma check_each_spec s0 txs rest : ∀ i p l s p' s',
  only_params_cache s0 s → scanned s0 txs i p l → drop i txs = rest → check_each i rest p s = (Ok p', s') →
  only_params_cache s0 s' ∧ ∃ l', scanned s0 txs (i + length rest) p' l'.
Proof.
  induction rest as [|bz rest IH]; intros i p l s p' s' Hc Hsc Hd Hrun.
  { injection Hrun as <- <-. split; [done|]. exists l. by rewrite Nat.add_0_r. }
  cbn [check_each] in Hrun. apply bind_Ok in Hrun as (p1 & s1 & H1' & Hrun).
  assert (Hbz : txs !! i = Some bz) by (rewrite <- (Nat.add_0_r i), <- lookup_drop, Hd; done).
  destruct (check_one_spec _ _ _ _ _ _ _ _ _ Hc Hsc Hbz H1') as [Hc1 [l1 Hsc1]].
  destruct (IH (S i) p1 l1 s1 p' s' Hc1 Hsc1) as [Hc' [l' Hsc']]; [|done|].
  { rewrite <- Nat.add_1_r, <- drop_drop, Hd. done. }
  split; [done|]. exists l'. cbn. by rewrite Nat.add_succ_r.
Qed.
Lemma mark_invalid_spec bad idx failed failed' :
  mark_invalid bad idx failed = Ok failed' →
  ∀ i, failed' !! i = None → failed !! i = None ∧ ∀ j, j ∈ bad → idx !! j ≠ Some i.
Proof.
  revert failed. induction bad as [|j bad IH]; intros failed; cbn [mark_invalid].
  { intros [= <-] i Hi. split; [done|]. intros j Hj. by inv Hj. }
  destruct (idx !! j) as [k|] eqn:Hk; [|done]. intros Hrun i Hi. destruct (IH _ Hrun i Hi) as [Hf Hb].
  apply lookup_insert_None in Hf as [Hf Hne]. split; [done|]. intros j' [->|Hj']%elem_of_cons; [congruence|by apply Hb].
Qed.
Context `{!SigSchemeLaws}.
(** Every hit of the signature cache is a valid signature. *)
Definition cache_valid : Prop := ∀ t, cache_hit (Key t) = true → valid t = true.

Lemma check_all_txs_spec txs s failed s' :
  cache_valid → check_all_txs txs s = (Ok failed, s') →
  only_params_cache s s' ∧ ∀ i bz, txs !! i = Some bz → failed !! i = None →
    ∃ tx msg sender pk, checked s bz EmptyString tx msg sender ∧ signed_by tx pk.
Proof.
  intros Hcv. unfold check_all_txs, lift. intros Hrun. apply bind_Ok in Hrun as (p & s1 & Hrun & [= Hmark <-]).
  assert (Hsc : scanned s txs 0 (MkPhase1 NewBatchVerifier ∅ []) []) by (constructor; [done|done|intros; lia]).
  destruct (check_each_spec _ _ _ _ _ _ _ _ _ (only_params_cache_refl s) Hsc eq_refl Hrun) as [Hc [l [Hv Hi Hp]]].
  split; [done|]. intros i bz Hbz Hnone. destruct (mark_invalid_spec _ _ _ _ Hmark i Hnone) as [Hf Hbad].
  destruct (Hp i bz) as (tx & msg & sender & Hck & pk & signBytes & signature & Hso & Hor);
    [by apply lookup_lt_Some in Hbz|done|done|].
  exists tx, msg, sender, pk. split; [done|]. exists signBytes, signature. split; [done|].
  destruct Hor as [[Hr Hrlp]|(j & Hj & Hlj)]; [right; done|left].
  destruct (valid_at l j) eqn:Hva; [unfold valid_at in Hva; by rewrite Hlj in Hva|].
  exfalso. apply (Hbad j); [|done].
  rewrite (Verify_filter l) by (done || (apply Forall_forall; intros t _; apply Hcv)). apply list_elem_of_filter. split; [done|]. apply elem_of_seq. apply lookup_lt_Some in Hlj. lia.
Qed.

(** ** Lemmas: the second phase *)

Lemma ApplyTransaction_Ok index bz h bv s res evs s' :
  ApplyTransaction index bz h bv s = (Ok (res, evs), s') →
  ∃ msg pk signBytes signature,
    checked s bz h (txr_Transaction res) msg (txr_Sender res) ∧ txr_Sender res = pk_Address pk ∧
    signer_of (txr_Transaction res) pk signBytes signature ∧ txr_TxHash res = h ∧ txr_Index res = index.
Proof.
  unfold ApplyTransaction, lift. intros Hrun. apply bind_Ok in Hrun as ([chk bv'] & s1 & Hchk & Hrun).
  apply bind_Ok in Hrun as (r & s2 & [= Hr <-] & Hrun). cbn [fst] in Hr. subst chk.
  apply bind_Ok in Hrun as (? & s3 & _ & Hrun). unfold Height, reset_events in Hrun.
  rewrite (bind_run_Ok _ _ _ (height s3) s3) in Hrun by done.
  rewrite (bind_run_Ok _ _ _ (events s3) (set_events [] s3)) in Hrun by done. injection Hrun as <- <- <-.
  destruct (CheckTx_Ok _ _ _ _ _ _ _ Hchk) as (_ & msg & pk & m & sig & Hck & Hsnd & _ & Hso & _).
  exists msg, pk, m, sig. by split_and!.
Qed.
(** The results a loop has collected, in the block or over its size. *)
Definition collected (l : Loop) : list TxResult := abr_Results (lp_results l) ++ Oversized (lp_results l).
Definition applied_at (bz : bytes) (res : TxResult) : Prop :=
  ∃ s1 s2 evs index, ApplyTransaction index bz (tx_hash_string bz) (Some NoOpBatchVerifier) s1 = (Ok (res, evs), s2).

Lemma apply_one_collects c ov mx f bz l s l' e s' :
  apply_one c ov mx f bz l s = (Ok (l', e), s') →
  ∀ res, res ∈ collected l' → res ∈ collected l ∨ f = None ∧ applied_at bz res.
Proof.
  unfold apply_one. destruct c; [by intros [= <- <- <-]; left|]. destruct f as [e0|]; [by intros [= <- <- <-]; left|].
  destruct (Found (deDuplicator l) (tx_hash_string bz)) as [found dd]. cbv beta iota zeta. destruct found; [by intros [= <- <- <-]; left|].
  set (exceeded := (mx <? _) && _). destruct (exceeded && negb ov); [by intros [= <- <- <-]; left|]. intros Hrun.
  rewrite (bind_run_Ok _ _ _ (store s) s) in Hrun by done. apply bind_Ok in Hrun as (ap & s1 & Hap & Hrun).
  destruct ap as [[res0 evs]|e0].
  2:{ intros res Hres. left. destruct e0; injection Hrun as <- <- <-; exact Hres. }
  destruct (MarshalResult res0) as [bzr|em]; [|by injection Hrun as <- <- <-; left].
  injection Hrun as <- <- <-. intros res Hres.
  assert (Hin : res ∈ collected l ∨ res = res0).
  { unfold collected, add_result in *. cbn [lp_results] in Hres. case_match; cbn in Hres; rewrite ?app_assoc in Hres;
      rewrite ?elem_of_app, ?list_elem_of_singleton in *; tauto. }
  destruct Hin as [?| ->]; [by left|right]. split; [done|]. unfold apply_or_rollback in Hap.
  rewrite (bind_run_Ok _ _ _ (store s) s) in Hap by done. rewrite (bind_run_Ok _ _ _ (slashTracker s) s) in Hap by done.
  rewrite (bind_run_Ok _ _ _ _ _ (try_run _ _)) in Hap.
  destruct (ApplyTransaction _ _ _ _ s) as [[x|e0] s2] eqn:HA; cbn [fst snd] in Hap; [|by destruct e0].
  injection Hap as -> <-. by exists s, s2, evs, (Count (lp_results l)).
Qed.
Lemma apply_each_collects ctx ov mx failed txs : ∀ i l s l' e s',
  apply_each ctx ov mx failed i txs l s = (Ok (l', e), s') →
  ∀ res, res ∈ collected l' → res ∈ collected l ∨
    ∃ j bz, txs !! j = Some bz ∧ failed !! (i + j)%nat = None ∧ applied_at bz res.
Proof.
  induction txs as [|bz txs IH]; intros i l s l' e s' Hrun res Hres; [by injection Hrun as <- <- <-; left|].
  cbn [apply_each] in Hrun. apply bind_Ok in Hrun as ([l1 e1] & s1 & H1' & Hrun).
  pose proof (apply_one_collects _ _ _ _ _ _ _ _ _ _ H1') as Hone.
  assert (Hend : res ∈ collected l1 → res ∈ collected l ∨
      ∃ j bz0, (bz :: txs) !! j = Some bz0 ∧ failed !! (i + j)%nat = None ∧ applied_at bz0 res).
  { intros Hin. destruct (Hone res Hin) as [?|[Hf Ha]]; [by left|right]. exists 0%nat, bz. by rewrite Nat.add_0_r. }
  destruct e1 as [e1|]; [injection Hrun as <- <- <-; auto|].
  destruct (IH _ _ _ _ _ _ Hrun res Hres) as [Hin|(j & bz0 & Hj & Hf & Ha)]; [auto|right].
  exists (S j), bz0. rewrite Nat.add_succ_r. done.
Qed.

(** ** Theorem: what is in a block was authorized *)

(** [bz] passed every check, its signature included, against the state [s0] before
    the block; and again, with its hash looked up in the index, against the state
    it was applied to, where its signer is an authorized one. *)
Record authorized (s0 : FSM) (bz : bytes) (res : TxResult) : Prop := {
  az_before : ∃ msg sender, checked s0 bz EmptyString (txr_Transaction res) msg sender;
  az_signed : ∃ pk, signed_by (txr_Transaction res) pk ∧ pk_Address pk = txr_Sender res;
  az_applied : ∃ s1 msg, checked s1 bz (tx_hash_string bz) (txr_Transaction res) msg (txr_Sender res);
  az_hash : txr_TxHash res = tx_hash_string bz;
}.
End apply.

(** ** Witnesses *)

Definition toy_node : Node := {| NetworkID := 1; LastValidatorSet := λ _ _, None |}.
Definition toy_votes : VoteConfig := {| proposeVoteConfig := AcceptAllProposals; proposals := Ok ∅ |}.
Definition toy_index : TxIndexer := {| GetTxByHash := λ _, Ok None |}.
Definition toy_results : ResultCodec := {| MarshalResult := λ _, Ok [] |}.
Definition carol : bytes := replicate 20 x0a.
Definition dave : bytes := replicate 20 x0b.
(** Sends from [carol] to [dave]; the first byte of an [Any] is the amount. *)
Definition toy_any : AnyCodec :=
  {| FromAny := λ a, match any_Value a with
                     | b :: _ => Ok (AnyMessage (MSend (MkMsgSend carol dave (byte_to_Z b) 0 0 0)))
                     | [] => Err ErrFromAny
                     end |}.
(** The first byte of a transaction is the amount, the second its time, the third its
    signature; what is signed is the time. *)
Definition toy_txs : TxCodec :=
  {| UnmarshalTx := λ bz, match bz with
       | [a; t; sg] => Ok (MkTransaction "send" (Some (MkAny EmptyString [a])) (Some (MkSignature (Some carol) (Some [sg])))
                          4 (byte_to_Z t) 2 EmptyString 1 1)
       | _ => Err ErrUnmarshal
       end;
     MarshalTx := λ x, Ok [byte_of_Z (tx_Time x)] |}.
(** A state whose blocks hold [n] bytes of transactions. *)
Definition demo_chain (n : Z) : FSM :=
  set_store (set_params_cons (Some (MkConsensusParams (MaxBlockHeaderSize + n) "1/0" 1 0 0))
    (set_accounts {[ carol := account carol 20; dave := account dave 1480 ]} demo_store)) demo.
#[local] Existing Instances toy_crypto toy_multisig toy_codec toy_history toy_votes toy_txs toy_any toy_node toy_sigs toy_sigs_laws
  toy_msgs toy_eth toy_index toy_results.
(** Four transactions: a good one, one with a bad signature, one that overspends,
    another good one. *)
Definition demo_block : list bytes := [[x05; x01; x01]; [x05; x02; x03]; [xff; x03; x03]; [x06; x04; x04]].
Definition demo_applied : ApplyBlockResults := out empty_results (ApplyTransactions (λ _, false) demo_block empty_results false (demo_chain 100)).
Example demo_block_applied :
  Txs demo_applied = [[x05; x01; x01]; [x06; x04; x04]] ∧
  Failed demo_applied = [([x05; x02; x03], ErrInvalidSignature); ([xff; x03; x03], ErrInsufficientFunds)].
Proof. vm_compute. done. Qed.
