(* ===== verification/Conserve.v ===== *)
(** * Conservation by transactions

    The invariant the state keeps across transactions, and what a transaction
    posts to the books: nothing, but for donations to an escrow or holding pool. *)
From Stdlib Require Import String.
From S2P Require Import Prelude LibUtil State Ledger Params Crypto Account Validator Committee Byzantine Swap.
From S2P Require Import Quorum Certificate Dex Tx Fixtures Gov Hex Automatic Message Batch Ethereum ApplyTx.
#[local] Open Scope Z_scope.

(** ** The invariant *)

Record sound (s : FSM) : Prop := {
  sd_dex : dex_inv s;
  sd_orders : wf_orders (store s);
  sd_cycle : lifecycle s;
  sd_staked : 0 <= g_staked (books 1 (store s));
}.
(** The seven books of a chain, but the escrow and holding pools may hold more. *)
Definition kept (s s' : FSM) : Prop :=
  ∀ c, valid_chain c → ∃ e h, 0 <= e ∧ 0 <= h ∧ posted c (Gaps 0 0 0 0 0 e h) s s'.

Lemma books_kept_trans s1 s2 s3 : kept s1 s2 → kept s2 s3 → kept s1 s3.
Proof.
  intros K1 K2 c Hc. destruct (K1 c Hc) as (e1 & h1 & ? & ? & P1), (K2 c Hc) as (e2 & h2 & ? & ? & P2).
  exists (e1 + e2), (h1 + h2). split_and!; [lia..|]. eapply posted_eq; [by eapply posted_trans|]. g_eq.
Qed.
Definition sound_step (s s' : FSM) : Prop := sound s' ∧ kept s s'.
Lemma sound_step_trans s1 s2 s3 : sound_step s1 s2 → sound_step s2 s3 → sound_step s1 s3.
Proof. intros [_ K1] [S2 K2]. split; [done|by eapply books_kept_trans]. Qed.

(** ** Frames: the parts of the state an operation leaves *)

(** The validators and their queues. *)
Record same_staking (s s' : FSM) : Prop := {
  ss_validators : validators (store s') = validators (store s);
  ss_unstaking : unstaking (store s') = unstaking (store s);
  ss_paused : paused (store s') = paused (store s);
}.
Definition same_orders (s s' : FSM) : Prop := orders (store s') = orders (store s).
Record same_batches (s s' : FSM) : Prop := {
  sb_locked : locked_batch (store s') = locked_batch (store s);
  sb_next : next_batch (store s') = next_batch (store s);
}.
Definition points_kept (s s' : FSM) : Prop := ∀ c, valid_chain c → wf_points (lpool c s) → wf_points (lpool c s').

Lemma same_staking_trans s1 s2 s3 : same_staking s1 s2 → same_staking s2 s3 → same_staking s1 s3.
Proof. intros [] []. split; congruence. Qed.
Lemma same_batches_trans s1 s2 s3 : same_batches s1 s2 → same_batches s2 s3 → same_batches s1 s3.
Proof. intros [] []. split; congruence. Qed.
Lemma points_kept_trans s1 s2 s3 : points_kept s1 s2 → points_kept s2 s3 → points_kept s1 s3.
Proof. intros K1 K2 c Hc Hp. auto. Qed.
Lemma lifecycle_same s s' : same_staking s s' → lifecycle s → lifecycle s'.
Proof. intros [E1 E2 E3] HL. unfold lifecycle, queued. by rewrite E1, E2, E3. Qed.

(** What a run that moves funds leaves: all of the above. *)
Record rest (s s' : FSM) : Prop := {
  rs_staking : same_staking s s'; rs_orders : same_orders s s'; rs_batches : same_batches s s'; rs_points : points_kept s s' }.
Lemma rest_trans s1 s2 s3 : rest s1 s2 → rest s2 s3 → rest s1 s3.
Proof.
  intros [A1 A2 A3 A4] [B1 B2 B3 B4]. split; [by eapply same_staking_trans|unfold same_orders in *; congruence|
    by eapply same_batches_trans|by eapply points_kept_trans].
Qed.
Lemma rest_store s s' : store s' = store s → rest s s'.
Proof. intros E. split; [split|unfold same_orders|split|unfold points_kept, lpool]; by rewrite E. Qed.
Lemma rest_accounts s s' : only_accounts s s' → rest s s'.
Proof. intros (accs & ca & ->). split; [by split|done|by split|by intros c _]. Qed.
Lemma rest_supply s s' : only_supply_idx s s' → rest s s'.
Proof. intros (x & ci & di & ->). split; [by split|done|by split|by intros c _]. Qed.
Lemma rest_set_pool p s r s' :
  (∀ c, valid_chain c → pool_Id p = liquidity_id c → wf_points (lpool c s) → wf_points p) → SetPool p s = (r, s') → rest s s'.
Proof.
  intros Hp Hrun. assert (Hlook := λ i, SetPool_lookup _ _ _ _ i Hrun). apply SetPool_frame in Hrun.
  split; [by rewrite Hrun; split|by rewrite Hrun|by rewrite Hrun; split|]. intros c Hc Hw. unfold lpool. rewrite Hlook.
  case_decide as Hi; [|done]. destruct (pool_Amount p =? 0); [apply wf_points_none|by eapply Hp].
Qed.
Lemma rest_pool_add id n s r s' : PoolAdd id n s = (r, s') → rest s s'.
Proof.
  unfold PoolAdd, GetPool, getst. rewrite (bind_run_Ok _ _ _ (lookup_pool id (store s)) s) by done.
  apply rest_set_pool. intros c _ Hid Hw. apply wf_points_amount. cbn in Hid. destruct (lookup_pool_spec id (store s)) as [E _].
  rewrite E in Hid. by subst id.
Qed.
Lemma rest_pool_sub id n s r s' : PoolSub id n s = (r, s') → rest s s'.
Proof.
  unfold PoolSub, GetPool, getst. rewrite (bind_run_Ok _ _ _ (lookup_pool id (store s)) s) by done.
  intros Hrun. unfold fail_if in Hrun. destruct (_ <? n); [injection Hrun as _ <-; by apply rest_store|].
  revert Hrun. apply rest_set_pool. intros c _ Hid Hw. apply wf_points_amount. cbn in Hid.
  destruct (lookup_pool_spec id (store s)) as [E _]. rewrite E in Hid. by subst id.
Qed.

(** ** Tokens in flight *)

(** [t] tokens left the holdings, the pools may owe less, the rest is the same. *)
Record moved (t : Z) (s s' : FSM) : Prop := {
  mv_wf : wf s';
  mv_posted : ∀ c, valid_chain c → ∃ e h, 0 <= e ∧ 0 <= h ∧ posted c (Gaps t 0 0 0 0 e h) s s';
  mv_rest : rest s s';
}.
Lemma moved_0 s s' : wf s → same_books s s' → moved 0 s s'.
Proof.
  intros Hw Hs. split; [by eapply same_books_wf| |apply rest_store; apply Hs].
  intros c _. exists 0, 0. split_and!; [done..|by apply same_books_posted].
Qed.
Lemma moved_trans t1 t2 t s1 s2 s3 : moved t1 s1 s2 → moved t2 s2 s3 → t = t1 + t2 → moved t s1 s3.
Proof.
  intros [_ P1 R1] [W2 P2 R2] ->. split; [done| |by eapply rest_trans]. intros c Hc.
  destruct (P1 c Hc) as (e1 & h1 & ? & ? & Q1), (P2 c Hc) as (e2 & h2 & ? & ? & Q2).
  exists (e1 + e2), (h1 + h2). split_and!; [lia..|]. eapply posted_eq; [by eapply posted_trans|]. g_eq.
Qed.
Lemma moved_total t s s' : moved t s s' → g_total (books 1 (store s')) = g_total (books 1 (store s)) + t.
Proof.
  intros [_ P _]. destruct (P 1 valid_chain_1) as (e & h & _ & _ & Q). exact (g_total_posted _ _ _ _ Q).
Qed.
Lemma moved_credited a n s s' : credited a n s s' → moved (- n) s s'.
Proof.
  intros [Hw Hsh _ Ho]. split; [done| |by apply rest_accounts]. intros c _. exists 0, 0. split_and!; [done..|].
  split; [done|]. eapply shift_eq; [apply Hsh|done].
Qed.
Lemma moved_sub a n s u s' : wf s → u64 n → AccountSub a n s = (Ok u, s') → moved n s s'.
Proof.
  intros Hw Hn Hrun. apply AccountSub_spec in Hrun as (Hc & _); [|done..]. apply moved_credited in Hc.
  by rewrite Z.opp_involutive in Hc.
Qed.
Lemma moved_add a n s u s' : wf s → u64 n → AccountAdd a n s = (Ok u, s') → moved (- n) s s'.
Proof. intros Hw Hn Hrun. apply AccountAdd_spec in Hrun; [|done..]. by eapply moved_credited. Qed.
Lemma moved_pool_add id n s u s' :
  wf s → 0 <= n <= g_total (books 1 (store s)) → PoolAdd id n s = (Ok u, s') → moved (- n) s s'.
Proof.
  intros Hw Hn Hrun. apply rest_pool_add in Hrun as Hr. apply (PoolAdd_spec 1) in Hrun as [_ [Hw' Hsh _ _]]; [|done..].
  split; [done| |done]. intros c _. exists (hit id (escrow_id c) n), (hit id (holding_id c) n).
  split_and!; [unfold hit; case_match; lia..|]. split; [done|exact (Hsh c)].
Qed.
Lemma moved_dao_sub n s u s' : wf s → u64 n → PoolSub DAOPoolID n s = (Ok u, s') → moved n s s'.
Proof.
  intros Hw Hn Hrun. apply rest_pool_sub in Hrun as Hr. apply PoolSub_spec in Hrun as ([Hw' Hsh _ _] & _); [|done..].
  split; [done| |done]. intros c Hc. exists 0, 0. split_and!; [done..|]. split; [done|]. eapply shift_eq; [apply Hsh|].
  destruct (pool_ids_disjoint c c Hc Hc) as (_ & _ & _ & _ & _ & _ & ? & ? & _).
  unfold d_pool. rewrite !hit_ne by done. g_eq.
Qed.
Lemma moved_mint n s u s' :
  wf s → u64 n → u64 (Total (supply (store s)) + n) → AddToTotalSupply n s = (Ok u, s') → moved n s s'.
Proof.
  intros Hw Hn Hu Hrun. apply AddToTotalSupply_spec in Hrun as (_ & [Hw' Hsh Ho] & _); [|done..].
  split; [done| |by apply rest_supply, only_supply_weaken]. intros c _. exists 0, 0. split_and!; [done..|].
  split; [done|exact (Hsh c)].
Qed.

(** A run that moved nothing out keeps the invariant. *)
Lemma moved_sound s s' : sound s → moved 0 s s' → sound_step s s'.
Proof.
  intros [[D1 D2 D3 D4] S2 S3 S4] [Hw HP [[E1 E2 E3] EO [B1 B2] EP]]. split; [|exact HP].
  destruct (HP 1 valid_chain_1) as (e & h & _ & _ & [_ Hsh]).
  pose proof (f_equal g_total Hsh) as Ht. pose proof (f_equal g_staked Hsh) as Hst. cbn in Ht, Hst.
  split.
  - split; [done|cbn in *; lia|intros c Hc; auto|by rewrite B1, B2].
  - unfold wf_orders. by rewrite EO.
  - by eapply (lifecycle_same s).
  - cbn in *; lia.
Qed.

(** ** Messages that move funds between accounts and pools *)

Section conserve.
Context `{Crypto, Multisig, Codec, History, VoteConfig, AnyCodec, Node}.

Lemma moved_fee a fee s u s' : sound s → u64 fee → AccountDeductFees a fee s = (Ok u, s') → moved 0 s s'.
Proof.
  intros Hs Hf Hrun. unfold AccountDeductFees in Hrun. apply bind_Ok in Hrun as (u1 & s1 & Hm1 & Hrun).
  pose proof (sd_dex _ Hs) as [D1 D2 _ _]. apply moved_sub in Hm1 as M1; [|done..].
  apply bind_Ok in Hrun as (cfg & s2 & [= <- <-] & Hrun). apply moved_pool_add in Hrun as M2; [|apply M1|].
  - eapply moved_trans; [exact M1|exact M2|lia].
  - rewrite (moved_total _ _ _ M1). u64.
Qed.
Lemma ValidateVesting_same msg s r s' : ValidateAccountAddWithVesting msg s = (r, s') → s' = s.
Proof. unfold ValidateAccountAddWithVesting, GetAccount, Height. runs. intros Hrun. by case_match; simplify_eq. Qed.
Lemma moved_add_vesting msg s u s' :
  wf s → u64 (ms_Amount msg) → AccountAddWithVesting msg s = (Ok u, s') → moved (- ms_Amount msg) s s'.
Proof.
  intros Hw Hn. unfold AccountAddWithVesting, GetAccount, Height.
  set (a := ms_ToAddress msg). set (n := ms_Amount msg) in *. destruct (lookup_account_spec a s Hw) as [Ha Hb].
  rewrite (bind_run_Ok _ _ _ (lookup_account a s) s) by done. intros Hrun.
  apply bind_Ok in Hrun as (? & ? & [Hg ->]%fail_if_Ok & Hrun). apply orb_false_iff in Hg as [Hg _].
  apply max_guard in Hg; [|rewrite Hb; by apply acc_bal_range|done].
  apply bind_Ok in Hrun as (? & s1 & Hv & Hrun). apply ValidateVesting_same in Hv as ->.
  rewrite (bind_run_Ok _ _ _ (height s) s) in Hrun by done. cbn [acc_Amount set_acc_Amount acc_Address] in Hrun.
  rewrite u64_add_small in Hrun by done.
  assert (Hset : ∀ acc, acc_Address acc = a → acc_Amount acc = acc_bal (store s) a + n → SetAccount acc s = (Ok u, s') →
      moved (- n) s s').
  { intros acc E1 E2 HS. apply SetAccount_spec in HS as [_ HC]; [|done|rewrite E2, <- Hb; done].
    rewrite E1, E2 in HC. apply moved_credited in HC. by replace (- (acc_bal (store s) a + n - acc_bal (store s) a)) with (- n) in HC by lia. }
  destruct (_ || _); revert Hrun; apply Hset; cbn; congruence.
Qed.
Lemma moved_send msg s u s' : wf s → u64 (ms_Amount msg) → HandleMessageSend msg s = (Ok u, s') → moved 0 s s'.
Proof.
  intros Hw Hn Hrun. unfold HandleMessageSend in Hrun. set (vesting := negb _ || negb _) in Hrun.
  apply bind_Ok in Hrun as (? & s0 & H0' & Hrun).
  assert (s0 = s) as -> by (unfold when in H0'; destruct vesting; [by apply ValidateVesting_same in H0'|by injection H0' as _ <-]).
  apply bind_Ok in Hrun as (? & s1 & H1' & Hrun). apply moved_sub in H1' as M1; [|done..].
  assert (M2 : moved (- ms_Amount msg) s1 s').
  { destruct vesting; [eapply moved_add_vesting|eapply moved_add]; try exact Hrun; try done; apply M1. }
  eapply moved_trans; [exact M1|exact M2|lia].
Qed.
Lemma moved_subsidy msg s u s' : sound s → u64 (su_Amount msg) → HandleMessageSubsidy msg s = (Ok u, s') → moved 0 s s'.
Proof.
  intros Hs Hn Hrun. unfold HandleMessageSubsidy, CommitteeIsRetired, getst in Hrun.
  apply bind_Ok in Hrun as (? & ? & [= <- <-] & Hrun). apply bind_Ok in Hrun as (? & ? & [_ ->]%fail_if_Ok & Hrun).
  apply bind_Ok in Hrun as (? & s1 & H1' & Hrun). pose proof (sd_dex _ Hs) as [D1 D2 _ _].
  apply moved_sub in H1' as M1; [|done..]. apply moved_pool_add in Hrun as M2; [|apply M1|rewrite (moved_total _ _ _ M1); u64].
  eapply moved_trans; [exact M1|exact M2|lia].
Qed.
Lemma approved_same st en h s u s' : approved st en h s = (Ok u, s') → s' = s.
Proof.
  unfold approved, ApproveProposal, lift, Height. runs. intros Hrun.
  repeat (case_match; simplify_eq; try done).
Qed.
Lemma moved_dao msg s u s' :
  sound s → u64 (dt_Amount msg) → (dt_Mint msg = true → u64 (Total (supply (store s)) + dt_Amount msg)) →
  HandleMessageDAOTransfer msg s = (Ok u, s') → moved 0 s s'.
Proof.
  intros Hs Hn Hmint Hrun. pose proof (sd_dex _ Hs) as [D1 D2 _ _]. unfold HandleMessageDAOTransfer in Hrun.
  apply bind_Ok in Hrun as (? & ? & ->%approved_same & Hrun). apply bind_Ok in Hrun as (? & s1 & Hm1 & Hrun).
  assert (M1 : moved 0 s s1).
  { unfold when in Hm1. destruct (dt_Mint msg); [|injection Hm1 as _ <-; by apply moved_0].
    unfold MintToPool in Hm1. apply bind_Ok in Hm1 as (? & s2 & Hm2 & Hm3). apply moved_mint in Hm2 as M2; [|auto..].
    apply moved_pool_add in Hm3 as M3; [|apply M2|rewrite (moved_total _ _ _ M2); u64].
    eapply moved_trans; [exact M2|exact M3|lia]. }
  apply bind_Ok in Hrun as (? & s2 & Hm2 & Hm3). apply moved_dao_sub in Hm2 as M2; [|apply M1|done].
  apply moved_add in Hm3 as M3; [|apply M2|done]. eapply moved_trans; [exact M1| |done].
  eapply moved_trans; [exact M2|exact M3|lia].
Qed.
(** The address the configuration makes a faucet. *)
Definition faucet (cfg : Config) : option bytes :=
  NewAddressFromString (TrimPrefix (ToLower (TrimSpace (list_byte_of_string (FaucetAddress cfg)))) (list_byte_of_string "0x")).
Lemma moved_faucet sender required s u s' :
  wf s → u64 required → (faucet (config s) = Some sender → u64 (Total (supply (store s)) + required)) →
  maybeFaucetTopUpForSendTx sender required s = (Ok u, s') → moved 0 s s'.
Proof.
  intros Hw Hn Hfit. unfold maybeFaucetTopUpForSendTx, faucet in *. rewrite (bind_run_Ok _ _ _ (config s) s) by done.
  assert (M0 : moved 0 s s) by (by apply moved_0).
  case_bool_decide; [by intros [= _ <-]|]. destruct (NewAddressFromString _) as [fa|]; [|done]. intros Hrun.
  apply bind_Ok in Hrun as (? & ? & [_ ->]%fail_if_Ok & Hrun). case_bool_decide as Hfa; cbn [negb] in Hrun; [|by injection Hrun as _ <-].
  subst fa. specialize (Hfit eq_refl). unfold GetAccountSpendableBalance, GetAccount, Height in Hrun.
  apply bind_Ok in Hrun as (bal & s0 & Hbal & Hrun). runs in Hbal. injection Hbal as <- <-.
  set (bal := AccountSpendableAmount _ _) in Hrun. destruct (Z.leb_spec required bal) as [|Hlt]; [by injection Hrun as _ <-|].
  assert (Hb : 0 <= bal).
  { unfold bal, AccountSpendableAmount. repeat case_match; [done..|apply u64_sub_range]. }
  rewrite u64_sub_small in Hrun by u64. unfold MintToAccount in Hrun. destruct (_ =? 0); [by injection Hrun as _ <-|].
  clearbody bal. destruct (wf_supplies s Hw) as [Htot _].
  apply bind_Ok in Hrun as (? & s1 & H1' & H2'). apply moved_mint in H1' as M1; [|done|u64..].
  apply moved_add in H2' as M2; [|apply M1|u64]. eapply moved_trans; [exact M1|exact M2|lia].
Qed.

(** ** Messages on the validators *)

(** The order book, the batches and the pools are untouched. *)
Record off_staking (s s' : FSM) : Prop := {
  of_orders : same_orders s s'; of_batches : same_batches s s'; of_pools : pools (store s') = pools (store s) }.
Lemma off_staking_trans s1 s2 s3 : off_staking s1 s2 → off_staking s2 s3 → off_staking s1 s3.
Proof. intros [A1 A2 A3] [B1 B2 B3]. split; [unfold same_orders in *; congruence|by eapply same_batches_trans|congruence]. Qed.
Lemma staking_sound s s' :
  sound s → off_staking s s' → (∀ c, posted c g_zero s s') → lifecycle s' → sound_step s s'.
Proof.
  intros [[D1 D2 D3 D4] S2 S3 S4] [O1 [B1 B2] OP] HP HL. destruct (HP 1) as [Hw Hsh].
  pose proof (f_equal g_total Hsh) as Ht. pose proof (f_equal g_staked Hsh) as Hst. cbn in Ht, Hst. split.
  - split; [split| |done|].
    + done.
    + cbn in *; lia.
    + intros c Hc. unfold lpool, lookup_pool. rewrite OP. by apply D3.
    + by rewrite B1, B2.
    + unfold wf_orders. by rewrite O1.
    + cbn in *; lia.
  - intros c _. exists 0, 0. split_and!; [done..|exact (HP c)].
Qed.
Lemma off_accounts s s' : only_accounts s s' → off_staking s s'.
Proof. intros (accs & ca & ->). split; [done|by split|done]. Qed.
Lemma off_supply s s' : only_supply_idx s s' → off_staking s s'.
Proof. intros (x & ci & di & ->). split; [done|by split|done]. Qed.
Lemma off_store s s' : store s' = store s → off_staking s s'.
Proof. intros E. split; [unfold same_orders|split|]; by rewrite E. Qed.
Lemma off_write a v un pa s : off_staking s (write_validator a v un pa s).
Proof. split; [done|by split|done]. Qed.

Lemma lifecycle_message (m : F unit) s u s' :
  sound s → m s = (Ok u, s') → lc_step s s' → off_staking s s' → sound_step s s'.
Proof. intros Hs _ [P L _] Ho. by apply staking_sound. Qed.
Lemma pause_off a s u s' : wf s → HandleMessagePause a s = (Ok u, s') → off_staking s s'.
Proof.
  intros Hw. unfold HandleMessagePause, Height. intros Hrun. apply bind_Ok in Hrun as (v & s0 & Hv & Hrun).
  apply GetValidator_Ok in Hv as (-> & _ & <- & _); [|done]. minv.
  match goal with HP : GetParamsVal _ = _ |- _ => apply GetParamsVal_same in HP as [Hst _] end.
  match goal with HP : SetValidatorPaused _ _ _ _ = _ |- _ => rewrite SetValidatorPaused_run in HP by done; injection HP as _ <- end.
  eapply off_staking_trans; [by apply off_store|apply off_write].
Qed.
Lemma unpause_off a s u s' : wf s → HandleMessageUnpause a s = (Ok u, s') → off_staking s s'.
Proof.
  intros Hw. unfold HandleMessageUnpause. intros Hrun. apply bind_Ok in Hrun as (v & s0 & Hv & Hrun).
  apply GetValidator_Ok in Hv as (-> & _ & <- & _); [|done]. minv.
  match goal with HP : SetValidatorUnpaused _ _ _ = _ |- _ => rewrite SetValidatorUnpaused_run in HP by done; injection HP as _ <- end.
  apply off_write.
Qed.
Lemma unstake_off a s u s' : wf s → HandleMessageUnstake a s = (Ok u, s') → off_staking s s'.
Proof.
  intros Hw. unfold HandleMessageUnstake, Height. intros Hrun. apply bind_Ok in Hrun as (v & s0 & Hv & Hrun).
  apply GetValidator_Ok in Hv as (-> & _ & <- & _); [|done]. minv.
  match goal with HP : GetParamsVal _ = _ |- _ => apply GetParamsVal_same in HP as [Hst _] end.
  match goal with HP : SetValidatorUnstaking _ _ _ _ = _ |- _ => rewrite SetValidatorUnstaking_run in HP by done; injection HP as _ <- end.
  eapply off_staking_trans; [by apply off_store|apply off_write].
Qed.

(** A stake moves the signer's tokens into the new record. *)
Lemma stake_sound msg s u s' :
  sound s → u64 (st_Amount msg) → HandleMessageStake msg s = (Ok u, s') → sound_step s s'.
Proof.
  intros Hs Hn Hrun. pose proof (sd_dex _ Hs) as [D1 _ _ _]. unfold HandleMessageStake, lift in Hrun.
  destruct (NewPublicKeyFromBytes (st_PublicKey msg)) as [pk|]; [|done]. set (a := pk_Address pk) in *. set (n := st_Amount msg) in *.
  apply bind_Ok in Hrun as (? & ? & [_ ->]%fail_if_Ok & Hrun). apply bind_Ok in Hrun as (? & ? & [= _ <-] & Hrun).
  unfold GetValidatorExists, getst in Hrun. apply bind_Ok in Hrun as (ex & ? & [= Hex <-] & Hrun).
  apply bind_Ok in Hrun as (? & ? & [Hno ->]%fail_if_Ok & Hrun). apply bind_Ok in Hrun as (p & s0 & Hp & Hrun).
  apply GetParamsVal_same in Hp as Hsame. apply bind_Ok in Hrun as (? & ? & [_ ->]%fail_if_Ok & Hrun).
  assert (Hnone : validators (store s) !! a = None).
  { subst ex. apply bool_decide_eq_false in Hno. by apply eq_None_not_Some. }
  pose proof Hsame as [Hst0 _]. pose proof (same_books_wf _ _ Hsame D1) as W0.
  apply bind_Ok in Hrun as (? & s1 & H1' & Hrun). apply AccountSub_spec in H1' as ([W1 P1 _ O1] & _); [|done..].
  apply bind_Ok in Hrun as (? & s2 & H2' & Hrun). apply AddToStakedSupply_spec in H2' as [W2 P2 O2]; [|done..].
  apply bind_Ok in Hrun as (? & s3 & H3' & Hrun).
  assert (HC : only_supply_idx s2 s3 ∧ ∀ c, posted c (Gaps 0 0 (if st_Delegate msg then n else 0) (times c (st_Committees msg) * n)
      (times c (st_Committees msg) * if st_Delegate msg then n else 0) 0 0) s2 s3).
  { destruct (st_Delegate msg).
    - apply bind_Ok in H3' as (? & s4 & H4' & H5'). apply AddToDelegateSupply_spec in H4' as [W4 P4 O4]; [|done..].
      split; [|intros c; destruct (SetDelegations_spec c _ _ _ _ _ _ W4 Hn H5') as [P5 _];
        eapply posted_eq; [eapply posted_trans; [exact (Posted _ _ _ _ W4 (P4 c))|exact P5]|unfold d_committees; g_eq]].
      eapply only_supply_idx_trans; [by apply only_supply_weaken|by destruct (SetDelegations_spec 0 _ _ _ _ _ _ W4 Hn H5')].
    - split; [by destruct (SetCommittees_spec 0 _ _ _ _ _ _ W2 Hn H3')|]. intros c.
      destruct (SetCommittees_spec c _ _ _ _ _ _ W2 Hn H3') as [P5 _]. eapply posted_eq; [exact P5|]. unfold d_committees. g_eq. }
  destruct HC as [O3 P3]. pose proof (po_ok _ _ _ _ (P3 0)) as W3.
  assert (Hvals : validators (store s3) = validators (store s) ∧ unstaking (store s3) = unstaking (store s) ∧
    paused (store s3) = paused (store s)).
  { destruct O3 as (y3 & c3 & d3 & ->), O2 as (y2 & ->), O1 as (accs & ca & ->). cbn. by rewrite Hst0. }
  destruct Hvals as (E1 & E2 & E3). set (v := MkValidator a _ _ _ _ _ _ _ _ _) in Hrun.
  pose proof (λ c, SetValidator_spec c v s3 _ _ W3 Hn Hrun) as HS. destruct (HS 0) as (_ & _ & Hs').
  apply staking_sound; [done| | |].
  - eapply off_staking_trans; [by apply off_store|]. eapply off_staking_trans; [by apply off_accounts|].
    eapply off_staking_trans; [by apply off_supply, only_supply_weaken|]. eapply off_staking_trans; [by apply off_supply|].
    rewrite Hs'. split; [done|by split|done].
  - intros c. destruct (HS c) as (_ & P6 & _). change (val_Address v) with a in P6. rewrite E1, Hnone in P6.
    eapply posted_eq; [eapply posted_trans; [exact (same_books_posted c _ _ D1 Hsame)|eapply posted_trans;
      [exact (Posted _ _ _ _ W1 (P1 c))|eapply posted_trans; [exact (Posted _ _ _ _ W2 (P2 c))|eapply posted_trans;
      [exact (P3 c)|exact P6]]]]|].
    unfold d_replace, d_validator, comm_stake, commdel_stake, deleg_stake, v. cbn. destruct (st_Delegate msg); g_eq.
  - rewrite Hs'. intros b w. unfold queued. cbn. rewrite E1, E2, E3. destruct (decide (b = a)) as [->|Hne].
    + rewrite lookup_insert_eq. by intros [= <-].
    + rewrite lookup_insert_ne by done. apply (sd_cycle _ Hs).
Qed.

(** An edit adds the signer's tokens to the stake, which never shrinks. *)
Lemma edit_stake_sound msg s u s' :
  sound s → u64 (es_Amount msg) → HandleMessageEditStake msg s = (Ok u, s') → sound_step s s'.
Proof.
  intros Hs Hn Hrun. pose proof (sd_dex _ Hs) as [D1 _ _ _]. unfold HandleMessageEditStake, lift in Hrun.
  apply bind_Ok in Hrun as (v & s0 & Hv & Hrun). apply GetValidator_Ok in Hv as (-> & Hv & Ha & Hu); [|done].
  apply bind_Ok in Hrun as (? & ? & [= _ <-] & Hrun). apply bind_Ok in Hrun as (? & ? & [Hun ->]%fail_if_Ok & Hrun).
  apply bind_Ok in Hrun as (? & ? & [_ ->]%fail_if_Ok & Hrun).
  set (n := if es_Amount msg <=? StakedAmount v then 0 else u64_sub (es_Amount msg) (StakedAmount v)) in Hrun.
  assert (Hn' : u64 n) by (unfold n; case_match; [u64|apply u64_sub_range]). clearbody n.
  apply bind_Ok in Hrun as (? & s1 & H1' & Hrun). apply AccountSub_spec in H1' as ([W1 P1 _ O1] & _); [|done..].
  set (w := MkValidator _ _ _ _ _ _ _ _ _ _) in Hrun.
  assert (E : validators (store s1) = validators (store s) ∧ unstaking (store s1) = unstaking (store s) ∧
    paused (store s1) = paused (store s)) by (by destruct O1 as (accs & ca & ->)). destruct E as (E1 & E2 & E3).
  assert (HU : ∀ c, posted c (d_total (- n)) s1 s' ∧ u64 (StakedAmount w + n) ∧
    ∃ x ci di, s' = set_store (set_validators (<[val_Address w :=
        set_StakedAmount (StakedAmount w + n) (set_Committees (es_Committees msg) w)]> (validators (store s1)))
      (set_supply x (set_committee_index ci (set_delegate_index di (store s1))))) s1).
  { intros c. apply (UpdateValidatorStake_posts c v w _ n _ u); [done|done| |by rewrite E1; cbn; rewrite Ha|by repeat split|done].
    pose proof (f_equal g_staked (P1 c)) as Hst. pose proof (sd_staked _ Hs) as Hg. cbn in Hst, Hg |- *. lia. }
  destruct (HU 0) as (_ & _ & y1 & ci & di & Hs'). apply staking_sound; [done| | |].
  - eapply off_staking_trans; [by apply off_accounts|]. rewrite Hs'. split; [done|by split|done].
  - intros c. destruct (HU c) as [P2 _]. eapply posted_eq; [eapply posted_trans; [exact (Posted _ _ _ _ W1 (P1 c))|exact P2]|]. g_eq.
  - rewrite Hs'. intros b w2. unfold queued. cbn. rewrite E1, E2, E3, Ha. destruct (decide (b = es_Address msg)) as [->|Hne].
    + rewrite lookup_insert_eq. intros [= <-]. cbn. apply (sd_cycle _ Hs _ _ Hv).
    + rewrite lookup_insert_ne by done. apply (sd_cycle _ Hs).
Qed.

(** ** Messages on the order book and on the dex *)

Record off_orders (s s' : FSM) : Prop := { oo_staking : same_staking s s'; oo_batches : same_batches s s'; oo_points : points_kept s s' }.
Lemma off_orders_trans s1 s2 s3 : off_orders s1 s2 → off_orders s2 s3 → off_orders s1 s3.
Proof. intros [A1 A2 A3] [B1 B2 B3]. split; [by eapply same_staking_trans|by eapply same_batches_trans|by eapply points_kept_trans]. Qed.
Lemma rest_off_orders s s' : rest s s' → off_orders s s'.
Proof. by intros []. Qed.
Lemma with_orders_off m s : off_orders s (with_orders m s).
Proof. split; [by split|by split|by intros c _]. Qed.
Lemma order_sound ch n s s' : sound s → 0 <= n → order_step ch n s s' → off_orders s s' → sound_step s s'.
Proof.
  intros [[D1 D2 D3 D4] S2 S3 S4] Hn [HP HO] [E1 [B1 B2] EP]. destruct (HP 1 valid_chain_1) as [Hw Hsh].
  pose proof (f_equal g_total Hsh) as Ht. pose proof (f_equal g_staked Hsh) as Hst. cbn in Ht, Hst. split.
  - split; [split| |by eapply lifecycle_same|].
    + done.
    + cbn in *; lia.
    + intros c Hc. auto.
    + by rewrite B1, B2.
    + done.
    + cbn in *; lia.
  - intros c Hc. exists (hit ch c n), 0. split_and!; [unfold hit; case_match; lia|done|exact (HP c Hc)].
Qed.
Record off_dex (s s' : FSM) : Prop := { od_staking : same_staking s s'; od_orders : same_orders s s' }.
Lemma dex_sound s s' : sound s → dex_kept s s' → off_dex s s' → sound_step s s'.
Proof.
  intros [S1 S2 S3 S4] [HI HP _] [E1 EO]. destruct (HP 1 valid_chain_1) as (h & _ & [_ Hsh]).
  pose proof (f_equal g_staked Hsh) as Hst. cbn in Hst. split.
  - split; [done|unfold wf_orders; by rewrite EO|by eapply lifecycle_same|cbn in *; lia].
  - intros c Hc. destruct (HP c Hc) as (n & Hn & Hp). by exists 0, n.
Qed.

Lemma SetAccount_only acc s r s' : SetAccount acc s = (r, s') → only_accounts s s'.
Proof.
  unfold SetAccount. runs. destruct (_ =? 0); intros [= _ <-]; eexists _, _; reflexivity.
Qed.
Lemma AccountSub_rest a n s r s' : AccountSub a n s = (r, s') → rest s s'.
Proof.
  intros Hrun. apply rest_accounts. unfold AccountSub, GetAccount, Height in Hrun.
  destruct (n =? 0); [injection Hrun as _ <-; apply only_accounts_refl|].
  rewrite (bind_run_Ok _ _ _ (lookup_account a s) s), (bind_run_Ok _ _ _ (height s) s) in Hrun by done.
  unfold fail_if in Hrun. destruct (_ <? _); [injection Hrun as _ <-; apply only_accounts_refl|]. by apply SetAccount_only in Hrun.
Qed.
Lemma AccountAdd_rest a n s r s' : AccountAdd a n s = (r, s') → rest s s'.
Proof.
  intros Hrun. apply rest_accounts. unfold AccountAdd, GetAccount in Hrun.
  destruct (n =? 0); [injection Hrun as _ <-; apply only_accounts_refl|].
  rewrite (bind_run_Ok _ _ _ (lookup_account a s) s) in Hrun by done.
  unfold fail_if in Hrun. destruct (_ <? _); [injection Hrun as _ <-; apply only_accounts_refl|]. by apply SetAccount_only in Hrun.
Qed.
(** Two runs of funds in a row. *)
Lemma rest_pair (m1 m2 : F unit) s u s' :
  (∀ s r s', m1 s = (r, s') → rest s s') → (∀ s r s', m2 s = (r, s') → rest s s') →
  (m1;; m2) s = (Ok u, s') → rest s s'.
Proof.
  intros R1 R2 Hrun. apply bind_Ok in Hrun as (? & s1 & H1' & H2'). eapply rest_trans; [by eapply R1|by eapply R2].
Qed.
Hint Resolve AccountSub_rest AccountAdd_rest rest_pool_add rest_pool_sub : rest.

Lemma SetOrder_off o ch s u s' : SetOrder o ch s = (Ok u, s') → off_orders s s'.
Proof. intros [= _ <-]. apply with_orders_off. Qed.
Lemma create_order_off msg s u s' : HandleMessageCreateOrder msg s = (Ok u, s') → off_orders s s'.
Proof.
  unfold HandleMessageCreateOrder. intros Hrun. apply bind_Ok in Hrun as (p & s0 & Hp & Hrun).
  apply GetParamsVal_same in Hp as [Hst _]. apply bind_Ok in Hrun as (? & ? & [_ ->]%fail_if_Ok & Hrun).
  apply bind_Ok in Hrun as (? & s1 & H1' & Hrun). apply bind_Ok in Hrun as (? & s2 & H2' & H3').
  apply SetOrder_off in H3'. eapply off_orders_trans; [|exact H3']. apply rest_off_orders.
  eapply rest_trans; [by apply rest_store|]. eapply rest_trans; eauto with rest.
Qed.
Lemma edit_order_off msg s u s' : HandleMessageEditOrder msg s = (Ok u, s') → off_orders s s'.
Proof.
  unfold HandleMessageEditOrder. intros Hrun. apply bind_Ok in Hrun as (o & s0 & Ho & Hrun).
  rewrite GetOrder_run in Ho. destruct (orders (store s) !! _); [|done]. injection Ho as -> <-.
  apply bind_Ok in Hrun as (? & ? & [_ ->]%fail_if_Ok & Hrun). apply bind_Ok in Hrun as (p & s1 & Hp & Hrun).
  apply GetParamsVal_same in Hp as [Hst _]. apply bind_Ok in Hrun as (? & ? & [_ ->]%fail_if_Ok & Hrun).
  apply bind_Ok in Hrun as (? & s2 & H2' & H3'). apply SetOrder_off in H3'. eapply off_orders_trans; [|exact H3'].
  apply rest_off_orders. eapply rest_trans; [by apply rest_store|].
  repeat case_match; [eapply rest_pair; [| |exact H2']; eauto with rest..|]. injection H2' as _ <-. by apply rest_store.
Qed.
Lemma delete_order_off msg s u s' : HandleMessageDeleteOrder msg s = (Ok u, s') → off_orders s s'.
Proof.
  unfold HandleMessageDeleteOrder. intros Hrun. apply bind_Ok in Hrun as (o & s0 & Ho & Hrun).
  rewrite GetOrder_run in Ho. destruct (orders (store s) !! _); [|done]. injection Ho as -> <-.
  apply bind_Ok in Hrun as (? & ? & [_ ->]%fail_if_Ok & Hrun). apply bind_Ok in Hrun as (? & s1 & H1' & Hrun).
  apply bind_Ok in Hrun as (? & s2 & H2' & [= _ <-]). eapply off_orders_trans; [|apply with_orders_off].
  apply rest_off_orders. eapply rest_trans; eauto with rest.
Qed.
Lemma off_dex_write ch b s s1 s' : rest s s1 → SetDexBatch ch false b s1 = (Ok (), s') → off_dex s s'.
Proof.
  intros [[E1 E2 E3] EO _ _] ->%SetDexBatch_next. by repeat split.
Qed.
Lemma limit_order_off msg s u s' : HandleMessageDexLimitOrder msg s = (Ok u, s') → off_dex s s'.
Proof.
  destruct u. unfold HandleMessageDexLimitOrder. rewrite (bind_run_Ok _ _ _ (lookup_batch (dl_ChainId msg) false false (store s)) s) by done.
  rewrite (bind_run_Ok _ _ _ (config s) s) by done. intros Hrun.
  apply bind_Ok in Hrun as (? & ? & [_ ->]%fail_if_Ok & Hrun). apply bind_Ok in Hrun as (? & ? & [_ ->]%fail_if_Ok & Hrun).
  apply bind_Ok in Hrun as (? & s1 & H1' & Hrun). apply bind_Ok in Hrun as (? & s2 & H2' & Hrun).
  eapply off_dex_write; [|exact Hrun]. eapply rest_trans; eauto with rest.
Qed.
Lemma deposit_off msg s u s' : HandleMessageDexLiquidityDeposit msg s = (Ok u, s') → off_dex s s'.
Proof.
  destruct u. unfold HandleMessageDexLiquidityDeposit. rewrite (bind_run_Ok _ _ _ (lookup_batch (dd_ChainId msg) false false (store s)) s) by done.
  rewrite (bind_run_Ok _ _ _ (lookup_pool (liquidity_id (dd_ChainId msg)) (store s)) s) by done.
  rewrite (bind_run_Ok _ _ _ (config s) s) by done. intros Hrun.
  apply bind_Ok in Hrun as (? & ? & [_ ->]%fail_if_Ok & Hrun). apply bind_Ok in Hrun as (? & ? & [_ ->]%fail_if_Ok & Hrun).
  apply bind_Ok in Hrun as (? & s1 & H1' & Hrun). apply bind_Ok in Hrun as (? & s2 & H2' & Hrun).
  eapply off_dex_write; [|exact Hrun]. eapply rest_trans; eauto with rest.
Qed.
Lemma withdraw_off msg s u s' : HandleMessageDexLiquidityWithdraw msg s = (Ok u, s') → off_dex s s'.
Proof.
  destruct u. unfold HandleMessageDexLiquidityWithdraw, lift. rewrite (bind_run_Ok _ _ _ (lookup_batch (dw_ChainId msg) false false (store s)) s) by done.
  rewrite (bind_run_Ok _ _ _ (config s) s) by done. intros Hrun.
  apply bind_Ok in Hrun as (? & ? & [_ ->]%fail_if_Ok & Hrun). apply bind_Ok in Hrun as (? & ? & [_ ->]%fail_if_Ok & Hrun).
  rewrite (bind_run_Ok _ _ _ (lookup_pool (liquidity_id (dw_ChainId msg)) (store s)) s) in Hrun by done.
  apply bind_Ok in Hrun as (? & ? & [= _ <-] & Hrun). eapply off_dex_write; [|exact Hrun]. by apply rest_store.
Qed.

(** ** Any ordinary transaction *)

(** The [uint64]s of a message are in range. *)
Definition typed (msg : Message) : Prop :=
  match msg with
  | MSend x => u64 (ms_Amount x)
  | MStake x => u64 (st_Amount x)
  | MEditStake x => u64 (es_Amount x)
  | MDAOTransfer x => u64 (dt_Amount x)
  | MSubsidy x => u64 (su_Amount x)
  | MCreateOrder x => u64 (co_AmountForSale x) ∧ u64 (co_ChainId x)
  | MEditOrder x => u64 (eo_AmountForSale x) ∧ u64 (eo_ChainId x)
  | MDeleteOrder x => u64 (do_ChainId x)
  | MDexLimitOrder x => u64 (dl_AmountForSale x) ∧ u64 (dl_ChainId x)
  | MDexLiquidityDeposit x => u64 (dd_Amount x) ∧ u64 (dd_ChainId x)
  | MDexLiquidityWithdraw x => u64 (dw_Percent x) ∧ u64 (dw_ChainId x)
  | _ => True
  end.
(** All but parameter changes, which may strand a batch, and the certificates of
    other committees. *)
Definition ordinary (msg : Message) : Prop :=
  match msg with MChangeParameter _ | MCertificateResults _ => False | _ => True end.
(** What a message may issue, by a mint or by the faucet, fits in the total. *)
Definition issue_fits (cfg : Config) (total fee : Z) (sender : bytes) (msg : Message) : Prop :=
  match msg with
  | MSend x => faucet cfg = Some sender → u64 (total + (ms_Amount x + fee))
  | MDAOTransfer x => dt_Mint x = true → u64 (total + dt_Amount x)
  | _ => True
  end.
(** The facts of [Check] the handlers rely on: an order or a batch is of a valid chain. *)
Definition on_valid_chain (msg : Message) : Prop :=
  match msg with
  | MCreateOrder x => valid_chain (co_ChainId x)
  | MEditOrder x => valid_chain (eo_ChainId x)
  | MDeleteOrder x => valid_chain (do_ChainId x)
  | MDexLimitOrder x => valid_chain (dl_ChainId x)
  | MDexLiquidityDeposit x => valid_chain (dd_ChainId x)
  | MDexLiquidityWithdraw x => valid_chain (dw_ChainId x) ∧ dw_Percent x <= 100
  | _ => True
  end.

Lemma checkChainId_valid i u : u64 i → checkChainId i = Ok u → valid_chain i.
Proof.
  intros Hu Hrun. apply result_bind_Ok in Hrun as (? & Hr%check_not_Ok & Hm%check_not_Ok). zify_bools.
  unfold valid_chain. change ReservedIDs with [0; DAOPoolID] in Hr. split; [|lia].
  assert (i ≠ 0) by (intros ->; apply Hr; left). u64.
Qed.
Ltac checks Hrun :=
  repeat match type of Hrun with mbind _ _ = Ok _ => let Hc := fresh "Hc" in apply result_bind_Ok in Hrun as (? & Hc & Hrun) end.
Lemma Check_valid_chain msg u : typed msg → Check msg = Ok u → on_valid_chain msg.
Proof.
  destruct msg; cbn [Check typed on_valid_chain]; try done; intros Ht Hrun.
  - destruct Ht. unfold MessageCreateOrder_Check in Hrun. checks Hrun. by eapply checkChainId_valid.
  - destruct Ht. unfold MessageEditOrder_Check in Hrun. checks Hrun. by eapply checkChainId_valid.
  - by eapply checkChainId_valid.
  - destruct Ht. unfold MessageDexLimitOrder_Check in Hrun. checks Hrun. by eapply checkChainId_valid.
  - destruct Ht. unfold MessageDexLiquidityDeposit_Check in Hrun. checks Hrun. by eapply checkChainId_valid.
  - destruct Ht. unfold MessageDexLiquidityWithdraw_Check in Hrun. checks Hrun. split; [by eapply checkChainId_valid|].
    unfold checkPercent in *. match goal with HP : mbind _ _ = Ok _ |- _ => apply result_bind_Ok in HP as (? & _ & HP%check_not_Ok) end.
    by zify_bools.
Qed.

Lemma wf_cycle_run (m : F unit) s u s' :
  sound s → m s = (Ok u, s') → (wf s → lifecycle s → lc_step s s') → off_staking s s' → sound_step s s'.
Proof. intros Hs Hrun HL Ho. apply (lifecycle_message m s u); [done|done|apply HL; apply Hs|done]. Qed.

(** A handler of an ordinary message keeps the invariant and the books. *)
Lemma HandleMessage_sound msg s u s' :
  sound s → ordinary msg → typed msg → on_valid_chain msg →
  (∀ x, msg = MDAOTransfer x → dt_Mint x = true → u64 (Total (supply (store s)) + dt_Amount x)) →
  HandleMessage msg s = (Ok u, s') → sound_step s s'.
Proof.
  intros Hs Hord Ht Hv Hmint Hrun. pose proof (sd_dex _ Hs) as HD. pose proof (dx_wf _ HD) as Hw. pose proof (dx_total _ HD) as Hg.
  pose proof (sd_orders _ Hs) as HO. pose proof (sd_cycle _ Hs) as HL.
  destruct msg as [x|x|x|x|x|x|x|x|x|x|x|x|x|x|x|x]; cbn [HandleMessage typed on_valid_chain ordinary] in *; try done.
  - apply moved_sound; [done|by eapply moved_send].
  - by eapply stake_sound.
  - by eapply edit_stake_sound.
  - apply (wf_cycle_run _ _ _ _ Hs Hrun); [|by eapply unstake_off]. intros. by apply (HandleMessageUnstake_spec _ _ (Ok u)) in Hrun as [? _].
  - apply (wf_cycle_run _ _ _ _ Hs Hrun); [|by eapply pause_off]. intros. by apply (HandleMessagePause_spec _ _ (Ok u)) in Hrun as [? _].
  - apply (wf_cycle_run _ _ _ _ Hs Hrun); [|by eapply unpause_off]. intros. by apply (HandleMessageUnpause_spec _ _ (Ok u)) in Hrun as [? _].
  - apply moved_sound; [done|]. eapply moved_dao; [done..|by apply Hmint|done].
  - apply moved_sound; [done|by eapply moved_subsidy].
  - destruct Ht. eapply order_sound; [done| |by eapply HandleMessageCreateOrder_spec|by eapply create_order_off].
    by apply order_amount_nonneg.
  - destruct Ht. eapply (order_sound _ 0); [done..|by eapply HandleMessageEditOrder_spec|by eapply edit_order_off].
  - eapply (order_sound _ 0); [done..|by eapply HandleMessageDeleteOrder_spec|by eapply delete_order_off].
  - destruct Ht. eapply dex_sound; [done|by eapply HandleMessageDexLimitOrder_spec|by eapply limit_order_off].
  - destruct Ht. eapply dex_sound; [done|by eapply HandleMessageDexLiquidityDeposit_spec|by eapply deposit_off].
  - destruct Ht, Hv. eapply dex_sound; [done|eapply HandleMessageDexLiquidityWithdraw_spec; [done..| |done]; u64|by eapply withdraw_off].
Qed.

(** The messages with their special fields filled in are as before for the books. *)
Lemma populate_same `{TxCodec} tx signer msg msg' :
  PopulateSpecialMessageFields tx signer msg = Ok msg' →
  (typed msg → typed msg') ∧ (ordinary msg → ordinary msg') ∧ (on_valid_chain msg → on_valid_chain msg') ∧
  (∀ cfg total fee sender, issue_fits cfg total fee sender msg → issue_fits cfg total fee sender msg') ∧
  (∀ x, msg' = MSend x → msg = msg').
Proof.
  destruct msg; cbn [PopulateSpecialMessageFields]; intros Hrun;
    try (apply result_bind_Ok in Hrun as (? & _ & Hrun)); injection Hrun as <-; split_and!; done.
Qed.
Lemma AccountDeductFees_supply a fee s u s' :
  wf s → u64 fee → AccountDeductFees a fee s = (Ok u, s') → supply (store s') = supply (store s).
Proof.
  intros Hw Hf Hrun. unfold AccountDeductFees in Hrun. apply bind_Ok in Hrun as (u1 & s1 & Hm1 & Hrun).
  apply AccountSub_spec in Hm1 as ([_ _ _ (accs & ca & Hs1)] & _); [|done..].
  apply bind_Ok in Hrun as (cfg & s2 & [= <- <-] & Hrun). unfold PoolAdd, GetPool, getst in Hrun.
  rewrite (bind_run_Ok _ _ _ (lookup_pool (ChainId (config s1)) (store s1)) s1) in Hrun by done.
  apply SetPool_frame in Hrun. by rewrite Hrun, Hs1.
Qed.
Lemma sound_same s s' : same_books s s' → sound s → sound s'.
Proof.
  intros Hb Hs. apply (moved_sound s s' Hs). apply moved_0; [apply Hs|done].
Qed.

Context `{TxCodec, SigScheme, MsgCodec, EthLib, TxIndexer, ResultCodec}.

Lemma execute_sound result s u s' :
  sound s → ordinary (ctr_msg result) → typed (ctr_msg result) → on_valid_chain (ctr_msg result) →
  u64 (tx_Fee (ctr_tx result)) →
  issue_fits (config s) (Total (supply (store s))) (tx_Fee (ctr_tx result)) (ctr_sender result) (ctr_msg result) →
  execute result s = (Ok u, s') → sound_step s s'.
Proof.
  intros Hs Hord Ht Hv Hf Hfit Hrun. unfold execute in Hrun. set (fee := tx_Fee (ctr_tx result)) in *.
  apply bind_Ok in Hrun as ([] & s1 & H1' & Hrun). pose proof (sd_dex _ Hs) as [Hw Hg _ _].
  assert (M1 : moved 0 s s1 ∧ ((∀ x, ctr_msg result ≠ MSend x) → s1 = s)).
  { destruct (ctr_msg result) as [x|x|x|x|x|x|x|x|x|x|x|x|x|x|x|x]; try (injection H1' as <-; split; [by apply moved_0|done]).
    split; [|by intros Hy; destruct (Hy x)]. apply bind_Ok in H1' as ([] & ? & [Hle ->]%fail_if_Ok & H1').
    cbn [typed issue_fits] in *. zify_bools. rewrite u64_sub_small in Hle by u64. rewrite u64_add_small in H1' by u64.
    apply moved_faucet in H1'; [done|done|u64|done]. }
  destruct M1 as [M1 Hsame]. pose proof (moved_sound _ _ Hs M1) as [S1 K1].
  apply bind_Ok in Hrun as ([] & s2 & H2' & Hrun). apply moved_fee in H2' as M2; [|done..].
  pose proof (moved_sound _ _ S1 M2) as [S2 K2]. eapply sound_step_trans; [split; [exact S1|exact K1]|].
  eapply sound_step_trans; [split; [exact S2|exact K2]|]. eapply HandleMessage_sound; try done.
  intros x Hx Hm. rewrite Hx in *. rewrite (AccountDeductFees_supply _ _ _ _ _ (mv_wf _ _ _ M1) Hf H2'), Hsame by done.
  by apply Hfit.
Qed.

(** C2. An ordinary transaction creates and destroys nothing: it keeps the
    invariant of the state (well-formed accounts, pools, validators, order book,
    dex batches, queues), the recorded total supply stays equal to the tokens
    held, the staked and delegated totals, by committee too, to the stakes, and
    the escrow and holding pools never come to owe more than they hold.  What a
    mint or the faucet issues is assumed to fit in the total. *)
Theorem transaction_conserves index bz h bv s res evs s' msg :
  sound s → ApplyTransaction index bz h bv s = (Ok (res, evs), s') →
  CheckMessage (tx_Msg (txr_Transaction res)) = Ok msg → ordinary msg → typed msg →
  u64 (tx_Fee (txr_Transaction res)) →
  issue_fits (config s) (Total (supply (store s))) (tx_Fee (txr_Transaction res)) (txr_Sender res) msg →
  sound s' ∧ ∀ c, valid_chain c →
    let g := books c (store s) in let g' := books c (store s') in
    g_total g' = g_total g ∧ g_staked g' = g_staked g ∧ g_deleg g' = g_deleg g ∧ g_comm g' = g_comm g ∧
    g_commdel g' = g_commdel g ∧ g_escrow g <= g_escrow g' ∧ g_holding g <= g_holding g'.
Proof.
  intros Hs Hrun Hmsg Hord Ht Hf Hfit. unfold ApplyTransaction, lift in Hrun.
  apply bind_Ok in Hrun as ([chk bv'] & s1 & Hchk & Hrun). apply bind_Ok in Hrun as (r & s2 & [= Hr <-] & Hrun).
  cbn [fst] in Hr. subst chk. apply bind_Ok in Hrun as (? & s3 & Hex & Hrun). unfold Height, reset_events in Hrun.
  rewrite (bind_run_Ok _ _ _ (height s3) s3) in Hrun by done.
  rewrite (bind_run_Ok _ _ _ (events s3) (set_events [] s3)) in Hrun by done. injection Hrun as <- _ <-.
  cbn [txr_Transaction txr_Sender] in *.
  destruct (CheckTx_Ok _ _ _ _ _ _ _ Hchk) as (Hc & msg0 & pk & m & sig & Hck & _ & Hpop & _ & _).
  assert (msg0 = msg) as -> by (pose proof (ck_message _ _ _ _ _ _ Hck); congruence).
  destruct (populate_same _ _ _ _ Hpop) as (T1 & T2 & T3 & T4 & _).
  assert (Hchain : on_valid_chain msg).
  { unfold CheckMessage in Hmsg. destruct (tx_Msg _); [|done]. apply result_bind_Ok in Hmsg as (pr & _ & Hmsg).
    destruct pr; try done. apply result_bind_Ok in Hmsg as ([] & Hck' & [= ->]). by eapply Check_valid_chain. }
  assert (Hsame : same_books s s1 ∧ config s1 = config s) by (by destruct Hc as (v & f & ->)). destruct Hsame as [Hsame Hcfg].
  assert (Hstep : sound_step s1 s3).
  { eapply (execute_sound r); [by eapply sound_same|auto..|exact Hex]. rewrite Hcfg. destruct Hsame as [-> _]. by apply T4. }
  destruct Hstep as [S3 K3]. destruct Hsame as [Hst _]. split.
  - by eapply (sound_same s3).
  - intros c Hvc. destruct (K3 c Hvc) as (e & hh & He & Hh & [_ Hsh]). unfold shift in Hsh. rewrite Hst in Hsh.
    cbn [set_events store]. rewrite Hsh. cbn. split_and!; lia.
Qed.
End conserve.

(** ** Witnesses *)

#[local] Existing Instances toy_crypto toy_multisig toy_codec toy_history toy_votes toy_txs toy_any toy_node toy_sigs
  toy_msgs toy_eth toy_index toy_results.
Lemma demo_chain_sound : sound (demo_chain 100).
Proof.
  split; [split| | |by vm_compute].
  - constructor; unfold wf_supply; decide_now.
  - by vm_compute.
  - intros c _. assert (Hall : map_Forall (λ _ p, pool_Points p = [] ∧ TotalPoolPoints p = 0) (pools (store (demo_chain 100)))) by decide_now.
    unfold lpool, lookup_pool. destruct (pools (store (demo_chain 100)) !! liquidity_id c) as [p|] eqn:Hp; [|apply wf_points_none].
    destruct (Hall _ _ Hp) as [E1 E2]. split; cbn; rewrite ?E1, ?E2; [done| |constructor|constructor]. clear. u64.
  - split; unfold wf_batch, wf_order_amounts, deposits_ok, percents_ok; decide_now.
  - unfold wf_orders. decide_now.
  - unfold lifecycle, queued. decide_now.
Qed.
(** [carol] sends 5 to [dave] and pays a fee of 2. *)
Lemma transaction_conserves_witness :
  ∃ res evs s', ApplyTransaction 0 [x05; x01; x01] EmptyString None (demo_chain 100) = (Ok (res, evs), s') ∧
    sound s' ∧ g_total (books 1 (store s')) = g_total (books 1 (store (demo_chain 100))).
Proof.
  destruct (ApplyTransaction 0 [x05; x01; x01] EmptyString None (demo_chain 100)) as [r s'] eqn:Hrun.
  assert (Hv : match ApplyTransaction 0 [x05; x01; x01] EmptyString None (demo_chain 100) with
               | (Ok (res, _), _) => tx_Msg (txr_Transaction res) = Some (MkAny EmptyString [x05]) ∧ tx_Fee (txr_Transaction res) = 2
               | _ => False end) by (vm_compute; split; reflexivity).
  rewrite Hrun in Hv. destruct r as [[res evs]|e]; [|exfalso; exact Hv]. destruct Hv as [Hm Hf]. exists res, evs, s'.
  destruct (transaction_conserves 0 [x05; x01; x01] EmptyString None (demo_chain 100) res evs s'
    (MSend (MkMsgSend carol dave 5 0 0 0)) demo_chain_sound Hrun) as [Hs Hbooks]; clear Hrun.
  - rewrite Hm. vm_compute. reflexivity.
  - exact I.
  - clear. cbn. u64.
  - rewrite Hf. clear. u64.
  - intros _. rewrite Hf. clear. decide_now.
  - split_and!; [reflexivity|exact Hs|]. apply (Hbooks 1). by unfold valid_chain.
Defined.
