(* ===== verification/Genesis.v ===== *)
(** * Genesis ([fsm/genesis.go]; [SetValidators] of [fsm/validator.go], [SetOrderBooks] of [fsm/swap.go])

    The first state, built from the accounts, pools, validators, order books and
    parameters of a file.  Reading the file and committing the state are input
    and output; there is no plugin.  The invariants of the other components
    start here. *)
From Stdlib Require Import String.
From S2P Require Import Prelude LibUtil State Ledger Params Crypto Account Validator Committee Byzantine Swap.
From S2P Require Import Quorum Certificate Dex Tx Fixtures Gov Hex Automatic Message Batch Ethereum ApplyTx Conserve.
#[local] Open Scope Z_scope.

(** ** The program *)

Record OrderBook : Type := MkOrderBook { ob_ChainId : Z; ob_Orders : list SellOrder }.
(** The fields an import reads; a nil list of books, or a nil book, is [None]. *)
Record GenesisState : Type := MkGenesis {
  gs_Pools : list Pool; gs_Accounts : list Account; gs_Validators : list Validator;
  gs_OrderBooks : option (list (option OrderBook)); gs_Params : option Params; gs_RetiredCommittees : list Z;
}.

Definition Params_Check (x : option Params) : result ErrorI unit :=
  match x with
  | None => Err ErrEmptyConsParams
  | Some x =>
      ConsensusParams_Check (Consensus x);;
      FeeParams_Check (Fee x);;
      ValidatorParams_Check (Validator_ x);;
      GovernanceParams_Check (Governance x)
  end.

Definition check_validator (val : Validator) : result ErrorI unit :=
  check_not (negb (len (val_Address val) =? AddressSize)) ErrAddressSize;;
  check_not (negb (Delegate val) && negb (len (val_PublicKey val) =? BLS12381PubKeySize)) ErrPublicKeySize;;
  check_not (negb (len (val_Output val) =? AddressSize)) ErrAddressSize.
Definition check_account (account : Account) : result ErrorI unit :=
  check_not (negb (len (acc_Address account) =? AddressSize)) ErrAddressSize.
(** The ids, as the text the de-duplicator keeps, are distinct. *)
Fixpoint check_orders (seen : gset bytes) (orders : list SellOrder) : result ErrorI unit :=
  match orders with
  | [] => Ok ()
  | order :: orders =>
      let '(found, seen) := Found seen (order_Id order) in
      check_not found ErrInvalidSellOrder;;
      check_orders seen orders
  end.
Fixpoint check_books (seen : gset Z) (books : list (option OrderBook)) : result ErrorI unit :=
  match books with
  | [] => Ok ()
  | None :: _ => Err ErrPanic
  | Some book :: books =>
      let '(found, seen) := Found seen (ob_ChainId book) in
      check_not found ErrInvalidSellOrder;;
      check_not (bool_decide (ob_Orders book = [])) ErrInvalidSellOrder;;
      check_orders ∅ (ob_Orders book);;
      check_books seen books
  end.
Definition ValidateGenesisState (genesis : GenesisState) : result ErrorI unit :=
  Params_Check (gs_Params genesis);;
  check_all check_validator (gs_Validators genesis);;
  check_all check_account (gs_Accounts genesis);;
  match gs_OrderBooks genesis with None => Ok () | Some books => check_books ∅ books end.

(** [fsm/validator.go] *)

(** The part of [SetValidators] that queues a validator. *)
Definition queue_validator (val : Validator) : F Validator :=
  if negb (UnstakingHeight val =? 0) then SetValidatorUnstaking (val_Address val) val (UnstakingHeight val)
  else if negb (MaxPausedHeight val =? 0) then SetValidatorPaused (val_Address val) val (MaxPausedHeight val)
  else mret val.
Definition set_genesis_validator (x : Supply) (val : Validator) : F Supply :=
  let n := StakedAmount val in
  fail_if ((u64_sub u64_max n <? Total x) || (u64_sub u64_max n <? Staked x)) ErrInvalidAmount;;
  fail_if (Delegate val && (u64_sub u64_max n <? DelegatedOnly x)) ErrInvalidAmount;;
  val ← queue_validator val;
  let x := set_Staked (u64_add (Staked x) n) (set_Total (u64_add (Total x) n) x) in
  SetValidator val;;
  if Delegate val then
    SetDelegations (val_Address val) n (Committees val);;
    mret (set_DelegatedOnly (u64_add (DelegatedOnly x) n) x)
  else
    SetCommittees (val_Address val) n (Committees val);;
    mret x.
Definition SetValidators (validators : list Validator) (x : Supply) : F Supply :=
  x ← fold_m set_genesis_validator x validators;
  supplyFromState ← GetSupply;
  mret (set_CommitteeDelegatedOnly (CommitteeDelegatedOnly supplyFromState)
    (set_CommitteeStaked (CommitteeStaked supplyFromState) x)).

(** [fsm/swap.go] *)
Definition set_genesis_order (chainId : Z) (x : Supply) (order : SellOrder) : F Supply :=
  fail_if (u64_sub u64_max (AmountForSale order) <? Total x) ErrInvalidAmount;;
  SetOrder order chainId;;
  PoolAdd (escrow_id chainId) (AmountForSale order);;
  mret (set_Total (u64_add (Total x) (AmountForSale order)) x).
Definition SetOrderBooks (books : option (list (option OrderBook))) (x : Supply) : F Supply :=
  match books with
  | None => mret x
  | Some books =>
      fold_m (λ x book, match book with
        | None => mret x
        | Some book => fold_m (set_genesis_order (ob_ChainId book)) x (ob_Orders book)
        end) x books
  end.

Definition NewStateFromGenesis (genesis : GenesisState) : F unit :=
  let x := MkSupply 0 0 0 [] [] in
  match gs_Params genesis with
  | None => throw ErrPanic
  | Some params =>
      SetParams params;;
      x ← SetAccounts (gs_Accounts genesis) x;
      x ← SetPools (gs_Pools genesis) x;
      x ← SetValidators (gs_Validators genesis) x;
      x ← SetOrderBooks (gs_OrderBooks genesis) x;
      SetSupply x;;
      SetRetiredCommittees (gs_RetiredCommittees genesis)
  end.
(** What is left of [NewFromGenesisFile] without the file. *)
Definition NewFromGenesis (genesis : GenesisState) : F unit :=
  lift (ValidateGenesisState genesis);;
  NewStateFromGenesis genesis;;
  modify (λ s, set_height (u64_add (height s) 1) s).

(** ** The import keeps accounts of what it has read *)

Section genesis.
Context `{Crypto}.

(** A state nothing was written to. *)
Record fresh (s : FSM) : Prop := {
  fr_accounts : accounts (store s) = ∅; fr_cache : cache_accounts s = ∅; fr_pools : pools (store s) = ∅;
  fr_validators : validators (store s) = ∅; fr_orders : orders (store s) = ∅; fr_supply : supply (store s) = MkSupply 0 0 0 [] [];
  fr_locked : locked_batch (store s) = ∅; fr_next : next_batch (store s) = ∅;
}.
Definition fits (x : Supply) : Prop := u64 (Total x) ∧ u64 (Staked x) ∧ u64 (DelegatedOnly x).
Definition untotalled (s : FSM) : Prop :=
  Total (supply (store s)) = 0 ∧ Staked (supply (store s)) = 0 ∧ DelegatedOnly (supply (store s)) = 0.
(** The tracker [x] counts what the store holds, while the store's own totals are
    still 0; the escrow and holding pool of [c] hold [e c] and [h c] beyond what
    is owed; the validators [vs] and the orders [os] have been read. *)
Record importing (e h : Z → Z) (vs : list bytes) (os : list (Z * bytes)) (x : Supply) (s : FSM) : Prop := {
  im_wf : wf s;
  im_fits : fits x;
  im_state : untotalled s;
  im_books : ∀ c, valid_chain c →
    books c (store s) = Gaps (- Total x) (- Staked x) (- DelegatedOnly x) 0 0 (e c) (h c);
  im_points : ∀ c, valid_chain c → wf_points (lpool c s);
  im_batches : locked_batch (store s) = ∅ ∧ next_batch (store s) = ∅;
  im_orders : wf_orders (store s);
  im_cycle : lifecycle s;
  im_vals : ∀ a, a ∉ vs → validators (store s) !! a = None;
  im_ords : ∀ k, k ∉ os → orders (store s) !! k = None;
}.
(** What a write outside of the validators and orders has to show. *)
Lemma importing_rest e h e' h' vs os x x' s s' :
  importing e h vs os x s → rest s s' → wf s' → fits x' → untotalled s' →
  (∀ c, valid_chain c → ∃ d, shift c d s s' ∧
     g_add (Gaps (- Total x) (- Staked x) (- DelegatedOnly x) 0 0 (e c) (h c)) d =
     Gaps (- Total x') (- Staked x') (- DelegatedOnly x') 0 0 (e' c) (h' c)) →
  importing e' h' vs os x' s'.
Proof.
  intros [W F U B P [L1 L2] O C V N] [RS RO [R1 R2] RP] Hw Hf Hu Hd. split; try done.
  - intros c Hc. destruct (Hd c Hc) as (d & Hsh & <-). unfold shift in Hsh. by rewrite Hsh, (B c Hc).
  - intros c Hc. apply RP; auto.
  - by rewrite R1, R2.
  - unfold wf_orders. by rewrite RO.
  - by eapply lifecycle_same.
  - destruct RS as [-> _ _]. done.
  - unfold same_orders in RO. by rewrite RO.
Qed.
Lemma importing_fresh s : fresh s → importing (λ _, 0) (λ _, 0) [] [] (MkSupply 0 0 0 [] []) s.
Proof.
  intros [F1 F2 F3 F4 F5 F6 F7 F8]. split.
  - constructor; rewrite ?F1, ?F2, ?F3, ?F4, ?F6; try apply map_Forall_empty. unfold wf_supply. cbn. split_and!; [u64..|constructor|constructor].
  - unfold fits. cbn. split_and!; u64.
  - unfold untotalled. by rewrite F6.
  - intros c _. unfold books, held, sum_accounts, sum_pools, sum_stakes, pool_bal. rewrite F1, F3, F4, F5, F6, F7, F8. by vm_compute.
  - intros c _. unfold lpool, lookup_pool. rewrite F3, lookup_empty. apply wf_points_none.
  - done.
  - unfold wf_orders. rewrite F5. apply map_Forall_empty.
  - unfold lifecycle. rewrite F4. apply map_Forall_empty.
  - intros a _. rewrite F4. apply lookup_empty.
  - intros k _. rewrite F5. apply lookup_empty.
Qed.
(** The total of a tracker that has room for [n] more. *)
Lemma room (x : Supply) n : u64 (Total x) → u64 n → (u64_sub u64_max n <? Total x) = false →
  u64 (Total x + n) ∧ u64_add (Total x) n = Total x + n.
Proof. intros Hx Hn Hg. apply max_guard in Hg; [|done..]. by rewrite u64_add_small. Qed.
Lemma importing_held e h vs os x s : importing e h vs os x s → held (store s) = Total x.
Proof.
  intros Hi. pose proof (f_equal g_total (im_books _ _ _ _ _ _ Hi 1 valid_chain_1)) as Hg.
  destruct (im_state _ _ _ _ _ _ Hi) as [Ht _]. cbn in Hg. lia.
Qed.

(** ** Accounts and pools *)

Lemma SetAccounts_import e h vs os accs x s x' s' :
  importing e h vs os x s → (∀ a, acc_bal (store s) a = 0) → NoDup (map acc_Address accs) →
  Forall wf_account accs → SetAccounts accs x s = (Ok x', s') →
  importing e h vs os x' s' ∧ pools (store s') = pools (store s).
Proof.
  intros Hi H0 Hnd Hu Hrun.
  pose (P := λ (done : list Account) x1 s1, (importing e h vs os x1 s1 ∧ pools (store s1) = pools (store s)) ∧
          ∀ a, a ∉ map acc_Address done → acc_bal (store s1) a = 0).
  enough (P accs x' s') as [? _] by done. eapply (fold_m_inv P); [|by split|exact Hrun].
  intros done acc rest x1 s1 x2 s2 -> [[I1 E1] B1] Hstep. apply bind_Ok in Hstep as ([] & ? & [Hg ->]%fail_if_Ok & Hstep).
  apply bind_Ok in Hstep as ([] & s3 & Hset & [= <- <-]). apply Forall_app in Hu as [_ Hu]. inversion Hu as [|? ? Ha _]; subst.
  rewrite map_app in Hnd. apply NoDup_app in Hnd as (_ & Hnew & _). pose proof (im_fits _ _ _ _ _ _ I1) as (F1 & F2 & F3).
  destruct (room x1 _ F1 Ha Hg) as [Hr E]. apply SetAccount_spec in Hset as [_ [W C Bal Fr]]; [|apply I1|done].
  assert (acc_bal (store s1) (acc_Address acc) = 0) as Hz.
  { apply B1. intros Hin. eapply Hnew; [exact Hin|]. left. }
  rewrite Hz, Z.sub_0_r in C, Bal. split; [split|].
  - eapply (importing_rest e h e h); [exact I1|by apply rest_accounts|done| | |].
    + unfold fits. cbn. by rewrite E.
    + destruct Fr as (? & ? & ->). apply I1.
    + intros c Hc. exists (d_account (acc_Amount acc)). split; [apply C|]. cbn. rewrite E. g_eq.
  - destruct Fr as (? & ? & ->). exact E1.
  - intros a Hin. rewrite map_app in Hin. apply not_elem_of_app in Hin as [Hin1 Hin2]. rewrite Bal, (B1 a Hin1).
    rewrite decide_False; [done|]. intros ->. apply Hin2. left.
Qed.

(** What a file declares for a pool. *)
Definition declared (ps : list Pool) (id : Z) : Z := list_sum (λ p, hit id (pool_Id p) (pool_Amount p)) ps.
Lemma declared_app ps qs id : declared (ps ++ qs) id = declared ps id + declared qs id.
Proof. apply list_sum_app. Qed.
Lemma declared_cons p ps id : declared (p :: ps) id = hit id (pool_Id p) (pool_Amount p) + declared ps id.
Proof. done. Qed.
Lemma declared_snoc ps p id : declared (ps ++ [p]) id = declared ps id + hit (pool_Id p) id (pool_Amount p).
Proof. rewrite declared_app, declared_cons. unfold hit. rewrite Z.eqb_sym. change (declared [] id) with 0. lia. Qed.
Lemma declared_absent ps id : id ∉ map pool_Id ps → declared ps id = 0.
Proof.
  induction ps as [|p ps IH]; [done|]. intros [Hne Hin]%not_elem_of_cons. rewrite declared_cons.
  rewrite (IH Hin), hit_ne by done. done.
Qed.
Lemma SetPools_import vs os ps x s x' s' :
  importing (λ _, 0) (λ _, 0) vs os x s → (∀ id, pool_bal (store s) id = 0) → NoDup (map pool_Id ps) →
  Forall (λ p, u64 (pool_Amount p) ∧ wf_points p) ps → SetPools ps x s = (Ok x', s') →
  importing (λ c, declared ps (escrow_id c)) (λ c, declared ps (holding_id c)) vs os x' s'.
Proof.
  intros Hi H0 Hnd Hu Hrun.
  pose (P := λ (done : list Pool) x1 s1,
          importing (λ c, declared done (escrow_id c)) (λ c, declared done (holding_id c)) vs os x1 s1 ∧
          ∀ id, id ∉ map pool_Id done → pool_bal (store s1) id = 0).
  enough (P ps x' s') as [? _] by done. eapply (fold_m_inv P); [|by split|exact Hrun].
  intros done p rest x1 s1 x2 s2 -> [I1 B1] Hstep. apply bind_Ok in Hstep as ([] & ? & [Hg ->]%fail_if_Ok & Hstep).
  apply bind_Ok in Hstep as ([] & s3 & Hset & [= <- <-]). apply Forall_app in Hu as [_ Hu]. inversion Hu as [|? ? [Ha Hp] _]; subst.
  rewrite map_app in Hnd. apply NoDup_app in Hnd as (_ & Hnew & _). pose proof (im_fits _ _ _ _ _ _ I1) as (F1 & F2 & F3).
  destruct (room x1 _ F1 Ha Hg) as [Hr E]. pose proof Hset as Hrest. apply rest_set_pool in Hrest; [|by intros].
  apply SetPool_spec in Hset as [_ [W C Bal Fr]]; [|apply I1|done].
  assert (pool_bal (store s1) (pool_Id p) = 0) as Hz.
  { apply B1. intros Hin. eapply Hnew; [exact Hin|]. left. }
  rewrite Hz, Z.sub_0_r in C, Bal. split.
  - eapply importing_rest; [exact I1|done|done| | |].
    + unfold fits. cbn. by rewrite E.
    + destruct Fr as (? & ->). apply I1.
    + intros c Hc. exists (d_pool c (pool_Id p) (pool_Amount p)). split; [apply C|]. cbn. rewrite E, !declared_snoc. g_eq.
  - intros id Hin. rewrite map_app in Hin. apply not_elem_of_app in Hin as [Hin1 Hin2]. rewrite Bal, (B1 id Hin1).
    rewrite hit_ne; [done|]. intros ->. apply Hin2. left.
Qed.

(** ** Validators *)

(** The queues keep what they held for the other validators. *)
Definition queues_others (a : bytes) (q q' : gset (Z * bytes)) : Prop := ∀ k, snd k ≠ a → k ∈ q → k ∈ q'.
Lemma queue_validator_run val s w s1 :
  queue_validator val s = (Ok w, s1) →
  ∃ un pa, SetValidator w s1 = SetValidator w (set_store (set_paused pa (set_unstaking un (store s))) s) ∧
    val_Address w = val_Address val ∧ StakedAmount w = StakedAmount val ∧ Delegate w = Delegate val ∧
    Committees w = Committees val ∧
    queues_others (val_Address val) (unstaking (store s)) un ∧ queues_others (val_Address val) (paused (store s)) pa ∧
    (UnstakingHeight w ≠ 0 → (UnstakingHeight w, val_Address val) ∈ un ∧ MaxPausedHeight w = 0) ∧
    (MaxPausedHeight w ≠ 0 → (MaxPausedHeight w, val_Address val) ∈ pa).
Proof.
  set (a := val_Address val). unfold queue_validator. destruct (Z.eqb_spec (UnstakingHeight val) 0) as [Hu|Hu]; cbn [negb].
  - destruct (Z.eqb_spec (MaxPausedHeight val) 0) as [Hm|Hm]; cbn [negb].
    + intros [= <- <-]. exists (unstaking (store s)), (paused (store s)). split_and!; try done; by intros k _.
    + rewrite (SetValidatorPaused_run a) by done. intros [= <- <-].
      exists (unstaking (store s)), ({[(MaxPausedHeight val, a)]} ∪ paused (store s)). split_and!; try done; try (by intros k _).
      * unfold SetValidator, write_validator. runs. cbn. by rewrite insert_insert_eq.
      * intros k _. set_solver.
      * intros _. apply elem_of_union_l. by apply elem_of_singleton.
  - rewrite (SetValidatorUnstaking_run a) by done. intros [= <- <-].
    exists ({[(UnstakingHeight val, a)]} ∪ unstaking (store s)), (if MaxPausedHeight val =? 0 then paused (store s)
      else paused (store s) ∖ {[(MaxPausedHeight val, a)]}). split_and!;
      [unfold SetValidator, write_validator; runs; cbn; by rewrite insert_insert_eq|done..| | | |done].
    + intros k _. set_solver.
    + intros k Hk Hin. case_match; [done|]. apply elem_of_difference. split; [done|]. intros ->%elem_of_singleton. by apply Hk.
    + intros _. split; [apply elem_of_union_l; by apply elem_of_singleton|done].
Qed.
Lemma supply_idx_untotalled c n m ids s s' :
  posted c (d_committees c n m ids) s s' → only_supply_idx s s' → untotalled s → untotalled s'.
Proof.
  intros [_ Hsh] (x & ci & di & ->) (T1 & T2 & T3). unfold shift in Hsh. unfold untotalled.
  pose proof (f_equal g_total Hsh). pose proof (f_equal g_staked Hsh). pose proof (f_equal g_deleg Hsh).
  cbn in *. unfold held, sum_accounts, sum_pools, sum_stakes in *. cbn in *. lia.
Qed.

(** A validator that was not there comes with its place in the queues. *)
Lemma new_validator_run val s w s1 s2 :
  wf s → u64 (StakedAmount val) → validators (store s) !! val_Address val = None →
  queue_validator val s = (Ok w, s1) → SetValidator w s1 = (Ok (), s2) →
  (∀ c, posted c (d_validator c 1 w) s s2) ∧
  (lifecycle s → lifecycle s2) ∧
  (val_Address w = val_Address val ∧ StakedAmount w = StakedAmount val ∧ Delegate w = Delegate val ∧ Committees w = Committees val) ∧
  ∃ un pa, s2 = write_validator (val_Address val) w un pa s.
Proof.
  intros Hw Hu Hnew Hq Hset. apply queue_validator_run in Hq as (un & pa & E & E1 & E2 & E3 & E4 & O1 & O2 & Q1 & Q2).
  rewrite E in Hset. set (s0 := set_store _ s) in Hset.
  assert (same_ledger s s0) as Hsl by done.
  assert (s2 = write_validator (val_Address val) w un pa s) as Hs2.
  { rewrite <- E1. revert Hset. unfold SetValidator. runs. intros [= <-]. done. }
  split_and!; try done; [| |by exists un, pa].
  - intros c. apply (same_ledger_posted c) in Hsl as HP; [|done]. apply (SetValidator_spec c) in Hset as (_ & HV & _);
      [|apply HP|by rewrite E2].
    rewrite E1, (sl_validators _ _ Hsl), Hnew in HV. eapply posted_eq; [by eapply posted_trans|]. unfold d_replace. g_eq.
  - intros HL a v. subst s2. cbn. destruct (decide (a = val_Address val)) as [->|Hne].
    + rewrite lookup_insert_eq. intros [= <-]. split; cbn; [apply Q1|apply Q2].
    + rewrite lookup_insert_ne by done. intros Hv. destruct (HL a v Hv) as [L1 L2]. split; cbn.
      * intros Hx. destruct (L1 Hx). split; [by apply O1|done].
      * intros Hx. apply O2; [done|]. by apply L2.
Qed.
Lemma set_genesis_validator_import e h vs os val x s x' s' :
  importing e h vs os x s → val_Address val ∉ vs → u64 (StakedAmount val) →
  set_genesis_validator x val s = (Ok x', s') → importing e h (vs ++ [val_Address val]) os x' s'.
Proof.
  intros Hi Hnew Hu Hrun. set (a := val_Address val) in *. unfold set_genesis_validator in Hrun.
  apply bind_Ok in Hrun as ([] & ? & [Hg1 ->]%fail_if_Ok & Hrun). apply orb_false_iff in Hg1 as [Hg1 Hg2].
  apply bind_Ok in Hrun as ([] & ? & [Hg3 ->]%fail_if_Ok & Hrun).
  apply bind_Ok in Hrun as (w & s1 & Hq & Hrun). apply bind_Ok in Hrun as ([] & s2 & Hset & Hrun).
  pose proof Hi as [W (F1 & F2 & F3) U B P L O C V N].
  destruct (new_validator_run _ _ _ _ _ W Hu (V _ Hnew) Hq Hset) as (HP & HL & (E1 & E2 & E3 & E4) & un & pa & Hs2).
  destruct (room x _ F1 Hu Hg1) as [R1 T1]. apply max_guard in Hg2 as R2; [|done..].
  set (n := StakedAmount val) in *. fold a in Hs2, E1.
  assert (Hend : ∃ m, (∀ c, posted c (d_committees c n m (Committees w)) s2 s') ∧ only_supply_idx s2 s' ∧
      m = deleg_stake w ∧ u64 (DelegatedOnly x + m) ∧
      x' = MkSupply (Total x + n) (Staked x + n) (DelegatedOnly x + m) (CommitteeStaked x) (CommitteeDelegatedOnly x)).
  { pose proof (po_ok _ _ _ _ (HP 1)) as W2. unfold deleg_stake. rewrite E3, E2. rewrite E3 in Hrun.
    rewrite T1, (u64_add_small (Staked x)) in Hrun by done. destruct (Delegate val); cbn [andb] in Hg3.
    - apply max_guard in Hg3; [|done..]. apply bind_Ok in Hrun as ([] & s3 & Hc & [= <- <-]). exists n. split_and!; try done.
      + intros c. by apply (SetDelegations_spec c) in Hc as [? _].
      + by apply (SetDelegations_spec 1) in Hc as [_ ?].
      + cbn. rewrite u64_add_small by done. by destruct x.
    - apply bind_Ok in Hrun as ([] & s3 & Hc & [= <- <-]). exists 0. split_and!; try done.
      + intros c. by apply (SetCommittees_spec c) in Hc as [? _].
      + by apply (SetCommittees_spec 1) in Hc as [_ ?].
      + by rewrite Z.add_0_r.
      + cbn. rewrite Z.add_0_r. by destruct x. }
  destruct Hend as (m & HC & Ho & Hm & R3 & ->).
  assert (untotalled s') as U'.
  { eapply supply_idx_untotalled; [apply (HC 1)|done|]. subst s2. exact U. }
  assert (∀ c, posted c (Gaps (- n) (- n) (- m) 0 0 0 0) s s') as Hbooks.
  { intros c. eapply posted_eq; [eapply posted_trans; [apply HP|apply HC]|]. unfold d_committees. g_unfold.
    rewrite <- !Hm, E2. f_equal; try lia; unfold comm_stake, commdel_stake; rewrite <- ?Hm, ?E2; lia. }
  destruct Ho as (y & ci & di & Hs'). subst s2 s'. split; try done.
  - apply (Hbooks 1).
  - intros c Hc. destruct (Hbooks c) as [_ Hsh]. unfold shift in Hsh. rewrite Hsh, (B c Hc). cbn. g_eq.
  - by apply HL.
  - intros b [Hb1 Hb2]%not_elem_of_app. cbn. rewrite lookup_insert_ne; [by apply V|]. intros ->. apply Hb2. left.
Qed.
Lemma SetValidators_import e h os vals x s x' s' :
  importing e h [] os x s → NoDup (map val_Address vals) → Forall (λ v, u64 (StakedAmount v)) vals →
  SetValidators vals x s = (Ok x', s') →
  importing e h (map val_Address vals) os x' s' ∧ CommitteeStaked x' = CommitteeStaked (supply (store s')) ∧
  CommitteeDelegatedOnly x' = CommitteeDelegatedOnly (supply (store s')).
Proof.
  intros Hi Hnd Hu Hrun. unfold SetValidators in Hrun. apply bind_Ok in Hrun as (x1 & s1 & Hrun & Hend).
  apply bind_Ok in Hend as (y & s2 & [= <- <-] & [= <- <-]). split; [|done].
  enough (importing e h (map val_Address vals) os x1 s1) as [W F U B P L O C V N] by (split; done).
  apply (fold_m_inv (λ done x1 s1, importing e h (map val_Address done) os x1 s1)) in Hrun; [done| |done].
  intros done val rest x2 s2 x3 s3 -> Hi2 Hstep. rewrite map_app in Hnd |- *. apply NoDup_app in Hnd as (_ & Hnew & _).
  apply Forall_app in Hu as [_ Hu]. inversion Hu; subst.
  eapply set_genesis_validator_import; [exact Hi2| |done|exact Hstep]. intros Hin. eapply Hnew; [exact Hin|]. left.
Qed.

(** ** Order books *)

Lemma set_genesis_order_import e h vs os ch o x s x' s' :
  importing e h vs os x s → valid_chain ch → u64 (AmountForSale o) → (ch, order_Id o) ∉ os →
  set_genesis_order ch x o s = (Ok x', s') →
  importing e h vs (os ++ [(ch, order_Id o)]) x' s' ∧ supply (store s') = supply (store s) ∧
  CommitteeStaked x' = CommitteeStaked x ∧ CommitteeDelegatedOnly x' = CommitteeDelegatedOnly x.
Proof.
  intros Hi Hch Hu Hnew Hrun. set (n := AmountForSale o) in *. unfold set_genesis_order in Hrun. fold n in Hrun.
  apply bind_Ok in Hrun as ([] & ? & [Hg ->]%fail_if_Ok & Hrun). apply bind_Ok in Hrun as ([] & s1 & Hso & Hrun).
  apply bind_Ok in Hrun as ([] & s2 & Hpa & [= <- <-]). pose proof (importing_held _ _ _ _ _ _ Hi) as Hheld.
  destruct Hi as [W (F1 & F2 & F3) U B P L O C V N]. destruct (room x _ F1 Hu Hg) as [R E].
  pose proof (λ c, SetOrder_spec c _ _ _ _ _ W Hso) as Hord. destruct (Hord 1) as (_ & Hs1 & [W1 _]).
  pose proof (rest_pool_add _ _ _ _ _ Hpa) as [[S1 S2 S3] SO [B1 B2] RP].
  assert (Hb : u64 (pool_bal (store s1) (escrow_id ch) + n)).
  { pose proof (pool_bal_le_sum s1 (escrow_id ch) W1). pose proof (pool_bal_range s1 (escrow_id ch) W1).
    pose proof (sum_accounts_nonneg s W). pose proof (sum_stakes_nonneg s W).
    assert (sum_pools (store s1) = sum_pools (store s)) as Hsp by (by rewrite Hs1). unfold held in Hheld. u64. }
  unfold PoolAdd in Hpa. apply bind_Ok in Hpa as (p & ? & [= <- <-] & Hpa).
  destruct (lookup_pool_spec (escrow_id ch) (store s1)) as [Ep Ea]. rewrite Ea, u64_add_small in Hpa by done.
  pose proof (SetPool_frame _ _ _ _ Hpa) as Hfr. apply SetPool_spec in Hpa as (_ & [W2 Sh _ _]); [|done..].
  cbn [set_pool_Amount pool_Id pool_Amount] in Sh. rewrite Ep in Sh.
  replace (_ + n - _) with n in Sh by lia.
  assert (Hn0 : order_amount (store s) (ch, order_Id o) = 0) by (unfold order_amount; by rewrite (N _ Hnew)).
  split; [split|by subst s2 s1]; try done.
  - cbn. rewrite E. done.
  - by subst s2 s1.
  - intros c Hc. destruct (Hord c) as (_ & _ & [_ Sh1]). specialize (Sh c). unfold shift in Sh, Sh1. rewrite Sh, Sh1, (B c Hc), Hn0.
    destruct (pool_ids_disjoint c ch Hc Hch) as (D1 & _). unfold d_pool, d_order.
    rewrite hit_escrow, (hit_ne (escrow_id ch)), Z.sub_0_r by (done || congruence). unfold g_add. cbn. rewrite E. fold n. f_equal; lia.
  - intros c Hc. apply RP; [done|]. subst s1. by apply P.
  - rewrite B1, B2. by subst s1.
  - unfold same_orders in SO. unfold wf_orders. rewrite SO. subst s1. apply map_Forall_insert_2; [done|exact O].
  - apply (lifecycle_same s1); [done|]. by subst s1.
  - intros a Ha. rewrite S1. subst s1. by apply V.
  - intros k [Hk1 Hk2]%not_elem_of_app. unfold same_orders in SO. rewrite SO. subst s1. cbn.
    rewrite lookup_insert_ne; [by apply N|]. intros <-. apply Hk2. left.
Qed.

(** The key of every order of the books, in order. *)
Definition book_keys (ch : Z) (orders : list SellOrder) : list (Z * bytes) := map (λ o, (ch, order_Id o)) orders.
Definition books_keys (books : list (option OrderBook)) : list (Z * bytes) :=
  books ≫= λ b, match b with Some b => book_keys (ob_ChainId b) (ob_Orders b) | None => [] end.
Definition typed_book (b : OrderBook) : Prop :=
  valid_chain (ob_ChainId b) ∧ Forall (λ o, u64 (AmountForSale o)) (ob_Orders b).
(** The tracker's committee lists are those of the state. *)
Definition lists_agree (x : Supply) (s : FSM) : Prop :=
  CommitteeStaked x = CommitteeStaked (supply (store s)) ∧ CommitteeDelegatedOnly x = CommitteeDelegatedOnly (supply (store s)).

Lemma check_orders_NoDup seen l : check_orders seen l = Ok () → NoDup (map order_Id l) ∧ ∀ i, i ∈ map order_Id l → i ∉ seen.
Proof.
  revert seen. induction l as [|o l IH]; intros seen Hrun; [split; [constructor|by intros i Hi%elem_of_nil]|].
  cbn [check_orders] in Hrun. unfold Found in Hrun. case_decide as Hd; [done|].
  apply result_bind_Ok in Hrun as ([] & _ & Hrun). apply IH in Hrun as [Hnd Hs]. cbn. split.
  - constructor; [|done]. intros Hin. apply (Hs _ Hin). set_solver.
  - intros i [->|Hi]%elem_of_cons; [done|]. specialize (Hs i Hi). set_solver.
Qed.
Lemma check_books_NoDup seen l : check_books seen l = Ok () →
  NoDup (books_keys l) ∧ ∀ k, k ∈ books_keys l → fst k ∉ seen.
Proof.
  revert seen. induction l as [|[b|] l IH]; intros seen Hrun; [split; [constructor|by intros i Hi%elem_of_nil]| |done].
  cbn [check_books] in Hrun. unfold Found in Hrun. case_decide as Hd; [done|].
  apply result_bind_Ok in Hrun as ([] & _ & Hrun). apply result_bind_Ok in Hrun as ([] & _ & Hrun).
  apply result_bind_Ok in Hrun as ([] & [Ho _]%check_orders_NoDup & Hrun). apply IH in Hrun as [Hnd Hs].
  unfold books_keys in *. cbn. unfold book_keys. split.
  - apply NoDup_app. split_and!; [|intros k Hk1 Hk2|done].
    + rewrite <- (map_map order_Id (pair (ob_ChainId b))). apply NoDup_fmap_2; [|done]. by intros ? ? [=].
    + apply list_elem_of_fmap in Hk1 as (o & -> & _). apply (Hs _ Hk2). cbn. set_solver.
  - intros k [Hk|Hk]%elem_of_app.
    + by apply list_elem_of_fmap in Hk as (o & -> & _).
    + specialize (Hs k Hk). set_solver.
Qed.
Lemma book_import e h vs os b x s x' s' :
  importing e h vs os x s → lists_agree x s → typed_book b →
  NoDup (os ++ book_keys (ob_ChainId b) (ob_Orders b)) →
  fold_m (set_genesis_order (ob_ChainId b)) x (ob_Orders b) s = (Ok x', s') →
  importing e h vs (os ++ book_keys (ob_ChainId b) (ob_Orders b)) x' s' ∧ lists_agree x' s'.
Proof.
  intros Hi HA [Hch Hu] Hnd Hrun. set (ch := ob_ChainId b) in *.
  apply (fold_m_inv (λ done x1 s1, importing e h vs (os ++ book_keys ch done) x1 s1 ∧ lists_agree x1 s1)) in Hrun; [done| |].
  - intros done o rest x1 s1 x2 s2 E [I1 [A1 A2]] Hstep. rewrite E in *. unfold book_keys in *. rewrite !map_app in *.
    apply Forall_app in Hu as [_ Hu]. inversion Hu; subst. 
    destruct (set_genesis_order_import e h vs _ ch o x1 s1 x2 s2 I1) as (I2 & Hs & L1 & L2); [done..| |done|].
    + rewrite app_assoc in Hnd. apply NoDup_app in Hnd as (_ & Hnew & _). intros Hin. apply (Hnew _ Hin). left.
    + split; [by rewrite app_assoc|]. unfold lists_agree. by rewrite Hs, L1, L2.
  - unfold book_keys. by rewrite app_nil_r.
Qed.
Lemma SetOrderBooks_import e h vs bs x s x' s' :
  importing e h vs [] x s → lists_agree x s → Forall (λ b, ∀ b', b = Some b' → typed_book b') bs → NoDup (books_keys bs) →
  SetOrderBooks (Some bs) x s = (Ok x', s') → importing e h vs (books_keys bs) x' s' ∧ lists_agree x' s'.
Proof.
  intros Hi HA Hu Hnd Hrun. cbn [SetOrderBooks] in Hrun.
  apply (fold_m_inv (λ done x1 s1, importing e h vs (books_keys done) x1 s1 ∧ lists_agree x1 s1)) in Hrun; [done| |done].
  intros done b rest x1 s1 x2 s2 -> [I1 A1] Hstep. unfold books_keys in *. rewrite !bind_app in *. cbn in *.
  rewrite app_nil_r. apply Forall_app in Hu as [_ Hu]. inversion Hu as [|? ? Hb _]; subst. destruct b as [b|].
  - eapply book_import; [done|done|by apply Hb| |exact Hstep]. rewrite app_assoc in Hnd. by apply NoDup_app in Hnd as (? & _).
  - injection Hstep as <- <-. by rewrite app_nil_r.
Qed.

(** ** The first state *)

(** What the file must satisfy beyond the checks: numbers in range, and no account,
    pool or validator twice. *)
Record declared_well (g : GenesisState) : Prop := {
  gw_accounts : NoDup (map acc_Address (gs_Accounts g)) ∧ Forall wf_account (gs_Accounts g);
  gw_pools : NoDup (map pool_Id (gs_Pools g)) ∧ Forall (λ p, u64 (pool_Amount p) ∧ wf_points p) (gs_Pools g);
  gw_validators : NoDup (map val_Address (gs_Validators g)) ∧ Forall (λ v, u64 (StakedAmount v)) (gs_Validators g);
  gw_books : Forall (λ b, ∀ b', b = Some b' → typed_book b') (default [] (gs_OrderBooks g));
}.
Lemma SetOrderBooks_default bs x : SetOrderBooks bs x = SetOrderBooks (Some (default [] bs)) x.
Proof. by destruct bs. Qed.
Lemma Validate_keys g : ValidateGenesisState g = Ok () → NoDup (books_keys (default [] (gs_OrderBooks g))).
Proof.
  intros Hv. unfold ValidateGenesisState in Hv. apply result_bind_Ok in Hv as ([] & _ & Hv).
  apply result_bind_Ok in Hv as ([] & _ & Hv). apply result_bind_Ok in Hv as ([] & _ & Hv).
  destruct (gs_OrderBooks g); [by apply check_books_NoDup in Hv as [? _]|constructor].
Qed.
Lemma SetRetired_only l s u s' : SetRetiredCommittees l s = (Ok u, s') → ∃ r, s' = set_store (set_retired r (store s)) s.
Proof.
  intros Hrun. refine (for_each_inv (λ s1, ∃ r, s1 = set_store (set_retired r (store s)) s) _ _ _ _ _ _ _ Hrun).
  - intros x s1 s2 u' _ (r & ->) [= <- <-]. by eexists.
  - exists (retired (store s)). by destruct s as [[]].
Qed.
(** Writing the tracker closes the books. *)
Lemma importing_close e h vs os x s s1 :
  importing e h vs os x s → lists_agree x s → SetSupply x s = (Ok (), s1) →
  sound s1 ∧ ∀ c, valid_chain c → books c (store s1) = Gaps 0 0 0 0 0 (e c) (h c).
Proof.
  intros [W F (T1 & T2 & T3) B P [L1 L2] O C V N] [A1 A2] [= <-].
  assert (HB : ∀ c, valid_chain c → books c (set_supply x (store s)) = Gaps 0 0 0 0 0 (e c) (h c)).
  { intros c Hc. specialize (B c Hc). unfold books, held, sum_accounts, sum_pools, sum_stakes in *. cbn in *.
    rewrite A1, A2. injection B as E1 E2 E3 E4 E5 E6 E7. f_equal; lia || assumption. }
  split; [|exact HB]. split; [split| | |].
  - destruct W as [W1 W2 W3 W4 (_ & _ & _ & W5 & W6)]. split; try done. destruct F as (F1 & F2 & F3). cbn.
    unfold wf_supply. rewrite A1, A2. done.
  - cbn [set_store store]. rewrite (HB 1 valid_chain_1). done.
  - exact P.
  - cbn. rewrite L1, L2. split; by intros ?.
  - exact O.
  - exact C.
  - cbn [set_store store]. rewrite (HB 1 valid_chain_1). done.
Qed.
Lemma sound_retired r h s : sound s → sound (set_height h (set_store (set_retired r (store s)) s)).
Proof. intros [[[] ? ? ?] ? ? ?]. split; [split; [split|..]|..]; done. Qed.

(** C3. The first state is sound: importing a file that passes the checks, has no
    account, pool or validator twice and only numbers in range yields a state
    that satisfies the invariant every transaction keeps, whose recorded total
    supply is what it holds, whose staked and delegated totals, by committee too,
    are the stakes, and whose escrow and holding pools hold, beyond what is
    owed, exactly what the file declares for them. *)
Theorem genesis_sound g s s' :
  fresh s → declared_well g → NewFromGenesis g s = (Ok (), s') →
  sound s' ∧ ∀ c, valid_chain c →
    books c (store s') = Gaps 0 0 0 0 0 (declared (gs_Pools g) (escrow_id c)) (declared (gs_Pools g) (holding_id c)).
Proof.
  intros Hf [[A1 A2] [P1 P2] [V1 V2] B] Hrun. unfold NewFromGenesis, lift in Hrun.
  apply bind_Ok in Hrun as ([] & ? & [= Hv <-] & Hrun). apply Validate_keys in Hv as Hk.
  apply bind_Ok in Hrun as ([] & s7 & Hrun & [= <-]). unfold NewStateFromGenesis in Hrun.
  destruct (gs_Params g) as [p|]; [|done]. apply bind_Ok in Hrun as ([] & s1 & Hp & Hrun).
  assert (fresh s1) as Hf1.
  { unfold SetParams, SetParamsCons, SetParamsVal, SetParamsFee, SetParamsGov in Hp. runs in Hp. injection Hp as <-. by destruct Hf. }
  pose proof (importing_fresh _ Hf1) as I1. apply bind_Ok in Hrun as (x2 & s2 & Ha & Hrun).
  apply bind_Ok in Hrun as (x3 & s3 & Hpo & Hrun). apply bind_Ok in Hrun as (x4 & s4 & Hva & Hrun).
  apply bind_Ok in Hrun as (x5 & s5 & Hob & Hrun). apply bind_Ok in Hrun as ([] & s6 & Hsu & Hrun).
  eapply SetAccounts_import in Ha as [I2 E2]; [|exact I1| |done..].
  2:{ intros a. unfold acc_bal. by rewrite (fr_accounts _ Hf1), lookup_empty. }
  eapply SetPools_import in Hpo as I3; [|exact I2| |done..].
  2:{ intros i. unfold pool_bal. by rewrite E2, (fr_pools _ Hf1), lookup_empty. }
  eapply SetValidators_import in Hva as [I4 L4]; [|exact I3|done..].
  rewrite SetOrderBooks_default in Hob. eapply SetOrderBooks_import in Hob as [I5 L5]; [|exact I4|done..].
  eapply importing_close in Hsu as [S6 B6]; [|exact I5|done].
  apply SetRetired_only in Hrun as (r & ->).
  split; [by apply sound_retired|intros c Hc; exact (B6 c Hc)].
Qed.
End genesis.

(** ** Witnesses *)

Definition addr20 (b : Byte.byte) : bytes := repeat b 20.
Definition empty_store : Store :=
  MkStore ∅ ∅ ∅ ∅ ∅ ∅ ∅ None None None None ∅ [] (MkSupply 0 0 0 [] []) [] ∅ ∅ ∅ ∅ ∅ ∅ ∅.
Definition blank : FSM := MkFSM empty_store 0 1 ∅ ∅ None None None [] (MkConfig 1 210000 80 EmptyString).
(** Two accounts, a donated escrow pool, a paused validator, an unstaking delegate, and orders on two chains. *)
Definition demo_genesis : GenesisState :=
  MkGenesis
    [MkPool 1 70 [] 0; MkPool (escrow_id 1) 6 [] 0]
    [account (addr20 x01) 1000; account (addr20 x02) 500]
    [MkValidator (addr20 x03) (repeat x09 48) EmptyString 100 [1] 7 0 (addr20 x01) false true;
     MkValidator (addr20 x04) [] EmptyString 50 [1; 2] 3 5 (addr20 x02) true false]
    (Some [Some (MkOrderBook 1 [order1; MkSellOrder [xab] 1 [] 4 9 alice [] [] 0 bob]); Some (MkOrderBook 2 [order1])])
    (Some demo_gov_params) [9].
Definition demo_first : FSM := snd (NewFromGenesis demo_genesis blank).
Lemma genesis_sound_witness :
  NewFromGenesis demo_genesis blank = (Ok (), demo_first) ∧ sound demo_first ∧
  Total (supply (store demo_first)) = 70 + 6 + 1500 + 150 + 54 ∧ books 1 (store demo_first) = Gaps 0 0 0 0 0 6 0.
Proof.
  assert (Hrun : NewFromGenesis demo_genesis blank = (Ok (), demo_first)) by run_now.
  destruct (genesis_sound demo_genesis blank demo_first) as [Hs Hb]; [by split| |exact Hrun|]; [clear Hrun|].
  - split.
    + split; [decide_now|]. repeat constructor; by vm_compute.
    + split; [decide_now|]. repeat constructor; by vm_compute.
    + split; [decide_now|]. repeat constructor; by vm_compute.
    + repeat apply Forall_cons_2; [| |apply Forall_nil_2]; intros b' [= <-];
        (split; [by vm_compute|]); repeat apply Forall_cons_2; try apply Forall_nil_2; cbn; u64.
  - split_and!; [exact Hrun|exact Hs|by vm_compute|]. rewrite (Hb 1 valid_chain_1). by vm_compute.
Defined.
