(* ===== verification/Merkle.v ===== *)
(** * Merkle roots of lists ([lib/crypto/hash.go], [MerkleTree] of [lib/util.go])

    The tree is kept in one slice, the leaves first, padded with nil up to a
    power of two.  The root it computes is that of the recursive definition; it
    commits to the items of a list of known length, and not to the length. *)
From S2P Require Import Prelude LibUtil State Crypto.
#[local] Open Scope Z_scope.

(** ** The program *)

Definition nextPowerOfTwo (v : Z) : Z :=
  let v := v - 1 in
  let v := Z.lor v (Z.shiftr v 1) in
  let v := Z.lor v (Z.shiftr v 2) in
  let v := Z.lor v (Z.shiftr v 4) in
  let v := Z.lor v (Z.shiftr v 8) in
  let v := Z.lor v (Z.shiftr v 16) in
  v + 1.

Section merkle.
Context `{Crypto}.

(** A slot of the store; [None] is nil. *)
Definition parent_hash (left right : option bytes) : option bytes :=
  match left, right with
  | None, _ => None
  | Some l, None => Some (Hash (l ++ l))
  | Some l, Some r => Some (Hash (l ++ r))
  end.
(** The loop over [i = 2 k], [offset] growing with [k]. *)
Fixpoint hash_pairs (n k offset : nat) (store : list (option bytes)) : list (option bytes) :=
  match n with
  | O => store
  | S n =>
      let left := default None (store !! (2 * k)%nat) in
      let right := default None (store !! (2 * k + 1)%nat) in
      hash_pairs n (S k) (S offset) (<[offset := parent_hash left right]> store)
  end.
Definition MerkleTree (items : list bytes) : option bytes * list (option bytes) :=
  match items with
  | [] => (Some [], [])
  | _ =>
      let offset := Z.to_nat (nextPowerOfTwo (Z.of_nat (length items))) in
      let size := (offset * 2 - 1)%nat in
      let store := map (λ i, Some (Hash i)) items ++ replicate (size - length items) None in
      let store := hash_pairs ((size - 1) / 2) 0 offset store in
      (default None (store !! (size - 1)%nat), store)
  end.

(** ** The specification: hash, join neighbours, repeat *)

(** Neighbours joined; a last one without a neighbour is joined with itself. *)
Fixpoint pairs (l : list bytes) : list bytes :=
  match l with
  | x :: y :: l => (x ++ y) :: pairs l
  | [x] => [x ++ x]
  | [] => []
  end.
Fixpoint merkle_root (depth : nat) (items : list bytes) : option bytes :=
  match depth with
  | O => Hash <$> head items
  | S depth => merkle_root depth (pairs (map Hash items))
  end.
(** Every string that is hashed on the way. *)
Fixpoint hashed (depth : nat) (items : list bytes) : list bytes :=
  match depth with
  | O => items
  | S depth => items ++ hashed depth (pairs (map Hash items))
  end.
(** The least depth of a complete tree over [n] leaves. *)
Definition depth_of (n : nat) : nat := Z.to_nat (Z.log2_up (Z.of_nat n)).

(** ** Powers of two *)

(** After the steps, a bit is set when one of the [m] bits above it was. *)
Definition smeared (m : Z) (v w : Z) : Prop :=
  0 <= w ∧ ∀ i, 0 <= i → Z.testbit w i = true ↔ ∃ j, i <= j < i + m ∧ Z.testbit v j = true.

Lemma smeared_0 v : 0 <= v → smeared 1 v v.
Proof.
  intros Hv. split; [done|]. intros i Hi. split; [intros Hb; exists i; split; [lia|done]|].
  intros (j & Hj & Hb). by replace i with j by lia.
Qed.
Lemma smeared_step m v w : 0 < m → smeared m v w → smeared (2 * m) v (Z.lor w (Z.shiftr w m)).
Proof.
  intros Hm [Hw Hb]. split; [apply Z.lor_nonneg; split; [done|by apply Z.shiftr_nonneg]|]. intros i Hi.
  rewrite Z.lor_spec, orb_true_iff, Z.shiftr_spec, !Hb by lia. split.
  - intros [(j & Hj & Hbj)|(j & Hj & Hbj)]; exists j; (split; [lia|done]).
  - intros (j & Hj & Hbj). destruct (Z.lt_ge_cases j (i + m)); [left|right]; exists j; (split; [lia|done]).
Qed.
Lemma smeared_ones v w : 0 < v < 2 ^ 32 → smeared 32 v w → w = 2 ^ (Z.log2 v + 1) - 1.
Proof.
  intros Hv [Hw Hb]. rewrite <- Z.pred_succ with (n := w). unfold Z.pred. f_equal.
  assert (Hl : Z.log2 v < 32) by (apply Z.log2_lt_pow2; lia). pose proof (Z.log2_nonneg v).
  enough (Hones : w = Z.ones (Z.log2 v + 1)) by (rewrite Hones, Z.ones_equiv; lia).
  apply Z.bits_inj'. intros i Hi. apply eq_true_iff_eq. rewrite Hb by done.
  rewrite Z.testbit_ones_nonneg by lia. rewrite Z.ltb_lt. split.
  - intros (j & Hj & Hbj). destruct (Z.lt_ge_cases (Z.log2 v) j) as [Hlj|]; [|lia].
    rewrite Z.bits_above_log2 in Hbj by lia. done.
  - intros Hil. exists (Z.log2 v). split; [lia|]. apply Z.bit_log2. lia.
Qed.
Lemma nextPowerOfTwo_spec n : 1 <= n < 2 ^ 32 → nextPowerOfTwo n = 2 ^ Z.log2_up n.
Proof.
  intros Hn. destruct (Z.eq_dec n 1) as [->|Hne]; [done|].
  assert (Hs : smeared 32 (n - 1) (nextPowerOfTwo n - 1)).
  { unfold nextPowerOfTwo. rewrite Z.add_simpl_r. apply (smeared_step 16), (smeared_step 8), (smeared_step 4), (smeared_step 2), (smeared_step 1); try lia.
    apply smeared_0. lia. }
  apply smeared_ones in Hs; [|lia]. rewrite Z.log2_up_eqn by lia. replace (Z.pred n) with (n - 1) by lia.
  replace (Z.succ (Z.log2 (n - 1))) with (Z.log2 (n - 1) + 1) by lia. lia.
Qed.

(** ** The loop, a level at a time *)

Fixpoint level (l : list (option bytes)) : list (option bytes) :=
  match l with
  | a :: b :: l => parent_hash a b :: level l
  | _ => []
  end.
Fixpoint tree_root (depth : nat) (l : list (option bytes)) : option bytes :=
  match depth with
  | O => default None (head l)
  | S depth => tree_root depth (level l)
  end.

Lemma hash_level m : ∀ n k pre l dn rest,
  length pre = (2 * k)%nat → length l = (2 * m)%nat → (m <= length rest)%nat →
  hash_pairs (m + n) k (length (pre ++ l ++ dn)) (pre ++ l ++ dn ++ rest) =
    hash_pairs n (k + m) (length (pre ++ l ++ dn) + m) (pre ++ l ++ dn ++ level l ++ drop m rest).
Proof.
  induction m as [|m IH]; intros n k pre l dn rest Hpre Hl Hr.
  { destruct l; [|done]. cbn. by rewrite !Nat.add_0_r, drop_0. }
  destruct l as [|a [|b l]]; [done|cbn in Hl; lia|]. destruct rest as [|r rest]; [cbn in Hr; lia|].
  assert (L1 : (pre ++ (a :: b :: l) ++ dn ++ r :: rest) !! (2 * k)%nat = Some a)
    by (rewrite lookup_app_r by lia; by replace (2 * k - length pre)%nat with 0%nat by lia).
  assert (L2 : (pre ++ (a :: b :: l) ++ dn ++ r :: rest) !! (2 * k + 1)%nat = Some b)
    by (rewrite lookup_app_r by lia; by replace (2 * k + 1 - length pre)%nat with 1%nat by lia).
  cbn [Nat.add hash_pairs]. rewrite L1, L2. unfold default, id.
  assert (E : <[length (pre ++ (a :: b :: l) ++ dn) := parent_hash a b]> (pre ++ (a :: b :: l) ++ dn ++ r :: rest) =
    (pre ++ [a; b]) ++ l ++ (dn ++ [parent_hash a b]) ++ rest).
  { replace (pre ++ (a :: b :: l) ++ dn ++ r :: rest) with ((pre ++ (a :: b :: l) ++ dn) ++ r :: rest) by (by rewrite <- !app_assoc).
    rewrite insert_app_r_alt, Nat.sub_diag by done. rewrite <- !app_assoc. done. }
  rewrite E. replace (S (length (pre ++ (a :: b :: l) ++ dn))) with (length ((pre ++ [a; b]) ++ l ++ (dn ++ [parent_hash a b])))
    by (rewrite !length_app; cbn; lia).
  rewrite IH by (rewrite ?length_app; cbn in *; lia). cbn [level drop]. f_equal.
  - lia.
  - rewrite !length_app. cbn. lia.
  - rewrite <- !app_assoc. done.
Qed.
Lemma level_length m : ∀ l, length l = (2 * m)%nat → length (level l) = m.
Proof.
  induction m as [|m IH]; intros l Hl; [by destruct l|]. destruct l as [|a [|b l]]; [done|cbn in Hl; lia|].
  cbn. f_equal. apply IH. cbn in Hl. lia.
Qed.
Lemma hash_pairs_root d : ∀ k pre l rest,
  length pre = (2 * k)%nat → length l = (2 ^ d)%nat → (2 ^ d - 1 <= length rest)%nat →
  hash_pairs (2 ^ d - 1) k (length pre + 2 ^ d) (pre ++ l ++ rest) !! (length pre + 2 * 2 ^ d - 2)%nat = Some (tree_root d l).
Proof.
  induction d as [|d IH]; intros k pre l rest Hpre Hl Hr.
  { destruct l as [|a [|]]; [done| |done]. cbn. rewrite lookup_app_r by lia.
    by replace (length pre + 2 - 2 - length pre)%nat with 0%nat by lia. }
  assert (Hp : (2 ^ d <> 0)%nat) by (apply Nat.pow_nonzero; lia). rewrite Nat.pow_succ_r' in *.
  pose proof (hash_level (2 ^ d) (2 ^ d - 1) k pre l [] rest Hpre Hl ltac:(lia)) as E. cbn [app] in E.
  rewrite app_nil_r, length_app, Hl in E. replace (2 * 2 ^ d - 1)%nat with (2 ^ d + (2 ^ d - 1))%nat by lia. rewrite E.
  pose proof (IH (k + 2 ^ d)%nat (pre ++ l) (level l) (drop (2 ^ d) rest)) as IH'. cbn [tree_root].
  rewrite length_app, Hl, <- app_assoc in IH'. rewrite <- IH'; [f_equal; lia|lia|by apply level_length|rewrite length_drop; lia].
Qed.

Lemma level_pairs xs : ∀ k, Nat.Even (length xs + k) →
  ∃ k', level (map Some xs ++ replicate k None) = map (λ x, Some (Hash x)) (pairs xs) ++ replicate k' None ∧
    (length xs + k = 2 * (length (pairs xs) + k'))%nat.
Proof.
  induction xs as [xs IH] using (induction_ltof1 _ length). unfold ltof in IH. intros k He.
  destruct xs as [|x [|y xs]].
  - cbn in *. clear IH. destruct He as [m Hm]. exists m. split; [|lia]. subst k. induction m as [|m IHm]; [done|].
    replace (2 * S m)%nat with (S (S (2 * m))) by lia. cbn [replicate level parent_hash]. by rewrite IHm.
  - destruct k as [|k]; [destruct He as [m Hm]; cbn in Hm; lia|]. cbn in He.
    destruct (IH [] ltac:(cbn; lia) k) as (k' & E & Hk').
    { destruct He as [m Hm]. exists (m - 1)%nat. cbn. lia. }
    exists k'. cbn in E, Hk' |- *. rewrite E. split; [done|lia].
  - destruct (IH xs ltac:(cbn; lia) k) as (k' & E & Hk').
    { destruct He as [m Hm]. exists (m - 1)%nat. cbn in Hm. lia. }
    exists k'. cbn [map app level pairs parent_hash]. rewrite E. cbn [length]. split; [done|lia].
Qed.
Lemma tree_root_spec d : ∀ items k, items ≠ [] → (length items + k = 2 ^ d)%nat →
  tree_root d (map (λ i, Some (Hash i)) items ++ replicate k None) = merkle_root d items.
Proof.
  induction d as [|d IH]; intros items k Hne Hl; [by destruct items|]. cbn [tree_root merkle_root].
  replace (map (λ i, Some (Hash i)) items) with (map Some (map Hash items)) by (by rewrite map_map).
  destruct (level_pairs (map Hash items) k) as (k' & E & Hk').
  { rewrite length_map, Hl. exists (2 ^ d)%nat. done. }
  rewrite E. apply IH; [by destruct items as [|? [|]]|]. rewrite length_map in Hk'. cbn [Nat.pow] in Hl. lia.
Qed.
Lemma depth_of_spec n : (0 < n)%nat → Z.of_nat n < 2 ^ 32 →
  Z.to_nat (nextPowerOfTwo (Z.of_nat n)) = (2 ^ depth_of n)%nat ∧ (n <= 2 ^ depth_of n)%nat.
Proof.
  intros Hp Hn. pose proof (Z.log2_up_nonneg (Z.of_nat n)) as Hl. unfold depth_of. rewrite nextPowerOfTwo_spec by lia.
  assert (E : Z.to_nat (2 ^ Z.log2_up (Z.of_nat n)) = (2 ^ Z.to_nat (Z.log2_up (Z.of_nat n)))%nat).
  { apply Nat2Z.inj. rewrite Nat2Z.inj_pow, !Z2Nat.id by (apply Z.pow_nonneg || done; lia). done. }
  split; [done|]. rewrite <- E. destruct (Nat.eq_dec n 1) as [->|]; [done|].
  pose proof (Z.log2_up_spec (Z.of_nat n) ltac:(lia)). lia.
Qed.

Lemma MerkleTree_merkle_root items :
  items ≠ [] → Z.of_nat (length items) < 2 ^ 32 →
  fst (MerkleTree items) = merkle_root (depth_of (length items)) items.
Proof.
  intros Hne Hlen. assert (Hpos : (0 < length items)%nat) by (destruct items; cbn; [done|lia]).
  destruct (depth_of_spec _ Hpos Hlen) as [Hoff Hle]. set (d := depth_of (length items)) in *.
  assert (E : MerkleTree items =
    (let store := map (λ i, Some (Hash i)) items ++ replicate (2 ^ d * 2 - 1 - length items) None in
     let store := hash_pairs ((2 ^ d * 2 - 1 - 1) / 2) 0 (2 ^ d) store in
     (default None (store !! (2 ^ d * 2 - 1 - 1)%nat), store))).
  { unfold MerkleTree. rewrite Hoff. by destruct items. }
  rewrite E. cbv beta iota zeta. cbn [fst]. clear E Hoff. assert (Hp : (2 ^ d <> 0)%nat) by (apply Nat.pow_nonzero; lia).
  replace (2 ^ d * 2 - 1 - length items)%nat with ((2 ^ d - length items) + (2 ^ d - 1))%nat by lia.
  rewrite replicate_add, app_assoc. set (leaves := map _ items ++ _).
  assert (Hl : length leaves = (2 ^ d)%nat) by (unfold leaves; rewrite length_app, length_map, length_replicate; lia).
  replace ((2 ^ d * 2 - 1 - 1) / 2)%nat with (2 ^ d - 1)%nat
    by (replace (2 ^ d * 2 - 1 - 1)%nat with ((2 ^ d - 1) * 2)%nat by lia; by rewrite Nat.div_mul).
  pose proof (hash_pairs_root d 0 [] leaves (replicate (2 ^ d - 1) None) eq_refl Hl) as Hr. cbn [length app Nat.add] in Hr.
  replace (2 ^ d * 2 - 1 - 1)%nat with (2 * 2 ^ d - 2)%nat by lia. rewrite Hr by (rewrite length_replicate; lia). cbn [default].
  apply tree_root_spec; [done|lia].
Qed.
Lemma merkle_root_some d : ∀ items, items ≠ [] → is_Some (merkle_root d items).
Proof.
  induction d as [|d IH]; intros items Hne; [by destruct items; [|eexists]|]. apply IH. by destruct items as [|? [|]].
Qed.

(** ** Commitment *)

Lemma pairs_inj n l1 : ∀ l2, length l1 = length l2 → Forall (λ x, length x = n) l1 → Forall (λ x, length x = n) l2 →
  pairs l1 = pairs l2 → l1 = l2.
Proof.
  induction l1 as [l1 IH] using (induction_ltof1 _ length). unfold ltof in IH. intros l2 Hlen F1 F2 E.
  destruct l1 as [|x [|y l1]], l2 as [|x' [|y' l2]]; try done.
  - apply Forall_cons in F1 as [F1 _], F2 as [F2 _]. injection E as E. apply app_inj_1 in E as [-> _]; [done|congruence].
  - apply Forall_cons in F1 as [F1 [F1' F1'']%Forall_cons], F2 as [F2 [F2' F2'']%Forall_cons]. cbn in E. injection E as E El.
    apply app_inj_1 in E as [-> ->]; [|congruence]. do 2 f_equal. apply IH; cbn in *; [lia|lia|done..].
Qed.
Lemma map_Hash_inj items1 : ∀ items2, length items1 = length items2 →
  (∀ x y, x ∈ items1 → y ∈ items2 → Hash x = Hash y → x = y) → map Hash items1 = map Hash items2 → items1 = items2.
Proof.
  induction items1 as [|x items1 IH]; intros [|y items2] Hlen Hc E; try done. cbn in E. injection E as E1 E2.
  f_equal; [by apply Hc; [left|left|]|]. apply IH; [by injection Hlen|intros; apply Hc; by try right|done].
Qed.
Lemma pairs_length l1 : ∀ l2, length l1 = length l2 → length (pairs l1) = length (pairs l2).
Proof.
  induction l1 as [l1 IH] using (induction_ltof1 _ length). unfold ltof in IH. intros l2 Hlen.
  destruct l1 as [|x [|y l1]], l2 as [|x' [|y' l2]]; try done. cbn. f_equal. apply IH; cbn in *; lia.
Qed.
Lemma pairs_half d : ∀ l, (length l <= 2 * d)%nat → (length (pairs l) <= d)%nat.
Proof.
  induction d as [|d IH]; intros l Hl; [by destruct l; [|cbn in Hl; lia]|]. destruct l as [|x [|y l]]; cbn in *; [lia|lia|].
  specialize (IH l). lia.
Qed.
Context (hash_size : nat) (Hsize : ∀ x, length (Hash x) = hash_size).
Lemma merkle_root_inj d : ∀ items1 items2,
  length items1 = length items2 → (length items1 <= 2 ^ d)%nat →
  (∀ x y, x ∈ hashed d items1 → y ∈ hashed d items2 → Hash x = Hash y → x = y) →
  merkle_root d items1 = merkle_root d items2 → items1 = items2.
Proof.
  induction d as [|d IH]; intros items1 items2 Hlen Hle Hc E.
  - destruct items1 as [|x [|]], items2 as [|y [|]]; cbn in *; try done; try lia. injection E as E. f_equal. apply Hc; [by left..|done].
  - cbn in Hle. apply map_Hash_inj; [done|intros; apply Hc; [apply elem_of_app; by left..|done]|].
    assert (HF : ∀ l, Forall (λ x, length x = hash_size) (map Hash l)) by (intros l; apply Forall_map, Forall_forall; intros; apply Hsize).
    apply (pairs_inj hash_size); [by rewrite !length_map|apply HF..|]. apply IH; [apply pairs_length; by rewrite !length_map| | |done].
    + apply pairs_half. rewrite length_map. lia.
    + intros; apply Hc; [apply elem_of_app; by right..|done].
Qed.

(** The root is nil or a hash. *)
Lemma hash_pairs_slots n : ∀ k offset st,
  Forall (λ o, ∀ x, o = Some x → length x = hash_size) st →
  Forall (λ o, ∀ x, o = Some x → length x = hash_size) (hash_pairs n k offset st).
Proof.
  induction n as [|n IH]; intros k offset st HF; [done|]. cbn [hash_pairs]. apply IH. apply Forall_insert; [done|].
  intros x Hx. unfold parent_hash in Hx. repeat case_match; simplify_eq; apply Hsize.
Qed.
Lemma MerkleTree_root_size items root : fst (MerkleTree items) = Some root → root = [] ∨ length root = hash_size.
Proof.
  unfold MerkleTree. destruct items as [|i items]; [intros [= <-]; by left|]. cbn [fst].
  set (st := hash_pairs _ _ _ _). intros Hroot. right.
  assert (HF : Forall (λ o, ∀ x, o = Some x → length x = hash_size) st).
  { apply hash_pairs_slots, Forall_app. split.
    - apply Forall_map, Forall_forall. intros y _ x [= <-]. apply Hsize.
    - apply Forall_replicate. done. }
  destruct (st !! _) as [o|] eqn:Ho; [|done]. rewrite Forall_lookup in HF. by apply (HF _ _ Ho).
Qed.

(** C40. The Merkle root commits to the items of a list of known length: two lists
    of the same length with the same root are equal, unless two different
    strings hashed on the way collide.  It does not commit to the length: an odd
    list has the root of the list with its last item repeated. *)
Theorem MerkleTree_commits :
  (∀ items1 items2, length items1 = length items2 → Z.of_nat (length items1) < 2 ^ 32 →
     let d := depth_of (length items1) in
     (∀ x y, x ∈ hashed d items1 → y ∈ hashed d items2 → Hash x = Hash y → x = y) →
     fst (MerkleTree items1) = fst (MerkleTree items2) → items1 = items2) ∧
  (∀ items x, items ≠ [] → Nat.Even (length items) → Z.of_nat (length items) < 2 ^ 31 →
     fst (MerkleTree (items ++ [x])) = fst (MerkleTree (items ++ [x; x]))).
Proof.
  split.
  - intros items1 items2 Hlen Hb d Hc E. destruct items1 as [|i1 r1], items2 as [|i2 r2]; try done.
    rewrite !MerkleTree_merkle_root, <- Hlen in E by (done || congruence). apply (merkle_root_inj d); try done.
    apply depth_of_spec; [cbn; lia|done].
  - intros items x Hne [m Hm] Hb. rewrite !MerkleTree_merkle_root by (rewrite ?length_app; cbn; (lia || by destruct items)).
    assert (Hm0 : (0 < m)%nat) by (destruct items; cbn in Hm; [done|lia]).
    rewrite !length_app. cbn [length].
    assert (Hd : depth_of (length items + 2) = depth_of (length items + 1) ∧ (0 < depth_of (length items + 1))%nat).
    { unfold depth_of. rewrite Hm. pose proof (Z.log2_up_spec (Z.of_nat (2 * m + 1)) ltac:(lia)) as [H1 H2].
      pose proof (Z.log2_up_pos (Z.of_nat (2 * m + 1)) ltac:(lia)) as Hp.
      assert (H3 : Z.of_nat (2 * m + 1) ≠ 2 ^ Z.log2_up (Z.of_nat (2 * m + 1))).
      { intros E. rewrite <- (Z.succ_pred (Z.log2_up _)), Z.pow_succ_r in E by lia. lia. }
      split; [|lia]. f_equal. apply Z.log2_up_unique; [lia|]. lia. }
    destruct Hd as [-> Hd]. destruct (depth_of (length items + 1)) as [|d]; [lia|]. cbn [merkle_root]. f_equal.
    rewrite !map_app. cbn [map]. clear Hb Hne Hd Hm0. revert items Hm. induction m as [|m IH]; intros items Hm; [by destruct items|].
    destruct items as [|a [|b items]]; [done|cbn in Hm; lia|]. cbn. f_equal. apply IH. cbn in Hm. lia.
Qed.
End merkle.

(** ** Witnesses *)

(** A toy hash of two bytes: the length and the sum. *)
Definition sum_bytes (x : bytes) : Z := fold_right (λ b s, byte_to_Z b + s) 0 x.
Definition sum_crypto : Crypto :=
  {| NewPublicKeyFromBytes := @NewPublicKeyFromBytes toy_crypto;
     Hash := λ x, [byte_of_Z (Z.of_nat (length x) mod 256); byte_of_Z (sum_bytes x mod 256)] |}.
#[local] Existing Instance sum_crypto.
Lemma MerkleTree_commits_witness :
  let tree := @MerkleTree sum_crypto in
  (fst (tree [[x01]; [x02]; [x03]]) ≠ fst (tree [[x01]; [x02]; [x07]])) ∧
  fst (tree [[x01]; [x02]; [x03]]) = fst (tree [[x01]; [x02]; [x03]; [x03]]).
Proof.
  intros tree. destruct (@MerkleTree_commits sum_crypto 2 (λ x, eq_refl)) as [Hc Hp]. split.
  - intros E. apply Hc in E; [discriminate E|reflexivity|reflexivity|]. clear E.
    assert (Hd : Forall (λ x, Forall (λ y, @Hash sum_crypto x = @Hash sum_crypto y → x = y) (hashed 2 [[x01]; [x02]; [x07]]))
      (hashed 2 [[x01]; [x02]; [x03]])) by (apply (bool_decide_unpack _); vm_compute; exact I).
    intros x y Hx Hy. rewrite Forall_forall in Hd. specialize (Hd x Hx). rewrite Forall_forall in Hd. exact (Hd y Hy).
  - apply (Hp [[x01]; [x02]] [x03]); [discriminate|exists 1%nat; reflexivity|reflexivity].
Defined.
