(* ===== verification/Block.v ===== *)
(** * Blocks ([lib/block.go], [ApplyBlock] of [fsm/state.go], [lib/certificate.go],
    [controller/block.go])

    The block header and its hash, the application of a block, and the checks a
    replica makes of a proposed block.  The serialization of blocks and headers,
    the indexed blocks, the root of the state database and the delay function
    are parameters. *)
From Stdlib Require Import String.
From S2P Require Import Prelude LibUtil State Ledger Params Crypto Wire Merkle Account Validator Committee Byzantine.
From S2P Require Import Swap Quorum Certificate Dex Tx Fixtures Gov Hex Automatic Message Batch Ethereum ApplyTx.
From S2P Require Bft.
#[local] Open Scope Z_scope.

(** ** Headers and blocks *)

Record BlockHeader : Type := MkBlockHeader {
  bh_Height : Z; bh_Hash : bytes; bh_NetworkId : Z; bh_Time : Z; NumTxs : Z; TotalTxs : Z; TotalVdfIterations : Z;
  LastBlockHash : bytes; StateRoot : bytes; bh_TransactionRoot : bytes; ValidatorRoot : bytes; NextValidatorRoot : bytes;
  ProposerAddress : bytes; bh_Vdf : option Bft.VDF; LastQuorumCertificate : option QuorumCertificate;
}.
Definition set_bh_Hash (hash : bytes) (h : BlockHeader) : BlockHeader :=
  MkBlockHeader (bh_Height h) hash (bh_NetworkId h) (bh_Time h) (NumTxs h) (TotalTxs h) (TotalVdfIterations h)
    (LastBlockHash h) (StateRoot h) (bh_TransactionRoot h) (ValidatorRoot h) (NextValidatorRoot h) (ProposerAddress h)
    (bh_Vdf h) (LastQuorumCertificate h).
Record Block : Type := MkBlock { blk_Header : option BlockHeader; Transactions : list bytes }.

(** Serialization. *)
Class BlockCodec : Type := {
  MarshalHeader : BlockHeader → result ErrorI bytes;
  MarshalBlock : Block → result ErrorI bytes;
  UnmarshalBlock : bytes → result ErrorI Block;
  MarshalConsensusValidator : ConsensusValidator → result ErrorI bytes;
}.
(** What the state machine and the controller read of their store and network. *)
Class ChainData : Type := {
  (** the header of [GetBlockByHeight] *)
  GetBlockByHeight : Z → result ErrorI BlockHeader;
  (** [store.Root()] *)
  store_Root : Store → result ErrorI bytes;
  (** [crypto.VerifyVDF] *)
  VerifyVDF : bytes → Bft.VDF → bool;
  (** the controller's [LoadCommittee] of the root chain *)
  RootCommittee : Z → Z → result ErrorI ValidatorSet;
  (** the controller's [LoadRootChainId] *)
  RootChainAt : Z → Z;
}.

Section block_checks.
Context `{Crypto, Multisig, Codec, BlockCodec}.

Definition BlockHeader_Check (x : option BlockHeader) (networkID chainId : Z) : result ErrorI unit :=
  match x with
  | None => Err ErrNilBlockHeader
  | Some x =>
      check_not (negb (len (ProposerAddress x) =? AddressSize)) ErrInvalidBlockProposerAddress;;
      check_not (negb (len (bh_Hash x) =? HashSize)) ErrWrongLengthBlockHash;;
      check_not (negb (len (StateRoot x) =? HashSize)) ErrWrongLengthStateRoot;;
      check_not (negb (len (bh_TransactionRoot x) =? HashSize)) ErrWrongLengthTransactionRoot;;
      check_not (negb (len (ValidatorRoot x) =? HashSize)) ErrWrongLengthValidatorRoot;;
      check_not (negb (len (NextValidatorRoot x) =? HashSize)) ErrWrongLengthNextValidatorRoot;;
      check_not (negb (len (LastBlockHash x) =? HashSize)) ErrWrongLengthLastBlockHash;;
      (if 1 <? bh_Height x then
         match LastQuorumCertificate x with
         | None => Err ErrEmptyQuorumCertificate
         | Some qc =>
             QuorumCertificate_CheckBasic qc;;
             match Header qc with
             | None => Err ErrPanic
             | Some h =>
                 check_not (negb (NetworkId h =? networkID)) ErrWrongNetworkID;;
                 check_not (negb (view_ChainId h =? chainId)) ErrWrongChainId
             end
         end
       else Ok ());;
      check_not (negb (bh_NetworkId x =? networkID)) ErrWrongNetworkID;;
      check_not (bh_Time x =? 0) ErrNilBlockTime;;
      check_not (bh_NetworkId x =? 0) ErrNilNetworkID;;
      bz ← MarshalHeader (set_bh_Hash [] x);
      check_not (negb (bool_decide (bh_Hash x = Hash bz))) ErrMismatchHeaderBlockHash
  end.
Definition SetHash (x : BlockHeader) : result ErrorI BlockHeader :=
  bz ← MarshalHeader (set_bh_Hash [] x);
  Ok (set_bh_Hash (Hash bz) x).

(** [QuorumCertificate.CheckProposalBasic] *)
Definition CheckProposalBasic (x : QuorumCertificate) (h networkId chainId : Z) : result ErrorI Block :=
  check_not (bool_decide (qc_Block x = [])) ErrNilBlock;;
  block ← UnmarshalBlock (qc_Block x);
  BlockHeader_Check (blk_Header block) networkId chainId;;
  match Header x, blk_Header block with
  | Some view, Some header =>
      check_not (negb (view_Height view =? bh_Height header)) ErrMismatchCertBlockHeight;;
      check_not (bh_Height header <? h) ErrWrongBlockHeight;;
      check_not (h <? bh_Height header) ErrNewHeight;;
      header ← SetHash header;
      check_not (negb (bool_decide (BlockHash x = bh_Hash header))) ErrMismatchHeaderBlockHash;;
      check_not (match Results x with None => true | Some _ => false end) ErrNilCertResults;;
      Ok (MkBlock (Some header) (Transactions block))
  | _, _ => Err ErrPanic
  end.
(** A nil certificate, or one without a header, equals none; a nil [compare] is a panic. *)
Definition EqualPayloads (x : option QuorumCertificate) (compare : QuorumCertificate) : result ErrorI bool :=
  match x with
  | None => Ok false
  | Some x =>
      match Header x, Header compare with
      | None, _ => Ok false
      | Some h, Some h' =>
          Ok (bool_decide (ProposerKey x = ProposerKey compare) && (view_Height h =? view_Height h') &&
              bool_decide (BlockHash x = BlockHash compare) && bool_decide (ResultsHash x = ResultsHash compare))
      | Some _, None => if bool_decide (ProposerKey x = ProposerKey compare) then Err ErrPanic else Ok false
      end
  end.

(** [ConsensusValidators.Root]; nil is [[]]. *)
Definition ConsensusValidators_Root (x : list ConsensusValidator) : result ErrorI bytes :=
  match x with
  | [] => Ok []
  | _ =>
      valBytesList ← mapM MarshalConsensusValidator x;
      Ok (default [] (fst (MerkleTree valBytesList)))
  end.
(** [strings.Repeat("F", crypto.HashSize)] in the place of an empty hash. *)
Definition nonEmptyHash (h : bytes) : bytes := match h with [] => replicate 32 x46 | _ => h end.
Definition TransactionRoot (a : ApplyBlockResults) : bytes := default [] (fst (MerkleTree (ResultsBz a))).
End block_checks.

(** ** Applying a block *)

Section apply_block.
Context `{Crypto, Multisig, Codec, History, VoteConfig, TxCodec, AnyCodec, Node, SigScheme, MsgCodec, EthLib, TxIndexer, ResultCodec,
  BlockCodec, ChainData}.

Definition LoadBlock (h : Z) : F BlockHeader := lift (GetBlockByHeight (if h <=? 1 then 1 else h)).
(** [set, _ := s.LoadCommittee(...)]: an error leaves the empty set. *)
Definition committee_or_none (chainId h : Z) : F (list ConsensusValidator) :=
  r ← try (LoadCommittee chainId h);
  match r with Ok vs => mret (vs_Validators vs) | Err ErrPanic => throw ErrPanic | Err _ => mret [] end.

(** The header of the state reached, from the proposer's. *)
Definition new_header (bh : BlockHeader) (r : ApplyBlockResults) : F BlockHeader :=
  cfg ← gets config;
  h ← Height;
  lastValidatorSet ← committee_or_none (ChainId cfg) (u64_sub h 1);
  lastValidatorRoot ← lift (ConsensusValidators_Root lastValidatorSet);
  nextValidatorSet ← committee_or_none (ChainId cfg) h;
  nextValidatorRoot ← lift (ConsensusValidators_Root nextValidatorSet);
  st ← gets store;
  stateRoot ← lift (store_Root st);
  lastBlock ← LoadBlock (u64_sub h 1);
  let header := MkBlockHeader h [] NetworkID (bh_Time bh) (Count r) (u64_add (TotalTxs lastBlock) (Count r))
    (u64_add (TotalVdfIterations lastBlock) (match bh_Vdf bh with Some v => Bft.Iterations v | None => 0 end))
    (nonEmptyHash (bh_Hash lastBlock)) stateRoot (nonEmptyHash (TransactionRoot r)) (nonEmptyHash lastValidatorRoot)
    (nonEmptyHash nextValidatorRoot) (ProposerAddress bh) (bh_Vdf bh) (LastQuorumCertificate bh) in
  lift (SetHash header).
(** The block with its transactions reduced to the included ones, its new header and the results. *)
Definition ApplyBlock (ctx_Err : nat → bool) (b : Block) (allowOversize : bool) : F (Block * BlockHeader * ApplyBlockResults) :=
  evs ← BeginBlock;
  let r := AddEvent empty_results evs in
  r ← ApplyTransactions ctx_Err (Transactions b) r allowOversize;
  match blk_Header b with
  | None => throw ErrPanic
  | Some bh =>
      let b := MkBlock (Some bh) (Txs r) in
      evs ← EndBlock (ProposerAddress bh);
      let r := AddEvent r evs in
      header ← new_header bh r;
      mret (b, header, r)
  end.

(** ** Validating a proposed block ([controller/block.go]) *)

Definition LoadCertificateHashesOnly (h : Z) : F QuorumCertificate :=
  qc ← LoadCertificate (if h <=? 1 then 1 else h);
  mret (MkQuorumCertificate (Header qc) (Results qc) (ResultsHash qc) [] (BlockHash qc) (ProposerKey qc) (Certificate.Signature qc)).
(** [IndexQC]: what is read after the certificate is indexed; its block is that of the indexed blocks. *)
Definition IndexQC (qc : QuorumCertificate) (h : Z) : History :=
  {| NewReadOnly := NewReadOnly;
     GetQCByHeight := λ h',
       if h' =? h then
         old ← GetQCByHeight h';
         Ok (MkQuorumCertificate (Header qc) (Results qc) (ResultsHash qc) (qc_Block old) (BlockHash qc) (ProposerKey qc) (Certificate.Signature qc))
       else GetQCByHeight h' |}.

(** The last certificate of the candidate is for the payload this node committed,
    signed by a majority, and replaces the node's own in the index. *)
Definition CheckAndSetLastCertificate (syncing : bool) (candidate : BlockHeader) : F History :=
  if 1 <? bh_Height candidate then
    cfg ← gets config;
    lastCertificate ← LoadCertificateHashesOnly (u64_sub (bh_Height candidate) 1);
    same ← lift (EqualPayloads (LastQuorumCertificate candidate) lastCertificate);
    fail_if (negb same) ErrInvalidLastQuorumCertificate;;
    match LastQuorumCertificate candidate with
    | Some qc =>
        match Header qc with
        | Some header =>
            (if syncing then mret ()
             else
               let rHeight := RootHeight header in
               vs ← lift (RootCommittee (RootChainAt (view_Height header)) rHeight);
               isPartialQC ← lift (QuorumCertificate_Check qc vs 0
                 (MkView NetworkID (ChainId cfg) (u64_sub (bh_Height candidate) 1) rHeight 0 UNKNOWN) true);
               fail_if isPartialQC ErrNoMaj23);;
            mret (IndexQC qc (view_Height header))
        | None => throw ErrPanic
        end
    | None => throw ErrPanic
    end
  else mret {| NewReadOnly := NewReadOnly; GetQCByHeight := GetQCByHeight |}.

End apply_block.

Section validate_block.
Context `{Crypto, Multisig, Codec, History, VoteConfig, TxCodec, AnyCodec, Node, SigScheme, MsgCodec, EthLib, TxIndexer, ResultCodec,
  BlockCodec, ChainData}.

Definition apply_indexed (index : History) (block : Block) : F (Block * BlockHeader * ApplyBlockResults) :=
  @ApplyBlock _ _ _ index _ _ _ _ _ _ _ _ _ _ _ (λ _, false) block false.
(** The block is applied with the certificate it carries in the index.
    [sampled]: the one block in a hundred whose delay function is verified. *)
Definition ApplyAndValidateBlock (syncing commit sampled : bool) (block : Block) : F (BlockHeader * ApplyBlockResults) :=
  match blk_Header block with
  | None => throw ErrPanic
  | Some candidate =>
      fail_if (len (bh_Hash candidate) <? 10) ErrPanic;;
      index ← CheckAndSetLastCertificate syncing candidate;
      '(_, compare, results) ← apply_indexed index block;
      fail_if (negb (bool_decide (Failed results = []))) ErrFailedTransactions;;
      compare ← lift (SetHash compare);
      fail_if (negb (bool_decide (bh_Hash compare = bh_Hash candidate))) ErrUnequalBlockHash;;
      match bh_Vdf candidate with
      | Some vdf =>
          fail_if (commit && (1 <? bh_Height compare) && sampled && negb (VerifyVDF (LastBlockHash candidate) vdf)) ErrInvalidVDF
      | None => mret ()
      end;;
      mret (candidate, results)
  end.
End validate_block.

(** ** The hash a replica reads from the bytes of a block *)

(** Protobuf writes the fields of a message one after the other and leaves out an
    empty hash; a block is its header, field 1, and its transactions, field 2. *)
Class BlockFormat `{ProtoWireLaws, BlockCodec} : Type := {
  header_fields : BlockHeader → list field;
  header_fields_wf h : Z.of_nat (length (encode_fields (header_fields h))) < two64 → Forall wf_field (header_fields h);
  header_fields_hash h : filter (λ f, f_num f ≠ 2) (header_fields h) = header_fields (set_bh_Hash [] h);
  marshal_header h : MarshalHeader h = Ok (encode_fields (header_fields h));
  marshal_block h txs :
    MarshalBlock (MkBlock (Some h) txs) =
      Ok (encode_fields (bytes_field 1 (encode_fields (header_fields h)) :: map (bytes_field 2) txs));
}.

Section block_hash.
Context `{Crypto, Multisig, Codec, BlockCodec, !ProtoWireLaws, !BlockFormat}.

Lemma BytesToBlockHash_header h txs bz :
  MarshalBlock (MkBlock (Some h) txs) = Ok bz → Z.of_nat (length bz) < two64 / 2 →
  BytesToBlockHash bz = (header ← SetHash h; Ok (bh_Hash header)).
Proof.
  rewrite marshal_block. intros [= Hb] Hlen. set (hb := encode_fields (header_fields h)) in *.
  set (rest := encode_fields (map (bytes_field 2) txs)).
  assert (E : bz = AppendTag 1 BytesType ++ AppendVarint (Z.of_nat (length hb)) ++ hb ++ rest).
  { rewrite <- Hb, encode_fields_cons. unfold encode_field, bytes_field. cbn [f_num f_type f_value]. by rewrite <- !app_assoc. }
  assert (Hls : (length (AppendTag 1 BytesType) + (length (AppendVarint (Z.of_nat (length hb))) + (length hb + length rest)) = length bz)%nat)
    by (rewrite E, !length_app; done).
  assert (Hne : bz ≠ []) by (rewrite E; intros [Hn _]%app_eq_nil; by apply tag_nonempty in Hn).
  unfold BytesToBlockHash. rewrite bool_decide_eq_false_2 by done. cbn [check_not].
  assert (Hget : GetRawProtoField bz 1 = Ok hb).
  { unfold GetRawProtoField. rewrite E at 3. assert (u64 (Z.of_nat (length hb))) by (unfold u64; change (two64 / 2) with 9223372036854775808 in *; unfold two64; lia).
    rewrite find_bytes by (lia || done || (destruct bz; [done|cbn; lia])).
    change (two64 / 2) with 9223372036854775808 in *.
    rewrite (wrap_s64_small (Z.of_nat (length hb))), wrap_s64_small by lia. rewrite length_app. repeat rewrite (proj2 (Z.ltb_ge _ _)) by lia.
    cbn. by rewrite Nat2Z.id, take_app_length. }
  cbn. rewrite Hget. cbn. unfold hb. rewrite NullifyProtoField_spec by (apply header_fields_wf; fold hb; change (two64 / 2) with 9223372036854775808 in *; unfold two64; lia). cbn.
  unfold SetHash. rewrite header_fields_hash, marshal_header. done.
Qed.

(** The header field of a block that claims 2^63 bytes or more, behind any fields. *)
Definition hostile_block (pre : list field) (claimed : Z) (rest : bytes) : bytes :=
  encode_fields pre ++ AppendTag 1 BytesType ++ AppendVarint claimed ++ rest.
Lemma BytesToBlockHash_hostile pre claimed rest :
  Forall wf_field pre → Forall (λ f, f_num f ≠ 1) pre → two64 / 2 <= claimed < two64 →
  Z.of_nat (length (hostile_block pre claimed rest)) < two64 / 4 →
  BytesToBlockHash (hostile_block pre claimed rest) = Err ErrPanic.
Proof.
  change (two64 / 2) with 9223372036854775808. change (two64 / 4) with 4611686018427387904. intros Hwf Hne Hc Hlen.
  set (bz := hostile_block pre claimed rest) in *.
  assert (Htag := tag_nonempty 1 BytesType).
  assert (Hls : (length (encode_fields pre) + (length (AppendTag 1 BytesType) + (length (AppendVarint claimed) + length rest)) = length bz)%nat)
    by (unfold bz, hostile_block; rewrite !length_app; done).
  assert (Htl : (0 < length (AppendTag 1 BytesType))%nat) by (destruct (AppendTag 1 BytesType); [done|cbn; lia]).
  unfold BytesToBlockHash. rewrite bool_decide_eq_false_2 by (intros Hn; rewrite Hn in Hls; cbn in Hls; lia). cbn [check_not].
  assert (Hget : GetRawProtoField bz 1 = Err ErrPanic); [|by cbn; rewrite Hget].
  unfold GetRawProtoField. unfold bz at 3, hostile_block.
  destruct (find_field_skips 1 pre (length bz) (Z.of_nat (length bz)) 0 (AppendTag 1 BytesType ++ AppendVarint claimed ++ rest))
    as (fuel & Hf & ->); [done|done|lia|].
  rewrite find_bytes by (lia || done || (unfold u64; lia)).
  assert (Hw : wrap_s64 claimed = claimed - two64).
  { unfold wrap_s64. rewrite wrap64_small by (unfold u64; lia). change (two64 / 2) with 9223372036854775808.
    by destruct (Z.ltb_spec claimed 9223372036854775808); [lia|]. }
  rewrite Hw, wrap_s64_small by (unfold two64 in *; lia).
  rewrite (proj2 (Z.ltb_ge (Z.of_nat (length bz)) _)) by (unfold two64 in *; lia). cbn. by rewrite (proj2 (Z.ltb_lt _ _)) by lia.
Qed.
End block_hash.

(** ** Theorems *)

Section block_theorems.
Context `{Crypto, Multisig, Codec, History, VoteConfig, TxCodec, AnyCodec, Node, SigScheme, MsgCodec, EthLib, TxIndexer, ResultCodec,
  BlockCodec, ChainData, !ProtoWireLaws, !BlockFormat}.

(** What [ApplyBlock] returns, from the state it ends in. *)
Lemma ApplyBlock_Ok ctx b ov s b' hd r s' :
  ApplyBlock ctx b ov s = (Ok (b', hd, r), s') →
  ∃ bh lastBlock lvs nvs lr nr root,
    blk_Header b = Some bh ∧ b' = MkBlock (Some bh) (Txs r) ∧
    ConsensusValidators_Root lvs = Ok lr ∧ ConsensusValidators_Root nvs = Ok nr ∧ store_Root (store s') = Ok root ∧
    GetBlockByHeight (if u64_sub (height s') 1 <=? 1 then 1 else u64_sub (height s') 1) = Ok lastBlock ∧
    SetHash (MkBlockHeader (height s') [] NetworkID (bh_Time bh) (Count r) (u64_add (TotalTxs lastBlock) (Count r))
      (u64_add (TotalVdfIterations lastBlock) (match bh_Vdf bh with Some v => Bft.Iterations v | None => 0 end))
      (nonEmptyHash (bh_Hash lastBlock)) root (nonEmptyHash (TransactionRoot r)) (nonEmptyHash lr)
      (nonEmptyHash nr) (ProposerAddress bh) (bh_Vdf bh) (LastQuorumCertificate bh)) = Ok hd.
Proof.
  unfold ApplyBlock. intros Hrun. apply bind_Ok in Hrun as (evs & s1 & _ & Hrun). apply bind_Ok in Hrun as (r0 & s2 & _ & Hrun).
  destruct (blk_Header b) as [bh|]; [|done]. apply bind_Ok in Hrun as (evs' & s3 & _ & Hrun). cbv zeta in Hrun.
  apply bind_Ok in Hrun as (hd' & s13 & Hnew & [= <- <- <- <-]). unfold new_header in Hnew. revert Hnew. intros Hrun.
  apply bind_Ok in Hrun as (cfg & s4 & [= <- <-] & Hrun). apply bind_Ok in Hrun as (h & s5 & [= <- <-] & Hrun).
  assert (Hc : ∀ c i x s s', committee_or_none c i s = (Ok x, s') → s' = s).
  { intros c i x t t' Hr. unfold committee_or_none in Hr. rewrite (bind_run_Ok _ _ _ _ _ (try_run _ _)) in Hr.
    assert (Hl : snd (LoadCommittee c i t) = t) by (unfold LoadCommittee, TimeMachine, lift; runs; repeat case_match; simplify_eq; done).
    rewrite Hl in Hr. repeat case_match; try done; by injection Hr as _ <-. }
  apply bind_Ok in Hrun as (lvs & s6 & ->%Hc & Hrun). apply bind_Ok in Hrun as (lr & s7 & [= Hlr <-] & Hrun).
  apply bind_Ok in Hrun as (nvs & s8 & ->%Hc & Hrun). apply bind_Ok in Hrun as (nr & s9 & [= Hnr <-] & Hrun).
  apply bind_Ok in Hrun as (st & s10 & [= <- <-] & Hrun). apply bind_Ok in Hrun as (root & s11 & [= Hroot <-] & Hrun).
  apply bind_Ok in Hrun as (lastBlock & s12 & [= Hlast <-] & Hrun). injection Hrun as Hset <-.
  exists bh, lastBlock, lvs, nvs, lr, nr, root. by split_and!.
Qed.

Lemma set_bh_Hash_twice x y h : set_bh_Hash x (set_bh_Hash y h) = set_bh_Hash x h.
Proof. done. Qed.
Lemma nonEmptyHash_length h : h = [] ∨ length h = 32%nat → length (nonEmptyHash h) = 32%nat.
Proof. intros [->|Hl]; [done|]. by destruct h. Qed.
Lemma ConsensusValidators_Root_size x root :
  (∀ y, length (Hash y) = 32%nat) → ConsensusValidators_Root x = Ok root → root = [] ∨ length root = 32%nat.
Proof.
  intros Hs. unfold ConsensusValidators_Root. destruct x as [|v x]; [intros [= <-]; by left|]. intros Hr.
  apply result_bind_Ok in Hr as (l & _ & [= <-]). destruct (fst (MerkleTree l)) as [root|] eqn:Hroot; [|by left].
  by apply (MerkleTree_root_size 32 Hs) in Hroot.
Qed.

(** What a proposer puts in its header, and the world it builds on. *)
Record proposable (c : Z) (h : Z) (bh : BlockHeader) : Prop := {
  pr_proposer : length (ProposerAddress bh) = 20%nat;
  pr_time : bh_Time bh ≠ 0;
  pr_network : NetworkID ≠ 0;
  pr_last : 1 < h → ∃ qc v, LastQuorumCertificate bh = Some qc ∧ QuorumCertificate_CheckBasic qc = Ok () ∧
    Header qc = Some v ∧ NetworkId v = NetworkID ∧ view_ChainId v = c;
}.
Record hash_sizes : Prop := {
  hz_hash x : length (Hash x) = 32%nat;
  hz_root st root : store_Root st = Ok root → length root = 32%nat;
  hz_block n hd : GetBlockByHeight n = Ok hd → bh_Hash hd = [] ∨ length (bh_Hash hd) = 32%nat;
}.

(** A header before its hash is set, made from the proposer's [bh] at height [h]. *)
Record made (h : Z) (bh hd : BlockHeader) : Prop := {
  mk_height : bh_Height hd = h; mk_network : bh_NetworkId hd = NetworkID; mk_time : bh_Time hd = bh_Time bh;
  mk_proposer : ProposerAddress hd = ProposerAddress bh; mk_last : LastQuorumCertificate hd = LastQuorumCertificate bh;
  mk_state : length (StateRoot hd) = 32%nat; mk_txs : length (bh_TransactionRoot hd) = 32%nat;
  mk_vals : length (ValidatorRoot hd) = 32%nat; mk_next : length (NextValidatorRoot hd) = 32%nat;
  mk_block : length (LastBlockHash hd) = 32%nat;
}.
Lemma ApplyBlock_made ctx b ov s b' hd r s' bh :
  hash_sizes → blk_Header b = Some bh → ApplyBlock ctx b ov s = (Ok (b', hd, r), s') →
  b' = MkBlock (Some bh) (Txs r) ∧
  ∃ hd0, SetHash hd0 = Ok hd ∧ made (height s') bh hd0 ∧ NumTxs hd0 = Count r.
Proof.
  intros [Hh Hroot Hblk] Hbh Hrun.
  destruct (ApplyBlock_Ok _ _ _ _ _ _ _ _ Hrun) as (bh' & last & lvs & nvs & lr & nr & root & Hbh' & -> & Hlr & Hnr & Hst & Hla & Hset).
  assert (bh' = bh) as -> by congruence. split; [done|]. eexists. split; [exact Hset|]. split; [|done].
  split; try done; cbn [StateRoot bh_TransactionRoot ValidatorRoot NextValidatorRoot LastBlockHash]; try apply nonEmptyHash_length.
  - by eapply Hroot.
  - unfold TransactionRoot. destruct (fst (MerkleTree (ResultsBz r))) as [tr|] eqn:Htr; [|by left].
    by apply (MerkleTree_root_size 32 Hh) in Htr.
  - by apply (ConsensusValidators_Root_size lvs).
  - by apply (ConsensusValidators_Root_size nvs).
  - by eapply Hblk.
Qed.
Lemma made_checks c h bh hd0 hd :
  hash_sizes → proposable c h bh → made h bh hd0 → SetHash hd0 = Ok hd →
  BlockHeader_Check (Some hd) NetworkID c = Ok () ∧ SetHash hd = Ok hd.
Proof.
  intros [Hh _ _] [P1 P2 P3 P4] [E1 E2 E3 E4 E5 L0 L1 L2 L3 L4]. unfold SetHash. rewrite marshal_header. intros [= <-].
  set (hh := Hash _). split; [|by rewrite set_bh_Hash_twice, marshal_header].
  unfold BlockHeader_Check, len. cbn [set_bh_Hash bh_Height bh_Hash bh_NetworkId bh_Time StateRoot bh_TransactionRoot ValidatorRoot
    NextValidatorRoot ProposerAddress LastQuorumCertificate LastBlockHash].
  rewrite E1, E2, E3, E4, E5, L0, L1, L2, L3, L4, P1, (Hh _ : length hh = _).
  change (Z.of_nat 20 =? AddressSize) with true. change (Z.of_nat 32 =? HashSize) with true. cbn [negb check_not].
  unfold mbind, result_bind. cbv beta iota. rewrite (proj2 (Z.eqb_neq _ _) P2), (proj2 (Z.eqb_neq _ _) P3), Z.eqb_refl.
  assert (Hend : check_not (negb true) ErrWrongNetworkID = Ok () → match MarshalHeader (set_bh_Hash [] (set_bh_Hash hh hd0)) with
      | Ok bz => check_not (negb (bool_decide (hh = Hash bz))) ErrMismatchHeaderBlockHash | Err e => Err e end = Ok ())
    by (intros _; rewrite set_bh_Hash_twice, marshal_header; by rewrite bool_decide_eq_true_2).
  destruct (Z.ltb_spec 1 h) as [Hlt|]; [|by apply Hend].
  destruct (P4 Hlt) as (q & w & -> & -> & -> & -> & ->). rewrite !Z.eqb_refl. by apply Hend.
Qed.

(** C38. What a proposer builds passes the stateless checks of every replica at its
    height: the header [ApplyBlock] returns, serialized with the included
    transactions and wrapped in a certificate for its hash, is decoded by
    [CheckProposalBasic] to exactly that block, and the hash the consensus module
    reads from the raw bytes is the hash in the header. *)
Theorem proposed_block_checks ctx b ov s b' hd r s' bh c bz qc v :
  hash_sizes → blk_Header b = Some bh → ApplyBlock ctx b ov s = (Ok (b', hd, r), s') → proposable c (height s') bh →
  MarshalBlock (MkBlock (Some hd) (Transactions b')) = Ok bz → UnmarshalBlock bz = Ok (MkBlock (Some hd) (Transactions b')) → Z.of_nat (length bz) < two64 / 2 →
  qc_Block qc = bz → BlockHash qc = bh_Hash hd → Header qc = Some v → view_Height v = height s' → Results qc ≠ None →
  CheckProposalBasic qc (height s') NetworkID c = Ok (MkBlock (Some hd) (Txs r)) ∧
  BytesToBlockHash bz = Ok (bh_Hash hd) ∧ bh_Height hd = height s' ∧ NumTxs hd = Count r.
Proof.
  intros Hz Hbh Hrun Hp Hm Hum Hlen Hb Hbhash Hv Hvh Hres.
  destruct (ApplyBlock_made _ _ _ _ _ _ _ _ _ Hz Hbh Hrun) as (-> & hd0 & Hset & Hmade & Hn). cbn [Transactions] in *.
  destruct (made_checks _ _ _ _ _ Hz Hp Hmade Hset) as [Hcheck Hself].
  pose proof (BytesToBlockHash_header _ _ _ Hm Hlen) as Hbytes. rewrite Hself in Hbytes.
  assert (F1 : bh_Height hd = height s' ∧ NumTxs hd = Count r).
  { unfold SetHash in Hset. rewrite marshal_header in Hset. injection Hset as <-. split; [apply Hmade|done]. }
  destruct F1 as [F1 F2]. split_and!; [|done..].
  unfold CheckProposalBasic. rewrite Hb. rewrite bool_decide_eq_false_2 by (intros ->; done).
  cbn [check_not]. rewrite Hum. unfold mbind, result_bind. cbn [blk_Header Transactions].
  rewrite Hcheck, Hv, Hvh, F1, Z.eqb_refl, Z.ltb_irrefl. cbn [negb check_not]. rewrite Hself, Hbhash, bool_decide_eq_true_2 by done.
  cbn. by destruct (Results qc).
Qed.

(** C39. A certificate whose block bytes announce a header of 2^63 bytes or more
    makes the stateless check of certificates panic, whatever else it holds: the
    length is converted to a signed integer before it is compared with what is
    left, and the buffer is allocated with the unsigned one.  No signature has
    been looked at by then. *)
Theorem hostile_block_panics pre claimed rest v rh bh pk sig :
  Forall wf_field pre → Forall (λ f, f_num f ≠ 1) pre → two64 / 2 <= claimed < two64 →
  Z.of_nat (length (hostile_block pre claimed rest)) < two64 / 4 →
  len bh = HashSize → len rh = HashSize →
  QuorumCertificate_CheckBasic (MkQuorumCertificate (Some v) None rh (hostile_block pre claimed rest) bh pk sig) = Err ErrPanic.
Proof.
  intros Hwf Hne Hc Hlen Hbh Hrh. unfold QuorumCertificate_CheckBasic. cbn [Header Results ResultsHash qc_Block BlockHash ProposerKey].
  assert (rh ≠ []) by (intros ->; done). rewrite (bool_decide_eq_false_2 (rh = [])) by done. rewrite Hbh, Hrh. cbn.
  rewrite bool_decide_eq_false_2; [by rewrite BytesToBlockHash_hostile|].
  intros Hn. pose proof (tag_nonempty 1 BytesType). unfold hostile_block in Hn. apply app_eq_nil in Hn as [_ [Hn _]%app_eq_nil]. done.
Qed.
End block_theorems.

(** ** Witnesses *)

(** A toy format: the time, the height and the hash of a header. *)
Definition block_crypto : Crypto :=
  {| NewPublicKeyFromBytes := @NewPublicKeyFromBytes toy_crypto; Hash := λ x, take 32 (x ++ replicate 32 x00) |}.
#[local] Existing Instances block_crypto toy_multisig toy_codec toy_history toy_votes toy_txs toy_any toy_node toy_sigs
  toy_msgs toy_eth toy_index toy_results toy_wire toy_wire_laws.
Definition toy_header_fields (h : BlockHeader) : list field :=
  [bytes_field 4 [byte_of_Z (bh_Time h)]; bytes_field 1 [byte_of_Z (bh_Height h)]] ++
  (match bh_Hash h with [] => [] | hash => [bytes_field 2 hash] end).
Definition toy_marshal_block (b : Block) : bytes :=
  match blk_Header b with
  | Some h => encode_fields (bytes_field 1 (encode_fields (toy_header_fields h)) :: map (bytes_field 2) (Transactions b))
  | None => encode_fields (map (bytes_field 2) (Transactions b))
  end.
Definition demo_bh : BlockHeader :=
  MkBlockHeader 0 [] 0 9 0 0 0 [] [] [] [] [] carol None None.
Definition toy_blocks (b : Block) : BlockCodec :=
  {| MarshalHeader := λ h, Ok (encode_fields (toy_header_fields h)); MarshalBlock := λ b, Ok (toy_marshal_block b);
     UnmarshalBlock := λ _, Ok b; MarshalConsensusValidator := λ v, Ok (cv_PublicKey v) |}.
Definition toy_chain : ChainData :=
  {| GetBlockByHeight := λ _, Ok demo_bh; store_Root := λ _, Ok (replicate 32 x01); VerifyVDF := λ _ _, true;
     RootCommittee := λ _ _, Err ErrNoValidators; RootChainAt := λ _, 1 |}.
#[local] Existing Instance toy_chain.
Definition toy_format (b : Block) : @BlockFormat _ toy_wire_laws (toy_blocks b).
Proof.
  refine (@Build_BlockFormat _ toy_wire_laws (toy_blocks b) toy_header_fields _ _ _ _).
  - intros h Hlen. unfold toy_header_fields in *. constructor; [apply wf_bytes_field; done|].
    constructor; [apply wf_bytes_field; done|]. destruct (bh_Hash h) as [|x hash] eqn:Hh; [constructor|].
    constructor; [|constructor]. apply wf_bytes_field; [done|]. cbn [app] in Hlen. rewrite !encode_fields_cons, !length_app in Hlen.
    unfold encode_field at 3, bytes_field in Hlen. cbn [f_num f_type f_value] in Hlen. rewrite !length_app in Hlen. lia.
  - intros h. unfold toy_header_fields. by destruct (bh_Hash h).
  - done.
  - done.
Defined.
#[local] Instance toy_header_codec : BlockCodec := toy_blocks (MkBlock None []).
Definition demo_built : result ErrorI (Block * BlockHeader * ApplyBlockResults) * FSM :=
  ApplyBlock (λ _, false) (MkBlock (Some demo_bh) demo_block) false (set_height 1 (demo_chain 100)).
Definition demo_proposal : Block :=
  match fst demo_built with Ok (b, hd, _) => MkBlock (Some hd) (Transactions b) | Err _ => MkBlock None [] end.
Lemma proposed_block_checks_witness :
  ∃ b' hd r, fst demo_built = Ok (b', hd, r) ∧ Txs r = [[x05; x01; x01]; [x06; x04; x04]] ∧
    BytesToBlockHash (toy_marshal_block demo_proposal) = Ok (bh_Hash hd).
Proof.
  destruct demo_built as [[[[b' hd] r]|e] s'] eqn:Hb.
  2:{ assert (Hv : is_ok (fst demo_built) = true) by (vm_compute; reflexivity). rewrite Hb in Hv. discriminate Hv. }
  assert (Hv : match demo_built with
               | (Ok (b', hd, r), s') => Txs r = [[x05; x01; x01]; [x06; x04; x04]] ∧ height s' = 1 ∧
                   demo_proposal = MkBlock (Some hd) (Transactions b') ∧ length (toy_marshal_block demo_proposal) = 52%nat
               | _ => False end) by (vm_compute; split_and!; reflexivity).
  rewrite Hb in Hv. destruct Hv as (Htx & Hh & Hprop & Hl). exists b', hd, r. cbn [fst]. split_and!; [reflexivity|exact Htx|].
  destruct (@proposed_block_checks block_crypto toy_multisig toy_codec toy_history _ _ _ _ _ _ _ _ _ (toy_blocks demo_proposal) _ toy_wire_laws (toy_format demo_proposal)
    (λ _, false) (MkBlock (Some demo_bh) demo_block) false (set_height 1 (demo_chain 100)) b' hd r s' demo_bh 1 (toy_marshal_block demo_proposal)
    (MkQuorumCertificate (Some (MkView 1 1 1 1 0 PROPOSE)) (Some (MkCertificateResult None None None None false None None)) []
       (toy_marshal_block demo_proposal) (bh_Hash hd) [] None) (MkView 1 1 1 1 0 PROPOSE)) as (_ & Hbytes & _).
  - split; [intros x; change (length (take 32 (x ++ replicate 32 x00)) = 32%nat); rewrite length_take, length_app, length_replicate; clear; lia|by intros st root [= <-]|intros n h [= <-]; by left].
  - reflexivity.
  - exact Hb.
  - split; [reflexivity|done|done|]. rewrite Hh. intros Hlt. lia.
  - cbn [MarshalBlock toy_blocks]. by rewrite Hprop.
  - cbn [UnmarshalBlock toy_blocks]. by rewrite Hprop.
  - rewrite Hl. done.
  - reflexivity.
  - reflexivity.
  - reflexivity.
  - by rewrite Hh.
  - done.
  - exact Hbytes.
Defined.
(** Two bytes of a block and a claim of 2^63 bytes. *)
Lemma hostile_block_panics_witness :
  let claimed := 9223372036854775808 in
  ∃ bz, length bz = 13%nat ∧
    QuorumCertificate_CheckBasic (MkQuorumCertificate (Some (MkView 1 1 1 1 0 PROPOSE)) None (replicate 32 x01) bz (replicate 32 x02) [] None) =
      Err ErrPanic.
Proof.
  intros claimed. exists (hostile_block [] claimed [x0a; x01]). split; [vm_compute; reflexivity|].
  apply (hostile_block_panics [] claimed [x0a; x01]); [constructor|constructor|done|vm_compute; reflexivity|reflexivity|reflexivity].
Defined.
