(* ===== verification/Caches.v ===== *)
(** * The caches are not observable ([fsm/account.go], [fsm/gov.go], the reset of [fsm/state.go])

    The state machine reads accounts and parameters through caches.  A relation
    on states that differ in nothing but their caches, each agreeing with its
    store, is kept by everything a block runs: the operations return the same
    from either state and leave two such states.  The proof follows the structure
    of an operation down to its reads and writes; nothing a transaction runs
    changes the height or the configuration. *)
From Stdlib Require Import String.
From S2P Require Import Prelude LibUtil State Ledger Params Crypto Wire Merkle Account Validator Committee Byzantine Swap.
From S2P Require Import Quorum Certificate Dex Tx Fixtures Gov Hex Automatic Message Batch Ethereum ApplyTx Conserve Block.
#[local] Open Scope Z_scope.

(** ** What no operation changes *)

Definition fixed (s : FSM) : Z * Z * Config := (height s, fsm_ProtocolVersion s, config s).
Definition keeps {A} (m : F A) : Prop := ∀ s, fixed (snd (m s)) = fixed s.

Lemma keeps_bind {A B} (m : F A) (f : A → F B) : keeps m → (∀ a, keeps (f a)) → keeps (m ≫= f).
Proof. intros Hm Hf s. unfold mbind, M_bind. specialize (Hm s). destruct (m s) as [[a|e] s1]; cbn in *; [by rewrite Hf|done]. Qed.
Lemma keeps_ret {A} (a : A) : keeps (mret a).
Proof. done. Qed.
Lemma keeps_throw {A} e : keeps (throw e : F A).
Proof. done. Qed.
Lemma keeps_gets {A} (f : FSM → A) : keeps (gets f).
Proof. done. Qed.
Lemma keeps_modify f : (∀ s, fixed (f s) = fixed s) → keeps (modify f).
Proof. intros Hf s. apply Hf. Qed.
Lemma keeps_upd f : keeps (upd f).
Proof. done. Qed.
Lemma keeps_lift {A} (r : result ErrorI A) : keeps (lift r).
Proof. done. Qed.
Lemma keeps_try {A} (m : F A) : keeps m → keeps (try m).
Proof. intros Hm s. unfold try. specialize (Hm s). by destruct (m s). Qed.
Lemma keeps_swallow (m : F unit) : keeps m → keeps (swallow m).
Proof. intros Hm s. unfold swallow. by specialize (Hm s). Qed.
Lemma keeps_fail_if b e : keeps (fail_if b e).
Proof. by destruct b. Qed.
Lemma keeps_when b m : keeps m → keeps (when b m).
Proof. by destruct b. Qed.
Lemma keeps_for_each {A} (l : list A) f : (∀ x, keeps (f x)) → keeps (for_each l f).
Proof. intros Hf. induction l as [|x l IH]; [done|]. rewrite for_each_cons. by apply keeps_bind. Qed.
Lemma keeps_fold_m {A B} (f : B → A → F B) l : (∀ b x, keeps (f b x)) → ∀ b, keeps (fold_m f b l).
Proof. intros Hf. induction l as [|x l IH]; intros b; [done|]. cbn. apply keeps_bind; auto. Qed.

Lemma keeps_approved `{VoteConfig} st en h : keeps (approved st en h).
Proof.
  assert (Ha : keeps (ApproveProposal st en h)).
  { unfold ApproveProposal. apply keeps_bind; [done|]. intros x. apply keeps_bind; [apply keeps_fail_if|]. intros _.
    destruct proposeVoteConfig; [done| |done]. apply keeps_bind; [done|]. intros p. by repeat case_match. }
  intros s. unfold approved. specialize (Ha s). by destruct (ApproveProposal st en h s) as [[?|?] ?].
Qed.
Lemma keeps_TimeMachine `{History} h : keeps (TimeMachine h).
Proof. intros s. unfold TimeMachine. by repeat case_match. Qed.

Ltac head_of t := match t with ?f _ => head_of f | _ => t end.
(** Follow the structure of a run down to its elementary operations. *)
Ltac keeps1 :=
  cbv beta zeta;
  lazymatch goal with
  | |- keeps (mret _) => apply keeps_ret
  | |- keeps (throw _) => apply keeps_throw
  | |- keeps (gets _) => apply keeps_gets
  | |- keeps (upd _) => apply keeps_upd
  | |- keeps (lift _) => apply keeps_lift
  | |- keeps (fail_if _ _) => apply keeps_fail_if
  | |- keeps (mbind _ _) => apply keeps_bind; [|intros ?]
  | |- keeps (try _) => apply keeps_try
  | |- keeps (swallow _) => apply keeps_swallow
  | |- keeps (when _ _) => apply keeps_when
  | |- keeps (for_each _ _) => apply keeps_for_each; intros ?
  | |- keeps (fold_m _ _ _) => apply keeps_fold_m; intros ? ?
  | |- keeps (modify _) => apply keeps_modify; intros ?; reflexivity
  | |- keeps (match ?x with _ => _ end) => destruct x
  | |- keeps (approved _ _ _) => apply keeps_approved
  | |- keeps (TimeMachine _) => apply keeps_TimeMachine
  | |- keeps ?m => let h := head_of m in unfold h
  end.

Section fixed.
Context `{Crypto, Multisig, Codec, History, VoteConfig, AnyCodec, Node}.

Lemma HandleMessage_keeps msg : keeps (HandleMessage msg).
Proof. destruct msg; cbn [HandleMessage]; repeat keeps1. Qed.
Context `{TxCodec, SigScheme, MsgCodec, EthLib, TxIndexer, ResultCodec}.
Lemma execute_keeps r : keeps (execute r).
Proof.
  unfold execute. apply keeps_bind; [destruct (ctr_msg r); repeat keeps1|]. intros _.
  apply keeps_bind; [repeat keeps1|]. intros _. apply HandleMessage_keeps.
Qed.
Lemma CheckTx_keeps bz h bv : keeps (CheckTx bz h bv).
Proof. unfold CheckTx. apply keeps_bind; [|done]. apply keeps_try. unfold check_payload. repeat keeps1. Qed.
Lemma ApplyTransaction_keeps ix bz h bv : keeps (ApplyTransaction ix bz h bv).
Proof.
  unfold ApplyTransaction. apply keeps_bind; [apply CheckTx_keeps|]. intros c. apply keeps_bind; [done|]. intros r.
  apply keeps_bind; [apply execute_keeps|done].
Qed.
End fixed.

(** ** States that differ in their caches *)

(** A stored account is not empty, in range, and carries a schedule only with a
    vesting amount. *)
Definition bare (acc : Account) : Prop :=
  VestingAmount acc = 0 → VestingStartHeight acc = 0 ∧ VestingCliffHeight acc = 0 ∧ VestingEndHeight acc = 0.
Record regular (acc : Account) : Prop := { rg_amount : u64 (acc_Amount acc); rg_vesting : u64 (VestingAmount acc); rg_bare : bare acc }.
Definition stored (a : bytes) (st : Store) : Account := set_acc_Address a (default zero_account (accounts st !! a)).
(** The caches say what the store says. *)
Record coherent (s : FSM) : Prop := {
  co_accounts : ∀ a acc, accounts (store s) !! a = Some acc → acc_Amount acc ≠ 0 ∧ regular acc;
  co_cache : ∀ a acc, cache_accounts s !! a = Some acc → acc = stored a (store s);
  co_val : ∀ p, cache_valParams s = Some p → params_val (store s) = Some p;
  co_fee : ∀ p, cache_feeParams s = Some p → params_fee (store s) = Some p;
  co_has_val : params_val (store s) ≠ None;
  co_has_fee : params_fee (store s) ≠ None;
}.
(** The cached root batch of the exchange is no copy of the store: [d] tells
    whether two states agree on it. *)
Section relation.
Context (d : bool).
Definition dex_cache (s : FSM) : option DexBatch := if d then cache_rootDexBatch s else None.
Record eqv (s s' : FSM) : Prop := {
  eq_left : coherent s;
  eq_right : coherent s';
  eq_rest : reset_caches s = reset_caches s';
  eq_dex : dex_cache s = dex_cache s';
}.
(** Run from two such states an operation returns the same and leaves two such
    states; [b] tells whether it does so when it fails too. *)
Definition sim (b : bool) {A} (m : F A) : Prop := ∀ s s', eqv s s' →
  fst (m s) = fst (m s') ∧ (is_ok (fst (m s)) || b = true → eqv (snd (m s)) (snd (m s'))).

Lemma reset_inj s s' :
  reset_caches s = reset_caches s' →
  store s = store s' ∧ height s = height s' ∧ fsm_ProtocolVersion s = fsm_ProtocolVersion s' ∧
  slashTracker s = slashTracker s' ∧ events s = events s' ∧ config s = config s'.
Proof. destruct s, s'. unfold reset_caches. cbn. intros [=]. by split_and!. Qed.
Lemma reset_ext s s' :
  store s = store s' → height s = height s' → fsm_ProtocolVersion s = fsm_ProtocolVersion s' →
  slashTracker s = slashTracker s' → events s = events s' → config s = config s' → reset_caches s = reset_caches s'.
Proof. destruct s, s'. unfold reset_caches. cbn. by intros -> -> -> -> -> ->. Qed.
Lemma dex_cache_of s s' : cache_rootDexBatch s' = cache_rootDexBatch s → dex_cache s' = dex_cache s.
Proof. unfold dex_cache. by intros ->. Qed.
Lemma coherent_caches s s' :
  coherent s → store s' = store s → cache_accounts s' = cache_accounts s → cache_valParams s' = cache_valParams s →
  cache_feeParams s' = cache_feeParams s → coherent s'.
Proof. intros [C1 C2 C3 C4 C5 C6] E1 E2 E3 E4. split; rewrite ?E1, ?E2, ?E3, ?E4; done. Qed.

Lemma sim_weaken {A} b (m : F A) : sim true m → sim b m.
Proof. intros Hm s s' E. destruct (Hm s s' E) as [H1 H2]. split; [done|]. intros _. apply H2. by rewrite orb_true_r. Qed.
(** A bind whose continuation runs on the results of its first part only. *)
Lemma sim_bind_post b {A B} (m : F A) (f : A → F B) :
  sim b m → (∀ s a s', m s = (Ok a, s') → sim b (f a)) → sim b (m ≫= f).
Proof.
  intros Hm Hf s s' E. unfold mbind, M_bind. destruct (Hm s s' E) as [H1 H2]. destruct (m s) as [[a|e] s1] eqn:Hs, (m s') as [r2 s2];
    cbn in H1, H2; subst r2; cbn; [|done]. apply (Hf _ _ _ Hs). auto.
Qed.
Lemma sim_bind b {A B} (m : F A) (f : A → F B) : sim b m → (∀ a, sim b (f a)) → sim b (m ≫= f).
Proof. intros Hm Hf. apply sim_bind_post; auto. Qed.
Lemma sim_ret b {A} (a : A) : sim b (mret a).
Proof. by intros s s' E. Qed.
Lemma sim_throw b {A} e : sim b (throw e : F A).
Proof. by intros s s' E. Qed.
Lemma sim_lift b {A} (r : result ErrorI A) : sim b (lift r).
Proof. by intros s s' E. Qed.
Lemma sim_fail_if b c e : sim b (fail_if c e).
Proof. destruct c; [apply sim_throw|apply sim_ret]. Qed.
Lemma sim_when b c m : sim b m → sim b (when c m).
Proof. by destruct c; [|intros; apply sim_ret]. Qed.
Lemma sim_try b {A} (m : F A) : sim true m → sim b (try m).
Proof.
  intros Hm s s' E. destruct (Hm s s' E) as [H1 H2]. unfold try.
  destruct (m s) as [r s1], (m s') as [r2 s2]. cbn in *. subst r2. split; [done|]. intros _. apply H2. by rewrite orb_true_r.
Qed.
Lemma sim_swallow b (m : F unit) : sim true m → sim b (swallow m).
Proof. intros Hm s s' E. destruct (Hm s s' E) as [H1 H2]. split; [done|]. intros _. apply H2. by rewrite orb_true_r. Qed.
Lemma sim_for_each b {A} (l : list A) f : (∀ x, sim b (f x)) → sim b (for_each l f).
Proof. intros Hf. induction l as [|x l IH]; [apply sim_ret|]. rewrite for_each_cons. by apply sim_bind. Qed.
Lemma sim_fold_m b {A B} (f : B → A → F B) l : (∀ c x, sim b (f c x)) → ∀ c, sim b (fold_m f c l).
Proof. intros Hf. induction l as [|x l IH]; intros c; [apply sim_ret|]. cbn. apply sim_bind; auto. Qed.
(** A read that sees no cache. *)
Lemma sim_gets b {A} (f : FSM → A) : (∀ s, f (reset_caches s) = f s) → sim b (gets f).
Proof.
  intros Hf s s' E. split; [|done]. cbn. f_equal. rewrite <- (Hf s), <- (Hf s'). f_equal. apply E.
Qed.
Lemma sim_upd b f :
  (∀ st, accounts (f st) = accounts st ∧ params_val (f st) = params_val st ∧ params_fee (f st) = params_fee st) → sim b (upd f).
Proof.
  intros Hf s s' E. split; [done|]. intros _. destruct E as [L R E D]. cbn.
  assert (Hc : ∀ s, coherent s → coherent (set_store (f (store s)) s)).
  { intros x [C1 C2 C3 C4 C5 C6]. destruct (Hf (store x)) as (E1 & E2 & E3).
    split; cbn [set_store store cache_accounts cache_valParams cache_feeParams]; unfold stored; rewrite ?E1, ?E2, ?E3; done. }
  split; [auto..| |exact D]. apply reset_inj in E as (E1 & E2 & E3 & E4 & E5 & E6). apply reset_ext; cbn; congruence.
Qed.
(** A write outside the store and the caches. *)
Lemma sim_modify b f :
  (∀ s, store (f s) = store s ∧ cache_accounts (f s) = cache_accounts s ∧ cache_valParams (f s) = cache_valParams s ∧
    cache_feeParams (f s) = cache_feeParams s ∧ cache_rootDexBatch (f s) = cache_rootDexBatch s ∧
    reset_caches (f s) = reset_caches (f (reset_caches s))) → sim b (modify f).
Proof.
  intros Hf s s' [L R E D]. split; [done|]. intros _. cbn.
  destruct (Hf s) as (A1 & A2 & A3 & A4 & A6 & A5), (Hf s') as (B1 & B2 & B3 & B4 & B6 & B5).
  split; [by apply (coherent_caches s)|by apply (coherent_caches s')|by rewrite A5, B5, E|].
  by rewrite (dex_cache_of _ _ A6), (dex_cache_of _ _ B6).
Qed.
Lemma sim_set_dex b x : sim b (modify (set_cache_rootDexBatch x)).
Proof.
  intros s s' [L R E D]. split; [done|]. intros _. cbn. split; [by apply (coherent_caches s)|by apply (coherent_caches s')|exact E|].
  unfold dex_cache. cbn. by destruct d.
Qed.
Lemma sim_gets_dex b : d = true → sim b (gets cache_rootDexBatch).
Proof. intros Hd s s' [L R E D]. split; [|done]. cbn. unfold dex_cache in D. rewrite Hd in D. by rewrite D. Qed.

(** *** The operations that read and write the caches *)

Lemma lookup_stored a s : coherent s → lookup_account a s = stored a (store s).
Proof. intros C. unfold lookup_account. destruct (cache_accounts s !! a) as [acc|] eqn:Hc; [by apply co_cache in Hc|done]. Qed.
Lemma sim_GetAccount b a : sim b (GetAccount a).
Proof.
  intros s s' E. split; [|done]. cbn. rewrite !lookup_stored by apply E. destruct (reset_inj _ _ (eq_rest _ _ E)) as (-> & _). done.
Qed.
Lemma run_GetParamsVal s : coherent s → ∃ p, params_val (store s) = Some p ∧ GetParamsVal s = (Ok p, set_cache_valParams (Some p) s).
Proof.
  intros C. destruct (params_val (store s)) as [p|] eqn:Hp; [|by destruct (co_has_val _ C)]. exists p. split; [done|].
  unfold GetParamsVal, getParams. runs. destruct (cache_valParams s) as [q|] eqn:Hq.
  - pose proof (co_val _ C _ Hq). assert (q = p) as -> by congruence. f_equal. destruct s. cbn in *. by subst.
  - cbn [set_cache_valParams store]. rewrite Hp. done.
Qed.
Lemma run_GetParamsFee s : coherent s → ∃ p, params_fee (store s) = Some p ∧ GetParamsFee s = (Ok p, set_cache_feeParams (Some p) s).
Proof.
  intros C. destruct (params_fee (store s)) as [p|] eqn:Hp; [|by destruct (co_has_fee _ C)]. exists p. split; [done|].
  unfold GetParamsFee, getParams. runs. destruct (cache_feeParams s) as [q|] eqn:Hq.
  - pose proof (co_fee _ C _ Hq). assert (q = p) as -> by congruence. f_equal. destruct s. cbn in *. by subst.
  - cbn [set_cache_feeParams store]. rewrite Hp. done.
Qed.
Lemma sim_GetParamsVal b : sim b GetParamsVal.
Proof.
  intros s s' [L R E D]. destruct (reset_inj _ _ E) as (Est & _).
  destruct (run_GetParamsVal _ L) as (p & Hp & R1), (run_GetParamsVal _ R) as (p' & Hp' & R2).
  rewrite Est in Hp. assert (p' = p) as -> by congruence. rewrite R1, R2. split; [done|]. intros _. cbn.
  destruct L as [C1 C2 C3 C4 C5 C6], R as [D1 D2 D3 D4 D5 D6]. split; [split; try done; cbn; congruence..|exact E|exact D].
Qed.
Lemma sim_GetParamsFee b : sim b GetParamsFee.
Proof.
  intros s s' [L R E D]. destruct (reset_inj _ _ E) as (Est & _).
  destruct (run_GetParamsFee _ L) as (p & Hp & R1), (run_GetParamsFee _ R) as (p' & Hp' & R2).
  rewrite Est in Hp. assert (p' = p) as -> by congruence. rewrite R1, R2. split; [done|]. intros _. cbn.
  destruct L as [C1 C2 C3 C4 C5 C6], R as [D1 D2 D3 D4 D5 D6]. split; [split; try done; cbn; congruence..|exact E|exact D].
Qed.

(** *** Accounts *)

(** Every write of an account is a function of the height and of the account. *)
Definition update_account (a : bytes) (g : Z → Account → result ErrorI (option Account)) : F unit :=
  acc ← GetAccount a;
  h ← Height;
  r ← lift (g h acc);
  match r with Some acc' => SetAccount acc' | None => mret () end.

Lemma stored_regular a s : coherent s → regular (stored a (store s)) ∧ (acc_Amount (stored a (store s)) = 0 → stored a (store s) = set_acc_Address a zero_account).
Proof.
  intros C. unfold stored. destruct (accounts (store s) !! a) as [acc|] eqn:Ha; cbn [default id].
  - destruct (co_accounts _ C _ _ Ha) as [Hne [R1 R2 R3]]. split; [by split|]. done.
  - split; [|done]. split; [unfold u64; cbn; unfold two64; lia..|done].
Qed.
(** What may be written at height [h]. *)
Record writable (h : Z) (a : bytes) (acc : Account) : Prop := {
  wr_address : acc_Address acc = a;
  wr_regular : regular acc;
  wr_empty : acc_Amount acc = 0 → VestingAmount (clearAccountVestingIfFullyVested h acc) = 0;
}.
Lemma clear_regular h acc : regular acc →
  let acc' := clearAccountVestingIfFullyVested h acc in
  regular acc' ∧ acc_Address acc' = acc_Address acc ∧ acc_Amount acc' = acc_Amount acc.
Proof.
  intros [R1 R2 R3]. unfold clearAccountVestingIfFullyVested. repeat case_match; [by split|by split|].
  split; [|done]. split; [done| |done]. unfold u64; cbn; unfold two64; lia.
Qed.
Lemma SetAccount_coherent acc s : coherent s → writable (height s) (acc_Address acc) acc →
  fst (SetAccount acc s) = Ok () ∧ coherent (snd (SetAccount acc s)).
Proof.
  intros C [_ Hr He]. destruct (clear_regular (height s) acc Hr) as (Hr' & Ea & Eam).
  remember (clearAccountVestingIfFullyVested (height s) acc) as acc' eqn:Hacc'.
  assert (E : ∃ accs, SetAccount acc s = (Ok (), set_store (set_accounts accs (store s)) (set_cache_accounts (<[acc_Address acc' := acc']> (cache_accounts s)) s)) ∧
     (accs = if acc_Amount acc' =? 0 then delete (acc_Address acc') (accounts (store s)) else <[acc_Address acc' := acc']> (accounts (store s)))).
  { unfold SetAccount, Height. runs. rewrite <- Hacc'. destruct (acc_Amount acc' =? 0); eexists; (split; [|reflexivity]); reflexivity. }
  destruct E as (accs & -> & Haccs). split; [done|]. destruct C as [C1 C2 C3 C4 C5 C6]. cbn [snd].
  split; cbn [set_store store cache_accounts cache_valParams cache_feeParams set_cache_accounts set_accounts accounts params_val params_fee]; try done.
  - intros a x Hx. subst accs. destruct (Z.eqb_spec (acc_Amount acc') 0).
    + apply lookup_delete_Some in Hx as [_ Hx]. by eapply C1.
    + apply lookup_insert_Some in Hx as [[_ <-]|[_ Hx]]; [done|by eapply C1].
  - intros a x Hx. unfold stored. cbn [set_accounts accounts]. subst accs.
    apply lookup_insert_Some in Hx as [[<- <-]|[Hne Hx]].
    + destruct (Z.eqb_spec (acc_Amount acc') 0) as [Hz|Hz].
      * rewrite lookup_delete_eq. cbn [default id]. rewrite Eam in Hz. specialize (He Hz). clear Hacc'.
        destruct Hr' as [_ _ Hb]. destruct (Hb He) as (E1 & E2 & E3). rewrite <- Eam in Hz. clear Eam Ea. destruct acc'. cbn in *. by subst.
      * rewrite lookup_insert_eq. cbn [default id]. by destruct acc'.
    + specialize (C2 _ _ Hx). unfold stored in C2. rewrite C2. by destruct (acc_Amount acc' =? 0); [rewrite lookup_delete_ne|rewrite lookup_insert_ne].
Qed.
Lemma sim_update_account b a g :
  (∀ h acc acc', regular acc → acc_Address acc = a → (acc_Amount acc = 0 → acc = set_acc_Address a zero_account) →
     g h acc = Ok (Some acc') → writable h a acc') → sim b (update_account a g).
Proof.
  intros Hg s s' [L R E D]. pose proof (reset_inj _ _ E) as (Est & Eh & Epv & Esl & Eev & Ecf).
  destruct (stored_regular a _ L) as [Hreg Hz].
  assert (Hrun : ∀ x, coherent x → update_account a g x =
    match g (height x) (stored a (store x)) with
    | Err e => (Err e, x) | Ok None => (Ok (), x) | Ok (Some acc') => SetAccount acc' x end).
  { intros x C. unfold update_account, GetAccount, Height, lift. runs. rewrite lookup_stored by done.
    destruct (g _ _) as [[?|]|]; done. }
  rewrite (Hrun _ L), (Hrun _ R), <- Est, <- Eh. destruct (g (height s) (stored a (store s))) as [[acc'|]|e] eqn:Hgr; [|done..].
  assert (W : writable (height s) a acc') by (eapply Hg; [exact Hreg|done|exact Hz|exact Hgr]).
  assert (Wa : acc_Address acc' = a) by apply W. rewrite <- Wa in W.
  destruct (SetAccount_coherent acc' s L W) as [F1 G1]. destruct (SetAccount_coherent acc' s' R) as [F2 G2]; [by rewrite <- Eh|].
  split; [congruence|]. intros _. split; [done..| |].
  - unfold SetAccount, Height. runs. rewrite <- Eh. apply reset_ext; repeat case_match; cbn; congruence.
  - unfold SetAccount, Height. runs. rewrite <- Eh. by repeat case_match.
Qed.
Lemma sim_ext b {A} (m m' : F A) : (∀ s, m s = m' s) → sim b m' → sim b m.
Proof. intros He Hm s s' E. rewrite !He. by apply Hm. Qed.

Definition add_amount (x : Z) (_ : Z) (acc : Account) : result ErrorI (option Account) :=
  if x =? 0 then Ok None else
  if u64_sub u64_max x <? acc_Amount acc then Err ErrInvalidAmount
  else Ok (Some (set_acc_Amount (u64_add (acc_Amount acc) x) acc)).
Lemma sim_AccountAdd b a x : sim b (AccountAdd a x).
Proof.
  apply (sim_ext _ _ (update_account a (add_amount x))).
  { intros s. unfold AccountAdd, update_account, add_amount, GetAccount, Height, lift. runs.
    destruct (x =? 0); [done|]. by destruct (u64_sub u64_max x <? _). }
  apply sim_update_account. intros h acc acc' [R1 R2 R3] Ha Hz. unfold add_amount. destruct (Z.eqb_spec x 0); [done|].
  destruct (Z.ltb_spec (u64_sub u64_max x) (acc_Amount acc)) as [|Hle]; [done|]. intros [= <-]. split; cbn; [done| |].
  - split; [apply wrap64_u64|done|done].
  - intros H0. assert (Hx : acc_Amount acc = 0).
    { pose proof (Z.mod_pos_bound x two64 ltac:(done)) as Hb. unfold u64 in R1.
      assert (Ex : u64_sub u64_max x = u64_max - x mod two64).
      { unfold u64_sub, wrap64. rewrite <- Zminus_mod_idemp_r. apply Z.mod_small. unfold u64_max, two64 in *. lia. }
      rewrite Ex in Hle. unfold u64_add, wrap64 in H0. rewrite <- Zplus_mod_idemp_r, Z.mod_small in H0; unfold u64_max, two64 in *; lia. }
    rewrite (Hz Hx). done.
Qed.

Definition sub_amount (x : Z) (h : Z) (acc : Account) : result ErrorI (option Account) :=
  if x =? 0 then Ok None else
  if AccountSpendableAmount h acc <? x then Err ErrInsufficientFunds
  else Ok (Some (set_acc_Amount (u64_sub (acc_Amount acc) x) acc)).
Lemma spendable_amount h acc x : u64 (acc_Amount acc) → 0 < x <= AccountSpendableAmount h acc →
  x <= acc_Amount acc ∧ (x = acc_Amount acc → AccountLockedAmount h acc = 0).
Proof.
  intros Hu. unfold AccountSpendableAmount. destruct (Z.leb_spec (acc_Amount acc) (AccountLockedAmount h acc)); [lia|].
  assert (0 <= AccountLockedAmount h acc).
  { unfold AccountLockedAmount. repeat case_match; try lia. apply wrap64_u64. }
  unfold u64 in Hu. rewrite u64_sub_small by (unfold u64; lia). lia.
Qed.
Lemma sim_AccountSub b a x : 0 <= x → sim b (AccountSub a x).
Proof.
  intros Hx. apply (sim_ext _ _ (update_account a (sub_amount x))).
  { intros s. unfold AccountSub, update_account, sub_amount, GetAccount, Height, lift. runs.
    destruct (x =? 0); [done|]. by destruct (AccountSpendableAmount _ _ <? _). }
  apply sim_update_account. intros h acc acc' [R1 R2 R3] Ha Hz. unfold sub_amount. destruct (Z.eqb_spec x 0); [done|].
  destruct (Z.ltb_spec (AccountSpendableAmount h acc) x) as [|Hle]; [done|]. intros [= <-].
  destruct (spendable_amount h acc x R1 ltac:(lia)) as [Hle' Hl]. split; cbn; [done| |].
  - split; [apply wrap64_u64|done|done].
  - unfold u64 in R1. rewrite u64_sub_small by (unfold u64; lia). intros H0. specialize (Hl ltac:(lia)).
    unfold clearAccountVestingIfFullyVested. cbn [VestingAmount set_acc_Amount].
    assert (AccountLockedAmount h (set_acc_Amount (acc_Amount acc - x) acc) = AccountLockedAmount h acc) as -> by done.
    rewrite Hl. by destruct (Z.eqb_spec (VestingAmount acc) 0).
Qed.

Definition add_vesting (msg : MessageSend) (h : Z) (acc : Account) : result ErrorI (option Account) :=
  if (u64_sub u64_max (ms_Amount msg) <? acc_Amount acc) || (u64_sub u64_max (ms_Amount msg) <? VestingAmount acc) then Err ErrInvalidAmount else
  if negb (VestingAmount acc =? 0) && negb (AccountLockedAmount h acc =? 0)
    && (negb (VestingStartHeight acc =? ms_VestingStartHeight msg)
        || negb (VestingCliffHeight acc =? ms_VestingCliffHeight msg)
        || negb (VestingEndHeight acc =? ms_VestingEndHeight msg)) then Err ErrIncompatibleVesting else
  let acc := set_acc_Amount (u64_add (acc_Amount acc) (ms_Amount msg)) acc in
  if (VestingAmount acc =? 0) || (AccountLockedAmount h acc =? 0) then
    Ok (Some (MkAccount (acc_Address acc) (acc_Amount acc) (ms_Amount msg) (ms_VestingStartHeight msg)
      (ms_VestingCliffHeight msg) (ms_VestingEndHeight msg)))
  else
    Ok (Some (MkAccount (acc_Address acc) (acc_Amount acc) (u64_add (VestingAmount acc) (ms_Amount msg))
      (VestingStartHeight acc) (VestingCliffHeight acc) (VestingEndHeight acc))).
Lemma u64_add_pos a x : u64 a → 0 < x < two64 → a <= u64_sub u64_max x → 0 < u64_add a x < two64.
Proof.
  intros Ha Hx Hle. rewrite u64_sub_small in Hle by u64. rewrite u64_add_small by u64. u64.
Qed.
Lemma sim_AccountAddWithVesting b msg : 0 < ms_Amount msg < two64 → sim b (AccountAddWithVesting msg).
Proof.
  intros Hm. apply (sim_ext _ _ (update_account (ms_ToAddress msg) (add_vesting msg))).
  { intros s. unfold AccountAddWithVesting, ValidateAccountAddWithVesting, update_account, add_vesting, GetAccount, Height, lift. runs.
    destruct (_ || _); [done|]. destruct (_ && _); [done|]. by destruct (_ || _). }
  apply sim_update_account. intros h acc acc' [R1 R2 R3] Ha Hz. unfold add_vesting.
  destruct (_ || _) eqn:Hg; [done|]. apply orb_false_iff in Hg as [G1%Z.ltb_ge G2%Z.ltb_ge].
  pose proof (u64_add_pos _ _ R1 Hm G1) as P1. pose proof (u64_add_pos _ _ R2 Hm G2) as P2.
  destruct (_ && _); [done|]. cbv zeta. destruct (_ || _); intros [= <-]; cbn; (split; cbn; [done|split; cbn|lia]);
    unfold u64; try lia; unfold bare; cbn; lia.
Qed.

(** *** Parameters *)

Lemma sim_SetParamsVal b p : sim b (SetParamsVal p).
Proof.
  intros s s' [[L1 L2 L3 L4 L5 L6] [R1 R2 R3 R4 R5 R6] E D]. pose proof (reset_inj _ _ E) as (Est & Eh & Epv & Esl & Eev & Ecf).
  split; [done|]. intros _. split; [split; try done; cbn; congruence..| |exact D]. unfold SetParamsVal, upd, modify. runs.
  apply reset_ext; cbn; congruence.
Qed.
Lemma sim_SetParamsFee b p : sim b (SetParamsFee p).
Proof.
  intros s s' [[L1 L2 L3 L4 L5 L6] [R1 R2 R3 R4 R5 R6] E D]. pose proof (reset_inj _ _ E) as (Est & Eh & Epv & Esl & Eev & Ecf).
  split; [done|]. intros _. split; [split; try done; cbn; congruence..| |exact D]. unfold SetParamsFee, upd, modify. runs.
  apply reset_ext; cbn; congruence.
Qed.
(** A refused value stays in the cache, an accepted one is set: the two states
    agree only when the update succeeds. *)
Lemma sim_assign_val name value :
  sim false (assign GetParamsVal (λ _, mret ()) (λ p, modify (set_cache_valParams (Some p))) SetParamsVal name value).
Proof.
  intros s s' E. pose proof (reset_inj _ _ (eq_rest _ _ E)) as (Est & Eh & Epv & Esl & Eev & Ecf).
  destruct (run_GetParamsVal _ (eq_left _ _ E)) as (p & Hp & R1), (run_GetParamsVal _ (eq_right _ _ E)) as (p' & Hp' & R2).
  rewrite Est in Hp. assert (p' = p) as -> by congruence. unfold assign. rewrite (bind_run_Ok _ _ _ _ _ R1), (bind_run_Ok _ _ _ _ _ R2).
  unfold lift, modify. runs. destruct (apply_value name value p) as [[[]|e] sp']; [|done]. split; [done|]. intros _.
  destruct E as [[L1 L2 L3 L4 L5 L6] [F1 F2 F3 F4 F5 F6] E D].
  unfold SetParamsVal, upd, modify. runs. cbn [snd]. split; [split; try done; cbn; congruence..| |exact D]. apply reset_ext; cbn; congruence.
Qed.
Lemma sim_assign_fee name value :
  sim false (assign GetParamsFee (λ _, mret ()) (λ p, modify (set_cache_feeParams (Some p))) SetParamsFee name value).
Proof.
  intros s s' E. pose proof (reset_inj _ _ (eq_rest _ _ E)) as (Est & Eh & Epv & Esl & Eev & Ecf).
  destruct (run_GetParamsFee _ (eq_left _ _ E)) as (p & Hp & R1), (run_GetParamsFee _ (eq_right _ _ E)) as (p' & Hp' & R2).
  rewrite Est in Hp. assert (p' = p) as -> by congruence. unfold assign. rewrite (bind_run_Ok _ _ _ _ _ R1), (bind_run_Ok _ _ _ _ _ R2).
  unfold lift, modify. runs. destruct (apply_value name value p) as [[[]|e] sp']; [|done]. split; [done|]. intros _.
  destruct E as [[L1 L2 L3 L4 L5 L6] [F1 F2 F3 F4 F5 F6] E D].
  unfold SetParamsFee, upd, modify. runs. cbn [snd]. split; [split; try done; cbn; congruence..| |exact D]. apply reset_ext; cbn; congruence.
Qed.

(** *** Other reads of the state *)

Lemma sim_reset_events b : sim b reset_events.
Proof.
  intros s s' [L R E D]. pose proof (reset_inj _ _ E) as (Est & Eh & Epv & Esl & Eev & Ecf). cbn. split; [congruence|]. intros _.
  split; [by apply (coherent_caches s)|by apply (coherent_caches s')| |exact D]. apply reset_ext; cbn; congruence.
Qed.
Lemma sim_approved b `{VoteConfig} st en h : sim b (approved st en h).
Proof.
  intros s s' E. pose proof (reset_inj _ _ (eq_rest _ _ E)) as (_ & Eh & _).
  assert (Ha : ∀ s, snd (ApproveProposal st en h s) = s ∧ fst (ApproveProposal st en h s) = fst (ApproveProposal st en h (set_height (height s) demo))).
  { intros x. unfold ApproveProposal, Height, lift. runs. cbn [height set_height]. by repeat case_match; simplify_eq. }
  destruct (Ha s) as [A1 A2], (Ha s') as [B1 B2]. rewrite <- Eh, <- A2 in B2. unfold approved.
  destruct (ApproveProposal st en h s) as [r1 t1], (ApproveProposal st en h s') as [r2 t2]. cbn [fst snd] in *. subst t1 t2. assert (r1 = r2) as -> by congruence. by destruct r2.
Qed.
Lemma sim_TimeMachine b `{History} {A} h (f : FSM → result ErrorI A) :
  (∀ s s', eqv s s' → f s = f s') → sim b (x ← TimeMachine h; lift (f x)).
Proof.
  intros Hf s s' E. pose proof (reset_inj _ _ (eq_rest _ _ E)) as (_ & Eh & Epv & _ & _ & Ecf).
  unfold TimeMachine, lift, mbind, M_bind. rewrite <- Eh. destruct (_ =? 0).
  - cbn. split; [by apply Hf|done].
  - destruct (NewReadOnly _); [|done]. rewrite <- Epv, <- Ecf. done.
Qed.
Lemma fst_sim {A} (m : F A) s s' : sim true m → eqv s s' → fst (m s) = fst (m s').
Proof. intros Hm E. by apply Hm. Qed.

(** Follow the structure of an operation down to its reads and writes. *)
Ltac sim1 :=
  cbv beta zeta;
  lazymatch goal with
  | |- sim _ (mret _) => apply sim_ret
  | |- sim _ (throw _) => apply sim_throw
  | |- sim _ (lift _) => apply sim_lift
  | |- sim _ (fail_if _ _) => apply sim_fail_if
  | |- sim _ (upd _) => apply sim_upd; intros ?; split_and!; reflexivity
  | |- sim _ (modify (set_cache_rootDexBatch _)) => apply sim_set_dex
  | |- sim _ (gets cache_rootDexBatch) => by apply sim_gets_dex
  | |- sim _ (gets _) => apply sim_gets; intros ?; reflexivity
  | |- sim _ (modify _) => apply sim_modify; intros ?; split_and!; reflexivity
  | |- sim _ (mbind _ (TimeMachine _)) => apply sim_TimeMachine; intros
  | |- sim _ (mbind _ _) => apply sim_bind; [|intros ?]
  | |- sim _ (try _) => apply sim_try
  | |- sim _ (swallow _) => apply sim_swallow
  | |- sim _ (when _ _) => apply sim_when
  | |- sim _ (for_each _ _) => apply sim_for_each; intros ?
  | |- sim _ (fold_m _ _ _) => apply sim_fold_m; intros ? ?
  | |- sim _ (GetAccount _) => apply sim_GetAccount
  | |- sim _ (AccountAdd _ _) => apply sim_AccountAdd
  | |- sim _ (AccountSub _ _) => apply sim_AccountSub; try (apply wrap64_u64 || lia)
  | |- sim _ GetParamsVal => apply sim_GetParamsVal
  | |- sim _ GetParamsFee => apply sim_GetParamsFee
  | |- sim _ (SetParamsVal _) => apply sim_SetParamsVal
  | |- sim _ (SetParamsFee _) => apply sim_SetParamsFee
  | |- sim _ (assign GetParamsVal _ _ _ _ _) => apply sim_assign_val
  | |- sim _ (assign GetParamsFee _ _ _ _ _) => apply sim_assign_fee
  | |- sim _ reset_events => apply sim_reset_events
  | |- sim _ (approved _ _ _) => apply sim_approved
  | |- sim _ (match ?x with _ => _ end) => destruct x
  | |- sim _ ?m => let h := head_of m in unfold h
  end.

Section sims.
Context `{Crypto, Multisig, Codec, History, VoteConfig, AnyCodec, Node}.

Lemma sim_LoadCommittee b c h : sim b (LoadCommittee c h).
Proof.
  apply sim_TimeMachine. intros s s' E. by rewrite (fst_sim (GetCommitteeMembers c) s s') by (repeat sim1 || done).
Qed.

(** The amounts a message takes from an account. *)
Definition payable (msg : Message) : Prop :=
  match msg with
  | MSend x => 0 < ms_Amount x < two64
  | MStake x => 0 <= st_Amount x
  | MSubsidy x => 0 <= su_Amount x
  | MCreateOrder x => 0 <= co_AmountForSale x
  | MDexLimitOrder x => 0 <= dl_AmountForSale x
  | MDexLiquidityDeposit x => 0 <= dd_Amount x
  | _ => True
  end.
Lemma sim_HandleMessageSend x : 0 < ms_Amount x < two64 → sim false (HandleMessageSend x).
Proof.
  intros Hx. unfold HandleMessageSend. repeat (lazymatch goal with |- sim _ (AccountAddWithVesting _) => by apply sim_AccountAddWithVesting | |- _ => sim1 end).
Qed.
Lemma sim_HandleDexBatch b c r : sim b (HandleDexBatch c r false).
Proof.
  unfold HandleDexBatch. apply sim_bind; [apply sim_ret|]. intros root. cbn [negb andb].
  intros s s' E. rewrite !(bind_run_Ok (gets cache_rootDexBatch) _ _ _ _ eq_refl). revert s s' E. 
  change (sim b (liqPoolSize ← GetPoolBalance (liquidity_id root);
    match cr_DexBatch r with
    | None => mret ()
    | Some remoteBatch =>
        if liqPoolSize =? 0 then mret () else
        localBatch ← GetDexBatch root true false;
        when (LivenessFallback remoteBatch) (HandleLivenessFallback root localBatch remoteBatch);;
        remoteBatch' ← HandleRemoteDexBatch remoteBatch root;
        when false (modify (set_cache_rootDexBatch (Some remoteBatch')))
    end)).
  repeat sim1.
Qed.
Lemma sim_HandleMessageCertificateResults x : sim false (HandleMessageCertificateResults x).
Proof.
  repeat (lazymatch goal with |- sim _ (LoadCommittee _ _) => apply sim_LoadCommittee | |- sim _ (HandleDexBatch _ _ _) => apply sim_HandleDexBatch | |- _ => sim1 end).
Qed.
Lemma HandleMessage_sim msg : payable msg → sim false (HandleMessage msg).
Proof.
  intros Hp. destruct msg; cbn [HandleMessage payable] in *.
  { by apply sim_HandleMessageSend. }
  8: apply sim_HandleMessageCertificateResults.
  all: repeat sim1. case_match; [done|apply wrap64_u64].
Qed.
Lemma sim_CheckProtocolVersion b : sim b CheckProtocolVersion.
Proof.
  unfold CheckProtocolVersion. apply sim_bind; [repeat sim1|]. intros params. destruct (ParseProtocolVersion params); [|apply sim_throw].
  intros s s' E. pose proof (reset_inj _ _ (eq_rest _ _ E)) as (_ & Eh & Epv & _). unfold gets, id, mbind, M_bind.
  rewrite <- Eh, <- Epv. unfold fail_if. by destruct (_ && _).
Qed.
Lemma sim_LoadRootChainId b h : sim b (LoadRootChainId h).
Proof. apply sim_TimeMachine. intros s s' E. rewrite (fst_sim GetRootChainId s s'); [done|repeat sim1|done]. Qed.
Lemma sim_BeginBlock : d = true → sim false BeginBlock.
Proof.
  intros Hd. repeat (lazymatch goal with
  | |- sim _ CheckProtocolVersion => apply sim_CheckProtocolVersion
  | |- sim _ (LoadRootChainId _) => apply sim_LoadRootChainId
  | |- sim _ (LoadCommittee _ _) => apply sim_LoadCommittee
  | |- _ => sim1 end).
Qed.
Lemma sim_EndBlock b a : sim b (EndBlock a).
Proof. repeat sim1. Qed.
Context `{TxCodec, SigScheme, MsgCodec, EthLib, TxIndexer}.
Lemma sim_check_payload b bz h : sim b (check_payload bz h).
Proof. repeat sim1. Qed.
Lemma sim_CheckTx b bz h bv : sim b (CheckTx bz h bv).
Proof. unfold CheckTx. apply sim_bind; [apply sim_try, sim_check_payload|]. intros r. apply sim_ret. Qed.
Lemma sim_execute r : payable (ctr_msg r) → 0 <= tx_Fee (ctr_tx r) → sim false (execute r).
Proof.
  intros Hp Hf. unfold execute. apply sim_bind; [destruct (ctr_msg r); repeat sim1|]. intros _.
  apply sim_bind; [repeat sim1|]. intros _. by apply HandleMessage_sim.
Qed.

(** The decoders yield numbers in range. *)
Record decodes_numbers : Prop := {
  dn_fee bz tx : UnmarshalTx bz = Ok tx → 0 <= tx_Fee tx;
  dn_message any msg : FromAny any = Ok (AnyMessage msg) → typed msg;
}.
Lemma CheckMessage_payable any msg : decodes_numbers → CheckMessage any = Ok msg → payable msg.
Proof.
  intros [_ Hd]. unfold CheckMessage. destruct any as [any|]; [|done]. intros Hrun.
  apply result_bind_Ok in Hrun as (c & Ha & Hrun). destruct c as [m| |]; try done.
  apply result_bind_Ok in Hrun as (u & Hc & [= ->]). specialize (Hd _ _ Ha).
  destruct msg; cbn [payable typed Check] in *; unfold u64 in *; try done; try lia.
  unfold MessageSend_Check in Hc. do 3 apply result_bind_Ok in Hc as (? & _ & Hc).
  apply result_bind_Ok in Hc as (? & Ham & _). apply check_not_Ok in Ham. zify_bools. lia.
Qed.
Lemma populate_payable tx signer msg msg' : PopulateSpecialMessageFields tx signer msg = Ok msg' → payable msg → payable msg'.
Proof.
  destruct msg; cbn [PopulateSpecialMessageFields]; intros Hrun;
    try (apply result_bind_Ok in Hrun as (? & _ & Hrun)); injection Hrun as <-; done.
Qed.
Lemma ApplyTransaction_sim ix bz h bv : decodes_numbers → sim false (ApplyTransaction ix bz h bv).
Proof.
  intros Hd. unfold ApplyTransaction. apply sim_bind_post; [apply sim_CheckTx|]. intros s1 [chk bv'] s2 Hchk.
  apply sim_bind_post; [apply sim_lift|]. intros s3 r s4 [= Hr _]. cbn [fst] in Hr. subst chk.
  destruct (CheckTx_Ok _ _ _ _ _ _ _ Hchk) as (_ & msg & pk & m & sig & Hck & _ & Hpop & _).
  apply sim_bind.
  - apply sim_execute.
    + eapply populate_payable; [exact Hpop|]. by eapply CheckMessage_payable, ck_message.
    + eapply dn_fee; [done|apply Hck].
  - intros _. repeat sim1.
Qed.
Context `{ResultCodec, BlockCodec, ChainData}.
Lemma sim_new_header b bh r : sim b (new_header bh r).
Proof. repeat (lazymatch goal with |- sim _ (LoadCommittee _ _) => apply sim_LoadCommittee | |- _ => sim1 end). Qed.
End sims.
End relation.
