(* ===== verification/Replay.v ===== *)
(** * A replica replays what a proposer applied ([fsm/state.go], [controller/block.go])

    A proposer applies the transactions of its pool and keeps those that
    succeed; a replica applies the block of those that were kept, from the same
    state.  The failures in between, their rollbacks, the signatures verified in
    other batches and the caches filled in another order leave no trace: the
    replica reaches the same results, the same state and the same header. *)
From Stdlib Require Import String.
From S2P Require Import Prelude LibUtil State Ledger Params Crypto Wire Merkle Account Validator Committee Byzantine Swap.
From S2P Require Import Quorum Certificate Dex Tx Fixtures Gov Hex Automatic Message Batch Ethereum ApplyTx Conserve Caches Block.
From S2P Require Bft.
#[local] Open Scope Z_scope.

Section replay.
Context `{Crypto, Multisig, Codec, History, VoteConfig, TxCodec, AnyCodec, Node, SigScheme, MsgCodec, EthLib, TxIndexer, ResultCodec,
  !SigSchemeLaws}.

(** ** States that differ in their caches *)

#[local] Notation eqv := (Caches.eqv false).
#[local] Notation sim := (Caches.sim false).

Lemma eqv_refl s : coherent s → eqv s s.
Proof. by split. Qed.
Lemma eqv_sym s t : eqv s t → eqv t s.
Proof. intros [L R E D]. by split. Qed.
Lemma eqv_trans s t u : eqv s t → eqv t u → eqv s u.
Proof. intros [L R E D] [L' R' E' D']. split; [done..|congruence|done]. Qed.
Lemma eqv_cache s s' t : only_params_cache s s' → coherent s' → eqv s t → eqv s' t.
Proof. intros (v & f & ->) C [L R E D]. split; [done..| |done]. rewrite <- E. by destruct s. Qed.
(** What runs from a coherent state ends in one. *)
Lemma sim_coherent {A} (m : F A) s : sim true m → coherent s → coherent (snd (m s)).
Proof. intros Hm C. destruct (Hm s s (eqv_refl s C)) as [_ E]. apply E. by rewrite orb_true_r. Qed.

(** ** The first phase *)

(** A transaction passes the first phase at [s], but for the signature, which is
    verified at once or goes to the batch. *)
Record admissible (s : FSM) (bz : bytes) (tx : Transaction) (pk : PublicKey) (signBytes signature : bytes) : Prop := {
  ad_payload : ∃ msg signers, fst (check_payload bz EmptyString s) = Ok (tx, msg, signers) ∧ pk_Address pk ∈ signers ∧
    is_Some (match PopulateSpecialMessageFields tx (pk_Address pk) msg with Ok m => Some m | Err _ => None end);
  ad_signer : signer_of tx pk signBytes signature;
  ad_nonempty : signature ≠ [];
  ad_kind : if bool_decide (key_kind pk = ETHSECP256K1) && bool_decide (Memo tx = RLPIndicator)
            then VerifyRLPBytes tx = Ok () else key_kind pk ≠ OtherKey;
}.
Lemma Add_kind b pk m sig b' : noOp b = false → Add b pk m sig = Some b' → key_kind pk ≠ OtherKey.
Proof. unfold Add. intros ->. by destruct (key_kind pk). Qed.
Lemma Add_some b pk m sig : key_kind pk ≠ OtherKey → is_Some (Add b pk m sig).
Proof. unfold Add. destruct (noOp b); [done|]. by destruct (key_kind pk). Qed.

Lemma CheckTx_admissible bz b s res bv' s' :
  noOp b = false → CheckTx bz EmptyString (Some b) s = (Ok (Ok res, bv'), s') →
  ∃ tx pk signBytes signature, admissible s bz tx pk signBytes signature.
Proof.
  intros Hno. unfold CheckTx. rewrite (bind_run_Ok _ _ _ _ _ (try_run _ _)).
  destruct (fst (check_payload bz EmptyString s)) as [[[tx msg] signers]|e] eqn:Hp; [|done].
  destruct (CheckSignature tx signers (Some b)) as [snd verifier] eqn:Hs. intros [= Hres _ _].
  apply result_bind_Ok in Hres as (sender & -> & Hres). apply result_bind_Ok in Hres as (msg' & Hpop & _).
  unfold CheckSignature in Hs. destruct (tx_Signature tx) as [sig|] eqn:Hsig; [|done].
  case_bool_decide as Hne; [done|]. destruct (GetSignBytes tx) as [signBytes|] eqn:Hsb; [|done].
  destruct (NewPublicKeyFromBytes _) as [pk|] eqn:Hpk; [|done].
  destruct (check_bytes _ _ _ _ _) as [chk verifier'] eqn:Hcb. injection Hs as Hs <-.
  apply result_bind_Ok in Hs as ([] & -> & Hs). case_bool_decide as Hin; [|done]. injection Hs as <-.
  exists tx, pk, signBytes, (default [] (sig_Signature sig)). split; [|by split; [exists sig|]|done|].
  - exists msg, signers. rewrite Hp, Hpop. by split_and!.
  - unfold check_bytes in Hcb. destruct (_ && _); [by injection Hcb as ->|].
    destruct (Add b pk _ _) eqn:Ha; [|done]. by eapply Add_kind.
Qed.
(** The verifier a passing check leaves has the signature, or is the same. *)
Lemma admissible_CheckTx s t bz tx pk signBytes signature b :
  eqv s t → admissible s bz tx pk signBytes signature →
  ∃ res b' t', CheckTx bz EmptyString (Some b) t = (Ok (Ok res, Some b'), t') ∧ eqv s t' ∧
    (b' = b ∨ Add b pk signBytes signature = Some b' ∧ ¬ is_rlp tx pk).
Proof.
  intros E [(msg & signers & Hp & Hin & [msg' Hpop]) [(sig & Hsig & Hpk & ->) Hsb] Hne Hkind].
  assert (Hp' : fst (check_payload bz EmptyString t) = Ok (tx, msg, signers)) by (rewrite <- Hp; symmetry; apply (fst_sim false); [apply sim_check_payload|done]).
  assert (Et : eqv s (snd (check_payload bz EmptyString t))).
  { apply eqv_sym. eapply eqv_cache; [|apply sim_coherent; [apply sim_check_payload|by apply eqv_sym in E; apply E]|by apply eqv_sym].
    by apply (check_payload_cache bz EmptyString t _ _ (surjective_pairing _)). }
  unfold CheckTx. rewrite (bind_run_Ok _ _ _ _ _ (try_run _ _)), Hp'.
  unfold CheckSignature. rewrite Hsig, bool_decide_eq_false_2, Hsb, Hpk by done. unfold check_bytes.
  destruct (PopulateSpecialMessageFields tx (pk_Address pk) msg) as [m|] eqn:Hm; [|done].
  destruct (bool_decide (key_kind pk = ETHSECP256K1) && _) eqn:Hr.
  - rewrite Hkind. cbn. rewrite bool_decide_eq_true_2 by done. cbn. rewrite Hm. cbn. do 3 eexists. split; [done|]. split; [done|by left].
  - destruct (Add_some b pk signBytes (default [] (sig_Signature sig)) Hkind) as [b' Ha]. rewrite Ha. cbn.
    rewrite bool_decide_eq_true_2 by done. cbn. rewrite Hm. cbn. do 3 eexists. split; [done|]. split; [done|right].
    split; [done|]. intros [R1 R2]. by rewrite R1, R2, !bool_decide_eq_true_2 in Hr.
Qed.

(** The proposer: what its first phase did not fail is admissible. *)
Record sifted (s0 : FSM) (txs : list bytes) (n : nat) (p : Phase1) (s : FSM) : Prop := {
  sf_state : eqv s s0;
  sf_events : events s = events s0;
  sf_verifier : noOp (p1_verifier p) = false;
  sf_passed : ∀ i bz, (i < n)%nat → txs !! i = Some bz → failedCheckTxs p !! i = None →
    ∃ tx pk signBytes signature, admissible s0 bz tx pk signBytes signature;
}.
Lemma admissible_eqv s t bz tx pk m sig : eqv s t → admissible s bz tx pk m sig → admissible t bz tx pk m sig.
Proof.
  intros E [(msg & signers & Hp & Hin & Hm) A2 A3 A4]. split; [|done..]. exists msg, signers.
  rewrite <- (fst_sim false (check_payload bz EmptyString) s t) by (done || apply sim_check_payload). by split_and!.
Qed.
Lemma CheckTx_leaves bz b s r bv' s' :
  noOp b = false → CheckTx bz EmptyString (Some b) s = (Ok (r, bv'), s') →
  only_params_cache s s' ∧ (coherent s → coherent s') ∧ ∃ b', bv' = Some b' ∧ noOp b' = false.
Proof.
  intros Hno Hrun. split_and!.
  - unfold CheckTx in Hrun. rewrite (bind_run_Ok _ _ _ _ _ (try_run _ _)) in Hrun. injection Hrun as _ <-.
    by apply (check_payload_cache bz EmptyString s _ _ (surjective_pairing _)).
  - intros C. pose proof (sim_coherent _ s (sim_CheckTx false true bz EmptyString (Some b)) C) as Hc. by rewrite Hrun in Hc.
  - unfold CheckTx in Hrun. rewrite (bind_run_Ok _ _ _ _ _ (try_run _ _)) in Hrun.
    destruct (fst (check_payload bz EmptyString s)) as [[[tx msg] signers]|e]; [|injection Hrun as _ <- _; by exists b].
    destruct (CheckSignature tx signers (Some b)) as [snd verifier] eqn:Hs. injection Hrun as _ <- _.
    unfold CheckSignature, check_bytes in Hs. repeat case_match; simplify_eq; try by eexists.
    all: unfold Add in *; repeat case_match; simplify_eq; by eexists.
Qed.
Lemma check_one_sifts s0 txs i bz p s p' s' :
  sifted s0 txs i p s → txs !! i = Some bz → check_one i bz p s = (Ok p', s') → sifted s0 txs (S i) p' s'.
Proof.
  intros [Es Hev Hno Hpass] Hbz. unfold check_one.
  rewrite (bind_run_Ok _ _ _ (store s) s) by done. intros Hrun. apply bind_Ok in Hrun as ([checkErr bv'] & s1 & Hchk & Hrun).
  destruct (CheckTx_leaves _ _ _ _ _ _ Hno Hchk) as (Hc & Hco & b' & -> & Hno').
  unfold modify in Hrun. rewrite (bind_run_Ok _ _ _ () (set_store (store s) s1)) in Hrun by done.
  apply bind_Ok in Hrun as (? & ? & [_ ->]%fail_if_Ok & [= <- <-]).
  assert (set_store (store s) s1 = s1) as -> by (destruct Hc as (v & f & ->); by destruct s).
  assert (E1 : eqv s1 s0) by (eapply eqv_cache; [exact Hc|apply Hco, Es|exact Es]).
  split; cbn [p1_verifier failedCheckTxs]; [done|destruct Hc as (v & f & ->); exact Hev|done|].
  intros j bz' Hj Hjbz Hnone. destruct (decide (j = i)) as [->|Hne].
  - destruct checkErr as [res|e]; [|by rewrite lookup_insert_eq in Hnone]. assert (bz' = bz) as -> by congruence.
    destruct (CheckTx_admissible _ _ _ _ _ _ Hno Hchk) as (tx & pk & m & sig & Ha). exists tx, pk, m, sig. exact (admissible_eqv _ _ _ _ _ _ _ Es Ha).
  - apply (Hpass j); [lia|done|]. destruct checkErr; [done|]. by apply lookup_insert_None in Hnone as [? _].
Qed.
Lemma check_each_sifts s0 txs rest : ∀ i p s p' s',
  sifted s0 txs i p s → drop i txs = rest → check_each i rest p s = (Ok p', s') → sifted s0 txs (i + length rest) p' s'.
Proof.
  induction rest as [|bz rest IH]; intros i p s p' s' Hsf Hd Hrun; [injection Hrun as <- <-; by rewrite Nat.add_0_r|].
  cbn [check_each] in Hrun. apply bind_Ok in Hrun as (p1 & s1 & H1' & Hrun).
  assert (Hbz : txs !! i = Some bz) by (rewrite <- (Nat.add_0_r i), <- lookup_drop, Hd; done).
  cbn [length]. rewrite Nat.add_succ_r. eapply (IH (S i)); [by eapply check_one_sifts| |done].
  by rewrite <- Nat.add_1_r, <- drop_drop, Hd.
Qed.

(** A transaction that passes the whole first phase. *)
Definition passes (s : FSM) (bz : bytes) : Prop :=
  ∃ tx pk signBytes signature, admissible s bz tx pk signBytes signature ∧ (is_rlp tx pk ∨ VerifySig pk signBytes signature = true).
Lemma check_all_txs_passes txs s failed s' :
  cache_valid → coherent s → check_all_txs txs s = (Ok failed, s') →
  eqv s' s ∧ events s' = events s ∧ ∀ i bz, txs !! i = Some bz → failed !! i = None → passes s bz.
Proof.
  intros Hcv C Hrun. pose proof (check_all_txs_spec _ _ _ _ Hcv Hrun) as [_ Hsigned].
  unfold check_all_txs, lift in Hrun. apply bind_Ok in Hrun as (p & s1 & Hrun & [= Hmark <-]).
  assert (Hsf : sifted s txs 0 (MkPhase1 NewBatchVerifier ∅ []) s) by (split; [by apply eqv_refl|done|done|intros; lia]).
  destruct (check_each_sifts _ _ _ _ _ _ _ _ Hsf eq_refl Hrun) as [E Hev _ Hp]. split_and!; [done..|].
  intros i bz Hbz Hnone. destruct (mark_invalid_spec _ _ _ _ Hmark i Hnone) as [Hf _].
  destruct (Hp i bz) as (tx & pk & m & sig & Ha); [by apply lookup_lt_Some in Hbz|done|done|].
  exists tx, pk, m, sig. split; [done|].
  destruct (Hsigned i bz Hbz Hnone) as (tx' & msg & sender & pk' & Hck & m' & sig' & Hso & Hor).
  assert (tx' = tx) as ->.
  { destruct Ha as [(msg0 & signers & Hpl & Hin & _) _ _ _]. destruct (check_payload bz EmptyString s) as [[[[t g] sg]|e] u] eqn:Hcp; [|done].
    cbn in Hpl. injection Hpl as -> -> ->. apply check_payload_Ok in Hcp as [_ Hck0].
    pose proof (ck_decoded _ _ _ _ _ _ Hck). pose proof (ck_decoded _ _ _ _ _ _ (Hck0 (pk_Address pk) Hin)). congruence. }
  destruct (signer_of_unique _ _ _ _ _ _ _ (ad_signer _ _ _ _ _ _ Ha) Hso) as (-> & -> & ->).
  destruct Hor as [?|[? _]]; auto.
Qed.

(** The replica: a list that passes fails nowhere. *)
Definition all_valid (l : list (PublicKey * bytes * bytes)) : Prop := ∀ i, valid_at l i = true.
Lemma check_one_passes s0 s bz i p l :
  eqv s0 s → passes s0 bz → add_all NewBatchVerifier l = Some (p1_verifier p) → all_valid l →
  ∃ p' l' s', check_one i bz p s = (Ok p', s') ∧ eqv s0 s' ∧ events s' = events s ∧
    add_all NewBatchVerifier l' = Some (p1_verifier p') ∧ all_valid l' ∧ failedCheckTxs p' = failedCheckTxs p.
Proof.
  intros E (tx & pk & m & sig & Ha & Hor) Hl Hv.
  destruct (admissible_CheckTx _ _ _ _ _ _ _ (p1_verifier p) E Ha) as (res & b' & s1 & Hrun & E1 & Hb).
  assert (Hno : noOp (p1_verifier p) = false) by (by destruct (add_all_spec l NewBatchVerifier _ ltac:(done) Hl) as [(_ & _ & _ & _ & ?) _]).
  destruct (CheckTx_leaves _ _ _ _ _ _ Hno Hrun) as ((v & f & Hs1) & _ & _).
  unfold check_one. rewrite (bind_run_Ok _ _ _ (store s) s) by done. rewrite (bind_run_Ok _ _ _ _ _ Hrun).
  unfold modify. rewrite (bind_run_Ok _ _ _ () (set_store (store s) s1)) by done.
  assert (set_store (store s) s1 = s1) as -> by (rewrite Hs1; by destruct s). cbn [default].
  rewrite (bind_run_Ok _ _ _ () s1) by done.
  assert (Hl' : ∃ l', add_all NewBatchVerifier l' = Some b' ∧ all_valid l').
  { destruct Hb as [->|[Hadd Hnr]]; [by exists l|]. exists (l ++ [(pk, m, sig)]). split.
    - rewrite add_all_app, Hl. cbn. by rewrite Hadd.
    - intros j. rewrite valid_at_app. case_decide; [by destruct Hor|apply Hv]. }
  destruct Hl' as (l' & Hl1 & Hl2). eexists. exists l', s1. split; [done|]. cbn [p1_verifier failedCheckTxs].
  split_and!; try done. by rewrite Hs1.
Qed.

Lemma check_each_passes s0 txs : ∀ i s p l,
  eqv s0 s → Forall (passes s0) txs → add_all NewBatchVerifier l = Some (p1_verifier p) → all_valid l →
  ∃ p' l' s', check_each i txs p s = (Ok p', s') ∧ eqv s0 s' ∧ events s' = events s ∧
    add_all NewBatchVerifier l' = Some (p1_verifier p') ∧ all_valid l' ∧ failedCheckTxs p' = failedCheckTxs p.
Proof.
  induction txs as [|bz txs IH]; intros i s p l E Hp Hl Hv; [by exists p, l, s|]. apply Forall_cons in Hp as [Hbz Hp].
  destruct (check_one_passes s0 s bz i p l E Hbz Hl Hv) as (p1 & l1 & s1 & Hrun & E1 & Ev1 & Hl1 & Hv1 & Hf1).
  destruct (IH (S i) s1 p1 l1 E1 Hp Hl1 Hv1) as (p2 & l2 & s2 & Hrun2 & E2 & Ev2 & Hl2 & Hv2 & Hf2).
  exists p2, l2, s2. cbn [check_each]. rewrite (bind_run_Ok _ _ _ _ _ Hrun), Hrun2. split_and!; try done; congruence.
Qed.
Lemma check_all_txs_replays s0 txs s :
  cache_valid → eqv s0 s → Forall (passes s0) txs →
  ∃ s', check_all_txs txs s = (Ok ∅, s') ∧ eqv s0 s' ∧ events s' = events s.
Proof.
  intros Hcv E Hp. destruct (check_each_passes s0 txs 0 s (MkPhase1 NewBatchVerifier ∅ []) [] E Hp eq_refl) as
    (p & l & s' & Hrun & E' & Ev & Hl & Hv & Hf); [by intros i|].
  exists s'. unfold check_all_txs. rewrite (bind_run_Ok _ _ _ _ _ Hrun). cbn [failedCheckTxs] in Hf.
  assert (Verify (p1_verifier p) = []) as ->; [|cbn; by rewrite Hf].
  rewrite (Verify_filter l) by (done || (apply Forall_forall; intros t _; apply Hcv)).
  destruct (filter _ _) as [|i r] eqn:Hfl; [done|]. assert (Hi : i ∈ i :: r) by left. rewrite <- Hfl in Hi.
  apply list_elem_of_filter in Hi as [Hi _]. by rewrite Hv in Hi.
Qed.

(** ** The second phase *)

(** The results agree on what the block includes; the replica's have nothing else. *)
Record same_block (r r' : ApplyBlockResults) : Prop := {
  sb_Txs : Txs r' = Txs r; sb_Results : abr_Results r' = abr_Results r; sb_ResultsBz : ResultsBz r' = ResultsBz r;
  sb_Events : abr_Events r' = abr_Events r; sb_Count : Count r' = Count r; sb_BlockSize : abr_BlockSize r' = abr_BlockSize r;
  sb_LargestTx : LargestTx r' = LargestTx r; sb_Oversized : Oversized r' = []; sb_Failed : Failed r' = [];
}.
(** The proposer's loop at [s] against the replica's at [t]; while oversize
    transactions are tried, none has succeeded and the store is the block's. *)
Record in_step (l l' : Loop) (s t : FSM) : Prop := {
  is_state : eqv s t;
  is_events : events s = [];
  is_store : ∀ st, lp_original l = Some st → st = store s;
  is_results : same_block (lp_results l) (lp_results l');
  is_seen : deDuplicator l' ⊆ deDuplicator l;
  is_original : lp_original l' = None;
}.

Lemma apply_or_rollback_Err ix bz h s e s' :
  coherent s → events s = [] → apply_or_rollback ix bz h s = (Ok (Err e), s') → e ≠ ErrPanic → s' = reset_caches s.
Proof.
  intros C Hev. unfold apply_or_rollback.
  rewrite (bind_run_Ok _ _ _ (store s) s) by done. rewrite (bind_run_Ok _ _ _ (slashTracker s) s) by done.
  rewrite (bind_run_Ok _ _ _ _ _ (try_run _ _)). pose proof (ApplyTransaction_keeps ix bz h (Some NoOpBatchVerifier) s) as Hk.
  destruct (ApplyTransaction _ _ _ _ s) as [[x|e0] s2]; cbn [fst snd] in *; [done|]. intros Hrun Hne.
  assert (Hs' : s' = set_store (store s) (set_slashTracker (slashTracker s) (set_events [] (reset_caches s2))))
    by (destruct e0; injection Hrun as <- <-; done). subst s'.
  unfold fixed in Hk. injection Hk as K1 K2 K3. destruct s, s2. unfold reset_caches. cbn in *. by subst.
Qed.
Lemma apply_or_rollback_Ok ix bz h s res evs s' :
  apply_or_rollback ix bz h s = (Ok (Ok (res, evs)), s') ↔ ApplyTransaction ix bz h (Some NoOpBatchVerifier) s = (Ok (res, evs), s').
Proof.
  unfold apply_or_rollback. rewrite (bind_run_Ok _ _ _ (store s) s) by done. rewrite (bind_run_Ok _ _ _ (slashTracker s) s) by done.
  rewrite (bind_run_Ok _ _ _ _ _ (try_run _ _)).
  destruct (ApplyTransaction _ _ _ _ s) as [[x|e0] s2]; cbn [fst snd]; split; intros Hrun; try done; [by injection Hrun as -> ->..|by destruct e0].
Qed.
Lemma ApplyTransaction_no_events ix bz h bv s x s' : ApplyTransaction ix bz h bv s = (Ok x, s') → events s' = [].
Proof.
  unfold ApplyTransaction. intros Hrun. do 3 apply bind_Ok in Hrun as (? & ? & _ & Hrun). apply bind_Ok in Hrun as (? & ? & _ & Hrun).
  unfold reset_events in Hrun. apply bind_Ok in Hrun as (? & ? & [= _ <-] & [= _ <-]). done.
Qed.
Lemma eqv_reset s t : eqv s t → eqv (reset_caches s) t.
Proof. intros [[C1 C2 C3 C4 C5 C6] R E D]. split; [split|done| |]; done. Qed.

Lemma same_block_failed r r' f : same_block r r' → same_block (AddFailed r f) r'.
Proof. intros []. by split. Qed.
Lemma same_block_added r r' tx txr res evs :
  same_block r r' → same_block (add_result r tx txr res evs false) (add_result r' tx txr res evs false).
Proof. intros [E1 E2 E3 E4 E5 E6 E7 E8 E9]. split; cbn; congruence. Qed.
(** The oversize transactions that succeed are never forgotten. *)
Lemma apply_one_oversized c ov mx f bz l s l' e s' :
  apply_one c ov mx f bz l s = (Ok (l', e), s') → Oversized (lp_results l') = [] → Oversized (lp_results l) = [].
Proof.
  unfold apply_one. destruct c; [by intros [= <- _ _]|]. destruct f; [by intros [= <- _ _]|].
  destruct (Found _ _) as [found dd]. destruct found; [by intros [= <- _ _]|]. set (x := (mx <? _) && _). cbv zeta.
  destruct (x && negb ov); [by intros [= <- _ _]|]. intros Hrun. apply bind_Ok in Hrun as (cur & s1 & _ & Hrun).
  apply bind_Ok in Hrun as (ap & s2 & _ & Hrun). destruct ap as [[res evs]|e0].
  - destruct (MarshalResult res); injection Hrun as <- _ _; [|done]. cbn [lp_results]. unfold add_result.
    case_match; cbn; [intros [? _]%app_eq_nil|]; done.
  - destruct e0; by injection Hrun as <- _ _.
Qed.
Lemma apply_each_oversized ctx ov mx failed txs : ∀ i l s l' e s',
  apply_each ctx ov mx failed i txs l s = (Ok (l', e), s') → Oversized (lp_results l') = [] → Oversized (lp_results l) = [].
Proof.
  induction txs as [|bz txs IH]; intros i l s l' e s' Hrun Hov; [by injection Hrun as <- _ _|].
  cbn [apply_each] in Hrun. apply bind_Ok in Hrun as ([l1 e1] & s1 & H1' & Hrun). eapply apply_one_oversized; [exact H1'|].
  destruct e1; [by injection Hrun as <- _ _|by eapply IH].
Qed.

(** One iteration: the proposer skips a transaction, or both apply it. *)
Lemma apply_one_applies bz mx l l' s t res evs txr s2 x :
  decodes_numbers → in_step l l' s t → tx_hash_string bz ∉ deDuplicator l → lp_original l = None →
  x = (mx <? u64_add (len bz) (abr_BlockSize (lp_results l))) && negb (is_oversize l) → x = false →
  ApplyTransaction (Count (lp_results l)) bz (tx_hash_string bz) (Some NoOpBatchVerifier) s = (Ok (res, evs), s2) →
  MarshalResult res = Ok txr →
  ∃ l1' t1, apply_one false false mx None bz l' t = (Ok (l1', None), t1) ∧
    in_step (MkLoop ({[tx_hash_string bz]} ∪ deDuplicator l) (add_result (lp_results l) bz txr res evs false) None) l1' s2 t1.
Proof.
  intros Hd [E Hev Hst Hres Hseen Hor] Hnin Hlo -> Hx HA Hm.
  destruct (ApplyTransaction_sim false (Count (lp_results l)) bz (tx_hash_string bz) (Some NoOpBatchVerifier) Hd s t E) as [Hf Hs].
  rewrite HA in Hf, Hs. cbn [fst snd is_ok orb] in Hf, Hs. specialize (Hs eq_refl).
  destruct (ApplyTransaction _ _ _ _ t) as [r2 t2] eqn:HA2. cbn [fst snd] in *. subst r2.
  unfold apply_one, Found. rewrite decide_False by set_solver. cbv beta iota zeta.
  assert (Hx' : (mx <? u64_add (len bz) (abr_BlockSize (lp_results l'))) && negb (is_oversize l') = false).
  { rewrite (sb_BlockSize _ _ Hres). unfold is_oversize in Hx |- *. rewrite Hlo in Hx. by rewrite Hor. }
  rewrite Hx'. cbn [andb]. rewrite (bind_run_Ok _ _ _ (store t) t) by done. rewrite (sb_Count _ _ Hres).
  apply apply_or_rollback_Ok in HA2. rewrite (bind_run_Ok _ _ _ _ _ HA2), Hm, Hor. do 2 eexists. split; [done|].
  split; cbn [deDuplicator lp_results lp_original]; try done.
  - by eapply ApplyTransaction_no_events.
  - by apply same_block_added.
  - set_solver.
Qed.
Lemma apply_one_replays c ov mx f bz l s l1 s1 l' t :
  decodes_numbers → in_step l l' s t → apply_one c ov mx f bz l s = (Ok (l1, None), s1) → Oversized (lp_results l1) = [] →
  Txs (lp_results l1) = Txs (lp_results l) ∧ in_step l1 l' s1 t ∨
  f = None ∧ Txs (lp_results l1) = Txs (lp_results l) ++ [bz] ∧
    ∃ l1' t1, apply_one false false mx None bz l' t = (Ok (l1', None), t1) ∧ in_step l1 l1' s1 t1.
Proof.
  intros Hd Hstep Hrun Hov. pose proof Hstep as [E Hev Hst Hres Hseen Hor]. unfold apply_one in Hrun. destruct c; [done|]. destruct f as [e|].
  { injection Hrun as <- <-. left. split; [done|]. split; try done. by apply same_block_failed. }
  unfold Found in Hrun. destruct (decide _) as [Hin|Hnin] in Hrun; [done|]. cbv beta iota zeta in Hrun.
  remember ((mx <? _) && _) as x eqn:Hx in Hrun. destruct (x && negb ov) eqn:Hxo; [done|].
  rewrite (bind_run_Ok _ _ _ (store s) s) in Hrun by done. apply bind_Ok in Hrun as (ap & s2 & Hap & Hrun).
  cbn [lp_original is_oversize] in Hrun. destruct ap as [[res evs]|e].
  - apply apply_or_rollback_Ok in Hap as HA. destruct (MarshalResult res) as [txr|em] eqn:Hm; [|done].
    injection Hrun as <- <-. right. split; [done|]. cbn [lp_results] in Hov |- *.
    destruct (if x then Some (store s) else lp_original l) as [st|] eqn:Hlo.
    { cbn [add_result Oversized] in Hov. by apply app_eq_nil in Hov as [_ ?]. }
    split; [done|]. destruct x; [done|]. by eapply apply_one_applies.
  - assert (Hne : e ≠ ErrPanic) by (intros ->; done).
    assert (Hl1 : l1 = MkLoop ({[tx_hash_string bz]} ∪ deDuplicator l) (AddFailed (lp_results l) (bz, e)) (if x then Some (store s) else lp_original l) ∧ s1 = s2)
      by (destruct e; first [done | by injection Hrun as <- <-]).
    destruct Hl1 as [-> ->]. clear Hrun. left. split; [done|].
    rewrite (apply_or_rollback_Err _ _ _ _ _ _ (eq_left _ _ _ E) Hev Hap Hne).
    split; cbn [deDuplicator lp_results lp_original]; try done.
    + by apply eqv_reset.
    + intros st Heq. destruct x; [by injection Heq as <-|by apply Hst].
    + by apply same_block_failed.
    + set_solver.
Qed.
Lemma apply_each_replays ctx ov mx failed txs : ∀ i l s l1 s1 l' t,
  decodes_numbers → in_step l l' s t → apply_each ctx ov mx failed i txs l s = (Ok (l1, None), s1) → Oversized (lp_results l1) = [] →
  ∃ included, Txs (lp_results l1) = Txs (lp_results l) ++ included ∧
    (∀ bz, bz ∈ included → ∃ k, txs !! k = Some bz ∧ failed !! (i + k)%nat = None) ∧
    ∀ j, ∃ l1' t1, apply_each (λ _, false) false mx ∅ j included l' t = (Ok (l1', None), t1) ∧ in_step l1 l1' s1 t1.
Proof.
  induction txs as [|bz txs IH]; intros i l s l1 s1 l' t Hd Hstep Hrun Hov.
  { injection Hrun as <- <-. exists []. rewrite app_nil_r. split_and!; [done|intros bz Hb; by inv Hb|]. intros j. by exists l', t. }
  cbn [apply_each] in Hrun. apply bind_Ok in Hrun as ([l2 e2] & s2 & Hone & Hrun). destruct e2 as [e2|]; [done|].
  assert (Hov2 : Oversized (lp_results l2) = []) by (by eapply apply_each_oversized).
  assert (Hlater : ∀ bz' (inc : list bytes), (∀ bz0, bz0 ∈ inc → ∃ k, txs !! k = Some bz0 ∧ failed !! (S i + k)%nat = None) → bz' ∈ inc →
    ∃ k, (bz :: txs) !! k = Some bz' ∧ failed !! (i + k)%nat = None).
  { intros bz' inc Hinc Hb. destruct (Hinc bz' Hb) as (k & Hk & Hf). exists (S k). by rewrite Nat.add_succ_r. }
  destruct (apply_one_replays _ _ _ _ _ _ _ _ _ _ _ Hd Hstep Hone Hov2) as [[Htx Hst2]|(Hf & Htx & l2' & t2 & Hone' & Hst2)].
  - destruct (IH _ _ _ _ _ _ _ Hd Hst2 Hrun Hov) as (inc & E & Hinc & Hrep). exists inc. rewrite E, Htx. split_and!; [done|eauto|done].
  - destruct (IH _ _ _ _ _ _ _ Hd Hst2 Hrun Hov) as (inc & E & Hinc & Hrep). exists (bz :: inc). rewrite E, Htx, <- app_assoc. split_and!; [done| |].
    + intros bz' [->|Hb]%elem_of_cons; [exists 0%nat; by rewrite Nat.add_0_r|by eapply Hlater].
    + intros j. destruct (Hrep (S j)) as (l1' & t1 & Hrun' & Hst'). exists l1', t1. split; [|done]. cbn [apply_each].
      rewrite lookup_empty. by rewrite (bind_run_Ok _ _ _ _ _ Hone').
Qed.

(** The second run on the included transactions. *)
Lemma ApplyTransactions_replays ctx txs ov evs s r s1 t :
  decodes_numbers → cache_valid → eqv s t → events s = [] →
  ApplyTransactions ctx txs (AddEvent empty_results evs) ov s = (Ok r, s1) → Oversized r = [] →
  ∃ r' t1, ApplyTransactions (λ _, false) (Txs r) (AddEvent empty_results evs) false t = (Ok r', t1) ∧
    same_block r r' ∧ eqv s1 t1 ∧ events s1 = [].
Proof.
  intros Hd Hcv E Hev Hrun Hov. unfold ApplyTransactions in Hrun. apply bind_Ok in Hrun as (mx & s0 & Hmx & Hrun).
  assert (Hmx' : ∀ x y, eqv x y → ∀ m z, GetMaxBlockSize x = (Ok m, z) → z = x ∧ GetMaxBlockSize y = (Ok m, y)).
  { intros x y Exy m z. unfold GetMaxBlockSize, GetParamsCons, getParams. destruct (reset_inj _ _ (eq_rest _ _ _ Exy)) as (Est & _).
    runs. rewrite Est. destruct (params_cons (store y)) as [c|]; cbv beta iota; [|done]. by destruct (_ <? _); intros [= <- <-]. }
  destruct (Hmx' s t E _ _ Hmx) as [-> Hmxt].
  apply bind_Ok in Hrun as (failed & s2 & Hchk & Hrun). apply bind_Ok in Hrun as ([l e] & s3 & Hap & Hrun). unfold modify in Hrun.
  destruct (check_all_txs_passes _ _ _ _ Hcv (eq_left _ _ _ E) Hchk) as (E2 & Ev2 & Hpass).
  rewrite (bind_run_Ok _ _ _ () (match lp_original l with Some st => set_store st s3 | None => s3 end)) in Hrun by done.
  destruct e as [e|]; [done|]. injection Hrun as <- <-. set (l0 := MkLoop ∅ (AddEvent empty_results evs) None) in *.
  assert (Hl0 : ∀ u, eqv s2 u → in_step l0 l0 s2 u) by (intros u Eu; split; [done|congruence|done|done|done|done]).
  destruct (apply_each_replays _ _ _ _ _ _ _ _ _ _ _ _ Hd (Hl0 s E2) Hap Hov) as (inc & Htx & Hinc & _). cbn [l0 lp_results Txs AddEvent empty_results app] in Htx.
  assert (Hp : Forall (passes s) inc).
  { apply Forall_forall. intros bz Hb. destruct (Hinc bz Hb) as (k & Hk & Hf). by eapply Hpass. }
  destruct (check_all_txs_replays s inc t Hcv E Hp) as (t2 & Hchk' & E2' & Ev2').
  destruct (apply_each_replays _ _ _ _ _ _ _ _ _ _ _ t2 Hd (Hl0 t2 (eqv_trans _ _ _ E2 E2')) Hap Hov) as (inc' & Htx' & _ & Hrep).
  cbn [l0 lp_results Txs AddEvent empty_results app] in Htx'.
  assert (inc' = inc) as -> by congruence. destruct (Hrep 0%nat) as (l' & t1 & Hap' & [Es Hes Hst Hres _ Hor]).
  exists (lp_results l'), t1. rewrite Htx.
  assert (Hend : match lp_original l with Some st => set_store st s3 | None => s3 end = s3)
    by (destruct (lp_original l) as [st|]; [rewrite (Hst st eq_refl); by destruct s3|done]).
  rewrite Hend. split_and!; try done.
  unfold ApplyTransactions, modify. rewrite (bind_run_Ok _ _ _ _ _ Hmxt), (bind_run_Ok _ _ _ _ _ Hchk'), (bind_run_Ok _ _ _ _ _ Hap').
  rewrite Hor. by rewrite (bind_run_Ok _ _ _ () t1) by done.
Qed.

(** ** The block *)

Context `{BlockCodec, ChainData}.

Lemma new_header_fields bh bh' r r' :
  bh_Time bh' = bh_Time bh → bh_Vdf bh' = bh_Vdf bh → ProposerAddress bh' = ProposerAddress bh →
  LastQuorumCertificate bh' = LastQuorumCertificate bh → Count r' = Count r → ResultsBz r' = ResultsBz r →
  new_header bh' r' = new_header bh r.
Proof. intros E1 E2 E3 E4 E5 E6. unfold new_header, TransactionRoot. by rewrite E1, E2, E3, E4, E5, E6. Qed.
Lemma new_header_copies bh r s hd s' :
  new_header bh r s = (Ok hd, s') →
  bh_Time hd = bh_Time bh ∧ bh_Vdf hd = bh_Vdf bh ∧ ProposerAddress hd = ProposerAddress bh ∧
  LastQuorumCertificate hd = LastQuorumCertificate bh.
Proof.
  unfold new_header. intros Hrun. do 9 apply bind_Ok in Hrun as (? & ? & _ & Hrun). injection Hrun as Hset _.
  unfold SetHash in Hset. apply result_bind_Ok in Hset as (bz & _ & [= <-]). done.
Qed.

(** What the proposer's application leaves of a failed or skipped transaction. *)
Definition without_failed (r : ApplyBlockResults) : ApplyBlockResults :=
  MkResults (Txs r) (abr_Results r) (ResultsBz r) (abr_Events r) (Count r) (abr_BlockSize r) (LargestTx r) (Oversized r) [].
Lemma same_block_without r r' evs : same_block r r' → Oversized r = [] → AddEvent r' evs = without_failed (AddEvent r evs).
Proof.
  intros [E1 E2 E3 E4 E5 E6 E7 E8 E9] Hov. destruct r, r'. unfold without_failed, AddEvent in *. cbn in *. by subst.
Qed.
Lemma ApplyBlock_replays ctx b ov s b' hd r s1 t :
  decodes_numbers → cache_valid → Caches.eqv true s t → events s = [] →
  ApplyBlock ctx b ov s = (Ok (b', hd, r), s1) → Oversized r = [] →
  ∃ t1, ApplyBlock (λ _, false) (MkBlock (Some hd) (Transactions b')) false t =
    (Ok (MkBlock (Some hd) (Transactions b'), hd, without_failed r), t1) ∧ reset_caches s1 = reset_caches t1.
Proof.
  intros Hd Hcv E Hev Hrun Hov. unfold ApplyBlock in Hrun. apply bind_Ok in Hrun as (evs & s2 & Hb & Hrun).
  destruct (sim_BeginBlock true eq_refl s t E) as [Hbf Hbe]. rewrite Hb in Hbf, Hbe. cbn [fst snd is_ok orb] in Hbf, Hbe.
  destruct (BeginBlock t) as [rb t2] eqn:Hbt. cbn [fst snd] in Hbf, Hbe. subst rb.
  assert (E2 : eqv s2 t2) by (destruct (Hbe eq_refl) as [L R Er _]; by split).
  apply bind_Ok in Hrun as (r0 & s3 & Htx & Hrun). destruct (blk_Header b) as [bh|]; [|done].
  apply bind_Ok in Hrun as (evs' & s4 & He & Hrun). cbv zeta in Hrun. apply bind_Ok in Hrun as (hd' & s5 & Hh & [= <- <- <- <-]).
  assert (Hev2 : events s2 = []).
  { unfold BeginBlock, Height in Hb. rewrite (bind_run_Ok _ _ _ (height s) s) in Hb by done. destruct (height s <=? 1); [by injection Hb as _ <-|].
    do 5 apply bind_Ok in Hb as (? & ? & _ & Hb). apply bind_Ok in Hb as (? & ? & _ & Hb). by injection Hb as _ <-. }
  destruct (ApplyTransactions_replays _ _ _ _ _ _ _ _ Hd Hcv E2 Hev2 Htx Hov) as (r' & t3 & Htx' & Hsame & E3 & _).
  destruct (sim_EndBlock false false (ProposerAddress bh) s3 t3 E3) as [Hef Hee]. rewrite He in Hef, Hee. cbn [fst snd is_ok orb] in Hef, Hee.
  destruct (EndBlock (ProposerAddress bh) t3) as [re t4] eqn:Het. cbn [fst snd] in Hef, Hee. subst re. specialize (Hee eq_refl).
  destruct (sim_new_header false true bh (AddEvent r0 evs') s4 t4 Hee) as [Hhf Hhe]. rewrite Hh in Hhf, Hhe. cbn [fst snd is_ok orb] in Hhf, Hhe.
  destruct (new_header bh (AddEvent r0 evs') t4) as [rh t5] eqn:Hht. cbn [fst snd] in Hhf, Hhe. subst rh. specialize (Hhe eq_refl).
  destruct (new_header_copies _ _ _ _ _ Hh) as (C1 & C2 & C3 & C4).
  exists t5. split; [|apply (eq_rest _ _ _ Hhe)]. unfold ApplyBlock. cbn [Transactions blk_Header].
  rewrite (bind_run_Ok _ _ _ _ _ Hbt), (bind_run_Ok _ _ _ _ _ Htx'). cbv beta iota zeta. rewrite C3, (bind_run_Ok _ _ _ _ _ Het).
  rewrite (new_header_fields bh hd' (AddEvent r0 evs')) by (try done; by destruct Hsame).
  rewrite (bind_run_Ok _ _ _ _ _ Hht). rewrite (sb_Txs _ _ Hsame), (same_block_without _ _ _ Hsame Hov). done.
Qed.
End replay.

(** ** Theorem: replicas accept what proposers build *)

Section validates.
Context `{Crypto, Multisig, Codec, History, VoteConfig, TxCodec, AnyCodec, Node, SigScheme, MsgCodec, EthLib, TxIndexer, ResultCodec,
  BlockCodec, ChainData, !SigSchemeLaws}.

Lemma SetHash_again hd0 hd : SetHash hd0 = Ok hd → SetHash hd = Ok hd.
Proof.
  unfold SetHash. intros Hs. apply result_bind_Ok in Hs as (bz & Hbz & [= <-]). rewrite set_bh_Hash_twice, Hbz. done.
Qed.

End validates.

(** ** Witness *)

#[local] Existing Instances block_crypto toy_multisig toy_codec toy_history toy_votes toy_txs toy_any toy_node toy_sigs toy_sigs_laws
  toy_msgs toy_eth toy_index toy_results toy_chain toy_header_codec.
Definition start : FSM := set_height 1 (demo_chain 100).
Lemma toy_decodes : decodes_numbers.
Proof.
  split.
  - intros bz tx. cbn. repeat case_match; intros [= <-]. cbn. lia.
  - intros a msg. cbn. case_match; intros [= <-]. cbn. unfold u64, two64, byte_to_Z. pose proof (Byte.to_N_bounded b). lia.
Qed.
Lemma start_coherent : coherent start.
Proof.
  assert (Hacc : map_Forall (λ _ acc, acc_Amount acc ≠ 0 ∧ regular acc) (accounts (store start))).
  { assert (accounts (store start) = {[ carol := account carol 20; dave := account dave 1480 ]}) as -> by reflexivity.
    apply map_Forall_insert_2; [|apply map_Forall_singleton]; (split; [done|split; [split; cbn; u64|split; cbn; u64|by cbn]]). }
  split; [exact Hacc|intros a acc Ha|..]; done.
Qed.
